(* ===== verification/_CoqProject ===== *)
-Q . S2P
Prelude.v
Machine.v
Csr.v
Uart.v
KPrint.v
Spinlock.v
SpinlockConc.v
Printf.v
Mem.v
Vm.v
PageTable.v
KernelMap.v
UserMem.v
UserSpace.v
Took.v
Exec.v
ExecProofs.v
Proc.v
Asm.v
AsmTrap.v
ProcProofs.v
SleepConc.v
SchedProofs.v
UvmCopy.v
ProcAlloc.v
UserReturn.v
ProcTable.v
Fork.v
Exit.v
Scheduler.v
Wait.v
Syscall.v
AsmBoot.v
AsmUser.v
AsmTypes.v
ExecStack.v
Kexec.v
Lifecycle.v
Vectors.v
ProcSpec.v
Trap.v
Init.v
SyscallProofs.v
SysExec.v
TrapProofs.v
TrapHandle.v
Preempt.v
Ulib.v
UserProg.v
UserProgProofs.v
