(* ===== verification/Prelude.v ===== *)
(** * A verification of the wl-00 kernel

    wl-00 is a small Unix-like kernel for 32-bit RISC-V: harts boot into
    supervisor mode, build Sv32 page tables over a bitmap page allocator, and
    run user programs that are embedded ELF images. This library is a shallow
    embedding of its C code and of its assembly (src/kernel), and of the user
    programs (src/user), with the theorems that make its parts correct. A claim is marked C<n> in the comment before its theorem.

    ** How the code is modelled

    The whole state of the machine that the C code can see is one record,
    [Machine.kstate]: byte-addressed physical memory, the page bitmap, the
    globals of the C files, the console's output, and [sync], the part that
    synchronisation works on (locks, [cpus[]], the executing hart's number, the
    CSRs of every hart). A C function that touches state is a function in the
    monad [Machine.M]: it returns a value and a new state ([Ok]), halts in
    [panic] ([Panic], with the message), waits for a lock another hart holds
    ([Spin]), switches stacks ([Swtch]), enters user mode ([User]), leaves the
    behaviour C defines ([Undef]), or exceeds the bound of a loop ([Fuel]). [wp m Q s] is total
    correctness: [m] run from [s] returns and [Q] holds; so a theorem stated
    with [wp] says that the function terminates, does not panic and does not
    block. [panics m msg s] says that it halts with that message.

    Integers are [Z]; a [uint32_t] result is reduced with [u32] and [x +w y],
    [x -w y], [x *w y] are the wrapping operations. Pointers are addresses,
    [NULL] is 0; a [struct proc *] or [struct cpu *] is an index. Loops are
    structurally recursive on the number of passes when the code fixes it (1024
    entries, 32768 pages) and otherwise on fuel; the fuel is computed from the
    arguments (one unit per page or per byte that is left) and every theorem
    shows it suffices, [Fuel] not being a return. [Csr.r_time64] and
    [Uart.uart_putc] wait for the outside world: their theorems say how much
    fuel is enough in terms of what the outside does.

    Assembly is the list of a file's lines ([Asm.instr]), run by [Asm.run] on a
    hart's registers, memory and control registers ([Asm.mach]) until it leaves
    the file; the number of lines a run takes is part of each theorem. Where C
    and assembly meet, [UserReturn.on_hart] says that a hart executes in a state
    of the kernel.

    ** Parts, files and what is shown

    - Prelude: word arithmetic, tactics ([zlia], [zbool], [zcase]), hint
      databases [word] and [kern], maps with default 0, and [few], a bound on
      how many numbers satisfy a predicate.
    - Machine: the structs of proc.h and spinlock.h, the state, the monad, byte
      memory with little-endian words.
    - Csr: csr.c and rv.c. The 64-bit clock is read consistently although the
      two halves are read separately; the timer deadline is never early while
      its two halves are being written.
    - Uart: uart.c against an NS16550A register file.
    - KPrint, Printf: kprint.c. Number printing is injective (printed digits
      parse back, INT32_MIN included), [strcmp] is the lexicographic order,
      [printf] never overruns its buffers. Printf also defines [kframe], the
      frame most functions respect.
    - Spinlock: spinlock.c as one hart runs it; states are compared up to the
      dead [intena] field with a setoid. SpinlockConc: the same code access by
      access under any interleaving of any number of harts; mutual exclusion,
      no false panic although [holding] reads two words, progress, and that
      the sequential model is a run of the concurrent one.
    - Mem: mem.c and the linker script's symbols (class [Layout], with what
      kernel.ld guarantees in [LayoutOk]). The allocator's contract is the
      class [PageAllocator]; everything above Mem uses only that.
    - Vm: vm.c and vm.h, every function. A page table is read as the map
      [PageTable.pte_at] from addresses to entries; [pt_wf] says which pages
      it owns. PageTable: [find_pte], [mappage] and [mappages] are lookup and
      insertion on that map and touch only the table's own pages. KernelMap:
      the kernel's own map is the identity on UART, text and RAM, never
      writable and executable at once. UserMem: [copyin], [copyout] and
      [copyinstr] act byte by byte through the translation and never outside
      pages with the permissions they need. UserSpace: [uvmunmap],
      [freewalk], [uvmfree] and [uvmalloc] account for every page; [scarce]
      says that few pages are available, which is the reason the theorems up to
      [fork], [kexec] and [main] give when a call fails for want of memory, so
      that with enough memory and a sound request it succeeds.
    - Exec: elf.h and the loader of exec.c ([find_program], [load_elf],
      [load_segment]); the embedded images, which the build generates, are the
      class [Initcode]. ExecProofs: any file is loaded completely or refused,
      without a panic or a leak; a header offset near 2^32 is read from
      outside the file.
    - Proc: proc.c, and [utrapret] of trap.c. ProcProofs: a new user page
      table maps the kernel out of the user's reach or is given back;
      [wakeup] wakes exactly the sleepers of a channel. SleepConc: [sleep],
      [wakeup] and the scheduler access by access under any interleaving: no
      wakeup is lost, every fair schedule lets a sleeper through, and [sleep]
      always meets the conditions under which [sched] does not panic. Its
      states are finitely many; they are listed by search and the list is
      checked to be closed under steps. SchedProofs: [sched] and [sleep] on
      both sides of the switch, on whichever hart they come back.
    - Took: what it means that a function took pages, and only those, from the
      allocator; [kept] is taking none, the shape of every "it failed and
      leaked nothing". UvmCopy: [uvmcopy] copies the image and the stack byte
      for byte into pages of the copy's own. ProcAlloc: the pages a slot
      [owns]; [releaseproc] gives back exactly those, [procalloc] sets up a
      slot or undoes all it did. Fork: [fork] makes a copy of the caller, or
      nothing happened. ProcTable: the table is sound ([procs_ok]) when every
      slot holds its own pages. Exit: [kexit] frees the address space, hands
      the children over and leaves a zombie. Scheduler: a round switches to
      the first ready process and takes it back. Wait: [wait] reaps a child,
      fails or sleeps. Lifecycle: any sequence of these calls keeps the table
      sound. ProcSpec: an abstract table of processes, each with a pid, a
      parent, an exit status and a memory, and its steps; every run of the
      kernel refines it, and a process sees nothing of what others do.
    - Syscall: [kexec] of exec.c, and syscall.c with its table. ExecStack: the
      new program's stack and its arguments. Kexec: [kexec] gives the caller
      the new program, or nothing happened. SysExec: exec as a system call, its
      path and arguments read from the caller's memory. Trap: trap.c, boot.c
      and main.c. Init: [main] takes the machine from power-on to the
      scheduler, with init as the one process, which is where the invariants
      start. SyscallProofs: what [sys_write] prints. TrapProofs: what a timer
      interrupt does, and how [boot] leaves machine mode.
    - Asm: the instructions, registers and runs, and gpr.c. AsmTrap:
      usertrap.S, usertrapret.S, kerneltrap.S and swtch.S; their offsets are
      those of the structs, and [swtch] there and back restores its caller.
      AsmBoot: boot_asm.S puts every hart on its stack or parks it. AsmUser:
      usys.S, whose numbers are those of the kernel's table, and hello.S with
      what it prints. AsmTypes: all these files are well formed, and well-formed
      code does not go astray.
    - UserReturn: [utrapret], usertrapret.S, user code and usertrap.S, the way
      to user mode and back. Vectors: the words of the trap frames that lead to
      the kernel survive every sequence of the calls of Lifecycle. TrapHandle:
      [u_trap_handle] on faults and on system calls, the latter from [ecall] to
      [sret] through C and assembly. Preempt: [yield], and the timer interrupt
      in user code and in the kernel's own, on both sides of the switch.
    - Ulib: ulib.c, the user's copies of the kernel's memory and string
      functions, which agree with them. UserProg: printf.c, init.c and echo.c
      as interaction trees over the system calls. UserProgProofs: the user's
      [printf] writes what the kernel's prints and stays in its buffer; [init]
      never exits, and what it forks never goes on as a second [init].

    ** Assumptions

    Functions run on one hart to completion; another hart is visible only
    through [Spin], and interleaving is the subject of SpinlockConc and
    SleepConc. The
    interrupt handlers do not run inside a function: the code runs them only
    where interrupts are on and they restore what they use. Memory is
    sequentially consistent, the fences of the source being what provides it.

    The assembly runs at kernel addresses, which every page table maps to
    themselves, with physical memory; user programs in assembly run on their own
    virtual memory. [sfence.vma] and [wfi] change nothing that is modelled.
    Control registers hold what is written to them. What the hardware does on a
    trap (the cause, the [pc] and the status bits) is a hypothesis of the
    theorems on traps.

    ** Not modelled

    Every C and assembly file is modelled. Outside the model are the build's
    generated initcode.h (a class), the translation of instruction fetches and
    of user code's own accesses, and the bits of control registers that hardware
    does not implement. [csr.h] and [gpr.h] otherwise hold prototypes, and the
    lines of csr.c, vm.c and proc.c that no definition covers are includes,
    comments, braces and code that is commented out. The bounds on memory that
    failures are explained with count 1025 pages for every page table, the most
    it can have, and are not tight. *)
From stdpp Require Export base gmap strings list fin_maps numbers.
From Stdlib Require Export ZArith Lia.

#[global] Open Scope Z_scope.

(** * Machine integers *)

Definition U32 : Z := 0x100000000.

(** Conversion to [uint32_t]: C's reduction modulo 2^32. *)
Definition u32 (z : Z) : Z := z mod U32.

(** Conversion to [int]: two's complement reading of the low 32 bits. *)
Definition s32 (z : Z) : Z :=
  let u := u32 z in if u <? 0x80000000 then u else u - U32.

Definition u8 (z : Z) : Z := z mod 256.
Definition u16 (z : Z) : Z := z mod 65536.
Definition U64 : Z := 0x10000000000000000.
Definition u64 (z : Z) : Z := z mod U64.

Declare Scope word_scope.
Delimit Scope word_scope with word.
Notation "x +w y" := (u32 (x + y)) (at level 50, left associativity) : word_scope.
Notation "x -w y" := (u32 (x - y)) (at level 50, left associativity) : word_scope.
Notation "x *w y" := (u32 (x * y)) (at level 40, left associativity) : word_scope.
#[global] Open Scope word_scope.

(** * Automation *)

Create HintDb word.
Create Rewrite HintDb word.
Create HintDb kern.
Create Rewrite HintDb kern.

(** Linear arithmetic with division and remainder by constants. *)
Ltac zlia := Z.div_mod_to_equations; lia.

Ltac wunfold := unfold u32, u8, u16, u64, s32, U32, U64 in *.
Ltac u32lia := wunfold; zlia.

(** Turn boolean comparisons in the context and the goal into propositions. *)
Ltac zbool :=
  repeat match goal with
  | H : (_ && _) = true |- _ => apply andb_prop in H; destruct H
  | H : (_ || _) = false |- _ => apply orb_false_elim in H; destruct H
  | H : (_ && _) = false |- _ =>
      apply andb_false_iff in H; rewrite ?Z.leb_gt, ?Z.ltb_ge, ?Z.eqb_neq in H
  | H : (_ || _) = true |- _ =>
      apply orb_true_iff in H; rewrite ?Z.leb_le, ?Z.ltb_lt, ?Z.eqb_eq in H
  | H : (_ <? _) = true |- _ => apply Z.ltb_lt in H
  | H : (_ <? _) = false |- _ => apply Z.ltb_ge in H
  | H : (_ <=? _) = true |- _ => apply Z.leb_le in H
  | H : (_ <=? _) = false |- _ => apply Z.leb_gt in H
  | H : (_ =? _) = true |- _ => apply Z.eqb_eq in H
  | H : (_ =? _) = false |- _ => apply Z.eqb_neq in H
  | H : negb _ = true |- _ => apply negb_true_iff in H
  | H : negb _ = false |- _ => apply negb_false_iff in H
  end.

(** Split on the first boolean test of the goal and reflect it. *)
Ltac zcase :=
  match goal with
  | |- context [if ?b then _ else _] =>
      let E := fresh "E" in destruct b eqn:E; zbool
  end.

(** * Word lemmas *)

Lemma u32_range z : 0 <= u32 z < U32.
Proof. unfold u32. apply Z.mod_pos_bound. reflexivity. Qed.

Lemma u32_small z : 0 <= z < U32 -> u32 z = z.
Proof. apply Z.mod_small. Qed.

Lemma u32_idem z : u32 (u32 z) = u32 z.
Proof. apply u32_small, u32_range. Qed.

Lemma u32_add_l a b : u32 (u32 a + b) = u32 (a + b).
Proof. unfold u32. apply Zplus_mod_idemp_l. Qed.

Lemma u32_add_r a b : u32 (a + u32 b) = u32 (a + b).
Proof. unfold u32. apply Zplus_mod_idemp_r. Qed.

Lemma u8_range z : 0 <= u8 z < 256.
Proof. unfold u8. apply Z.mod_pos_bound. reflexivity. Qed.

Lemma u8_small z : 0 <= z < 256 -> u8 z = z.
Proof. apply Z.mod_small. Qed.

Lemma u8_idem z : u8 (u8 z) = u8 z.
Proof. apply u8_small, u8_range. Qed.

#[export] Hint Resolve u32_range u8_range : word.
#[export] Hint Rewrite u32_idem u32_add_l u32_add_r u8_idem : word.

(** * Bit lemmas: masks and shifts as division and remainder *)

Lemma land_ones_mod x n : 0 <= n -> Z.land x (Z.ones n) = x mod 2 ^ n.
Proof. apply Z.land_ones. Qed.

Lemma land_4095 x : Z.land x 4095 = x mod 4096.
Proof. change 4095 with (Z.ones 12). rewrite land_ones_mod by lia. reflexivity. Qed.

Lemma land_1023 x : Z.land x 1023 = x mod 1024.
Proof. change 1023 with (Z.ones 10). rewrite land_ones_mod by lia. reflexivity. Qed.

Lemma land_15 x : Z.land x 15 = x mod 16.
Proof. change 15 with (Z.ones 4). rewrite land_ones_mod by lia. reflexivity. Qed.

(** Clearing the low [n] bits. *)
Lemma land_lnot_ones x n : 0 <= n ->
  Z.land x (Z.lnot (Z.ones n)) = x - x mod 2 ^ n.
Proof.
  intros Hn. rewrite <- Z.ldiff_land, Z.ldiff_ones_r by done.
  rewrite Z.shiftl_mul_pow2, Z.shiftr_div_pow2 by done.
  pose proof (Z.div_mod x (2 ^ n)). nia.
Qed.

Lemma land_lnot_4095 x : Z.land x (Z.lnot 4095) = x - x mod 4096.
Proof. change 4095 with (Z.ones 12). rewrite land_lnot_ones by lia. reflexivity. Qed.

Lemma land_lnot_15 x : Z.land x (Z.lnot 15) = x - x mod 16.
Proof. change 15 with (Z.ones 4). rewrite land_lnot_ones by lia. reflexivity. Qed.

(** A disjoint [|] is a sum. *)
Lemma lor_shifted_add a b n : 0 <= n -> 0 <= b < 2 ^ n ->
  Z.lor (a * 2 ^ n) b = a * 2 ^ n + b.
Proof.
  intros Hn Hb. rewrite <- Z.shiftl_mul_pow2 by done.
  symmetry. rewrite <- Z.add_lor_land.
  assert (Z.land (Z.shiftl a n) b = 0) as ->; [|lia].
  rewrite <- (Z.mod_small b (2 ^ n)), <- Z.land_ones by done.
  apply Z.bits_inj'. intros i Hi. rewrite !Z.land_spec, Z.bits_0.
  destruct (Z.lt_ge_cases i n).
  - by rewrite Z.shiftl_spec_low.
  - rewrite Z.ones_spec_high by lia. by rewrite !andb_false_r.
Qed.

(** * Zero-initialised finite maps

    The kernel's arrays live in [.bss], which hart 0 zeroes at boot: a cell
    that was never written reads as zero. *)

Section ZeroMap.
Context `{Countable K} {V : Type}.

Definition get0 (z : V) (m : gmap K V) (k : K) : V := default z (m !! k).

Lemma get0_insert_eq z m k v : get0 z (<[k := v]> m) k = v.
Proof. unfold get0. by rewrite lookup_insert_eq. Qed.

Lemma get0_insert_ne z m k j v : k <> j -> get0 z (<[k := v]> m) j = get0 z m j.
Proof. intros. unfold get0. by rewrite lookup_insert_ne. Qed.

Lemma get0_insert z m k j v :
  get0 z (<[k := v]> m) j = if decide (k = j) then v else get0 z m j.
Proof. case_decide; subst; [apply get0_insert_eq | by apply get0_insert_ne]. Qed.
End ZeroMap.

#[export] Hint Rewrite @get0_insert_eq : kern.
#[export] Hint Rewrite @get0_insert_ne using done : kern.

(** * Counting

    [few n D]: at most [n] numbers satisfy [D]. *)

Definition few (n : Z) (D : Z -> Prop) : Prop :=
  exists l : list Z, Z.of_nat (length l) <= n /\ forall b, D b -> b ∈ l.

Lemma few_none n D : 0 <= n -> (forall b, ~ D b) -> few n D.
Proof. intros Hn HD. exists []. split; [done |]. intros b Hb. by destruct (HD b). Qed.

Lemma few_mono n m D E : few n D -> n <= m -> (forall b, E b -> D b) -> few m E.
Proof. intros (l & Hl & HD) Hm HE. exists l. split; [lia | auto]. Qed.

Lemma few_one a : few 1 (fun b => b = a).
Proof. exists [a]. split; [done |]. intros b ->. by left. Qed.

(** Which of two lists has the number is decided, the predicates need not be. *)
Lemma few_or n m D E F : few n D -> few m E -> (forall b, F b -> ~ E b -> D b) -> few (n + m) F.
Proof.
  intros (l & Hl & HD) (k & Hk & HE) HF. exists (l ++ k). split; [rewrite length_app; lia |].
  intros b Hb. rewrite elem_of_app. destruct (decide (b ∈ k)) as [| Hn]; [by right | left].
  apply HD, HF; [done | auto].
Qed.

Lemma few_count (f : Z -> Z) lo hi n D : few n D -> (forall i j, f i = f j -> i = j) ->
  (forall i, lo <= i < hi -> D (f i)) -> 0 <= n -> hi - lo <= n.
Proof.
  intros (l & Hl & HD) Hinj Hf Hn. destruct (decide (lo <= hi)) as [Hle |]; [| lia].
  assert (Hs : f <$> seqZ lo (hi - lo) ⊆+ l).
  { apply NoDup_submseteq; [apply NoDup_fmap_2; [exact Hinj | apply NoDup_seqZ] |].
    intros x (i & -> & Hi)%list_elem_of_fmap. apply HD, Hf. apply elem_of_seqZ in Hi. lia. }
  apply submseteq_length in Hs. rewrite length_fmap, length_seqZ in Hs. lia.
Qed.

Lemma few_image (f : Z -> Z) lo hi : lo <= hi -> few (hi - lo) (fun b => exists i, lo <= i < hi /\ b = f i).
Proof.
  intros Hle. exists (f <$> seqZ lo (hi - lo)). split; [rewrite length_fmap, length_seqZ; lia |].
  intros b (i & Hi & ->). apply list_elem_of_fmap. exists i. split; [done |]. apply elem_of_seqZ. lia.
Qed.
