(* ===== verification/Machine.v ===== *)
(** The machine and the kernel's data.

    The structs and globals of the kernel's headers (proc.h, spinlock.h,
    csr.h), gathered in one state record, byte-addressed physical memory, and
    the monad in which every kernel function is written: a function takes the
    state and either returns, halts the hart in [panic], waits for a lock that
    another hart holds, switches stacks, enters user code, or leaves the
    behaviour C defines. *)
From S2P Require Import Prelude.

(** * Locks and harts *)

(** One name per spinlock of the kernel; [ProcLock i] is
    [proctable[i].lock]. *)
Inductive lockid :=
  | MemLock | PidLock | WaitLock | TicksLock | PrintLock | ProcLock (i : nat).

#[global] Instance lockid_eq_dec : EqDecision lockid.
Proof. solve_decision. Defined.

Definition lockid_code (l : lockid) : nat :=
  match l with
  | MemLock => 0 | PidLock => 1 | WaitLock => 2 | TicksLock => 3
  | PrintLock => 4 | ProcLock i => 5 + i
  end%nat.

Definition lockid_decode (n : nat) : option lockid :=
  match n with
  | 0 => Some MemLock | 1 => Some PidLock | 2 => Some WaitLock
  | 3 => Some TicksLock | 4 => Some PrintLock
  | S (S (S (S (S i)))) => Some (ProcLock i)
  end%nat.

#[global] Instance lockid_countable : Countable lockid.
Proof. refine (inj_countable lockid_code lockid_decode _). by intros []. Defined.

(** [struct spinlock]; [cpu] points into [cpus[]], so it is a hart number. *)
Record spinlock := mk_spinlock {
  lk_lock : Z;
  lk_cpu : option nat;
  lk_name : string
}.

Definition spinlock0 : spinlock := mk_spinlock 0 None "".

(** [struct context] *)
Record context := mk_context {
  c_ra : Z; c_sp : Z;
  c_s0 : Z; c_s1 : Z; c_s2 : Z; c_s3 : Z; c_s4 : Z; c_s5 : Z;
  c_s6 : Z; c_s7 : Z; c_s8 : Z; c_s9 : Z; c_s10 : Z; c_s11 : Z
}.

Definition context0 : context := mk_context 0 0 0 0 0 0 0 0 0 0 0 0 0 0.

(** [struct cpu]; [proc] points into [proctable[]]. *)
Record cpu := mk_cpu {
  cpu_id : Z;
  depth : Z;
  intena : Z;
  cpu_proc : option nat;
  cpu_context : context
}.

Definition cpu0 : cpu := mk_cpu 0 0 0 None context0.

(** [enum procstate] *)
Inductive procstate := UNUSED | NEW | READY | RUNNING | WAITING | ZOMBIE.

#[global] Instance procstate_eq_dec : EqDecision procstate.
Proof. solve_decision. Defined.

(** The wait channels the kernel uses: [NULL], a process, [&ticks]. *)
Inductive chan := ChanNull | ChanProc (i : nat) | ChanTicks.

#[global] Instance chan_eq_dec : EqDecision chan.
Proof. solve_decision. Defined.

(** [struct proc]; its lock is [ProcLock i] of [locks]. [pt], [kstack] and
    [tf] are physical addresses, 0 for [NULL]. *)
Record proc := mk_proc {
  pid : Z;
  p_state : procstate;
  p_name : list Z;
  p_pt : Z;
  kstack : Z;
  p_sz : Z;
  p_tf : Z;
  xstate : Z;
  p_chan : chan;
  p_context : context;
  parent : option nat
}.

Definition proc0 : proc :=
  mk_proc 0 UNUSED (replicate 16 0) 0 0 0 0 0 ChanNull context0 None.

(** The part of the state that synchronisation works on: the locks, [cpus[]],
    the number of the hart that is executing ([tp]) and the control and status
    registers of every hart, indexed by hart and CSR number. *)
Record sync := mk_sync {
  locks : gmap lockid spinlock;
  cpus : gmap nat cpu;
  tp : nat;
  csrs : gmap (nat * Z) Z
}.

(** * The kernel state *)

Record kstate := mk_kstate {
  mem : gmap Z Z;            (* physical memory, byte by byte *)
  mem_bitmap : gmap Z Z;     (* mem.c: 1 is available *)
  start_page : Z;            (* mem.c *)
  kptable : Z;               (* vm.c *)
  proctable : gmap nat proc; (* proc.c *)
  curr_pid : Z;              (* proc.c *)
  ticks : Z;                 (* trap.c *)
  hang : Z;                  (* kprint.c *)
  out : list Z;              (* bytes handed to the UART, oldest first *)
  sy : sync;
  tsrc : nat -> Z;           (* 64-bit time at each successive read *)
  tpos : nat                 (* reads of time/timeh so far *)
}.

Definition set_mem v s := mk_kstate v (mem_bitmap s) (start_page s) (kptable s)
  (proctable s) (curr_pid s) (ticks s) (hang s) (out s) (sy s) (tsrc s) (tpos s).
Definition set_bitmap v s := mk_kstate (mem s) v (start_page s) (kptable s)
  (proctable s) (curr_pid s) (ticks s) (hang s) (out s) (sy s) (tsrc s) (tpos s).
Definition set_start_page v s := mk_kstate (mem s) (mem_bitmap s) v (kptable s)
  (proctable s) (curr_pid s) (ticks s) (hang s) (out s) (sy s) (tsrc s) (tpos s).
Definition set_kptable v s := mk_kstate (mem s) (mem_bitmap s) (start_page s) v
  (proctable s) (curr_pid s) (ticks s) (hang s) (out s) (sy s) (tsrc s) (tpos s).
Definition set_proctable v s := mk_kstate (mem s) (mem_bitmap s) (start_page s)
  (kptable s) v (curr_pid s) (ticks s) (hang s) (out s) (sy s) (tsrc s) (tpos s).
Definition set_curr_pid v s := mk_kstate (mem s) (mem_bitmap s) (start_page s)
  (kptable s) (proctable s) v (ticks s) (hang s) (out s) (sy s) (tsrc s) (tpos s).
Definition set_ticks v s := mk_kstate (mem s) (mem_bitmap s) (start_page s)
  (kptable s) (proctable s) (curr_pid s) v (hang s) (out s) (sy s) (tsrc s) (tpos s).
Definition set_hang v s := mk_kstate (mem s) (mem_bitmap s) (start_page s)
  (kptable s) (proctable s) (curr_pid s) (ticks s) v (out s) (sy s) (tsrc s) (tpos s).
Definition set_out v s := mk_kstate (mem s) (mem_bitmap s) (start_page s)
  (kptable s) (proctable s) (curr_pid s) (ticks s) (hang s) v (sy s) (tsrc s) (tpos s).
Definition set_sy v s := mk_kstate (mem s) (mem_bitmap s) (start_page s)
  (kptable s) (proctable s) (curr_pid s) (ticks s) (hang s) (out s) v (tsrc s) (tpos s).
Definition set_tpos v s := mk_kstate (mem s) (mem_bitmap s) (start_page s)
  (kptable s) (proctable s) (curr_pid s) (ticks s) (hang s) (out s) (sy s) (tsrc s) v.

(** * The monad *)

Inductive res (A : Type) : Type :=
  | Ok (a : A) (s : kstate)
  | Panic (msg : string) (s : kstate)         (* the hart halted in panic() *)
  | Spin (l : lockid) (s : kstate)            (* waits for another hart's lock *)
  | Swtch (s : kstate) (k : kstate -> res A)  (* swtch(); [k] when it returns *)
  | User (s : kstate)                         (* sret into user code *)
  | Undef (s : kstate)                        (* no behaviour defined by C *)
  | Fuel (s : kstate).                        (* the model's loop bound hit *)
Arguments Ok {A}. Arguments Panic {A}. Arguments Spin {A}.
Arguments Swtch {A}. Arguments User {A}. Arguments Undef {A}. Arguments Fuel {A}.

Fixpoint res_bind {A B} (r : res A) (f : A -> kstate -> res B) : res B :=
  match r with
  | Ok a s => f a s
  | Panic m s => Panic m s
  | Spin l s => Spin l s
  | Swtch s k => Swtch s (fun s' => res_bind (k s') f)
  | User s => User s
  | Undef s => Undef s
  | Fuel s => Fuel s
  end.

Definition M (A : Type) : Type := kstate -> res A.
#[global] Instance M_ret : MRet M := fun A a s => Ok a s.
#[global] Instance M_bind : MBind M := fun A B f m s => res_bind (m s) f.

Definition gets {A} (f : kstate -> A) : M A := fun s => Ok (f s) s.
Definition modify (f : kstate -> kstate) : M unit := fun s => Ok tt (f s).
Definition halt {A} (msg : string) : M A := fun s => Panic msg s.
Definition spin {A} (l : lockid) : M A := fun s => Spin l s.
Definition undef {A} : M A := fun s => Undef s.
Definition nofuel {A} : M A := fun s => Fuel s.
Definition when (b : bool) (m : M unit) : M unit := if b then m else mret tt.

(** * Total correctness

    [wp m Q s]: run from [s], [m] returns (it does not panic, wait, switch or
    run out of fuel) and [Q] holds of its value and final state. *)
Definition wp {A} (m : M A) (Q : A -> kstate -> Prop) (s : kstate) : Prop :=
  match m s with Ok a s' => Q a s' | _ => False end.

(** [m] halts the hart with this message. *)
Definition panics {A} (m : M A) (msg : string) (s : kstate) : Prop :=
  match m s with Panic m' _ => m' = msg | _ => False end.

Section WP.
Context {A B : Type}.
Implicit Types (m : M A) (f : A -> M B) (s : kstate).

Lemma wp_ret (a : A) Q s : Q a s -> wp (mret a) Q s.
Proof. done. Qed.

Lemma wp_bind m f Q s : wp m (fun a s' => wp (f a) Q s') s -> wp (m ≫= f) Q s.
Proof. unfold wp, mbind, M_bind. by destruct (m s). Qed.

Lemma wp_bind_inv m f Q s : wp (m ≫= f) Q s -> wp m (fun a s' => wp (f a) Q s') s.
Proof. unfold wp, mbind, M_bind. by destruct (m s). Qed.

Lemma wp_mono m (P Q : A -> kstate -> Prop) s :
  wp m P s -> (forall a s', P a s' -> Q a s') -> wp m Q s.
Proof. unfold wp. destruct (m s); naive_solver. Qed.

Lemma wp_conj m (P Q : A -> kstate -> Prop) s :
  wp m P s -> wp m Q s -> wp m (fun a s' => P a s' /\ Q a s') s.
Proof. unfold wp. by destruct (m s). Qed.

Lemma wp_gets (g : kstate -> A) Q s : Q (g s) s -> wp (gets g) Q s.
Proof. done. Qed.

Lemma wp_modify (g : kstate -> kstate) (Q : unit -> kstate -> Prop) s :
  Q tt (g s) -> wp (modify g) Q s.
Proof. done. Qed.

Lemma wp_Ok m Q s : wp m Q s <-> exists a s', m s = Ok a s' /\ Q a s'.
Proof. unfold wp. destruct (m s); naive_solver. Qed.

Lemma bind_Ok m f s a s' : m s = Ok a s' -> (m ≫= f) s = f a s'.
Proof. unfold mbind, M_bind. by intros ->. Qed.

Lemma panics_bind_head m f msg s : panics m msg s -> panics (m ≫= f) msg s.
Proof. unfold panics, mbind, M_bind. by destruct (m s). Qed.

Lemma panics_bind m f msg s :
  wp m (fun a s' => panics (f a) msg s') s -> panics (m ≫= f) msg s.
Proof. unfold wp, panics, mbind, M_bind. by destruct (m s). Qed.
End WP.

#[export] Hint Resolve wp_ret wp_gets wp_modify : kern.

(** Symbolic execution: peel one bind and run the primitive at its head. *)
Ltac wp_prim :=
  first [ apply wp_gets | apply wp_modify | apply wp_ret ].
Ltac wp_step := apply wp_bind; try wp_prim; cbv beta.
Ltac wp_steps :=
  repeat (match goal with
          | |- wp (_ ≫= _) _ _ => apply wp_bind
          | |- wp _ _ _ => wp_prim
          end; cbv beta).

(** * Byte memory *)

(** A cell holds eight bits. *)
Definition load8 (m : gmap Z Z) (a : Z) : Z := u8 (get0 0 m a).
Definition store8 (m : gmap Z Z) (a v : Z) : gmap Z Z := <[a := u8 v]> m.

(** Little-endian half-words and words. *)
Definition load16 (m : gmap Z Z) (a : Z) : Z :=
  load8 m a + 256 * load8 m (a + 1).
Definition load32 (m : gmap Z Z) (a : Z) : Z :=
  load8 m a + 256 * load8 m (a + 1) + 65536 * load8 m (a + 2)
  + 16777216 * load8 m (a + 3).
Definition store32 (m : gmap Z Z) (a v : Z) : gmap Z Z :=
  store8 (store8 (store8 (store8 m a v) (a + 1) (v / 256))
    (a + 2) (v / 65536)) (a + 3) (v / 16777216).

Lemma load8_range m a : 0 <= load8 m a < 256.
Proof. apply u8_range. Qed.

Lemma load32_range m a : 0 <= load32 m a < U32.
Proof.
  unfold load32, U32.
  pose proof (load8_range m a). pose proof (load8_range m (a + 1)).
  pose proof (load8_range m (a + 2)). pose proof (load8_range m (a + 3)). lia.
Qed.

Lemma load8_store8_eq m a v : load8 (store8 m a v) a = u8 v.
Proof. unfold load8, store8. by rewrite get0_insert_eq, u8_idem. Qed.

Lemma load8_store8_ne m a b v : a <> b -> load8 (store8 m a v) b = load8 m b.
Proof. intros. unfold load8, store8. by rewrite get0_insert_ne. Qed.

#[export] Hint Rewrite load8_store8_eq : kern.
#[export] Hint Rewrite load8_store8_ne using lia : kern.

Lemma load8_store32_ne m a b v : b < a \/ a + 4 <= b ->
  load8 (store32 m a v) b = load8 m b.
Proof. intros. unfold store32. by autorewrite with kern. Qed.

Lemma load32_store32_eq m a v : load32 (store32 m a v) a = u32 v.
Proof.
  unfold load32, store32. autorewrite with kern. u32lia.
Qed.

Lemma load32_ext m m' a :
  (forall b, a <= b < a + 4 -> load8 m' b = load8 m b) -> load32 m' a = load32 m a.
Proof. intros H. unfold load32. by rewrite !H by lia. Qed.

Lemma load32_store32_ne m a b v : b + 4 <= a \/ a + 4 <= b ->
  load32 (store32 m a v) b = load32 m b.
Proof. intros. apply load32_ext. intros. apply load8_store32_ne. lia. Qed.

#[export] Hint Resolve load8_range load32_range : word.

(** [m'] agrees with [m] outside [P]. *)
Definition mem_unchanged (P : Z -> Prop) (m m' : gmap Z Z) : Prop :=
  forall a, ~ P a -> load8 m' a = load8 m a.

Lemma mem_unchanged_refl P m : mem_unchanged P m m.
Proof. by intros a _. Qed.

Lemma mem_unchanged_trans P m1 m2 m3 :
  mem_unchanged P m1 m2 -> mem_unchanged P m2 m3 -> mem_unchanged P m1 m3.
Proof. intros H1 H2 a Ha. by rewrite H2, H1. Qed.

Lemma mem_unchanged_mono (P Q : Z -> Prop) m m' :
  (forall a, P a -> Q a) -> mem_unchanged P m m' -> mem_unchanged Q m m'.
Proof. intros HPQ H a Ha. apply H. naive_solver. Qed.

#[export] Hint Resolve mem_unchanged_refl : kern.

(** A NUL-terminated string of memory, read for at most [n] bytes. *)
Fixpoint cstr_at (n : nat) (m : gmap Z Z) (a : Z) : list Z :=
  match n with
  | O => []
  | S n => let c := load8 m a in if c =? 0 then [] else c :: cstr_at n m (a + 1)
  end.

(** A string at [a]: [k] bytes that are not 0, and a 0, below the top of the
    address space. *)
Record str_at (m : gmap Z Z) (a k : Z) : Prop := {
  sa_range : 0 <= a /\ 0 <= k /\ a + k < U32;
  sa_bytes : forall j, 0 <= j < k -> load8 m (a + j) <> 0;
  sa_end : load8 m (a + k) = 0
}.

Lemma str_at_next m a k : str_at m a k -> 0 < k -> str_at m (a + 1) (k - 1).
Proof.
  intros [(H1 & H2 & H3) Hb He] Hk. split; [lia | |].
  - intros j Hj. rewrite <- Z.add_assoc. apply Hb. lia.
  - rewrite <- He. f_equal. lia.
Qed.

Lemma str_at_head m a k : str_at m a k -> load8 m a = 0 <-> k = 0.
Proof.
  intros [(H1 & H2 & H3) Hb He]. split; intros H.
  - destruct (decide (k = 0)); [done |]. exfalso. apply (Hb 0); [lia | by rewrite Z.add_0_r].
  - subst. by rewrite Z.add_0_r in He.
Qed.

(** The string as a list, however much fuel reads it. *)
Lemma cstr_at_cons m a k fuel : str_at m a k -> 0 < k ->
  cstr_at (S fuel) m a = load8 m a :: cstr_at fuel m (a + 1).
Proof.
  intros Hs Hk. cbn [cstr_at]. pose proof (str_at_head m a k Hs). zcase; [lia | done].
Qed.

Lemma cstr_at_nil m a fuel : load8 m a = 0 -> cstr_at fuel m a = [].
Proof. destruct fuel; cbn; [done |]. by intros ->. Qed.

Lemma cstr_at_length m fuel : forall a k, str_at m a k -> k < Z.of_nat fuel ->
  Z.of_nat (length (cstr_at fuel m a)) = k.
Proof.
  induction fuel as [|fuel IH]; intros a k Hs Hf; pose proof (sa_range _ _ _ Hs); [lia |].
  pose proof (str_at_head m a k Hs) as Hh. destruct (decide (k = 0)) as [-> | Hk].
  - rewrite cstr_at_nil by tauto. done.
  - rewrite (cstr_at_cons m a k) by (done || lia). cbn [length].
    rewrite Nat2Z.inj_succ, (IH (a + 1) (k - 1)); [lia | by apply str_at_next; [| lia] | lia].
Qed.

Lemma cstr_at_bytes m fuel : forall a, Forall (fun c => 0 < c < 256) (cstr_at fuel m a).
Proof.
  induction fuel as [|fuel IH]; intros a; cbn [cstr_at]; [constructor |].
  destruct (load8 m a =? 0) eqn:E; [constructor |]. apply Z.eqb_neq in E.
  constructor; [pose proof (load8_range m a); lia | apply IH].
Qed.

(** Equal bytes make equal strings. *)
Lemma str_at_ext m m' a k : (forall j, 0 <= j <= k -> load8 m' (a + j) = load8 m (a + j)) ->
  str_at m a k -> str_at m' a k.
Proof.
  intros He [Hr Hb Hz]. split; [done | |].
  - intros j Hj. rewrite He by lia. by apply Hb.
  - rewrite He by lia. done.
Qed.

Lemma str_at_unique m a k k' : str_at m a k -> str_at m a k' -> k = k'.
Proof.
  intros [R1 B1 E1] [R2 B2 E2]. destruct (Z.lt_trichotomy k k') as [H | [H | H]]; [| done |].
  - exfalso. apply (B2 k); [lia | done].
  - exfalso. apply (B1 k'); [lia | done].
Qed.
