(* ===== verification/Csr.v ===== *)
(** Control and status registers: csr.c, csr.h and rv.c.

    [csrr]/[csrw] are the instructions: a read or a write of the register of
    the executing hart. [time] and [timeh] are the two halves of a 64-bit
    counter that keeps running: the [n]-th read of either half sees the value
    [tsrc n] of the state. Legalisation of written values by the hardware
    (WARL fields, the aliasing of [sstatus] with [mstatus]) is outside the
    model: every register stores the 32 bits written to it. *)
From S2P Require Import Prelude Machine.

(** * Register numbers (RISC-V privileged specification) *)

Definition MVENDORID := 0xF11.
Definition MARCHID := 0xF12.
Definition MIMPID := 0xF13.
Definition MHARTID := 0xF14.
Definition MSTATUS := 0x300.
Definition MISA := 0x301.
Definition MEDELEG := 0x302.
Definition MIDELEG := 0x303.
Definition MIE := 0x304.
Definition MTVEC := 0x305.
Definition MCOUNTEREN := 0x306.
Definition MENVCFG := 0x30A.
Definition MENVCFGH := 0x31A.
Definition MSCRATCH := 0x340.
Definition MEPC := 0x341.
Definition MCAUSE := 0x342.
Definition MTVAL := 0x343.
Definition MIP := 0x344.
Definition SSTATUS := 0x100.
Definition SIE := 0x104.
Definition STVEC := 0x105.
Definition SSCRATCH := 0x140.
Definition SEPC := 0x141.
Definition SCAUSE := 0x142.
Definition STVAL := 0x143.
Definition SIP := 0x144.
Definition STIMECMP := 0x14D.
Definition STIMECMPH := 0x15D.
Definition SATP := 0x180.
Definition MCYCLE := 0xB00.
Definition MINSTRET := 0xB02.
Definition PMPCFG0 := 0x3A0.
Definition PMPADDR0 := 0x3B0.

(** csr.h: bits of the status registers. *)
Definition MSTATUS_MPP_MASK := Z.shiftl 3 11.
Definition MSTATUS_MPP_S := Z.shiftl 1 11.
Definition SSTATUS_SPP := Z.shiftl 1 8.
Definition SSTATUS_SPIE := Z.shiftl 1 5.
Definition SSTATUS_SIE := Z.shiftl 1 1.
Definition SIE_SEIE := Z.shiftl 1 9.
Definition SIE_STIE := Z.shiftl 1 5.
Definition SIE_SSIE := Z.shiftl 1 1.
Definition MENVCFGH_STCE := Z.shiftl 1 31.
Definition MCOUNTEREN_TM := Z.shiftl 1 1.

(** * The instructions *)

Definition csr_get (y : sync) (c : Z) : Z := get0 0 (csrs y) (tp y, c).
Definition csr_set (y : sync) (c v : Z) : sync :=
  mk_sync (locks y) (cpus y) (tp y) (<[(tp y, c) := u32 v]> (csrs y)).

Definition csrr (c : Z) : M Z := gets (fun s => csr_get (sy s) c).
Definition csrw (c v : Z) : M unit := modify (fun s => set_sy (csr_set (sy s) c v) s).

(** * Accessors (csr.c) *)

Definition r_mvendorid : M Z := csrr MVENDORID.
Definition r_marchid : M Z := csrr MARCHID.
Definition r_mimpid : M Z := csrr MIMPID.
Definition r_mhartid : M Z := csrr MHARTID.
Definition w_mstatus (x : Z) : M unit := csrw MSTATUS x.
Definition r_mstatus : M Z := csrr MSTATUS.
Definition w_misa (x : Z) : M unit := csrw MISA x.
Definition r_misa : M Z := csrr MISA.
Definition w_medeleg (x : Z) : M unit := csrw MEDELEG x.
Definition r_medeleg : M Z := csrr MEDELEG.
Definition w_mideleg (x : Z) : M unit := csrw MIDELEG x.
Definition r_mideleg : M Z := csrr MIDELEG.
Definition w_mie (x : Z) : M unit := csrw MIE x.
Definition r_mie : M Z := csrr MIE.
Definition w_mtvec (x : Z) : M unit := csrw MTVEC (Z.land x (Z.lnot 3)).
Definition r_mtvec : M Z := csrr MTVEC.
Definition w_menvcfg (x : Z) : M unit := csrw MENVCFG x.
Definition r_menvcfg : M Z := csrr MENVCFG.
Definition w_menvcfgh (x : Z) : M unit := csrw MENVCFGH x.
Definition r_menvcfgh : M Z := csrr MENVCFGH.
Definition w_mcounteren (x : Z) : M unit := csrw MCOUNTEREN x.
Definition r_mcounteren : M Z := csrr MCOUNTEREN.
Definition r_stimecmp : M Z := csrr STIMECMP.
Definition w_stimecmp (x : Z) : M unit := csrw STIMECMP x.
Definition r_stimecmph : M Z := csrr STIMECMPH.
Definition w_stimecmph (x : Z) : M unit := csrw STIMECMPH x.
Definition r_mscratch : M Z := csrr MSCRATCH.
Definition w_mscratch (x : Z) : M unit := csrw MSCRATCH x.
Definition r_mepc : M Z := csrr MEPC.
Definition w_mepc (x : Z) : M unit := csrw MEPC x.
Definition r_mcause : M Z := csrr MCAUSE.
Definition r_mtval : M Z := csrr MTVAL.
Definition r_mip : M Z := csrr MIP.
Definition w_sstatus (x : Z) : M unit := csrw SSTATUS x.
Definition r_sstatus : M Z := csrr SSTATUS.
Definition w_sie (x : Z) : M unit := csrw SIE x.
Definition r_sie : M Z := csrr SIE.
Definition w_stvec (x : Z) : M unit := csrw STVEC (Z.land x (Z.lnot 3)).
Definition r_stvec : M Z := csrr STVEC.
Definition r_sscratch : M Z := csrr SSCRATCH.
Definition w_sscratch (x : Z) : M unit := csrw SSCRATCH x.
Definition r_sepc : M Z := csrr SEPC.
Definition w_sepc (x : Z) : M unit := csrw SEPC x.
Definition r_scause : M Z := csrr SCAUSE.
Definition r_stval : M Z := csrr STVAL.
Definition r_sip : M Z := csrr SIP.
Definition w_sip (x : Z) : M unit := csrw SIP x.
Definition w_satp (x : Z) : M unit := csrw SATP x.
Definition r_satp : M Z := csrr SATP.
Definition r_mcycle : M Z := csrr MCYCLE.
Definition r_minstret : M Z := csrr MINSTRET.
Definition w_pmpcfg0 (x : Z) : M unit := csrw PMPCFG0 x.
Definition r_pmpcfg0 : M Z := csrr PMPCFG0.
Definition w_pmpaddr0 (x : Z) : M unit := csrw PMPADDR0 x.
Definition r_pmpaddr0 : M Z := csrr PMPADDR0.

(** [tp] holds the hart's number. *)
Definition w_tp (x : Z) : M unit :=
  modify (fun s => set_sy (mk_sync (locks (sy s)) (cpus (sy s)) (Z.to_nat (u32 x))
                             (csrs (sy s))) s).
Definition r_tp : M Z := gets (fun s => Z.of_nat (tp (sy s))).

(** Each read of either half of the running counter is one instant. *)
Definition r_time : M Z :=
  t ← gets (fun s => tsrc s (tpos s));
  modify (fun s => set_tpos (S (tpos s)) s);;
  mret (u32 t).
Definition r_timeh : M Z :=
  t ← gets (fun s => tsrc s (tpos s));
  modify (fun s => set_tpos (S (tpos s)) s);;
  mret (u32 (Z.shiftr t 32)).

(** The do/while loop, for at most [fuel] passes. *)
Fixpoint r_time64 (fuel : nat) : M Z :=
  match fuel with
  | O => nofuel
  | S fuel =>
      hi ← r_timeh;
      lo ← r_time;
      hi2 ← r_timeh;
      if negb (hi =? hi2) then r_time64 fuel
      else mret (u64 (Z.lor (Z.shiftl hi 32) lo))
  end.

(** The three writes, in order; between two of them the comparator is live. *)
Definition w_stimecmp64_writes (x : Z) : list (M unit) :=
  [w_stimecmp 0xFFFFFFFF; w_stimecmph (u32 (Z.shiftr x 32)); w_stimecmp (u32 x)].

Fixpoint in_order (ws : list (M unit)) : M unit :=
  match ws with [] => mret tt | w :: ws => w;; in_order ws end.

Definition w_stimecmp64 (x : Z) : M unit := in_order (w_stimecmp64_writes x).

(** * rv.c *)

Definition is_interrupt : M bool :=
  x ← r_sstatus; mret (negb (Z.land x SSTATUS_SIE =? 0)).
Definition interrupt_on : M unit := x ← r_sstatus; w_sstatus (Z.lor x SSTATUS_SIE).
Definition interrupt_off : M unit :=
  x ← r_sstatus; w_sstatus (Z.land x (Z.lnot SSTATUS_SIE)).

(** * Lemmas *)

Lemma csr_get_set_eq y c v : csr_get (csr_set y c v) c = u32 v.
Proof. unfold csr_get, csr_set. simpl. by rewrite get0_insert_eq. Qed.

Lemma csr_get_set_ne y c d v : c <> d -> csr_get (csr_set y c v) d = csr_get y d.
Proof. intros. unfold csr_get, csr_set. simpl. rewrite get0_insert_ne; congruence. Qed.

#[export] Hint Rewrite csr_get_set_eq : kern.
#[export] Hint Rewrite csr_get_set_ne using done : kern.

Lemma hi_lo_join t : 0 <= t < U64 ->
  u64 (Z.lor (Z.shiftl (u32 (Z.shiftr t 32)) 32) (u32 t)) = t.
Proof.
  intros Ht. rewrite Z.shiftl_mul_pow2, Z.shiftr_div_pow2 by lia.
  rewrite lor_shifted_add by (try apply u32_range; lia).
  unfold U64 in Ht. change (2 ^ 32) with 4294967296. u32lia.
Qed.

(** Reading high, low, high: if the two highs agree then the value put
    together is the time at the instant of the low read. *)
Lemma r_time64_pass n s :
  (forall i j, (i <= j)%nat -> tsrc s i <= tsrc s j) ->
  (forall i, 0 <= tsrc s i < U64) ->
  tsrc s (tpos s) / U32 = tsrc s (2 + tpos s) / U32 ->
  r_time64 (S n) s = Ok (tsrc s (1 + tpos s)) (set_tpos (3 + tpos s)%nat s).
Proof.
  intros Hmono Hrange Hhi. set (p := tpos s) in *.
  assert (Hmid : tsrc s (1 + p) / U32 = tsrc s p / U32).
  { pose proof (Hmono p (1 + p)%nat ltac:(lia)).
    pose proof (Hmono (1 + p)%nat (2 + p)%nat ltac:(lia)).
    apply Z.le_antisymm; [rewrite Hhi |]; apply Z.div_le_mono; unfold U32; lia. }
  assert (Hsh : forall t, Z.shiftr t 32 = t / U32)
    by (intros; rewrite Z.shiftr_div_pow2 by lia; reflexivity).
  cbn [r_time64]. unfold r_timeh, r_time, mbind, M_bind. cbn. fold p.
  rewrite !Hsh. change (S (S p)) with (2 + p)%nat. rewrite <- Hhi, Z.eqb_refl. cbn.
  unfold mret, M_ret. f_equal.
  rewrite <- Hmid, <- Hsh. by apply hi_lo_join.
Qed.

(** A pass whose highs differ is repeated. *)
Lemma r_time64_retry n s :
  (forall i, 0 <= tsrc s i < U64) ->
  tsrc s (tpos s) / U32 <> tsrc s (2 + tpos s) / U32 ->
  r_time64 (S n) s = r_time64 n (set_tpos (3 + tpos s)%nat s).
Proof.
  intros Hrange Hhi. set (p := tpos s) in *.
  assert (Hsh : forall t, Z.shiftr t 32 = t / U32)
    by (intros; rewrite Z.shiftr_div_pow2 by lia; reflexivity).
  cbn [r_time64]. unfold r_timeh, r_time, mbind, M_bind. cbn. fold p.
  rewrite !Hsh. change (S (S p)) with (2 + p)%nat.
  assert (forall i, u32 (tsrc s i / U32) = tsrc s i / U32) as Hs.
  { intros i. apply u32_small. specialize (Hrange i). unfold U32, U64 in *. zlia. }
  rewrite !Hs. apply Z.eqb_neq in Hhi. by rewrite Hhi.
Qed.

(** A clock that never runs backwards, fits 64 bits and advances by less than
    2^32 over six consecutive reads. *)
Record steady_clock (t : nat -> Z) : Prop := {
  sc_mono : forall i j, (i <= j)%nat -> t i <= t j;
  sc_range : forall i, 0 <= t i < U64;
  sc_slow : forall i, t (5 + i)%nat < t i + U32
}.

Lemma r_time64_reads n s :
  steady_clock (tsrc s) -> exists k, (k = 1 \/ k = 4)%nat /\
    r_time64 (2 + n) s = Ok (tsrc s (k + tpos s)) (set_tpos (2 + k + tpos s)%nat s).
Proof.
  intros [Hmono Hrange Hslow].
  destruct (decide (tsrc s (tpos s) / U32 = tsrc s (2 + tpos s) / U32)) as [He | Hne].
  { exists 1%nat. split; [by left |]. by apply r_time64_pass. }
  exists 4%nat. split; [by right |].
  change (2 + n)%nat with (S (S n)). rewrite r_time64_retry by done.
  rewrite r_time64_pass; cbn; try done.
  specialize (Hslow (tpos s)). cbn in *.
  pose proof (Hmono (tpos s) (2 + tpos s)%nat ltac:(lia)).
  pose proof (Hmono (2 + tpos s)%nat (3 + tpos s)%nat ltac:(lia)).
  pose proof (Hmono (3 + tpos s)%nat (5 + tpos s)%nat ltac:(lia)).
  cbn in *. unfold U32 in *. zlia.
Qed.

(** The 64-bit deadline the comparator sees. *)
Definition stimecmp64 (y : sync) : Z := csr_get y STIMECMPH * U32 + csr_get y STIMECMP.

(** * Properties *)

(** Termination and correctness of [r_time64]: if the counter never runs
    backwards and advances by less than 2^32 over six consecutive reads, the
    loop returns after at most two passes, and its result is exactly the
    64-bit time at the instant of one of its own low-half reads: the carry
    between the halves can never produce a value the clock did not have. *)
Theorem r_time64_consistent n s :
  steady_clock (tsrc s) -> exists k, (k = 1 \/ k = 4)%nat /\
    r_time64 (2 + n) s = Ok (tsrc s (k + tpos s)) (set_tpos (2 + k + tpos s)%nat s).
Proof. apply r_time64_reads. Qed.

Definition csr_demo : kstate :=
  mk_kstate ∅ ∅ 0 0 ∅ 1 0 0 [] (mk_sync ∅ ∅ 0%nat ∅)
    (fun i => 0xFFFFFFFF + Z.of_nat (Nat.min i 1)) 0%nat.

(** The carry falls between the first two reads: the loop retries. *)
Lemma r_time64_consistent_witness :
  exists k, (k = 1 \/ k = 4)%nat /\
    r_time64 (2 + 0) csr_demo
    = Ok (tsrc csr_demo (k + 0)) (set_tpos (2 + k + 0)%nat csr_demo).
Proof.
  apply (r_time64_consistent 0 csr_demo). split; cbn; unfold U32, U64; intros; lia.
Defined.

(** C39 (no spurious timer interrupt): at every moment during
    [w_stimecmp64 x], that is after each prefix of its writes, the deadline
    the hardware compares with is at least the smaller of the old deadline and
    the new one, so a half-written value cannot fire an interrupt that neither
    deadline asks for; and when the writes are done the deadline is [x]. *)
Theorem w_stimecmp64_no_early_deadline x s k :
  0 <= x < U64 -> 0 <= csr_get (sy s) STIMECMP < U32 ->
  wp (in_order (take k (w_stimecmp64_writes x)))
     (fun _ s' => Z.min (stimecmp64 (sy s)) x <= stimecmp64 (sy s')
                  /\ ((3 <= k)%nat -> stimecmp64 (sy s') = x)) s.
Proof.
  intros Hx Ho. assert (Hs : Z.shiftr x 32 = x / U32)
    by (rewrite Z.shiftr_div_pow2 by lia; reflexivity).
  unfold w_stimecmp64_writes, w_stimecmp, w_stimecmph, csrw, stimecmp64.
  destruct k as [|[|[|k]]]; cbn [take]; rewrite ?take_nil; cbn [in_order];
    wp_steps; cbn;
    autorewrite with kern; rewrite ?Hs; split; try lia; u32lia.
Qed.

Lemma w_stimecmp64_no_early_deadline_witness :
  wp (in_order (take 2 (w_stimecmp64_writes 0x100000005)))
     (fun _ s' => Z.min (stimecmp64 (sy csr_demo)) 0x100000005 <= stimecmp64 (sy s')
                  /\ ((3 <= 2)%nat -> stimecmp64 (sy s') = 0x100000005)) csr_demo.
Proof.
  apply (w_stimecmp64_no_early_deadline 0x100000005 csr_demo 2);
    split; vm_compute; congruence.
Defined.
