(* ===== verification/Uart.v ===== *)
(** The UART driver (uart.c, uart.h) and the device it drives.

    The driver is the sequence of register accesses it makes; a read returns
    what the device shows at that moment, which for the line status is given
    by an oracle, one value per read. [dev_write] is the NS16550A register
    file: the divisor latch shares offsets 0 and 1 with the transmit and
    interrupt-enable registers, selected by the DLAB bit of the line control.
    KPrint.v's [putchar] appends a byte to the console's output; here that is
    shown to be what [uart_putc] does, once the transmitter is idle. *)
From S2P Require Import Prelude.

(** * uart.h *)

Definition UART_RBR : Z := 0x00.
Definition UART_THR : Z := 0x00.
Definition UART_DLL : Z := 0x00.
Definition UART_IER : Z := 0x01.
Definition UART_DLM : Z := 0x01.
Definition UART_FCR : Z := 0x02.
Definition UART_LCR : Z := 0x03.
Definition UART_LSR : Z := 0x05.
Definition UART_FCR_ENABLE : Z := Z.shiftl 1 0.
Definition UART_FCR_CLEAR : Z := Z.shiftl 3 1.
Definition UART_LCR_8N1 : Z := 0x03.
Definition UART_LCR_DLAB : Z := Z.shiftl 1 7.
Definition UART_LSR_RX_READY : Z := Z.shiftl 1 0.
Definition UART_LSR_TX_IDLE : Z := Z.shiftl 1 5.
Definition UART_CLOCK_HZ : Z := 3686400.
Definition UART_BAUD : Z := 115200.

(** * The device *)

Record dev := mk_dev {
  d_ier : Z;
  d_lcr : Z;
  d_dll : Z;
  d_dlm : Z;
  d_fcr : Z;
  d_tx : list Z;      (* bytes transmitted, oldest first *)
  d_rx : list Z;      (* bytes waiting to be received *)
  d_lsr : nat -> Z;   (* the line status at each successive read *)
  d_reads : nat       (* reads of it so far *)
}.

Definition dlab (d : dev) : bool := negb (Z.land (d_lcr d) UART_LCR_DLAB =? 0).

Definition dev_write (r v : Z) (d : dev) : dev :=
  let '(mk_dev ier lcr dll dlm fcr tx rx lsr n) := d in
  if r =? UART_THR then
    if dlab d then mk_dev ier lcr v dlm fcr tx rx lsr n
    else mk_dev ier lcr dll dlm fcr (tx ++ [v]) rx lsr n
  else if r =? UART_IER then
    if dlab d then mk_dev ier lcr dll v fcr tx rx lsr n
    else mk_dev v lcr dll dlm fcr tx rx lsr n
  else if r =? UART_FCR then mk_dev ier lcr dll dlm v tx rx lsr n
  else if r =? UART_LCR then mk_dev ier v dll dlm fcr tx rx lsr n
  else d.

(** Reads of the line status and of the receive buffer. *)
Definition dev_lsr (d : dev) : Z * dev :=
  let '(mk_dev ier lcr dll dlm fcr tx rx lsr n) := d in
  (u8 (lsr n), mk_dev ier lcr dll dlm fcr tx rx lsr (S n)).
Definition dev_rbr (d : dev) : Z * dev :=
  let '(mk_dev ier lcr dll dlm fcr tx rx lsr n) := d in
  (u8 (hd 0 rx), mk_dev ier lcr dll dlm fcr tx (tl rx) lsr n).

(** * The driver (uart.c) *)

Definition uart_init (d : dev) : dev :=
  let d := dev_write UART_IER 0x00 d in
  let divisor := UART_CLOCK_HZ / (16 * UART_BAUD) in
  let d := dev_write UART_LCR UART_LCR_DLAB d in
  let d := dev_write UART_DLL (Z.land divisor 0xff) d in
  let d := dev_write UART_DLM (Z.land (Z.shiftr divisor 8) 0xff) d in
  let d := dev_write UART_LCR UART_LCR_8N1 d in
  dev_write UART_FCR (Z.lor UART_FCR_ENABLE UART_FCR_CLEAR) d.

(** The wait for at most [fuel] reads; [None]: still busy after that many. *)
Fixpoint uart_putc (fuel : nat) (c : Z) (d : dev) : option dev :=
  match fuel with
  | O => None
  | S fuel =>
      let '(st, d) := dev_lsr d in
      if Z.land st UART_LSR_TX_IDLE =? 0 then uart_putc fuel c d
      else Some (dev_write UART_THR (u8 c) d)
  end.

Definition uart_getc (d : dev) : Z * dev :=
  let '(st, d) := dev_lsr d in
  if negb (Z.land st UART_LSR_RX_READY =? 0) then dev_rbr d else (-1, d).

(** * Properties *)

Definition idle (v : Z) : bool := negb (Z.land (u8 v) UART_LSR_TX_IDLE =? 0).

Definition with_tx (d : dev) (tx : list Z) (reads : nat) : dev :=
  mk_dev (d_ier d) (d_lcr d) (d_dll d) (d_dlm d) (d_fcr d) tx (d_rx d) (d_lsr d) reads.

Lemma uart_putc_run k : forall fuel c d, (k < fuel)%nat -> dlab d = false ->
  (forall i, (i < k)%nat -> idle (d_lsr d (d_reads d + i)%nat) = false) ->
  idle (d_lsr d (d_reads d + k)%nat) = true ->
  uart_putc fuel c d = Some (with_tx d (d_tx d ++ [u8 c]) (d_reads d + k + 1)).
Proof.
  induction k as [|k IH]; intros [|fuel] c d Hf Hd Hbusy Hidle; try lia;
    cbn [uart_putc]; unfold dev_lsr; destruct d as [ier lcr dll dlm fcr tx rx lsr n];
    unfold idle in *; cbn [d_lsr d_reads d_tx] in *.
  - rewrite Nat.add_0_r in *. apply negb_true_iff in Hidle. rewrite Hidle.
    unfold dev_write. cbn [Z.eqb UART_THR]. unfold dlab in *. cbn [d_lcr] in *. rewrite Hd.
    unfold with_tx. cbn. do 2 f_equal. lia.
  - pose proof (Hbusy 0%nat ltac:(lia)) as H0. rewrite Nat.add_0_r in H0.
    apply negb_false_iff in H0. rewrite H0. rewrite IH; cbn [d_lsr d_reads d_tx]; try done; try lia.
    + unfold with_tx. cbn. do 2 f_equal. lia.
    + intros i Hi. specialize (Hbusy (S i) ltac:(lia)).
      by replace (n + S i)%nat with (S n + i)%nat in Hbusy by lia.
    + by replace (n + S k)%nat with (S n + k)%nat in Hidle by lia.
Qed.

(** The blocking transmit: with the divisor latch not selected, if the
    transmitter is first seen idle at the [k]-th poll, [uart_putc] polls until
    then and no further, and transmits exactly the byte; everything else of
    the device is as it was. While the transmitter stays busy nothing is
    transmitted. *)
Theorem uart_putc_transmits c d : dlab d = false ->
  (forall k fuel, (k < fuel)%nat ->
     (forall i, (i < k)%nat -> idle (d_lsr d (d_reads d + i)%nat) = false) ->
     idle (d_lsr d (d_reads d + k)%nat) = true ->
     uart_putc fuel c d = Some (with_tx d (d_tx d ++ [u8 c]) (d_reads d + k + 1))) /\
  (forall fuel, (forall i, (i < fuel)%nat -> idle (d_lsr d (d_reads d + i)%nat) = false) ->
     uart_putc fuel c d = None).
Proof.
  intros Hd. split; [intros; by apply uart_putc_run |].
  intros fuel. revert d Hd. induction fuel as [|fuel IH]; intros d Hd Hbusy; [done |].
  cbn [uart_putc]. unfold dev_lsr. destruct d as [ier lcr dll dlm fcr tx rx lsr n].
  cbn [d_lsr d_reads] in *. pose proof (Hbusy 0%nat ltac:(lia)) as H0.
  rewrite Nat.add_0_r in H0. unfold idle in H0. apply negb_false_iff in H0. rewrite H0.
  apply IH; [done |]. cbn [d_lsr d_reads]. intros i Hi. specialize (Hbusy (S i) ltac:(lia)).
  by replace (n + S i)%nat with (S n + i)%nat in Hbusy by lia.
Qed.

(** A device that is busy twice and then idle. *)
Definition dev_demo : dev :=
  mk_dev 0 UART_LCR_8N1 2 0 7 [72] [] (fun i => if (i <? 2)%nat then 0 else 0x20) 0.

Lemma uart_putc_transmits_witness :
  uart_putc 3 105 dev_demo = Some (with_tx dev_demo [72; 105] 3).
Proof.
  refine (proj1 (uart_putc_transmits 105 dev_demo eq_refl) 2%nat 3%nat _ _ eq_refl); [lia |].
  intros [|[|i]] Hi; [reflexivity | reflexivity | lia].
Defined.

(** (the initialised line): whatever the registers held, provided the
    divisor latch was not left selected, after [uart_init] the line is 8N1
    with the data registers selected, the divisor gives exactly [UART_BAUD],
    interrupts are off, the FIFOs are enabled, and nothing was transmitted. *)
Theorem uart_init_configures d : dlab d = false ->
  let d' := uart_init d in
  d_lcr d' = UART_LCR_8N1 /\ dlab d' = false /\ d_ier d' = 0 /\ d_fcr d' = 7
  /\ UART_CLOCK_HZ = UART_BAUD * (16 * (d_dll d' + 256 * d_dlm d'))
  /\ d_tx d' = d_tx d /\ d_reads d' = d_reads d.
Proof.
  intros Hd d'. destruct d as [ier lcr dll dlm fcr tx rx lsr n].
  assert (He : dev_write UART_IER 0 (mk_dev ier lcr dll dlm fcr tx rx lsr n)
    = mk_dev 0 lcr dll dlm fcr tx rx lsr n).
  { unfold dev_write. cbn [Z.eqb UART_IER UART_THR]. by rewrite Hd. }
  unfold d', uart_init. rewrite He. split_and!; reflexivity.
Qed.

Lemma uart_init_configures_witness :
  let d' := uart_init dev_demo in
  d_lcr d' = UART_LCR_8N1 /\ dlab d' = false /\ d_ier d' = 0 /\ d_fcr d' = 7
  /\ UART_CLOCK_HZ = UART_BAUD * (16 * (d_dll d' + 256 * d_dlm d'))
  /\ d_tx d' = d_tx dev_demo /\ d_reads d' = d_reads dev_demo.
Proof. refine (uart_init_configures dev_demo eq_refl). Defined.
