(* ===== verification/KPrint.v ===== *)
(** Console output and strings: the parts of kprint.c that need no lock.

    A C string is the list of its bytes up to the terminating NUL: [*p] is the
    head of the list (the NUL when the list is empty) and [p++] its tail. The
    console is the sequence of bytes handed to the UART. [printf] itself takes
    [print_lock] and is in Printf.v; here are the formatting loop it runs,
    the number printers and [panic], which prints without the lock. *)
From stdpp Require Import lexico.
From S2P Require Import Prelude Machine Csr.

(** * Strings *)

(** The bytes of a string literal. *)
Definition bytes (s : string) : list Z :=
  map (fun c => Z.of_N (Ascii.N_of_ascii c)) (String.list_ascii_of_string s).

Definition nl : string := String (Ascii.ascii_of_nat 10) EmptyString.

Definition deref (p : list Z) : Z := hd 0 p.

Fixpoint strlen_loop (str : list Z) (count : Z) : Z :=
  match str with
  | [] => count
  | c :: str' => if c =? 0 then count else strlen_loop str' (count +w 1)
  end.

Definition strlen (str : list Z) : Z := strlen_loop str 0.

Fixpoint strcmp (a b : list Z) : Z :=
  match a with
  | [] => u8 0 - u8 (deref b)
  | c :: a' =>
      if negb (c =? 0) && (c =? deref b) then strcmp a' (tail b)
      else u8 c - u8 (deref b)
  end.

(** * Output *)

(** kprint.c's [putchar] is uart.c's [uart_putc]: the byte reaches the
    transmitter once it is idle (see Uart.v for the wait). *)
Definition putchar (c : Z) : M unit := modify (fun s => set_out (out s ++ [u8 c]) s).

Fixpoint print_string (str : list Z) : M unit :=
  match str with
  | [] => mret tt
  | c :: str' => if c =? 0 then mret tt else putchar c;; print_string str'
  end.

Definition digits : list Z := bytes "0123456789abcdef".

(** [for (int i = 28; i >= 0; i -= 4)] *)
Fixpoint print_addr_loop (k : nat) (addr i : Z) : M unit :=
  match k with
  | O => mret tt
  | S k =>
      match digits !! Z.to_nat (Z.land (Z.shiftr addr i) 0xF) with
      | None => undef
      | Some c => putchar c;; print_addr_loop k addr (i - 4)
      end
  end.

Definition print_addr (addr : Z) : M unit :=
  print_string (bytes "0x");; print_addr_loop 8 addr 28.

(** The digit loops of [print_uint] and [printint]: [nums[i++] = ...] into a
    buffer of [cap] bytes; [None] is a write past its end. *)
Fixpoint digit_loop (fuel cap : nat) (num base : Z) (nums : list Z) : option (list Z) :=
  match fuel with
  | O => None
  | S fuel =>
      match digits !! Z.to_nat (num mod base) with
      | None => None
      | Some c =>
          if (cap <=? length nums)%nat then None
          else
            let nums := nums ++ [c] in
            let num := num / base in
            if negb (num =? 0) then digit_loop fuel cap num base nums else Some nums
      end
  end.

(** [while (i > 0) putchar(nums[--i])] *)
Fixpoint put_all (cs : list Z) : M unit :=
  match cs with [] => mret tt | c :: cs => putchar c;; put_all cs end.

Definition print_uint (num base : Z) : M unit :=
  if base =? 0 then undef else
  match digit_loop 33 32 num base [] with
  | None => undef
  | Some nums => put_all (rev nums)
  end.

(** [error] is a parameter here because it is defined through [printf], which
    calls [printint]: only an invalid base reaches it. *)
Definition printint (error : string -> M unit) (num base : Z) : M unit :=
  if negb ((base =? 2) || (base =? 8) || (base =? 10) || (base =? 16)) then
    error "printint: invalid base"
  else
    let negative := num <? 0 in
    let n := if negative then u32 (- u32 num) else u32 num in
    match digit_loop 33 34 n base [] with
    | None => undef
    | Some nums =>
        if negative then
          if (34 <=? length nums)%nat then undef
          else put_all (rev (nums ++ [45]))
        else put_all (rev nums)
    end.

(** The arguments of a call of [printf]. *)
Inductive arg := AInt (n : Z) | AStr (str : list Z).

(** The loop of [printf]. A missing or ill-typed argument has no defined
    behaviour. *)
Fixpoint vprintf (fmt : list Z) (args : list arg) : M unit :=
  match fmt with
  | [] => mret tt
  | c :: fmt1 =>
      if c =? 0 then mret tt
      else if c =? 37 then
        match fmt1 with
        | [] => print_string (bytes ("printf: format specifier followed by null" +:+ nl))
        | d :: fmt2 =>
            if d =? 0 then
              print_string (bytes ("printf: format specifier followed by null" +:+ nl))
            else if d =? 100 then
              match args with
              | AInt n :: args => printint (fun _ => undef) (s32 n) 10;; vprintf fmt2 args
              | _ => undef
              end
            else if d =? 117 then
              match args with
              | AInt n :: args => print_uint (u32 n) 10;; vprintf fmt2 args
              | _ => undef
              end
            else if d =? 120 then
              match args with
              | AInt n :: args => print_uint (u32 n) 16;; vprintf fmt2 args
              | _ => undef
              end
            else if d =? 112 then
              match args with
              | AInt n :: args => print_addr (u32 n);; vprintf fmt2 args
              | _ => undef
              end
            else if d =? 115 then
              match args with
              | AStr str :: args => print_string str;; vprintf fmt2 args
              | _ => undef
              end
            else if d =? 99 then
              match args with
              | AInt n :: args => putchar (u8 n);; vprintf fmt2 args
              | _ => undef
              end
            else print_string (bytes "unknown specifier")
        end
      else putchar c;; vprintf fmt1 args
  end.

(** [panic]: interrupts off, [hang] set so that [printf] takes no lock, the
    message, and then the endless loop. *)
Definition panic {A} (str : string) : M A :=
  interrupt_off;;
  modify (set_hang 1);;
  t ← r_tp;
  vprintf (bytes ("KERNEL PANIC (cpu %d): %s" +:+ nl)) [AInt t; AStr (bytes str)];;
  halt str.

(** * Lemmas: every printer appends bytes to the console and nothing else *)

(** [m] returns after sending exactly [bs]. *)
Definition prints (m : M unit) (bs : list Z) : Prop :=
  forall s, m s = Ok tt (set_out (out s ++ bs) s).

Lemma set_out_id s : set_out (out s) s = s.
Proof. by destruct s. Qed.

Lemma prints_nil : prints (mret tt) [].
Proof. intros s. rewrite app_nil_r, set_out_id. done. Qed.

Lemma prints_bind (m1 m2 : M unit) bs1 bs2 :
  prints m1 bs1 -> prints m2 bs2 -> prints (m1;; m2) (bs1 ++ bs2).
Proof.
  intros H1 H2 s. unfold mbind, M_bind. rewrite H1. cbn. rewrite H2. cbn.
  by rewrite app_assoc.
Qed.

Lemma prints_putchar c : prints (putchar c) [u8 c].
Proof. done. Qed.

#[export] Hint Resolve prints_nil prints_putchar prints_bind : kern.

Lemma prints_cons c (m : M unit) bs :
  prints m bs -> prints (putchar c;; m) (u8 c :: bs).
Proof. intros H. apply (prints_bind _ _ [u8 c] bs); auto with kern. Qed.

Lemma prints_put_all cs : prints (put_all cs) (u8 <$> cs).
Proof. induction cs; cbn; auto using prints_cons with kern. Qed.

(** A C string: its bytes are non-zero. *)
Definition cstring (str : list Z) : Prop := Forall (fun c => 0 < c < 256) str.

Lemma u8_cstring str : cstring str -> u8 <$> str = str.
Proof. induction 1; cbn; [done |]. f_equal; [apply u8_small; lia | done]. Qed.

(** The bytes up to the first NUL. *)
Fixpoint until_nul (str : list Z) : list Z :=
  match str with [] => [] | c :: str => if c =? 0 then [] else c :: until_nul str end.

Lemma until_nul_cstring str : cstring str -> until_nul str = str.
Proof. induction 1; cbn; [done |]. zcase; [lia | congruence]. Qed.

Lemma prints_print_string str : prints (print_string str) (u8 <$> until_nul str).
Proof.
  induction str as [|c str IH]; cbn; [apply prints_nil |].
  zcase; cbn; auto using prints_cons with kern.
Qed.

(** ** Digits *)

Definition digit_val (c : Z) : Z := if c <? 58 then c - 48 else c - 87.

(** The number a most-significant-digit-first string denotes. *)
Definition parse_digits (base : Z) (cs : list Z) : Z :=
  fold_left (fun acc c => acc * base + digit_val c) cs 0.

(** What a least-significant-digit-first buffer denotes. *)
Definition le_value (base : Z) (nums : list Z) : Z :=
  fold_right (fun c acc => digit_val c + base * acc) 0 nums.

Lemma parse_digits_rev base nums : parse_digits base (rev nums) = le_value base nums.
Proof.
  unfold parse_digits, le_value. rewrite <- fold_left_rev_right, rev_involutive.
  induction nums; cbn; [done |]. lia.
Qed.

Lemma digits_lookup d : 0 <= d < 16 ->
  exists c, digits !! Z.to_nat d = Some c /\ digit_val c = d /\ 48 <= c < 103.
Proof.
  intros Hd. assert (d = 0 \/ d = 1 \/ d = 2 \/ d = 3 \/ d = 4 \/ d = 5 \/ d = 6 \/
    d = 7 \/ d = 8 \/ d = 9 \/ d = 10 \/ d = 11 \/ d = 12 \/ d = 13 \/ d = 14 \/ d = 15)
    as Hc by lia.
  destruct_or! Hc; subst; eexists; (split; [reflexivity |]); vm_compute;
    split_and!; congruence.
Qed.

(** A digit character. *)
Definition is_digit (c : Z) : Prop := 48 <= c < 103 /\ 0 <= digit_val c < 16.

Lemma digit_loop_spec base k : 2 <= base <= 16 -> forall fuel cap num nums,
  0 <= num < base ^ Z.of_nat (S k) -> (S k <= fuel)%nat ->
  (length nums + S k <= cap)%nat ->
  exists ds, digit_loop fuel cap num base nums = Some (nums ++ ds)
    /\ le_value base ds = num /\ (1 <= length ds <= S k)%nat /\ Forall is_digit ds.
Proof.
  intros Hb. induction k as [|k IH]; intros [|fuel] cap num nums Hn Hf Hc; try lia.
  all: destruct (digits_lookup (num mod base)) as (c & Hl & Hv & Hr); [zlia |].
  all: cbn [digit_loop]; rewrite Hl.
  all: assert ((cap <=? length nums)%nat = false) as -> by (apply Nat.leb_gt; lia).
  all: assert (is_digit c) by (split; [done | zlia]).
  all: destruct (negb (num / base =? 0)) eqn:E; zbool.
  - assert (num / base = 0) by (apply Z.div_small; lia). lia.
  - exists [c]. cbn. split_and!; [done | zlia | lia | lia | by apply Forall_singleton].
  - destruct (IH fuel cap (num / base) (nums ++ [c])) as (ds & -> & Hval & Hlen & Hall).
    + split; [apply Z.div_pos; lia |]. apply Z.div_lt_upper_bound; [lia |].
      rewrite <- Z.pow_succ_r by lia. rewrite <- Nat2Z.inj_succ. lia.
    + lia.
    + rewrite length_app. cbn. lia.
    + exists (c :: ds). rewrite <- app_assoc. cbn. fold (le_value base ds).
      rewrite Hval. split_and!; [done | | lia | lia | by constructor].
      rewrite Hv. pose proof (Z.div_mod num base). lia.
  - exists [c]. cbn. split_and!; [done | | lia | lia | by apply Forall_singleton].
    rewrite Hv. pose proof (Z.div_mod num base). nia.
Qed.

Lemma digits_u8 ds : Forall is_digit ds -> u8 <$> ds = ds.
Proof.
  induction 1 as [|c ds [? _]]; cbn; [done |].
  f_equal; [apply u8_small; lia | done].
Qed.

Lemma prints_digits ds : Forall is_digit ds -> prints (put_all ds) ds.
Proof. intros H. pose proof (prints_put_all ds) as Hp. by rewrite digits_u8 in Hp. Qed.

Lemma digit_loop_u32 cap num base : (32 <= cap)%nat -> 2 <= base <= 16 -> 0 <= num < U32 ->
  exists ds, digit_loop 33 cap num base [] = Some ds
    /\ le_value base ds = num /\ (1 <= length ds <= 32)%nat /\ Forall is_digit ds.
Proof.
  intros Hc Hb Hn. destruct (digit_loop_spec base 31 Hb 33 cap num []) as (ds & H); cbn; eauto; try lia.
  split; [lia |]. unfold U32 in Hn. apply Z.lt_le_trans with (2 ^ 32); [lia |].
  apply Z.pow_le_mono_l. lia.
Qed.

Lemma prints_print_uint num base : 2 <= base <= 16 -> 0 <= num < U32 ->
  exists ds, prints (print_uint num base) ds /\ parse_digits base ds = num
    /\ (1 <= length ds <= 32)%nat /\ Forall is_digit ds.
Proof.
  intros Hb Hn. destruct (digit_loop_u32 32 num base) as (ds & Hl & Hv & Hlen & Hall); try done.
  exists (rev ds). unfold print_uint. rewrite Hl.
  assert ((base =? 0) = false) as -> by lia.
  split_and!; try (rewrite length_rev; lia).
  - by apply prints_digits, Forall_rev.
  - by rewrite parse_digits_rev.
  - by apply Forall_rev.
Qed.

(** The value of a decimal or other numeral with an optional minus sign. *)
Definition parse_int (base : Z) (cs : list Z) : Z :=
  match cs with
  | c :: cs' => if c =? 45 then - parse_digits base cs' else parse_digits base cs
  | [] => 0
  end.

Lemma is_digit_not_minus c : is_digit c -> (c =? 45) = false.
Proof. intros [? _]. lia. Qed.

Lemma prints_printint error num base :
  base = 2 \/ base = 8 \/ base = 10 \/ base = 16 ->
  - 0x80000000 <= num < 0x80000000 ->
  exists cs, prints (printint error num base) cs /\ parse_int base cs = num
    /\ (1 <= length cs <= 33)%nat /\ Forall (fun c => c = 45 \/ is_digit c) cs.
Proof.
  intros Hb Hn. assert (2 <= base <= 16) as Hb' by lia. unfold printint.
  assert (negb ((base =? 2) || (base =? 8) || (base =? 10) || (base =? 16)) = false)
    as -> by lia.
  set (n := if num <? 0 then u32 (- u32 num) else u32 num).
  assert (0 <= n < U32 /\ n = Z.abs num) as [Hr Ha]
    by (unfold n; destruct (num <? 0) eqn:E; zbool; split; u32lia).
  destruct (digit_loop_u32 34 n base ltac:(lia) Hb' Hr) as (ds & -> & Hv & Hlen & Hall).
  assert (Forall (fun c => c = 45 \/ is_digit c) (rev ds)) as Hall'.
  { apply Forall_rev. revert Hall. apply Forall_impl. auto. }
  destruct (num <? 0) eqn:E; zbool.
  - assert ((34 <=? length ds)%nat = false) as -> by (apply Nat.leb_gt; lia).
    exists (45 :: rev ds). rewrite rev_app_distr. cbn.
    rewrite parse_digits_rev, length_rev. split_and!; try lia; [| by constructor; [left |]].
    apply prints_cons, prints_digits, Forall_rev, Hall.
  - exists (rev ds). rewrite length_rev. split_and!; try lia; [| | done].
    + apply prints_digits, Forall_rev, Hall.
    + assert (Forall is_digit (rev ds)) as Hd by (by apply Forall_rev).
      assert (parse_digits base (rev ds) = num) by (rewrite parse_digits_rev; lia).
      destruct (rev ds) as [|c cs] eqn:Er; [done |]. cbn [parse_int].
      inversion Hd; subst. by rewrite is_digit_not_minus.
Qed.

Lemma land_15_digit a i : 0 <= Z.land (Z.shiftr a i) 15 < 16.
Proof. rewrite land_15. apply Z.mod_pos_bound. lia. Qed.

Lemma prints_print_addr_loop k : forall addr i, 0 <= addr -> i = 4 * (Z.of_nat k - 1) ->
  exists ds, prints (print_addr_loop k addr i) ds /\ length ds = k /\ Forall is_digit ds
    /\ parse_digits 16 ds = addr mod 16 ^ Z.of_nat k.
Proof.
  assert (Hacc : forall ds acc, fold_left (fun acc c => acc * 16 + digit_val c) ds acc
    = acc * 16 ^ Z.of_nat (length ds) + parse_digits 16 ds).
  { unfold parse_digits. induction ds as [|c ds IH]; intros acc; cbn [fold_left length].
    - cbn. lia.
    - rewrite IH, (IH (0 * 16 + _)), Nat2Z.inj_succ, Z.pow_succ_r by lia. ring. }
  induction k as [|k IH]; intros addr i Ha Hi; cbn [print_addr_loop].
  { exists []. cbn. rewrite Z.mod_1_r. auto with kern. }
  destruct (digits_lookup _ (land_15_digit addr i)) as (c & -> & Hv & Hr).
  destruct (IH addr (i - 4)) as (ds & Hp & Hlen & Hall & Hval); [done | lia |].
  assert (is_digit c) by (split; [done | rewrite Hv; apply land_15_digit]).
  exists (c :: ds). split_and!; [| cbn; lia | by constructor |].
  - rewrite <- (u8_small c) at 2 by lia. by apply prints_cons.
  - unfold parse_digits. cbn [fold_left]. rewrite Hacc, Hval, Hlen, Hv, land_15.
    rewrite Z.shiftr_div_pow2 by lia.
    replace (2 ^ i) with (16 ^ Z.of_nat k)
      by (change 16 with (2 ^ 4); rewrite <- Z.pow_mul_r by lia; f_equal; lia).
    rewrite Nat2Z.inj_succ, Z.pow_succ_r, (Z.mul_comm 16) by lia.
    rewrite Z.rem_mul_r by lia. ring.
Qed.

(** ** Format strings *)

#[global] Arguments printint : simpl never.
#[global] Arguments print_uint : simpl never.
#[global] Arguments print_addr : simpl never.
#[global] Arguments print_string : simpl never.
#[global] Arguments bytes : simpl never.

(** The arguments supplied match the specifiers of the format. *)
Fixpoint fmt_ok (fmt : list Z) (args : list arg) : bool :=
  match fmt with
  | [] => true
  | c :: fmt1 =>
      if c =? 0 then true
      else if c =? 37 then
        match fmt1 with
        | [] => true
        | d :: fmt2 =>
            if (d =? 100) || (d =? 117) || (d =? 120) || (d =? 112) || (d =? 99) then
              match args with AInt _ :: args => fmt_ok fmt2 args | _ => false end
            else if d =? 115 then
              match args with AStr _ :: args => fmt_ok fmt2 args | _ => false end
            else true
        end
      else fmt_ok fmt1 args
  end.

Definition prints_some (m : M unit) : Prop := exists bs, prints m bs.

Lemma prints_some_bind (m1 m2 : M unit) :
  prints_some m1 -> prints_some m2 -> prints_some (m1;; m2).
Proof. intros [] []. eexists. eauto using prints_bind. Qed.

Lemma prints_some_string str : prints_some (print_string str).
Proof. eexists. apply prints_print_string. Qed.

Lemma prints_some_putchar c : prints_some (putchar c).
Proof. eexists. apply prints_putchar. Qed.

Lemma prints_some_uint n base : 2 <= base <= 16 -> prints_some (print_uint (u32 n) base).
Proof.
  intros Hb. destruct (prints_print_uint (u32 n) base Hb (u32_range n)) as (ds & H & _).
  by exists ds.
Qed.

Lemma prints_some_int error n : prints_some (printint error (s32 n) 10).
Proof.
  destruct (prints_printint error (s32 n) 10) as (cs & H & _); [lia | | by exists cs].
  unfold s32. pose proof (u32_range n). unfold U32 in *. zcase; lia.
Qed.

Lemma prints_some_addr n : prints_some (print_addr (u32 n)).
Proof.
  apply prints_some_bind; [apply prints_some_string |].
  destruct (prints_print_addr_loop 8 (u32 n) 28) as (ds & H & _);
    [apply u32_range | done | by exists ds].
Qed.

#[export] Hint Resolve prints_some_bind prints_some_string prints_some_putchar
  prints_some_int prints_some_addr : kern.
#[export] Hint Extern 2 (prints_some (print_uint _ _)) =>
  apply prints_some_uint; lia : kern.

Lemma vprintf_prints n : forall fmt args, (length fmt <= n)%nat ->
  fmt_ok fmt args = true -> prints_some (vprintf fmt args).
Proof.
  induction n as [|n IH]; intros [|c fmt] args Hn; cbn in *; try lia;
    try (intros _; eexists; apply prints_nil).
  zcase; [intros _; eexists; apply prints_nil |].
  zcase; [| intros; apply prints_some_bind; [auto with kern | apply IH; [lia | done]]].
  destruct fmt as [|d fmt]; cbn in *; [auto with kern |].
  destruct (decide (d = 0)) as [-> | Hd0]; [cbn; auto with kern |].
  assert ((d =? 0) = false) as -> by lia.
  destruct (Z.eqb_spec d 100), (Z.eqb_spec d 117), (Z.eqb_spec d 120),
    (Z.eqb_spec d 112), (Z.eqb_spec d 115), (Z.eqb_spec d 99); try lia; cbn;
    try (destruct args as [|[] args]; try discriminate);
    intros; lazymatch goal with
            | |- prints_some (_ ≫= _) => apply prints_some_bind; auto with kern
            | |- _ => apply prints_some_string
            end; apply IH; (lia || done).
Qed.

(** [panic] always reaches its endless loop with its message. *)
Lemma panic_panics {A} str s : panics (@panic A str) str s.
Proof.
  unfold panic. apply panics_bind. unfold interrupt_off, r_sstatus, w_sstatus, csrr, csrw.
  wp_steps. apply panics_bind. wp_prim. apply panics_bind. unfold r_tp. wp_prim.
  apply panics_bind.
  destruct (vprintf_prints (length (bytes ("KERNEL PANIC (cpu %d): %s" +:+ nl)))
    (bytes ("KERNEL PANIC (cpu %d): %s" +:+ nl))
    [AInt (Z.of_nat (tp (csr_set (sy s) SSTATUS
       (Z.land (csr_get (sy s) SSTATUS) (Z.lnot SSTATUS_SIE))))); AStr (bytes str)])
    as [bs Hbs]; [lia | reflexivity |].
  unfold wp. rewrite Hbs. done.
Qed.

(** ** String comparison *)

Lemma strcmp_spec a b : cstring a -> cstring b ->
  (strcmp a b = 0 <-> a = b) /\ (strcmp a b < 0 <-> lexico a b).
Proof.
  intros Ha. revert b. induction Ha as [|x a Hx Ha IH]; intros [|y b] Hb;
    cbn [strcmp deref hd tail]; try inversion Hb as [|?? Hy Hb']; subst;
    change (u8 0) with 0; rewrite ?u8_small by lia.
  - cbn. unfold lexico, list_lexico. naive_solver lia.
  - split; [split; [lia | done] |]. cbn. split; [done | lia].
  - cbn. assert ((x =? 0) = false) as -> by lia. cbn.
    split; [split; [lia | done] |]. split; [lia | done].
  - destruct (decide (x = y)) as [-> | Hne].
    + assert ((y =? 0) = false) as -> by lia. rewrite Z.eqb_refl. cbn.
      destruct (IH b Hb') as [H1 H2]. rewrite H1, H2. split; [naive_solver |].
      split; [by right | intros [? | [_ ?]]; [| done]].
      exfalso. cbn in *. unfold lexico, Z_lexico in *. lia.
    + assert ((x =? y) = false) as -> by lia. rewrite andb_false_r.
      split; [split; [lia | congruence] |].
      split; [left; cbn; unfold lexico, Z_lexico; lia |].
      intros [? | [? ?]]; cbn in *; unfold lexico, Z_lexico in *; [lia | done].
Qed.

Lemma strlen_loop_spec str count : cstring str -> 0 <= count ->
  count + Z.of_nat (length str) < U32 ->
  strlen_loop str count = count + Z.of_nat (length str).
Proof.
  intros H. revert count. induction H as [|c str Hc _ IH]; intros count H0 Hl; cbn in *; [lia |].
  assert ((c =? 0) = false) as -> by lia.
  rewrite u32_small by lia. rewrite IH; lia.
Qed.

(** * Properties *)

(** Printing an [int] is exact: for every 32-bit [num], the smallest one
    included, and every base [printint] accepts, it returns after sending the
    numeral whose value is [num], of at most 33 characters, so the 34-byte
    buffer is never overrun; nothing but the console changes. *)
Theorem printint_roundtrip error num base s :
  base = 2 \/ base = 8 \/ base = 10 \/ base = 16 ->
  - 0x80000000 <= num < 0x80000000 ->
  exists cs, printint error num base s = Ok tt (set_out (out s ++ cs) s)
    /\ parse_int base cs = num /\ (1 <= length cs <= 33)%nat.
Proof.
  intros Hb Hn. destruct (prints_printint error num base Hb Hn) as (cs & H & ? & ? & _).
  exists cs. by rewrite H.
Qed.

Lemma printint_roundtrip_witness :
  exists cs, printint (fun _ => undef) (-0x80000000) 10 csr_demo
      = Ok tt (set_out (out csr_demo ++ cs) csr_demo)
    /\ parse_int 10 cs = -0x80000000 /\ (1 <= length cs <= 33)%nat.
Proof. apply (printint_roundtrip _ (-0x80000000) 10 csr_demo); lia. Defined.

(** Unsigned and pointer printing are exact: [print_uint] sends the
    numeral of any [uint32_t] in any base from 2 to 16 within its 32-byte
    buffer, and [print_addr] sends [0x] and exactly eight hexadecimal digits
    that denote the address. *)
Theorem print_uint_addr_roundtrip num base s :
  2 <= base <= 16 -> 0 <= num < U32 ->
  (exists ds, print_uint num base s = Ok tt (set_out (out s ++ ds) s)
     /\ parse_digits base ds = num /\ (1 <= length ds <= 32)%nat) /\
  (exists ds, print_addr num s = Ok tt (set_out (out s ++ [48; 120] ++ ds) s)
     /\ parse_digits 16 ds = num /\ length ds = 8%nat).
Proof.
  intros Hb Hn. split.
  - destruct (prints_print_uint num base Hb Hn) as (ds & H & ? & ? & _).
    exists ds. by rewrite H.
  - destruct (prints_print_addr_loop 8 num 28) as (ds & H & Hl & _ & Hv); [lia | done |].
    exists ds. split_and!; [| rewrite Hv; apply Z.mod_small; unfold U32 in Hn; lia | done].
    unfold print_addr. apply (prints_bind _ _ [48; 120] ds); [| done].
    exact (prints_print_string (bytes "0x")).
Qed.

Lemma print_uint_addr_roundtrip_witness :
  (exists ds, print_uint 0xFFFFFFFF 2 csr_demo = Ok tt (set_out (out csr_demo ++ ds) csr_demo)
     /\ parse_digits 2 ds = 0xFFFFFFFF /\ (1 <= length ds <= 32)%nat) /\
  (exists ds, print_addr 0xFFFFFFFF csr_demo
       = Ok tt (set_out (out csr_demo ++ [48; 120] ++ ds) csr_demo)
     /\ parse_digits 16 ds = 0xFFFFFFFF /\ length ds = 8%nat).
Proof. apply (print_uint_addr_roundtrip 0xFFFFFFFF 2 csr_demo); unfold U32; lia. Defined.

(** [strcmp] is the lexicographic order of the bytes: it is 0 exactly on
    equal strings and negative exactly when the first sorts before the second. *)
Theorem strcmp_lexicographic a b : cstring a -> cstring b ->
  (strcmp a b = 0 <-> a = b) /\ (strcmp a b < 0 <-> lexico a b).
Proof. apply strcmp_spec. Qed.

Lemma strcmp_lexicographic_witness :
  (strcmp (bytes "echo") (bytes "hello") = 0 <-> bytes "echo" = bytes "hello") /\
  (strcmp (bytes "echo") (bytes "hello") < 0 <-> lexico (bytes "echo") (bytes "hello")).
Proof.
  apply strcmp_lexicographic; repeat constructor; vm_compute; congruence.
Defined.

(** [printf]'s loop is safe: whenever the arguments match the format, the
    loop returns, its only effect is bytes appended to the console, and it
    never reads a missing argument or overruns a digit buffer. *)
Theorem vprintf_safe fmt args s : fmt_ok fmt args = true ->
  exists bs, vprintf fmt args s = Ok tt (set_out (out s ++ bs) s).
Proof.
  intros H. destruct (vprintf_prints (length fmt) fmt args) as [bs Hbs]; [lia | done |].
  exists bs. apply Hbs.
Qed.

Lemma vprintf_safe_witness :
  exists bs, vprintf (bytes "pid %d (%s)") [AInt (-1); AStr (bytes "init")] csr_demo
    = Ok tt (set_out (out csr_demo ++ bs) csr_demo).
Proof. apply vprintf_safe. reflexivity. Defined.
