(* ===== verification/Spinlock.v ===== *)
(** Spinlocks and nested interrupt disabling: spinlock.c, spinlock.h.

    The functions as one hart runs them. A hart that finds a lock taken by
    another hart stays in the [while] loop of [lock] until that hart lets go:
    the outcome [Spin]. The interleaving of several harts, instruction by
    instruction, is in SpinlockConc.v. *)
From S2P Require Import Prelude Machine Csr KPrint.

Definition get_cpu (y : sync) : cpu := get0 cpu0 (cpus y) (tp y).
Definition set_cpu (c : cpu) (y : sync) : sync :=
  mk_sync (locks y) (<[tp y := c]> (cpus y)) (tp y) (csrs y).
Definition lk (y : sync) (l : lockid) : spinlock := get0 spinlock0 (locks y) l.
Definition set_lk (l : lockid) (k : spinlock) (y : sync) : sync :=
  mk_sync (<[l := k]> (locks y)) (cpus y) (tp y) (csrs y).

Definition this_cpu : M cpu := gets (fun s => get_cpu (sy s)).
Definition put_cpu (c : cpu) : M unit := modify (fun s => set_sy (set_cpu c (sy s)) s).
Definition get_lock (l : lockid) : M spinlock := gets (fun s => lk (sy s) l).
Definition put_lock (l : lockid) (k : spinlock) : M unit :=
  modify (fun s => set_sy (set_lk l k (sy s)) s).

(** * Operations *)

(** [amoswap.w.aq] on the [lock] field of a spinlock *)
Definition atomic_swap (l : lockid) (new_val : Z) : M Z :=
  k ← get_lock l;
  put_lock l (mk_spinlock (u32 new_val) (lk_cpu k) (lk_name k));;
  mret (lk_lock k).

Definition init_lock (l : lockid) (name : string) : M unit :=
  put_lock l (mk_spinlock 0 None name).

Definition push_off : M unit :=
  sstatus ← r_sstatus;
  interrupt_off;;
  c ← this_cpu;
  let intena' := if depth c =? 0 then Z.land sstatus SSTATUS_SIE else intena c in
  put_cpu (mk_cpu (cpu_id c) (depth c + 1) intena' (cpu_proc c) (cpu_context c)).

Definition pop_off : M unit :=
  c ← this_cpu;
  i ← is_interrupt;
  if (i : bool) then panic "pop_off - interruptable"
  else if depth c <? 1 then panic "push_off depth less than 1"
  else
    put_cpu (mk_cpu (cpu_id c) (depth c - 1) (intena c) (cpu_proc c) (cpu_context c));;
    when ((depth c - 1 =? 0) && negb (intena c =? 0)) interrupt_on.

Definition holding (l : lockid) : M bool :=
  k ← get_lock l;
  h ← gets (fun s => tp (sy s));
  mret (negb (lk_lock k =? 0) && bool_decide (lk_cpu k = Some h)).

Definition lock (l : lockid) : M unit :=
  push_off;;
  h ← holding l;
  if (h : bool) then panic "trying to lock locked spinlock"
  else
    old ← atomic_swap l 1;
    if negb (old =? 0) then spin l
    else
      k ← get_lock l;
      me ← gets (fun s => tp (sy s));
      put_lock l (mk_spinlock (lk_lock k) (Some me) (lk_name k)).

Definition unlock (l : lockid) : M unit :=
  h ← holding l;
  if negb h then panic "trying to release unlocked spinlock"
  else
    k ← get_lock l;
    put_lock l (mk_spinlock (lk_lock k) None (lk_name k));;
    atomic_swap l 0;;
    pop_off.

(** * States and their equivalence *)

Definition sie (y : sync) : bool := negb (Z.land (csr_get y SSTATUS) SSTATUS_SIE =? 0).

(** What every hart keeps true: inside a critical section interrupts are off. *)
Record hart_ok (y : sync) : Prop := {
  ho_depth : 0 <= depth (get_cpu y);
  ho_off : 0 < depth (get_cpu y) -> sie y = false;
  ho_sstatus : 0 <= csr_get y SSTATUS < U32
}.

Definition lk_free (l : lockid) (y : sync) : Prop :=
  lk_lock (lk y l) = 0 /\ lk_cpu (lk y l) = None.

(** [intena] only means something while [depth] is positive: two states that
    differ in a dead [intena] are the same state. *)
Definition cpu_equiv (a b : cpu) : Prop :=
  cpu_id a = cpu_id b /\ depth a = depth b /\ cpu_proc a = cpu_proc b
  /\ cpu_context a = cpu_context b /\ (depth a <> 0 -> intena a = intena b).

#[global] Instance sync_equiv : Equiv sync := fun a b =>
  tp a = tp b /\ (forall l, lk a l = lk b l)
  /\ (forall h c, get0 0 (csrs a) (h, c) = get0 0 (csrs b) (h, c))
  /\ (forall h, cpu_equiv (get0 cpu0 (cpus a) h) (get0 cpu0 (cpus b) h)).

#[global] Instance cpu_equivalence : Equivalence cpu_equiv.
Proof.
  split.
  - intros a. by repeat split.
  - intros a b (? & Hd & ? & ? & Hi). repeat split; try congruence.
    intros. symmetry. apply Hi. congruence.
  - intros a b c (? & ? & ? & ? & Hi) (? & ? & ? & ? & Hj). repeat split; try congruence.
    intros. rewrite Hi by done. apply Hj. congruence.
Qed.

#[global] Instance sync_equivalence : Equivalence (≡@{sync}).
Proof.
  split.
  - intros a. repeat split.
  - intros a b (? & Hl & Hc & Hp). split_and!; intros; symmetry; auto.
  - intros a b c (? & Hl & Hc & Hp) (? & Hl' & Hc' & Hp').
    split_and!; intros; [congruence | by rewrite Hl | by rewrite Hc | by rewrite Hp].
Qed.

Lemma get_cpu_equiv a b : a ≡ b -> cpu_equiv (get_cpu a) (get_cpu b).
Proof. intros (Ht & _ & _ & Hp). unfold get_cpu. rewrite Ht. apply Hp. Qed.

Lemma csr_get_equiv a b c : a ≡ b -> csr_get a c = csr_get b c.
Proof. intros (Ht & _ & Hc & _). unfold csr_get. by rewrite Ht. Qed.

Lemma lk_equiv a b l : a ≡ b -> lk a l = lk b l.
Proof. intros (_ & Hl & _). apply Hl. Qed.

Lemma tp_equiv a b : a ≡ b -> tp a = tp b.
Proof. by intros (Ht & _). Qed.

#[global] Instance hart_ok_proper : Proper ((≡) ==> iff) hart_ok.
Proof.
  assert (forall a b, a ≡ b -> hart_ok a -> hart_ok b) as H.
  { intros a b Hab [H1 H2 H3]. pose proof (get_cpu_equiv a b Hab) as (_ & Hd & _).
    pose proof (csr_get_equiv a b SSTATUS Hab) as Hs. unfold sie in *.
    split; unfold sie; rewrite <- ?Hd, <- ?Hs; auto. }
  intros a b Hab. split; apply H; [done | by symmetry].
Qed.

#[global] Instance lk_free_proper l : Proper ((≡) ==> iff) (lk_free l).
Proof. intros a b Hab. unfold lk_free. by rewrite (lk_equiv a b l Hab). Qed.

(** * What each operation does to the synchronisation state *)

Definition pushed (y : sync) : sync :=
  let c := get_cpu y in
  let st := csr_get y SSTATUS in
  set_cpu (mk_cpu (cpu_id c) (depth c + 1)
             (if depth c =? 0 then Z.land st SSTATUS_SIE else intena c)
             (cpu_proc c) (cpu_context c))
    (csr_set y SSTATUS (Z.land st (Z.lnot SSTATUS_SIE))).

Definition sync_lock (l : lockid) (y : sync) : sync :=
  set_lk l (mk_spinlock 1 (Some (tp y)) (lk_name (lk y l))) (pushed y).

Lemma push_off_run s : push_off s = Ok tt (set_sy (pushed (sy s)) s).
Proof. reflexivity. Qed.

Lemma lk_set_lk_eq l k y : lk (set_lk l k y) l = k.
Proof. unfold lk. cbn. by rewrite get0_insert_eq. Qed.

Lemma lk_set_lk_ne l l' k y : l <> l' -> lk (set_lk l k y) l' = lk y l'.
Proof. intros. unfold lk. cbn. by rewrite get0_insert_ne. Qed.

Lemma lk_pushed y l : lk (pushed y) l = lk y l.
Proof. done. Qed.

#[export] Hint Rewrite lk_set_lk_eq lk_pushed : kern.
#[export] Hint Rewrite lk_set_lk_ne using done : kern.

Lemma holding_run l s : holding l s =
  Ok (negb (lk_lock (lk (sy s) l) =? 0) && bool_decide (lk_cpu (lk (sy s) l) = Some (tp (sy s)))) s.
Proof. reflexivity. Qed.

(** [set_lk] twice on the same lock keeps the second. *)
Lemma set_lk_twice l k k' y : set_lk l k (set_lk l k' y) = set_lk l k y.
Proof. unfold set_lk. cbn. by rewrite insert_insert_eq. Qed.

Lemma lock_run l s : lk_lock (lk (sy s) l) = 0 ->
  lock l s = Ok tt (set_sy (sync_lock l (sy s)) s).
Proof.
  intros Hf. destruct (lk (sy s) l) as [v c n] eqn:E. cbn in Hf. subst v.
  unfold lock. erewrite bind_Ok by apply push_off_run.
  erewrite bind_Ok by apply holding_run. cbn [sy set_sy]. rewrite lk_pushed, E. cbn [lk_lock].
  change (negb (0 =? 0)) with false. cbn [andb].
  unfold atomic_swap, get_lock, put_lock, gets, modify, mbind, M_bind, mret, M_ret.
  cbn [res_bind sy set_sy lk_cpu lk_name lk_lock]. rewrite lk_pushed, E.
  cbn [lk_lock lk_cpu lk_name]. change (negb (0 =? 0)) with false. cbn [res_bind].
  unfold sync_lock. cbn [sy set_sy]. rewrite lk_set_lk_eq, set_lk_twice, E. reflexivity.
Qed.

Lemma land_SIE_off x : (Z.land x SSTATUS_SIE =? 0) = true ->
  Z.land x (Z.lnot SSTATUS_SIE) = x.
Proof.
  intros H. zbool. rewrite <- Z.ldiff_land.
  rewrite <- (Z.lor_ldiff_and x SSTATUS_SIE) at 2. rewrite H. by rewrite Z.lor_0_r.
Qed.

Lemma land_SIE_on x : (Z.land x SSTATUS_SIE =? 0) = false ->
  Z.land x SSTATUS_SIE = SSTATUS_SIE.
Proof.
  intros H. zbool. change SSTATUS_SIE with (2 ^ 1) in *. rewrite Z.land_comm in *.
  apply Z.bits_inj'. intros i Hi. rewrite Z.land_spec, Z.pow2_bits_eqb by lia.
  destruct (Z.eqb_spec 1 i) as [<- |]; [| done]. destruct (Z.testbit x 1) eqn:E; [done |].
  exfalso. apply H. apply Z.bits_inj'. intros j Hj.
  rewrite Z.land_spec, Z.pow2_bits_eqb, Z.bits_0 by lia.
  destruct (Z.eqb_spec 1 j) as [<- |]; [by rewrite E | done].
Qed.

Lemma restore_SIE_on x : (Z.land x SSTATUS_SIE =? 0) = false ->
  Z.lor (Z.land x (Z.lnot SSTATUS_SIE)) SSTATUS_SIE = x.
Proof.
  intros H. rewrite <- Z.ldiff_land. rewrite <- (land_SIE_on x H) at 2.
  apply Z.lor_ldiff_and.
Qed.

Lemma land_SIE_cleared x : Z.land (Z.land x (Z.lnot SSTATUS_SIE)) SSTATUS_SIE = 0.
Proof.
  rewrite <- Z.land_assoc, (Z.land_comm (Z.lnot _)). rewrite Z.land_lnot_diag.
  apply Z.land_0_r.
Qed.

Lemma clear_SIE_range x : 0 <= x < U32 -> 0 <= Z.land x (Z.lnot SSTATUS_SIE) < U32.
Proof.
  intros Hx. rewrite <- Z.ldiff_land. split; [apply Z.ldiff_nonneg; lia |].
  pose proof (Z.add_lor_land (Z.ldiff x SSTATUS_SIE) (Z.land x SSTATUS_SIE)) as H.
  rewrite Z.lor_ldiff_and in H.
  assert (0 <= Z.land x SSTATUS_SIE) by (apply Z.land_nonneg; lia).
  assert (0 <= Z.land (Z.ldiff x SSTATUS_SIE) (Z.land x SSTATUS_SIE))
    by (apply Z.land_nonneg; right; apply Z.land_nonneg; lia).
  rewrite Z.ldiff_land, Z.land_assoc in H.
  rewrite <- (Z.land_assoc x _ x), (Z.land_comm _ x), Z.land_assoc in H.
  rewrite <- Z.land_assoc, (Z.land_comm (Z.lnot _)), Z.land_lnot_diag, Z.land_0_r in H.
  rewrite Z.ldiff_land. lia.
Qed.

Lemma sstatus_pushed y : 0 <= csr_get y SSTATUS < U32 ->
  csr_get (pushed y) SSTATUS = Z.land (csr_get y SSTATUS) (Z.lnot SSTATUS_SIE).
Proof.
  intros H. transitivity (csr_get (csr_set y SSTATUS
    (Z.land (csr_get y SSTATUS) (Z.lnot SSTATUS_SIE))) SSTATUS); [done |].
  rewrite csr_get_set_eq. by apply u32_small, clear_SIE_range.
Qed.

Lemma sie_pushed y : 0 <= csr_get y SSTATUS < U32 -> sie (pushed y) = false.
Proof. intros H. unfold sie. by rewrite sstatus_pushed, land_SIE_cleared. Qed.

Lemma get_cpu_set_cpu c y : get_cpu (set_cpu c y) = c.
Proof. unfold get_cpu. cbn. by rewrite get0_insert_eq. Qed.
#[export] Hint Rewrite get_cpu_set_cpu : kern.

Lemma depth_pushed y : depth (get_cpu (pushed y)) = depth (get_cpu y) + 1.
Proof. unfold pushed. by rewrite get_cpu_set_cpu. Qed.

Lemma intena_pushed y : intena (get_cpu (pushed y)) =
  if depth (get_cpu y) =? 0 then Z.land (csr_get y SSTATUS) SSTATUS_SIE
  else intena (get_cpu y).
Proof. unfold pushed. by rewrite get_cpu_set_cpu. Qed.

Lemma hart_ok_pushed y : hart_ok y -> hart_ok (pushed y).
Proof.
  intros [H1 H2 H3]. split.
  - rewrite depth_pushed. lia.
  - intros _. by apply sie_pushed.
  - rewrite sstatus_pushed by done. by apply clear_SIE_range.
Qed.

(** The state [pop_off] leaves. *)
Definition popped (y : sync) : sync :=
  let c := get_cpu y in
  let y1 := set_cpu (mk_cpu (cpu_id c) (depth c - 1) (intena c) (cpu_proc c)
                       (cpu_context c)) y in
  if (depth c - 1 =? 0) && negb (intena c =? 0)
  then csr_set y1 SSTATUS (Z.lor (csr_get y1 SSTATUS) SSTATUS_SIE) else y1.

Lemma pop_off_run s : sie (sy s) = false -> 1 <= depth (get_cpu (sy s)) ->
  pop_off s = Ok tt (set_sy (popped (sy s)) s).
Proof.
  intros Hs Hd. unfold sie in Hs.
  unfold pop_off, this_cpu, is_interrupt, r_sstatus, csrr, put_cpu, gets, modify, mbind,
    M_bind, mret, M_ret. cbn [res_bind]. rewrite Hs.
  assert ((depth (get_cpu (sy s)) <? 1) = false) as -> by lia. cbn [res_bind].
  unfold popped. destruct (_ && _); reflexivity.
Qed.

(** Leaving the section entered by [pushed] restores the state, whatever
    equivalent state the section ended in: first the interrupt bit, ... *)
Lemma sstatus_popped y y' : hart_ok y -> y' ≡ pushed y ->
  csr_get (popped y') SSTATUS = csr_get y SSTATUS.
Proof.
  intros [Hd Hoff Hst] Heq.
  pose proof (get_cpu_equiv _ _ Heq) as (_ & Hdep & _ & _ & Hint).
  pose proof (csr_get_equiv _ _ SSTATUS Heq) as Hss.
  rewrite sstatus_pushed in Hss by done. rewrite depth_pushed in Hdep.
  specialize (Hint ltac:(lia)). rewrite intena_pushed in Hint.
  unfold popped. rewrite Hint, Hdep, Z.add_simpl_r. unfold sie in Hoff.
  destruct (depth (get_cpu y) =? 0) eqn:E0; zbool; cbn [andb].
  - destruct (Z.land (csr_get y SSTATUS) SSTATUS_SIE =? 0) eqn:E; cbn [negb].
    + etransitivity; [exact Hss |]. by apply land_SIE_off.
    + rewrite csr_get_set_eq. transitivity (u32 (csr_get y SSTATUS));
        [| by apply u32_small]. f_equal. etransitivity; [| by apply restore_SIE_on].
      f_equal. exact Hss.
  - etransitivity; [exact Hss |]. apply land_SIE_off. specialize (Hoff ltac:(lia)). by apply negb_false_iff.
Qed.

Lemma popped_frame y : tp (popped y) = tp y /\ locks (popped y) = locks y
  /\ (forall h k, (h, k) <> (tp y, SSTATUS) ->
        get0 0 (csrs (popped y)) (h, k) = get0 0 (csrs y) (h, k))
  /\ cpus (popped y) = cpus (set_cpu (mk_cpu (cpu_id (get_cpu y)) (depth (get_cpu y) - 1)
       (intena (get_cpu y)) (cpu_proc (get_cpu y)) (cpu_context (get_cpu y))) y).
Proof.
  unfold popped. destruct (_ && _); split_and!; try done.
  intros h k Hne. cbn. by rewrite get0_insert_ne.
Qed.

(** ... then everything else. *)
Lemma popped_pushed y y' : hart_ok y -> y' ≡ pushed y -> popped y' ≡ y.
Proof.
  intros Hok Heq. pose proof (sstatus_popped y y' Hok Heq) as Hfin.
  destruct (popped_frame y') as (Ht & Hl & Hc & Hp). destruct Heq as (Htp & Hlk & Hcsr & Hcpu).
  change (tp (pushed y)) with (tp y) in Htp.
  split_and!; [by rewrite Ht, Htp | | |].
  - intros l. unfold lk. rewrite Hl. apply Hlk.
  - intros h k. destruct (decide ((h, k) = (tp y, SSTATUS))) as [He | Hne].
    { inversion He; subst. unfold csr_get in Hfin. by rewrite Ht, Htp in Hfin. }
    rewrite Hc, Hcsr by congruence. cbn. rewrite get0_insert_ne; congruence.
  - intros h. rewrite Hp. cbn [cpus set_cpu]. destruct (decide (h = tp y)) as [-> | Hne].
    + rewrite Htp, get0_insert_eq. change (get0 cpu0 (cpus y) (tp y)) with (get_cpu y).
      specialize (Hcpu (tp y)). rewrite <- Htp in Hcpu at 1. fold (get_cpu y') in Hcpu.
      change (get0 cpu0 (cpus (pushed y)) (tp y)) with (get_cpu (pushed y)) in Hcpu.
      destruct Hcpu as (Hid & Hd & Hpr & Hcx & Hi). rewrite depth_pushed in Hd.
      destruct Hok as [Hd0 _ _]. specialize (Hi ltac:(lia)). rewrite intena_pushed in Hi.
      unfold pushed in Hid, Hpr, Hcx. rewrite get_cpu_set_cpu in Hid, Hpr, Hcx.
      cbn [cpu_id cpu_proc cpu_context] in *.
      repeat split; cbn [cpu_id depth cpu_proc cpu_context intena]; try done; [lia |].
      intros. rewrite Hi. assert ((depth (get_cpu y) =? 0) = false) as -> by lia. done.
    + rewrite get0_insert_ne by congruence. rewrite (Hcpu h). cbn.
      rewrite get0_insert_ne by congruence. done.
Qed.

Lemma lk_free_unlock l y : lk_free l y ->
  mk_spinlock 0 None (lk_name (lk y l)) = lk y l.
Proof. intros [H1 H2]. destruct (lk y l); cbn in *; congruence. Qed.

Lemma set_lk_equiv l k y y' : y ≡ y' -> set_lk l k y ≡ set_lk l k y'.
Proof.
  intros (Ht & Hl & Hc & Hp). split_and!; try done. intros l'.
  destruct (decide (l = l')) as [-> |]; autorewrite with kern; auto.
Qed.

Lemma set_lk_id l y : set_lk l (lk y l) y ≡ y.
Proof.
  split_and!; try done. intros l'.
  destruct (decide (l = l')) as [-> |]; by autorewrite with kern.
Qed.

(** [unlock] after a section that [lock] entered. *)
Lemma unlock_run l y s : hart_ok y -> lk_free l y -> sy s ≡ sync_lock l y ->
  exists y', unlock l s = Ok tt (set_sy y' s) /\ y' ≡ y.
Proof.
  intros Hok Hf Heq. pose proof (lk_equiv _ _ l Heq) as Hl.
  pose proof (tp_equiv _ _ Heq) as Htp. change (tp (sync_lock l y)) with (tp y) in Htp.
  unfold sync_lock in Hl. rewrite lk_set_lk_eq in Hl.
  set (y1 := set_lk l (mk_spinlock 0 None (lk_name (lk y l))) (sy s)).
  assert (Hy1 : y1 ≡ pushed y).
  { unfold y1. rewrite lk_free_unlock by done. rewrite <- (set_lk_id l (pushed y)).
    rewrite lk_pushed. rewrite (set_lk_equiv _ _ _ _ Heq). unfold sync_lock.
    by rewrite set_lk_twice. }
  exists (popped y1). split; [| by apply popped_pushed].
  unfold unlock. erewrite bind_Ok by apply holding_run.
  rewrite Hl, Htp. cbn [lk_lock lk_cpu]. rewrite bool_decide_true by done.
  change (negb (negb (1 =? 0) && true)) with false.
  unfold atomic_swap, get_lock, put_lock, gets, modify, mbind, M_bind, mret, M_ret.
  cbn [res_bind sy set_sy]. rewrite Hl, lk_set_lk_eq, set_lk_twice.
  cbn [lk_lock lk_cpu lk_name]. change (u32 0) with 0. fold y1.
  rewrite pop_off_run; [done | |]; cbn [sy set_sy].
  - unfold sie. rewrite (csr_get_equiv _ _ SSTATUS Hy1). apply sie_pushed. apply Hok.
  - pose proof (get_cpu_equiv _ _ Hy1) as (_ & -> & _). rewrite depth_pushed.
    destruct Hok. lia.
Qed.

(** * Interface for the code that takes locks *)

(** [l] is free and the hart is in a state from which it may take it. *)
Definition can_lock (l : lockid) (y : sync) : Prop := hart_ok y /\ lk_free l y.

#[global] Instance can_lock_proper l : Proper ((≡) ==> iff) (can_lock l).
Proof. intros a b Hab. unfold can_lock. by rewrite Hab. Qed.

Lemma can_lock_other l l' y : l <> l' -> can_lock l' y -> can_lock l' (sync_lock l y).
Proof.
  intros Hne [Hok Hf]. split.
  - destruct (hart_ok_pushed y Hok). by split.
  - unfold lk_free, sync_lock. by autorewrite with kern.
Qed.

Lemma wp_lock l Q s : can_lock l (sy s) ->
  Q tt (set_sy (sync_lock l (sy s)) s) -> wp (lock l) Q s.
Proof. intros [_ [Hf _]] HQ. unfold wp. by rewrite lock_run. Qed.

Lemma wp_unlock l y (Q : unit -> kstate -> Prop) s : can_lock l y -> sy s ≡ sync_lock l y ->
  (forall y', y' ≡ y -> Q tt (set_sy y' s)) -> wp (unlock l) Q s.
Proof.
  intros [Hok Hf] Heq HQ. destruct (unlock_run l y s Hok Hf Heq) as (y' & Hr & Hy').
  unfold wp. rewrite Hr. by apply HQ.
Qed.

Lemma lock_held_panics l s : lk_lock (lk (sy s) l) <> 0 -> lk_cpu (lk (sy s) l) = Some (tp (sy s)) ->
  panics (lock l) "trying to lock locked spinlock" s.
Proof.
  intros H1 H2. unfold lock. apply panics_bind. unfold wp. rewrite push_off_run.
  apply panics_bind. unfold wp. rewrite holding_run. cbn [sy set_sy]. rewrite lk_pushed, H2.
  change (tp (pushed (sy s))) with (tp (sy s)). rewrite bool_decide_true by done.
  assert ((lk_lock (lk (sy s) l) =? 0) = false) as -> by lia. apply panic_panics.
Qed.

Lemma unlock_unheld_panics l s :
  lk_lock (lk (sy s) l) = 0 \/ lk_cpu (lk (sy s) l) <> Some (tp (sy s)) ->
  panics (unlock l) "trying to release unlocked spinlock" s.
Proof.
  intros H. unfold unlock. apply panics_bind. unfold wp. rewrite holding_run.
  replace (negb (negb (lk_lock (lk (sy s) l) =? 0)
    && bool_decide (lk_cpu (lk (sy s) l) = Some (tp (sy s))))) with true;
    [apply panic_panics |].
  destruct H as [-> | H]; [done |]. rewrite bool_decide_false by done.
  by rewrite andb_false_r.
Qed.

(** [n] calls in a row. *)
Fixpoint times (n : nat) (m : M unit) : M unit :=
  match n with O => mret tt | S n => times n m;; m end.

Lemma set_sy_id s : set_sy (sy s) s = s.
Proof. by destruct s. Qed.

Lemma times_push_run n s :
  times n push_off s = Ok tt (set_sy (Nat.iter n pushed (sy s)) s).
Proof.
  induction n as [|n IH]; cbn [times]; [cbn; by rewrite set_sy_id |].
  erewrite bind_Ok by apply IH. by rewrite push_off_run.
Qed.

Lemma hart_ok_iter n y : hart_ok y -> hart_ok (Nat.iter n pushed y)
  /\ depth (get_cpu (Nat.iter n pushed y)) = depth (get_cpu y) + Z.of_nat n.
Proof.
  intros H. induction n as [|n [IH1 IH2]]; [split; [done | cbn; lia] |].
  change (Nat.iter (S n) pushed y) with (pushed (Nat.iter n pushed y)).
  split; [by apply hart_ok_pushed |]. rewrite depth_pushed. lia.
Qed.

Lemma times_pop_run n : forall y s, hart_ok y -> sy s ≡ Nat.iter n pushed y ->
  exists y', times n pop_off s = Ok tt (set_sy y' s) /\ y' ≡ y.
Proof.
  induction n as [|n IH]; intros y s Hok Heq; cbn [times].
  { exists (sy s). by rewrite set_sy_id. }
  rewrite Nat.iter_succ_r in Heq.
  destruct (IH (pushed y) s) as (y1 & Hr & Hy1); [by apply hart_ok_pushed | done |].
  exists (popped y1). split; [| by apply popped_pushed].
  erewrite bind_Ok by apply Hr. rewrite pop_off_run; cbn [sy set_sy]; [done | |].
  - unfold sie. rewrite (csr_get_equiv _ _ SSTATUS Hy1). apply sie_pushed, Hok.
  - pose proof (get_cpu_equiv _ _ Hy1) as (_ & -> & _). rewrite depth_pushed.
    destruct Hok. lia.
Qed.

(** * Properties *)

(** Critical sections: from a sound state with the lock free, [lock]
    returns holding it with interrupts off, and [unlock] then gives back the
    state the hart had: the lock free, the nesting depth and the interrupt
    enable as before (up to an [intena] no one reads). *)
Theorem lock_unlock_restores l s : can_lock l (sy s) ->
  exists s1 y2, lock l s = Ok tt s1 /\ holding l s1 = Ok true s1 /\ sie (sy s1) = false
    /\ unlock l s1 = Ok tt (set_sy y2 s) /\ y2 ≡ sy s.
Proof.
  intros [Hok Hf]. set (s1 := set_sy (sync_lock l (sy s)) s).
  destruct (unlock_run l (sy s) s1 Hok Hf) as (y2 & Hu & Hy2); [done |].
  exists s1, y2. split_and!; [| | | done | done].
  - destruct Hf as [Hf _]. by rewrite lock_run.
  - rewrite holding_run. unfold s1, sync_lock. cbn [sy set_sy]. rewrite lk_set_lk_eq. cbn.
    by rewrite bool_decide_true.
  - apply (sie_pushed (sy s)), Hok.
Qed.

Definition hart_demo : sync :=
  mk_sync ∅ ∅ 2%nat (<[(2%nat, SSTATUS) := 0x22]> ∅).
Definition lock_demo : kstate := set_sy hart_demo csr_demo.

Lemma lock_unlock_restores_witness :
  exists s1 y2, lock MemLock lock_demo = Ok tt s1 /\ holding MemLock s1 = Ok true s1
    /\ sie (sy s1) = false /\ unlock MemLock s1 = Ok tt (set_sy y2 lock_demo)
    /\ y2 ≡ sy lock_demo.
Proof.
  apply lock_unlock_restores. split; [split |]; vm_compute; intuition congruence.
Defined.

(** Nesting of [push_off] and [pop_off]: [n] calls of [push_off] leave
    interrupts off and the depth [n] higher, and [n] calls of [pop_off] after
    them restore the depth and the interrupt enable of the start, on whether
    or not interrupts were on. *)
Theorem push_pop_nest n s : hart_ok (sy s) ->
  exists s1 y2, times n push_off s = Ok tt s1
    /\ depth (get_cpu (sy s1)) = depth (get_cpu (sy s)) + Z.of_nat n
    /\ ((0 < n)%nat -> sie (sy s1) = false)
    /\ times n pop_off s1 = Ok tt (set_sy y2 s) /\ y2 ≡ sy s.
Proof.
  intros Hok. set (s1 := set_sy (Nat.iter n pushed (sy s)) s).
  destruct (times_pop_run n (sy s) s1 Hok) as (y2 & Hr & Hy2); [done |].
  exists s1, y2. split_and!; [apply times_push_run | by apply hart_ok_iter | | done | done].
  intros Hn. destruct n as [|n]; [lia |]. apply sie_pushed.
  by destruct (hart_ok_iter n (sy s) Hok) as [[] _].
Qed.

Lemma push_pop_nest_witness :
  exists s1 y2, times 3 push_off lock_demo = Ok tt s1
    /\ depth (get_cpu (sy s1)) = depth (get_cpu (sy lock_demo)) + Z.of_nat 3
    /\ ((0 < 3)%nat -> sie (sy s1) = false)
    /\ times 3 pop_off s1 = Ok tt (set_sy y2 lock_demo) /\ y2 ≡ sy lock_demo.
Proof. apply push_pop_nest. split; vm_compute; intuition congruence. Defined.

(** Misuse is caught: a hart that takes a lock it already holds panics
    instead of spinning forever, and one that releases a lock it does not hold
    (free, or held by another hart) panics instead of opening the section. *)
Theorem lock_misuse_panics l s :
  (lk_lock (lk (sy s) l) <> 0 -> lk_cpu (lk (sy s) l) = Some (tp (sy s)) ->
     panics (lock l) "trying to lock locked spinlock" s) /\
  (lk_lock (lk (sy s) l) = 0 \/ lk_cpu (lk (sy s) l) <> Some (tp (sy s)) ->
     panics (unlock l) "trying to release unlocked spinlock" s).
Proof. split; [apply lock_held_panics | apply unlock_unheld_panics]. Qed.

Lemma lock_misuse_panics_witness :
  panics (unlock MemLock) "trying to release unlocked spinlock" lock_demo.
Proof. apply (lock_misuse_panics MemLock lock_demo). left. reflexivity. Defined.
