(* ===== verification/SpinlockConc.v ===== *)
(** Spinlocks under interleaving: spinlock.c instruction by instruction.

    Any number of harts run [lock(lk)], a critical section and [unlock(lk)] on
    the same lock, again and again. A step is one access of one hart to the
    shared [struct spinlock]: the reads of [holding], which looks at
    [lk->lock] and then at [lk->cpu] in two separate loads, the [amoswap]s and
    the stores to [lk->cpu]. The model is sequentially consistent, which the
    fences of the source are there to provide. [push_off] and [pop_off] touch
    only the hart's own state (Spinlock.v) and are not steps. *)
From S2P Require Import Prelude Machine Csr KPrint Spinlock.

(** Where a hart is. *)
Inductive pc :=
  | Idle           (* outside *)
  | LockReadLock   (* lock: holding() loads lk->lock *)
  | LockReadCpu    (* lock: holding() loads lk->cpu *)
  | Swap           (* lock: the amoswap loop *)
  | SetCpu         (* lock: lk->cpu = this_cpu() *)
  | Crit           (* in the critical section *)
  | UnlockReadLock (* unlock: holding() loads lk->lock *)
  | UnlockReadCpu  (* unlock: holding() loads lk->cpu *)
  | ClearCpu       (* unlock: lk->cpu = NULL *)
  | SwapOff        (* unlock: amoswap of 0 *)
  | Halted.        (* panic *)

#[global] Instance pc_eq_dec : EqDecision pc.
Proof. solve_decision. Defined.

Record conc := mk_conc {
  cl_lock : Z;
  cl_cpu : option nat;
  cl_pc : nat -> pc
}.

Definition upd (f : nat -> pc) (h : nat) (p : pc) : nat -> pc :=
  fun h' => if decide (h' = h) then p else f h'.

Definition goto (h : nat) (p : pc) (s : conc) : conc :=
  mk_conc (cl_lock s) (cl_cpu s) (upd (cl_pc s) h p).

(** The next access of hart [h]. *)
Definition hart_step (h : nat) (s : conc) : conc :=
  match cl_pc s h with
  | Idle => goto h LockReadLock s
  | LockReadLock => goto h (if cl_lock s =? 0 then Swap else LockReadCpu) s
  | LockReadCpu => goto h (if decide (cl_cpu s = Some h) then Halted else Swap) s
  | Swap =>
      if cl_lock s =? 0 then mk_conc 1 (cl_cpu s) (upd (cl_pc s) h SetCpu)
      else mk_conc 1 (cl_cpu s) (cl_pc s)
  | SetCpu => mk_conc (cl_lock s) (Some h) (upd (cl_pc s) h Crit)
  | Crit => goto h UnlockReadLock s
  | UnlockReadLock => goto h (if cl_lock s =? 0 then Halted else UnlockReadCpu) s
  | UnlockReadCpu => goto h (if decide (cl_cpu s = Some h) then ClearCpu else Halted) s
  | ClearCpu => mk_conc (cl_lock s) None (upd (cl_pc s) h SwapOff)
  | SwapOff => mk_conc 0 (cl_cpu s) (upd (cl_pc s) h Idle)
  | Halted => s
  end.

(** After [init_lock], no hart inside. *)
Definition conc_init : conc := mk_conc 0 None (fun _ => Idle).

Inductive reachable : conc -> Prop :=
  | reach_init : reachable conc_init
  | reach_step h s : reachable s -> reachable (hart_step h s).

(** * The invariant *)

(** The hart owns the lock word; it owns the [cpu] field as well. *)
Definition owns (p : pc) : bool :=
  match p with
  | SetCpu | Crit | UnlockReadLock | UnlockReadCpu | ClearCpu | SwapOff => true
  | _ => false
  end.
Definition signed (p : pc) : bool :=
  match p with Crit | UnlockReadLock | UnlockReadCpu | ClearCpu => true | _ => false end.

(** The lock word when [o] owns the lock. *)
Definition owner_word (o : option nat) : Z :=
  match o with Some _ => 1 | None => 0 end.

(** At most one hart owns the lock: [o]. *)
Record conc_inv (o : option nat) (s : conc) : Prop := {
  ci_bit : cl_lock s = owner_word o;
  ci_owner : forall h, owns (cl_pc s h) = true <-> o = Some h;
  ci_cpu : forall h, cl_cpu s = Some h <-> signed (cl_pc s h) = true;
  ci_safe : forall h, cl_pc s h <> Halted
}.

Lemma signed_owns p : signed p = true -> owns p = true.
Proof. by destruct p. Qed.

(** A step of [h] that goes to [p], owns and signs as before, keeps the
    invariant. *)
Lemma conc_inv_goto o h p s : conc_inv o s ->
  owns p = owns (cl_pc s h) -> signed p = signed (cl_pc s h) -> p <> Halted ->
  conc_inv o (goto h p s).
Proof.
  intros [Hb Ho Hc Hs] Hop Hsp Hp. split; cbn; [done | | |]; intros h1; unfold upd;
    destruct (decide (h1 = h)) as [-> |]; rewrite ?Hop, ?Hsp; auto.
Qed.

(** A step that changes the owner from [o] to [o'] on behalf of [h]. *)
Lemma conc_inv_change o o' h p c s : conc_inv o s ->
  (forall h1, h1 <> h -> o = Some h1 <-> o' = Some h1) ->
  (owns p = true <-> o' = Some h) -> p <> Halted ->
  (forall h1, h1 <> h -> c = Some h1 <-> cl_cpu s = Some h1) ->
  (c = Some h <-> signed p = true) ->
  conc_inv o' (mk_conc (owner_word o') c (upd (cl_pc s) h p)).
Proof.
  intros [Hb Ho Hc Hs] Hoo Hop Hp Hcc Hcp. split; cbn; [done | | |]; intros h1; unfold upd;
    destruct (decide (h1 = h)) as [-> | Hne]; auto.
  - rewrite Ho. by apply Hoo.
  - rewrite <- Hc. by apply Hcc.
Qed.

Lemma conc_inv_step o h s : conc_inv o s -> exists o', conc_inv o' (hart_step h s).
Proof.
  intros Hi. destruct Hi as [Hb Ho Hc Hs] eqn:Ei. clear Ei.
  pose proof (Ho h) as Hoh. pose proof (Hc h) as Hch.
  unfold hart_step. destruct (cl_pc s h) eqn:E; cbn in *.
  - exists o. apply conc_inv_goto; by rewrite ?E.
  - exists o. destruct (_ =? _); apply conc_inv_goto; by rewrite ?E.
  - destruct (decide _) as [Hd |]; [by apply Hch in Hd |].
    exists o. apply conc_inv_goto; by rewrite ?E.
  - rewrite Hb. destruct o as [h0|]; cbn.
    + exists (Some h0). destruct s; cbn in *. by subst.
    + exists (Some h). apply (conc_inv_change None (Some h)); try done.
      all: try (intros h1 Hne; split; congruence).
  - assert (o = Some h) as -> by (by apply Hoh). exists (Some h). rewrite Hb.
    apply (conc_inv_change (Some h) (Some h)); try done.
    intros h1 Hne. split; [congruence |]. intros Hcpu.
    apply Hc, signed_owns, Ho in Hcpu. congruence.
  - exists o. apply conc_inv_goto; by rewrite ?E.
  - assert (o = Some h) as -> by (by apply Hoh). rewrite Hb. cbn.
    exists (Some h). apply conc_inv_goto; by rewrite ?E.
  - destruct (decide _) as [_ | Hn]; [| destruct Hn; by apply Hch].
    exists o. apply conc_inv_goto; by rewrite ?E.
  - assert (o = Some h) as -> by (by apply Hoh). exists (Some h). rewrite Hb.
    apply (conc_inv_change (Some h) (Some h)); try done.
    intros h1 Hne. split; [done |]. intros Hcpu.
    apply Hc, signed_owns, Ho in Hcpu. congruence.
  - assert (o = Some h) as -> by (by apply Hoh). exists None.
    apply (conc_inv_change (Some h) None); try done.
    all: try (intros h1 Hne; split; congruence).
  - by destruct (Hs h).
Qed.

Lemma conc_inv_reachable s : reachable s -> exists o, conc_inv o s.
Proof.
  induction 1 as [|h s _ [o IH]]; [| by eapply conc_inv_step].
  exists None. by split.
Qed.

(** How many accesses an owner has left. *)
Definition rank (p : pc) : nat :=
  match p with
  | SetCpu => 6 | Crit => 5 | UnlockReadLock => 4 | UnlockReadCpu => 3
  | ClearCpu => 2 | SwapOff => 1 | _ => 0
  end.

Lemma goto_pc h p s : cl_pc (goto h p s) h = p.
Proof. cbn. unfold upd. by rewrite decide_True. Qed.

(** An owner's own step brings it one access closer to giving the lock back. *)
Lemma owner_step h s n : reachable s -> rank (cl_pc s h) = S n ->
  rank (cl_pc (hart_step h s) h) = n /\
  (n = 0%nat -> cl_pc (hart_step h s) h = Idle /\ cl_lock (hart_step h s) = 0).
Proof.
  intros Hr Hn. destruct (conc_inv_reachable s Hr) as [o [Hb Ho Hc _]].
  specialize (Hc h). specialize (Ho h). unfold hart_step.
  destruct (cl_pc s h) eqn:E; cbn in Hn; try discriminate Hn; injection Hn as <-; cbn in Hc, Ho;
    rewrite ?goto_pc; unfold upd; cbn [cl_pc cl_lock]; rewrite ?decide_True by done;
    try (split; [reflexivity | done]).
  - assert (o = Some h) as -> by (by apply Ho). rewrite Hb. done.
  - destruct (decide _) as [_ | Hd]; [done | by destruct Hd; apply Hc].
Qed.

Lemma owner_releases h n : forall s, reachable s -> rank (cl_pc s h) = S n ->
  cl_pc (Nat.iter (S n) (hart_step h) s) h = Idle /\
  cl_lock (Nat.iter (S n) (hart_step h) s) = 0.
Proof.
  induction n as [|n IH]; intros s Hr Hn; destruct (owner_step h s _ Hr Hn) as [Hk H0];
    [by apply H0 |].
  rewrite Nat.iter_succ_r. apply IH; [by apply reach_step | done].
Qed.

(** * Properties *)

(** C1 (mutual exclusion): in every reachable state, whatever the number of
    harts and the interleaving of their accesses, at most one hart is in the
    critical section, the lock word is then 1 and [lk->cpu] names that hart. *)
Theorem spinlock_mutual_exclusion s h h' : reachable s ->
  cl_pc s h = Crit ->
  cl_lock s = 1 /\ cl_cpu s = Some h /\ (cl_pc s h' = Crit -> h' = h).
Proof.
  intros Hr Hh. destruct (conc_inv_reachable s Hr) as [o [Hb Ho Hc _]].
  assert (o = Some h) as -> by (apply Ho; by rewrite Hh).
  split_and!; [done | apply Hc; by rewrite Hh |].
  intros Hh'. assert (Some h = Some h') by (apply Ho; by rewrite Hh'). congruence.
Qed.

(** Hart 1 takes the lock and hart 0 runs into its loop. *)
Definition race : conc :=
  fold_left (fun s h => hart_step h s) [1; 0; 1; 1; 1; 0; 0; 0]%nat conc_init.

Lemma race_reachable : reachable race.
Proof. unfold race. cbn [fold_left]. repeat apply reach_step. apply reach_init. Qed.

Lemma spinlock_mutual_exclusion_witness :
  cl_lock race = 1 /\ cl_cpu race = Some 1%nat
  /\ (cl_pc race 0%nat = Crit -> 0%nat = 1%nat).
Proof.
  apply (spinlock_mutual_exclusion race 1%nat 0%nat); [apply race_reachable | reflexivity].
Defined.

(** The unlocked reads of [holding] are harmless: although [holding]
    loads [lk->lock] and [lk->cpu] without owning the lock, and other harts may
    change both in between, no hart that calls [lock] and [unlock] in turn
    ever panics. *)
Theorem spinlock_no_false_panic s h : reachable s -> cl_pc s h <> Halted.
Proof. intros Hr. destruct (conc_inv_reachable s Hr) as [o []]. auto. Qed.

Lemma spinlock_no_false_panic_witness : cl_pc race 0%nat <> Halted.
Proof. apply spinlock_no_false_panic, race_reachable. Defined.

(** C27 (the lock is always handed on): in every reachable state either the
    lock word is 0, and any hart in the loop takes the lock with its next
    access, or some hart owns it and gives it back within six accesses of its
    own: no reachable state is a deadlock. *)
Theorem spinlock_progress s : reachable s ->
  (cl_lock s = 0 /\ forall h, cl_pc s h = Swap -> cl_pc (hart_step h s) h = SetCpu) \/
  (exists h n, (1 <= n <= 6)%nat /\ owns (cl_pc s h) = true /\
     cl_pc (Nat.iter n (hart_step h) s) h = Idle /\
     cl_lock (Nat.iter n (hart_step h) s) = 0).
Proof.
  intros Hr. destruct (conc_inv_reachable s Hr) as [o Hi]. destruct o as [h|].
  - right. destruct Hi as [_ Ho _ _]. assert (Hown : owns (cl_pc s h) = true) by (by apply Ho).
    exists h, (rank (cl_pc s h)).
    assert (1 <= rank (cl_pc s h) <= 6)%nat by (destruct (cl_pc s h); cbn in *; (lia || done)).
    destruct (rank (cl_pc s h)) as [|n] eqn:E; [lia |].
    split_and!; [lia | lia | done | by apply owner_releases | by apply owner_releases].
  - left. destruct Hi as [Hb _ _ _]. split; [done |]. intros h E.
    unfold hart_step. rewrite E, Hb. cbn. unfold upd. by rewrite decide_True.
Qed.

Lemma spinlock_progress_witness :
  (cl_lock race = 0 /\ forall h, cl_pc race h = Swap -> cl_pc (hart_step h race) h = SetCpu) \/
  (exists h n, (1 <= n <= 6)%nat /\ owns (cl_pc race h) = true /\
     cl_pc (Nat.iter n (hart_step h) race) h = Idle /\
     cl_lock (Nat.iter n (hart_step h) race) = 0).
Proof. apply spinlock_progress, race_reachable. Defined.

(** What hart [h] sees: the lock and its own place. *)
Definition view (h : nat) (s : conc) : Z * option nat * pc := (cl_lock s, cl_cpu s, cl_pc s h).

Definition local_step (h : nat) (v : Z * option nat * pc) : Z * option nat * pc :=
  let '(w, k, p) := v in
  match p with
  | Idle => (w, k, LockReadLock)
  | LockReadLock => (w, k, if w =? 0 then Swap else LockReadCpu)
  | LockReadCpu => (w, k, if decide (k = Some h) then Halted else Swap)
  | Swap => (1, k, if w =? 0 then SetCpu else Swap)
  | SetCpu => (w, Some h, Crit)
  | Crit => (w, k, UnlockReadLock)
  | UnlockReadLock => (w, k, if w =? 0 then Halted else UnlockReadCpu)
  | UnlockReadCpu => (w, k, if decide (k = Some h) then ClearCpu else Halted)
  | ClearCpu => (w, None, SwapOff)
  | SwapOff => (0, k, Idle)
  | Halted => (w, k, Halted)
  end.

Lemma view_step h s : view h (hart_step h s) = local_step h (view h s).
Proof.
  unfold view, hart_step, local_step. destruct (cl_pc s h) eqn:E; cbn; unfold upd;
    rewrite ?decide_True by done; try done; [| by rewrite E].
  destruct (_ =? _); cbn; [by rewrite decide_True | by rewrite E].
Qed.

Lemma view_iter h n s : view h (Nat.iter n (hart_step h) s) = Nat.iter n (local_step h) (view h s).
Proof. induction n as [|n IH]; [done |]. rewrite !Nat.iter_succ. by rewrite view_step, IH. Qed.

(** A hart alone: its accesses of [lock] on a free lock, ... *)
Lemma solo_lock h c : view h c = (0, None, Idle) ->
  view h (Nat.iter 4 (hart_step h) c) = (1, Some h, Crit).
Proof. intros H. rewrite view_iter, H. done. Qed.

(** ... and of [unlock] on a lock it holds. *)
Lemma solo_unlock h c : view h c = (1, Some h, Crit) ->
  view h (Nat.iter 5 (hart_step h) c) = (0, None, Idle).
Proof. intros H. rewrite view_iter, H. cbn. by rewrite decide_True. Qed.

(** The sequential functions are the uninterrupted runs: if a hart makes
    its accesses of [lock] alone, from a free lock to the critical section,
    the lock it leaves is the lock Spinlock.v's [lock] leaves, and its
    accesses of [unlock] leave the lock [unlock] leaves. *)
Theorem solo_run_refines l s c c1 c2 : can_lock l (sy s) ->
  view (tp (sy s)) c = (lk_lock (lk (sy s) l), lk_cpu (lk (sy s) l), Idle) ->
  c1 = Nat.iter 4 (hart_step (tp (sy s))) c ->
  c2 = Nat.iter 5 (hart_step (tp (sy s))) c1 ->
  cl_pc c1 (tp (sy s)) = Crit /\ cl_pc c2 (tp (sy s)) = Idle /\
  wp (lock l) (fun _ s1 =>
    cl_lock c1 = lk_lock (lk (sy s1) l) /\ cl_cpu c1 = lk_cpu (lk (sy s1) l) /\
    wp (unlock l) (fun _ s2 =>
      cl_lock c2 = lk_lock (lk (sy s2) l) /\ cl_cpu c2 = lk_cpu (lk (sy s2) l)) s1) s.
Proof.
  intros Hcan Hv Hc1 Hc2. pose proof Hcan as [_ [Hf1 Hf2]]. rewrite Hf1, Hf2 in Hv.
  pose proof (solo_lock _ _ Hv) as H1. rewrite <- Hc1 in H1.
  pose proof (solo_unlock _ _ H1) as H2. rewrite <- Hc2 in H2. clear Hc1 Hc2.
  injection H1 as Hw1 Hk1 Hp1. injection H2 as Hw2 Hk2 Hp2.
  split_and!; [done | done |]. apply wp_lock; [done |].
  cbn [sy set_sy]. rewrite Hw1, Hk1. unfold sync_lock at 1 2.
  rewrite lk_set_lk_eq. split_and!; [done | done |].
  apply (wp_unlock l (sy s)); [done | done |]. intros y' Hy'. cbn [sy set_sy].
  rewrite (lk_equiv _ _ l Hy'). by rewrite Hw2, Hk2, Hf1, Hf2.
Qed.

Definition solo_lock_demo : conc := Nat.iter 4 (hart_step 2) conc_init.
Definition solo_unlock_demo : conc := Nat.iter 5 (hart_step 2) solo_lock_demo.

Lemma solo_run_refines_witness :
  cl_pc solo_lock_demo 2%nat = Crit /\ cl_pc solo_unlock_demo 2%nat = Idle /\
  wp (lock MemLock) (fun _ s1 =>
    cl_lock solo_lock_demo = lk_lock (lk (sy s1) MemLock)
    /\ cl_cpu solo_lock_demo = lk_cpu (lk (sy s1) MemLock) /\
    wp (unlock MemLock) (fun _ s2 =>
      cl_lock solo_unlock_demo = lk_lock (lk (sy s2) MemLock)
      /\ cl_cpu solo_unlock_demo = lk_cpu (lk (sy s2) MemLock)) s1) lock_demo.
Proof.
  apply (solo_run_refines MemLock lock_demo conc_init solo_lock_demo solo_unlock_demo);
    try reflexivity.
  split; [split |]; vm_compute; intuition congruence.
Defined.
