(* ===== verification/Printf.v ===== *)
(** [printf] and [error] (kprint.c), which serialise on [print_lock], and the
    relation between states that most kernel functions respect. *)
From S2P Require Import Prelude Machine Csr KPrint Spinlock.

Definition printf (fmt : string) (args : list arg) : M unit :=
  h ← gets hang;
  when (h =? 0) (lock PrintLock);;
  vprintf (bytes fmt) args;;
  h2 ← gets hang;
  when (h2 =? 0) (unlock PrintLock).

Definition error (str : string) : M unit :=
  printf ("error: %s" +:+ nl) [AStr (bytes str)].

(** * Frames *)

(** Everything but memory, the page bitmap and the console is as it was, the
    synchronisation state up to a dead [intena]. *)
Record kframe (s s' : kstate) : Prop := {
  kf_start : start_page s' = start_page s;
  kf_kpt : kptable s' = kptable s;
  kf_procs : proctable s' = proctable s;
  kf_pid : curr_pid s' = curr_pid s;
  kf_ticks : ticks s' = ticks s;
  kf_hang : hang s' = hang s;
  kf_tsrc : tsrc s' = tsrc s;
  kf_tpos : tpos s' = tpos s;
  kf_sy : sy s' ≡ sy s
}.

#[global] Instance kframe_preorder : PreOrder kframe.
Proof.
  split; [by split |].
  intros a b c [] []. split; first [congruence | etransitivity; eassumption].
Qed.

Lemma kframe_set_mem s s' m : kframe s s' -> kframe s (set_mem m s').
Proof. intros []. by split. Qed.
Lemma kframe_set_bitmap s s' m : kframe s s' -> kframe s (set_bitmap m s').
Proof. intros []. by split. Qed.
Lemma kframe_set_out s s' m : kframe s s' -> kframe s (set_out m s').
Proof. intros []. by split. Qed.

#[export] Hint Resolve kframe_set_mem kframe_set_bitmap kframe_set_out : kern.
#[export] Hint Extern 1 (kframe ?s ?s) => reflexivity : kern.
#[export] Hint Extern 5 (kframe ?s ?s') =>
  match goal with H : kframe s ?t |- _ => transitivity t; [exact H |] end : kern.

(** [printf] can print: its lock is free, or the kernel is panicking. *)
Definition can_print (s : kstate) : Prop := hang s <> 0 \/ can_lock PrintLock (sy s).

Lemma can_print_frame s s' : kframe s s' -> can_print s -> can_print s'.
Proof.
  intros [] [|]; [left; congruence | right]. by setoid_rewrite kf_sy0.
Qed.

(** What printing changes: the console. *)
Definition printed (s s' : kstate) : Prop :=
  kframe s s' /\ mem s' = mem s /\ mem_bitmap s' = mem_bitmap s
  /\ exists bs, out s' = out s ++ bs.

Lemma wp_printf_exact fmt args bs (Q : unit -> kstate -> Prop) s :
  can_print s -> prints (vprintf (bytes fmt) args) bs ->
  (forall y, y ≡ sy s -> Q tt (set_sy y (set_out (out s ++ bs) s))) -> wp (printf fmt args) Q s.
Proof.
  intros Hc Hbs HQ. unfold printf. wp_step. destruct (hang s =? 0) eqn:Eh; zbool; cbn [when].
  - destruct Hc as [? | Hc]; [done |]. apply wp_bind, wp_lock; [done |].
    apply wp_bind. unfold wp. rewrite Hbs. apply wp_bind, wp_gets. cbn [hang set_out set_sy].
    rewrite Eh. cbn [when Z.eqb]. apply (wp_unlock _ (sy s)); [done | done | exact HQ].
  - apply wp_bind, wp_ret, wp_bind. unfold wp. rewrite Hbs. apply wp_bind, wp_gets.
    cbn [hang set_out]. assert ((hang s =? 0) = false) as -> by lia.
    apply wp_ret. exact (HQ (sy s) (reflexivity _)).
Qed.

Lemma wp_printf fmt args (Q : unit -> kstate -> Prop) s :
  can_print s -> fmt_ok (bytes fmt) args = true ->
  (forall s', printed s s' -> Q tt s') -> wp (printf fmt args) Q s.
Proof.
  intros Hc Hf HQ. destruct (vprintf_prints _ (bytes fmt) args (le_n _) Hf) as [bs Hbs].
  eapply wp_printf_exact; [done | done |]. intros y Hy. apply HQ. split; [by split | eauto].
Qed.

Lemma wp_error str (Q : unit -> kstate -> Prop) s :
  can_print s -> (forall s', printed s s' -> Q tt s') -> wp (error str) Q s.
Proof. intros. by apply wp_printf. Qed.
