(* ===== verification/Mem.v ===== *)
(** Physical memory: mem.c and mem.h.

    The page bitmap and its allocator, and the byte-copying primitives. The
    allocator's promise to its clients is the class [PageAllocator] at the end
    of the file, which [kalloc] and [kfree] implement. *)
From S2P Require Import Prelude Machine Csr KPrint Spinlock Printf.

(** * mem.h *)

Definition MEM_START : Z := 0x80000000.
Definition KERNBASE : Z := 0x80000000.
Definition MEM_END : Z := 0x88000000.
Definition PAGE_SIZE : Z := 4096.
Definition NUM_PAGES : Z := (MEM_END - MEM_START) / PAGE_SIZE.
Definition PGROUNDUP (sz : Z) : Z := Z.land (sz +w (PAGE_SIZE - 1)) (Z.lnot (PAGE_SIZE - 1)).
Definition PGROUNDDOWN (a : Z) : Z := Z.land a (Z.lnot (PAGE_SIZE - 1)).

(** * Symbols of the linker script (kernel.ld) *)

Class Layout := {
  sym_trampoline : Z;
  sym_etext : Z;
  sym_end : Z
}.

(** What kernel.ld guarantees: the trampoline is one page at the end of the
    text, [end] is page aligned, and the image fits in RAM with a page to
    spare. *)
Class LayoutOk (L : Layout) : Prop := {
  lo_tramp : MEM_START < sym_trampoline /\ sym_trampoline mod PAGE_SIZE = 0;
  lo_etext : sym_etext = sym_trampoline + PAGE_SIZE;
  lo_end : sym_etext <= sym_end < MEM_END /\ sym_end mod PAGE_SIZE = 0
}.

(** * Byte primitives *)

(** [for (i = 0; i < num; i++, curr += 1) *curr = value;] *)
Fixpoint memset_loop (n : nat) (m : gmap Z Z) (curr value : Z) : gmap Z Z :=
  match n with
  | O => m
  | S n => memset_loop n (store8 m curr value) (curr +w 1) value
  end.

Definition memset (ptr value num : Z) : M Z :=
  modify (fun s => set_mem (memset_loop (Z.to_nat num) (mem s) ptr value) s);;
  mret ptr.

(** [while (n-- > 0) *d++ = *s++;] *)
Fixpoint move_up (n : nat) (m : gmap Z Z) (d s : Z) : gmap Z Z :=
  match n with
  | O => m
  | S n => move_up n (store8 m d (load8 m s)) (d +w 1) (s +w 1)
  end.

(** [while (n-- > 0) *--d = *--s;] *)
Fixpoint move_down (n : nat) (m : gmap Z Z) (d s : Z) : gmap Z Z :=
  match n with
  | O => m
  | S n => move_down n (store8 m (d -w 1) (load8 m (s -w 1))) (d -w 1) (s -w 1)
  end.

Definition memmove_mem (m : gmap Z Z) (dst src n : Z) : gmap Z Z :=
  if n =? 0 then m
  else if (src <? dst) && (dst <? (src +w n))
  then move_down (Z.to_nat n) m (dst +w n) (src +w n)
  else move_up (Z.to_nat n) m dst src.

Definition memmove (dst src n : Z) : M Z :=
  modify (fun s => set_mem (memmove_mem (mem s) dst src n) s);; mret dst.

Definition memcpy (dst src n : Z) : M Z := memmove dst src n.

(** * The page allocator *)

Definition bit (s : kstate) (i : Z) : Z := get0 0 (mem_bitmap s) i.
Definition set_bit (i v : Z) (s : kstate) : kstate :=
  set_bitmap (<[i := u8 v]> (mem_bitmap s)) s.

Definition page_empty (i : Z) : M Z := gets (fun s => bit s i).

(** The pointer difference is a signed 32-bit number. *)
Definition page_idx (pa : Z) : Z :=
  let addr := PGROUNDDOWN pa in
  let idx := Z.quot (s32 (addr - MEM_START)) PAGE_SIZE in
  if idx <? 0 then -1 else idx.

Definition kfree (pa : Z) : M unit :=
  if negb (pa mod PAGE_SIZE =? 0) then panic "kfree: address not page aligned" else
  start ← gets start_page;
  if (pa <? start) || (MEM_END <=? pa) then
    panic "kfree: address outside the allocatable range"
  else
    let i := page_idx pa in
    memset pa 0 PAGE_SIZE;;
    lock MemLock;;
    b ← gets (fun s => bit s i);
    if negb (b =? 0) then
      unlock MemLock;; panic "kfree: double free"
    else
      modify (set_bit i 1);;
      unlock MemLock.

(** The scan of [kalloc], [k] entries from [i] on. *)
Fixpoint kalloc_scan (k : nat) (i : Z) (s : kstate) : option Z :=
  match k with
  | O => None
  | S k => if negb (bit s i =? 0) then Some i else kalloc_scan k (i + 1) s
  end.

Definition kalloc : M Z :=
  lock MemLock;;
  found ← gets (kalloc_scan (Z.to_nat NUM_PAGES) 0);
  match found with
  | Some i =>
      modify (set_bit i 0);;
      unlock MemLock;;
      mret (u32 (MEM_START + i * PAGE_SIZE))
  | None => unlock MemLock;; mret 0
  end.

Fixpoint kfree_range_loop (fuel : nat) (curr end_ : Z) : M unit :=
  if curr <? end_ then
    match fuel with
    | O => nofuel
    | S fuel => kfree curr;; kfree_range_loop fuel (curr +w PAGE_SIZE) end_
    end
  else mret tt.

Definition kfree_range (start_pa end_pa : Z) : M unit :=
  let curr := PGROUNDUP start_pa in
  let end_ := PGROUNDDOWN end_pa in
  kfree_range_loop (Z.to_nat (U32 / PAGE_SIZE)) curr end_.

Fixpoint clear_bits (n : nat) (i : Z) : M unit :=
  match n with
  | O => mret tt
  | S n => modify (set_bit i 0);; clear_bits n (i + 1)
  end.

(** Debugging aid: a value of [increment] bytes at [a]. *)
Definition load_sized (increment : Z) (m : gmap Z Z) (a : Z) : Z :=
  if increment =? 1 then load8 m a else if increment =? 2 then load16 m a else load32 m a.

Fixpoint print_mem_loop (fuel : nat) (addr len increment i : Z) : M unit :=
  if i <? len then
    match fuel with
    | O => nofuel
    | S fuel =>
        let curr_addr := addr +w i in
        printf "%p: " [AInt curr_addr];;
        val ← gets (fun s => load_sized increment (mem s) curr_addr);
        printf ("%p" +:+ nl) [AInt val];;
        print_mem_loop fuel addr len increment (i + increment)
    end
  else mret tt.

Definition print_mem (addr len increment : Z) : M unit :=
  if negb ((increment =? 1) || (increment =? 2) || (increment =? 4)) then printf "Invalid increment" []
  else print_mem_loop (Z.to_nat len) addr len increment 0.

Definition init_bitmap `{Layout} : M unit :=
  init_lock MemLock "mem";;
  modify (set_start_page (PGROUNDUP sym_end));;
  start ← gets start_page;
  clear_bits (Z.to_nat (page_idx start)) 0;;
  kfree_range start MEM_END.

(** * Byte primitives: what they leave in memory *)

Lemma memset_loop_spec n : forall m p v a, 0 <= p -> p + Z.of_nat n <= U32 ->
  load8 (memset_loop n m p v) a =
    if (p <=? a) && (a <? p + Z.of_nat n) then u8 v else load8 m a.
Proof.
  induction n as [|n IH]; intros m p v a H0 Hn; cbn [memset_loop].
  { zcase; [lia | done]. }
  destruct (decide (n = 0%nat)) as [-> | Hne].
  - cbn [memset_loop]. change (Z.of_nat 1) with 1 in *. destruct (decide (p = a)) as [-> |].
    + rewrite load8_store8_eq. zcase; [done | lia].
    + rewrite load8_store8_ne by done. zcase; [lia | done].
  - rewrite u32_small by lia. rewrite IH by lia.
    destruct (decide (p = a)) as [-> |].
    + rewrite load8_store8_eq. zcase; zcase; (done || lia).
    + rewrite load8_store8_ne by done. zcase; zcase; (done || lia).
Qed.

(** Copying upwards is right unless the destination starts inside the source. *)
Lemma move_up_spec n : forall m d s a, 0 <= d -> d + Z.of_nat n <= U32 -> 0 <= s ->
  s + Z.of_nat n <= U32 -> d <= s \/ s + Z.of_nat n <= d ->
  load8 (move_up n m d s) a =
    if (d <=? a) && (a <? d + Z.of_nat n) then load8 m (s + (a - d)) else load8 m a.
Proof.
  induction n as [|n IH]; intros m d s a Hd Hdn Hs Hsn Hov; cbn [move_up].
  { zcase; [lia | done]. }
  destruct (decide (n = 0%nat)) as [-> | Hne].
  - cbn [move_up]. change (Z.of_nat 1) with 1 in *. destruct (decide (d = a)) as [-> |].
    + rewrite load8_store8_eq. unfold load8 at 1. rewrite u8_idem. zcase; [| lia].
      replace (s + (a - a)) with s by lia. done.
    + rewrite load8_store8_ne by done. zcase; [lia | done].
  - rewrite !u32_small by lia. rewrite IH by lia.
    destruct (decide (d = a)) as [-> |].
    + zcase; [lia |]. rewrite load8_store8_eq. unfold load8 at 1. rewrite u8_idem.
      zcase; [| lia]. replace (s + (a - a)) with s by lia. done.
    + rewrite (load8_store8_ne m d a) by done.
      zcase; zcase; try lia. rewrite load8_store8_ne by lia.
      f_equal. lia.
Qed.

(** Copying downwards, from the ends, is right if the source does not start higher. *)
Lemma move_down_spec n : forall m d s a, 0 <= d -> d + Z.of_nat n < U32 -> 0 <= s ->
  s + Z.of_nat n < U32 -> s <= d ->
  load8 (move_down n m (d + Z.of_nat n) (s + Z.of_nat n)) a =
    if (d <=? a) && (a <? d + Z.of_nat n) then load8 m (s + (a - d)) else load8 m a.
Proof.
  induction n as [|n IH]; intros m d s a Hd Hdn Hs Hsn Hov; cbn [move_down].
  { zcase; [lia | done]. }
  rewrite !u32_small by lia.
  replace (d + Z.of_nat (S n) - 1) with (d + Z.of_nat n) by lia.
  replace (s + Z.of_nat (S n) - 1) with (s + Z.of_nat n) by lia.
  rewrite IH by lia. destruct (decide (a = d + Z.of_nat n)) as [-> |].
  - zcase; [lia |]. rewrite load8_store8_eq. unfold load8 at 1. rewrite u8_idem.
    zcase; [| lia]. unfold load8. do 2 f_equal. lia.
  - rewrite (load8_store8_ne m _ a) by lia.
    zcase; zcase; try lia. by rewrite load8_store8_ne by lia.
Qed.

(** Addresses a C object may occupy: it ends below the top of the space. *)
Definition span_ok (a n : Z) : Prop := 0 <= a /\ 0 <= n /\ a + n < U32.

Lemma memmove_mem_spec m dst src n a : span_ok dst n -> span_ok src n ->
  load8 (memmove_mem m dst src n) a =
    if (dst <=? a) && (a <? dst + n) then load8 m (src + (a - dst)) else load8 m a.
Proof.
  intros (Hd & Hn & Hdn) (Hs & _ & Hsn). unfold memmove_mem. rewrite (u32_small (src + n)) by lia.
  destruct (n =? 0) eqn:E; zbool; [zcase; [lia | done] |].
  assert (Hk : n = Z.of_nat (Z.to_nat n)) by lia. revert Hk. generalize (Z.to_nat n).
  intros k ->.
  destruct ((src <? dst) && (dst <? src + _)) eqn:Eo; zbool.
  - rewrite u32_small by lia. apply move_down_spec; lia.
  - apply move_up_spec; lia.
Qed.

Lemma memmove_unchanged m dst src n : span_ok dst n -> span_ok src n ->
  mem_unchanged (fun a => dst <= a < dst + n) m (memmove_mem m dst src n).
Proof. intros Hd Hs a Ha. rewrite memmove_mem_spec by done. zcase; [lia | done]. Qed.

#[global] Arguments memset_loop : simpl never.
#[global] Arguments memmove_mem : simpl never.

(** ** Pages *)

Lemma PGROUNDDOWN_spec a : PGROUNDDOWN a = a - a mod 4096.
Proof. unfold PGROUNDDOWN. apply land_lnot_4095. Qed.

Lemma PGROUNDUP_spec a : PGROUNDUP a = u32 (a + 4095) - u32 (a + 4095) mod 4096.
Proof. unfold PGROUNDUP. apply (land_lnot_4095 (a +w 4095)). Qed.

Lemma PGROUNDUP_aligned a : a mod 4096 = 0 -> 0 <= a < U32 -> PGROUNDUP a = a.
Proof.
  intros Ha Hr. rewrite PGROUNDUP_spec. unfold U32 in Hr.
  rewrite u32_small by (unfold U32; zlia). zlia.
Qed.

(** A page-aligned address of RAM. *)
Definition ram_page (a : Z) : Prop := a mod PAGE_SIZE = 0 /\ MEM_START <= a < MEM_END.
Definition idx (a : Z) : Z := (a - MEM_START) / PAGE_SIZE.
Definition in_page (p a : Z) : Prop := p <= a < p + PAGE_SIZE.

Lemma page_idx_ram a : MEM_START <= a < MEM_END -> page_idx a = idx a.
Proof.
  intros H. unfold page_idx, idx, MEM_START, MEM_END, PAGE_SIZE in *. rewrite PGROUNDDOWN_spec.
  assert (Hs : s32 (a - a mod 4096 - 0x80000000) = a - a mod 4096 - 0x80000000).
  { unfold s32. rewrite u32_small by (unfold U32; zlia). zcase; [done | zlia]. }
  rewrite Hs. rewrite Z.quot_div_nonneg by zlia. zcase; [zlia |]. zlia.
Qed.

Lemma idx_range a : MEM_START <= a < MEM_END -> 0 <= idx a < NUM_PAGES.
Proof.
  intros H. unfold idx, NUM_PAGES, MEM_START, MEM_END, PAGE_SIZE in *.
  change ((0x88000000 - 0x80000000) / 4096) with 32768. zlia.
Qed.

Lemma idx_inj a b : ram_page a -> ram_page b -> idx a = idx b -> a = b.
Proof. unfold ram_page, idx, MEM_START, MEM_END, PAGE_SIZE. intros. zlia. Qed.

Lemma idx_addr i : 0 <= i < NUM_PAGES ->
  let a := u32 (MEM_START + i * PAGE_SIZE) in ram_page a /\ idx a = i.
Proof.
  intros Hi a. change NUM_PAGES with 32768 in Hi.
  unfold a, ram_page, idx, MEM_START, MEM_END, PAGE_SIZE.
  rewrite u32_small by (unfold U32; lia). zlia.
Qed.

Lemma page_disjoint p q a : ram_page p -> ram_page q -> in_page p a -> in_page q a -> p = q.
Proof. unfold ram_page, in_page, PAGE_SIZE, MEM_START, MEM_END. intros. zlia. Qed.

Lemma ram_page_span a : ram_page a -> span_ok a PAGE_SIZE.
Proof. unfold ram_page, span_ok, PAGE_SIZE, MEM_START, MEM_END, U32. lia. Qed.

(** * The allocator *)

(** Only whole pages between [start_page] and the end of RAM are ever free. *)
Record alloc_ok (s : kstate) : Prop := {
  ao_start : start_page s mod PAGE_SIZE = 0 /\ MEM_START <= start_page s <= MEM_END;
  ao_bits : forall i, bit s i <> 0 -> idx (start_page s) <= i < NUM_PAGES
}.

(** Page [a] is available. *)
Definition avail (s : kstate) (a : Z) : Prop := ram_page a /\ bit s (idx a) <> 0.

(** The allocator may be called. *)
Record kready (s : kstate) : Prop := {
  kr_alloc : alloc_ok s;
  kr_lock : can_lock MemLock (sy s);
  kr_print : can_print s
}.

Lemma kready_frame s s' : kframe s s' -> kready s -> alloc_ok s' -> kready s'.
Proof.
  intros Hf [_ Hl Hp] Ha. split; [done | | by eapply can_print_frame].
  by rewrite (kf_sy _ _ Hf).
Qed.

Lemma alloc_ok_same s s' : start_page s' = start_page s ->
  (forall i, bit s' i <> 0 -> bit s i <> 0) -> alloc_ok s -> alloc_ok s'.
Proof. intros Hs Hb [H1 H2]. split; rewrite Hs; auto. Qed.

Lemma kready_printed s s' : printed s s' -> kready s -> kready s'.
Proof.
  intros (Hf & _ & Hb & _) Hr. eapply kready_frame; [done | done |].
  apply (alloc_ok_same s); [apply Hf | | apply Hr]. intros i. unfold bit. by rewrite Hb.
Qed.

(** What [kalloc] does when it finds no page, and when it returns page [a]. *)
Record alloc_none (s s' : kstate) : Prop := {
  an_frame : kframe s s';
  an_mem : mem s' = mem s;
  an_out : out s' = out s;
  an_bitmap : mem_bitmap s' = mem_bitmap s;
  an_full : forall a, ~ avail s a
}.

Record alloc_some (s : kstate) (a : Z) (s' : kstate) : Prop := {
  as_frame : kframe s s';
  as_mem : mem s' = mem s;
  as_out : out s' = out s;
  as_bitmap : mem_bitmap s' = <[idx a := 0]> (mem_bitmap s);
  as_avail : avail s a;
  as_start : start_page s <= a;
  as_first : forall b, avail s b -> a <= b
}.

(** What [kfree] does to page [a]. *)
Record freed (s : kstate) (a : Z) (s' : kstate) : Prop := {
  fr_frame : kframe s s';
  fr_out : out s' = out s;
  fr_bitmap : mem_bitmap s' = <[idx a := 1]> (mem_bitmap s);
  fr_mem : forall x, load8 (mem s') x =
    if (a <=? x) && (x <? a + PAGE_SIZE) then 0 else load8 (mem s) x
}.

(** A page the kernel has handed out and may take back. *)
Definition owned (s : kstate) (a : Z) : Prop :=
  ram_page a /\ start_page s <= a /\ bit s (idx a) = 0.

Lemma kalloc_scan_spec k : forall i s,
  match kalloc_scan k i s with
  | Some j => i <= j < i + Z.of_nat k /\ bit s j <> 0 /\ (forall x, i <= x < j -> bit s x = 0)
  | None => forall x, i <= x < i + Z.of_nat k -> bit s x = 0
  end.
Proof.
  induction k as [|k IH]; intros i s; cbn [kalloc_scan]; [lia |].
  destruct (negb (bit s i =? 0)) eqn:E; zbool; [split_and!; lia |].
  specialize (IH (i + 1) s). destruct (kalloc_scan k (i + 1) s) as [j|].
  - destruct IH as (Hj & Hb & Hx). split_and!; [lia | lia | done |].
    intros x Hx'. destruct (decide (x = i)) as [-> |]; [done |]. apply Hx. lia.
  - intros x Hx'. destruct (decide (x = i)) as [-> |]; [done |]. apply IH. lia.
Qed.

Lemma wp_kalloc Q s : kready s ->
  (forall s', alloc_none s s' -> Q 0 s') ->
  (forall a s', alloc_some s a s' -> Q a s') -> wp kalloc Q s.
Proof.
  intros Hr HN HS. pose proof Hr as [[Hst Hbits] Hl _]. unfold kalloc.
  apply wp_bind, wp_lock; [done |]. apply wp_bind, wp_gets.
  pose proof (kalloc_scan_spec (Z.to_nat NUM_PAGES) 0
    (set_sy (sync_lock MemLock (sy s)) s)) as Hs.
  rewrite Z2Nat.id in Hs by done. unfold bit in Hs; cbn [mem_bitmap set_sy] in Hs.
  change (get0 0 (mem_bitmap s)) with (bit s) in Hs.
  destruct (kalloc_scan _ _ _) as [i|].
  - destruct Hs as (Hi & Hb & Hx). apply wp_bind, wp_modify, wp_bind.
    apply (wp_unlock _ (sy s)); [done | done |]. intros y' Hy'. apply wp_ret.
    destruct (idx_addr i Hi) as [Hram Hidx]. apply HS. split; cbn; try done.
    + by rewrite Hidx.
    + split; [done |]. by rewrite Hidx.
    + destruct (Hbits i Hb) as [Hle _]. rewrite <- Hidx in Hle. revert Hle Hram Hst.
      generalize (u32 (MEM_START + i * PAGE_SIZE)). intros a.
      unfold ram_page, idx, MEM_START, MEM_END, PAGE_SIZE. intros. zlia.
    + intros b [Hbr Hbb]. destruct (decide (idx b < i)) as [Hlt | Hge].
      { destruct Hbb. apply Hx. split; [apply idx_range, Hbr | done]. }
      rewrite <- Hidx in Hge. revert Hge Hram Hbr.
      generalize (u32 (MEM_START + i * PAGE_SIZE)). intros a.
      unfold ram_page, idx, MEM_START, MEM_END, PAGE_SIZE. intros. zlia.
  - apply wp_bind, (wp_unlock _ (sy s)); [done | done |]. intros y' Hy'. apply wp_ret.
    apply HN. split; cbn; try done.
    intros a [Har Hab]. apply Hab, Hs. rewrite Z.add_0_l. apply idx_range, Har.
Qed.

Lemma memset_page_spec m a x : ram_page a ->
  load8 (memset_loop (Z.to_nat PAGE_SIZE) m a 0) x =
    if (a <=? x) && (x <? a + PAGE_SIZE) then 0 else load8 m x.
Proof.
  intros Ha. pose proof (ram_page_span a Ha) as (? & ? & ?).
  rewrite memset_loop_spec; rewrite ?Z2Nat.id by lia; [done | lia | lia].
Qed.

(** Memory with page [a] cleared. *)
Definition zero_page (m : gmap Z Z) (a : Z) : gmap Z Z :=
  memset_loop (Z.to_nat PAGE_SIZE) m a 0.

Lemma load8_zero_page m a x : ram_page a ->
  load8 (zero_page m a) x = if (a <=? x) && (x <? a + PAGE_SIZE) then 0 else load8 m x.
Proof. exact (memset_page_spec m a x). Qed.

Lemma wp_memset_page a (Q : Z -> kstate -> Prop) s :
  Q a (set_mem (zero_page (mem s) a) s) -> wp (memset a 0 PAGE_SIZE) Q s.
Proof. done. Qed.

#[global] Opaque zero_page.

Lemma wp_kfree a (Q : unit -> kstate -> Prop) s : kready s -> owned s a ->
  (forall s', freed s a s' -> Q tt s') -> wp (kfree a) Q s.
Proof.
  intros [_ Hl _] (Hram & Hst & Hbit) HQ. pose proof Hram as [Hal Hrange].
  unfold kfree. rewrite Hal. cbn [negb Z.eqb]. wp_step.
  assert ((a <? start_page s) || (MEM_END <=? a) = false) as -> by lia.
  apply wp_bind, wp_memset_page, wp_bind, wp_lock; [done |].
  wp_step. unfold bit. cbn [mem_bitmap set_sy set_mem]. rewrite page_idx_ram by done.
  change (get0 0 (mem_bitmap s)) with (bit s). rewrite Hbit. cbn [negb Z.eqb].
  apply wp_bind, wp_modify, (wp_unlock _ (sy s)); [done | done |].
  intros y' Hy'. apply HQ.
  split; [by split | done | done |]. intros x.
  cbn [mem set_sy set_bit set_bitmap set_mem]. exact (load8_zero_page _ _ _ Hram).
Qed.

(** ** The allocator's state after each operation *)

Lemma bit_alloc_some s a s' i : alloc_some s a s' ->
  bit s' i = if decide (i = idx a) then 0 else bit s i.
Proof.
  intros []. unfold bit. rewrite as_bitmap0, get0_insert.
  destruct (decide (idx a = i)), (decide (i = idx a)); congruence.
Qed.

Lemma bit_freed s a s' i : freed s a s' ->
  bit s' i = if decide (i = idx a) then 1 else bit s i.
Proof.
  intros []. unfold bit. rewrite fr_bitmap0, get0_insert.
  destruct (decide (idx a = i)), (decide (i = idx a)); congruence.
Qed.

Lemma kready_alloc_some s a s' : alloc_some s a s' -> kready s -> kready s'.
Proof.
  intros Ha Hr. pose proof (as_frame _ _ _ Ha) as Hf. eapply kready_frame; [done | done |].
  apply (alloc_ok_same s); [apply Hf | | apply Hr].
  intros i. rewrite (bit_alloc_some _ _ _ i Ha). by case_decide.
Qed.

Lemma kready_alloc_none s s' : alloc_none s s' -> kready s -> kready s'.
Proof.
  intros Ha Hr. pose proof (an_frame _ _ Ha) as Hf. eapply kready_frame; [done | done |].
  apply (alloc_ok_same s); [apply Hf | | apply Hr].
  intros i. unfold bit. by rewrite (an_bitmap _ _ Ha).
Qed.

Lemma kready_freed s a s' : freed s a s' -> owned s a -> kready s -> kready s'.
Proof.
  intros Ha (Hram & Hst & _) Hr. pose proof (fr_frame _ _ _ Ha) as Hf.
  eapply kready_frame; [done | done |]. destruct Hr as [[H1 H2] _ _].
  split; rewrite (kf_start _ _ Hf); [done |]. intros i. rewrite (bit_freed _ _ _ i Ha).
  case_decide as Hi; [| auto]. intros _. subst i. split; [| apply idx_range, Hram].
  unfold idx. apply Z.div_le_mono; unfold PAGE_SIZE; lia.
Qed.

Lemma avail_alloc_some s a s' b : alloc_some s a s' -> avail s' b <-> avail s b /\ b <> a.
Proof.
  intros Ha. unfold avail. rewrite (bit_alloc_some _ _ _ (idx b) Ha).
  pose proof (as_avail _ _ _ Ha) as [Hra _].
  case_decide as Hi; split; [naive_solver | | naive_solver | naive_solver].
  intros [[Hrb _] Hne]. destruct Hne. by apply idx_inj.
Qed.

Lemma avail_freed s a s' b : freed s a s' -> owned s a -> avail s' b <-> avail s b \/ b = a.
Proof.
  intros Ha (Hra & _ & Hba). unfold avail. rewrite (bit_freed _ _ _ (idx b) Ha).
  case_decide as Hi.
  - split; [| intros [[? ?] | ->]; split; auto; lia].
    intros [Hrb _]. right. by apply idx_inj.
  - split; [auto |]. intros [? | ->]; [done | done].
Qed.

Lemma owned_alloc_some s a s' : alloc_some s a s' -> owned s' a.
Proof.
  intros Ha. pose proof Ha as [Hf _ _ _ [Hra _] Hst _]. split_and!; [done | |].
  - by rewrite (kf_start _ _ Hf).
  - rewrite (bit_alloc_some _ _ _ _ Ha). by case_decide.
Qed.

Lemma owned_freed s a s' b : freed s a s' -> owned s a -> owned s b -> b <> a -> owned s' b.
Proof.
  intros Ha (Hra & _) (Hrb & Hst & Hb) Hne. split_and!; [done | |].
  - by rewrite (kf_start _ _ (fr_frame _ _ _ Ha)).
  - rewrite (bit_freed _ _ _ _ Ha). case_decide as Hi; [| done].
    destruct Hne. by apply idx_inj.
Qed.

Lemma owned_alloc_keep s a s' b : alloc_some s a s' -> owned s b -> owned s' b.
Proof.
  intros Ha (Hrb & Hst & Hb). split_and!; [done | |].
  - by rewrite (kf_start _ _ (as_frame _ _ _ Ha)).
  - rewrite (bit_alloc_some _ _ _ _ Ha). by case_decide.
Qed.

Lemma owned_not_avail s a : owned s a -> ~ avail s a.
Proof. intros (_ & _ & H) [_ ?]. done. Qed.

(** * What the allocator promises its clients *)

Class PageAllocator (alloc : M Z) (dealloc : Z -> M unit) : Prop := {
  pa_alloc Q s : kready s -> (forall s', alloc_none s s' -> Q 0 s') ->
    (forall a s', alloc_some s a s' -> Q a s') -> wp alloc Q s;
  pa_free a (Q : unit -> kstate -> Prop) s : kready s -> owned s a ->
    (forall s', freed s a s' -> Q tt s') -> wp (dealloc a) Q s
}.

#[global] Instance bitmap_allocator : PageAllocator kalloc kfree.
Proof. split; [apply wp_kalloc | apply wp_kfree]. Qed.

(** * Freeing a range and booting *)

(** [s'] is [s] with the pages of [[lo, hi)] free and zero. *)
Record range_freed (lo hi : Z) (s s' : kstate) : Prop := {
  rf_frame : kframe s s';
  rf_ready : kready s';
  rf_out : out s' = out s;
  rf_avail : forall b, avail s' b <-> avail s b \/ (ram_page b /\ lo <= b < hi);
  rf_mem : forall x, load8 (mem s') x =
    if (lo <=? x) && (x <? hi) then 0 else load8 (mem s) x
}.

Lemma range_freed_step lo hi s s1 s2 : ram_page lo -> lo < hi -> hi mod PAGE_SIZE = 0 ->
  owned s lo -> freed s lo s1 -> range_freed (lo + PAGE_SIZE) hi s1 s2 ->
  range_freed lo hi s s2.
Proof.
  intros Hlo Hlt Hhi Hown Hf [F R O A Mm].
  assert (lo + PAGE_SIZE <= hi) by (destruct Hlo; unfold PAGE_SIZE in *; zlia).
  split; [| done | | |].
  - transitivity s1; [apply Hf | done].
  - by rewrite O, (fr_out _ _ _ Hf).
  - intros b. rewrite A, (avail_freed s lo s1 b Hf Hown).
    unfold ram_page, PAGE_SIZE in *. split.
    + intros [[? | ->] | ?]; [by left | right; lia | right; lia].
    + intros [? | [Hb Hr]]; [by left; left |].
      destruct (decide (b = lo)) as [-> |]; [by left; right | right; split; [done | zlia]].
  - intros x. rewrite Mm, (fr_mem _ _ _ Hf). unfold PAGE_SIZE, ram_page in *.
    repeat zcase; try done; exfalso; lia.
Qed.

Lemma kfree_range_loop_spec fuel : forall lo hi s,
  lo mod PAGE_SIZE = 0 -> hi mod PAGE_SIZE = 0 -> MEM_START <= lo <= hi -> hi <= MEM_END ->
  kready s -> (forall a, ram_page a -> lo <= a < hi -> owned s a) ->
  (hi - lo) / PAGE_SIZE <= Z.of_nat fuel ->
  wp (kfree_range_loop fuel lo hi) (fun _ s' => range_freed lo hi s s') s.
Proof.
  induction fuel as [|fuel IH]; intros lo hi s Hlo Hhi Hr Hend Hk Hown Hfuel;
    cbn [kfree_range_loop]; destruct (lo <? hi) eqn:E; zbool.
  1: unfold PAGE_SIZE in *; zlia.
  1, 3: apply wp_ret; split; try done;
    [intros b; split; [by left | intros [? | [_ ?]]; [done | lia]]
    | intros x; zcase; [lia | done]].
  assert (Hram : ram_page lo) by (unfold ram_page; lia).
  assert (Hol : owned s lo) by (apply Hown; [done | lia]).
  apply wp_bind, wp_kfree; [done | done |]. intros s1 Hs1.
  assert (Hn : lo +w PAGE_SIZE = lo + PAGE_SIZE)
    by (apply u32_small; unfold U32, MEM_START, MEM_END, PAGE_SIZE in *; lia).
  rewrite Hn. eapply wp_mono.
  - apply IH; unfold PAGE_SIZE, MEM_START, MEM_END in *; try zlia.
    + by eapply kready_freed.
    + intros a Ha Har. eapply owned_freed; [done | done | apply Hown; [done | lia] | lia].
  - intros [] s2 Hs2. by eapply range_freed_step.
Qed.

Lemma clear_bits_spec n : forall i s, (forall j, bit s j = 0) ->
  wp (clear_bits n i) (fun _ s' => exists bm, s' = set_bitmap bm s
     /\ forall j, bit s' j = 0) s.
Proof.
  induction n as [|n IH]; intros i s Hz; cbn [clear_bits].
  - apply wp_ret. exists (mem_bitmap s). split; [by destruct s | done].
  - apply wp_bind, wp_modify. eapply wp_mono; [apply IH |].
    + intros j. unfold bit, set_bit. cbn. rewrite get0_insert. by case_decide; [| apply Hz].
    + intros [] s' (bm & -> & Hb). exists bm. split; [by destruct s | done].
Qed.

(** * Properties *)

(** [memmove] is right also when the areas overlap: afterwards every
    byte of the destination is what the corresponding source byte was before
    the call, every other byte is unchanged, and the destination is returned. *)
Theorem memmove_correct dst src n s : span_ok dst n -> span_ok src n ->
  exists m', memmove dst src n s = Ok dst (set_mem m' s) /\
    forall a, load8 m' a =
      if (dst <=? a) && (a <? dst + n) then load8 (mem s) (src + (a - dst))
      else load8 (mem s) a.
Proof.
  intros Hd Hs. exists (memmove_mem (mem s) dst src n). split; [done |].
  intros a. by apply memmove_mem_spec.
Qed.

Definition boot_ram : kstate := set_mem (<[0x80000000 := 7]> (<[0x80000001 := 9]> ∅)) lock_demo.

(** Overlapping areas, destination above the source. *)
Lemma memmove_correct_witness :
  exists m', memmove 0x80000001 0x80000000 2 boot_ram = Ok 0x80000001 (set_mem m' boot_ram) /\
    forall a, load8 m' a =
      if (0x80000001 <=? a) && (a <? 0x80000001 + 2)
      then load8 (mem boot_ram) (0x80000000 + (a - 0x80000001))
      else load8 (mem boot_ram) a.
Proof. apply memmove_correct; unfold span_ok, U32; lia. Defined.

(** C23 ([kalloc] hands out the lowest free page): it returns 0 exactly when no
    page is available; otherwise it returns a page-aligned address of RAM, at
    or above [start_page], that was available, is the lowest such and is the
    only page that stops being available. Memory is not touched. *)
Theorem kalloc_correct s : kready s ->
  wp kalloc (fun a s' => mem s' = mem s /\ kframe s s' /\ kready s' /\
    (a = 0 /\ (forall b, ~ avail s b) /\ mem_bitmap s' = mem_bitmap s
     \/ a <> 0 /\ ram_page a /\ start_page s <= a /\ avail s a
        /\ (forall b, avail s b -> a <= b)
        /\ (forall b, avail s' b <-> avail s b /\ b <> a))) s.
Proof.
  intros Hr. apply pa_alloc; [done | |].
  - intros s' Hs'. split_and!; [apply Hs' | apply Hs' | by eapply kready_alloc_none |].
    left. split_and!; [done | apply Hs' | apply Hs'].
  - intros a s' Hs'. split_and!; [apply Hs' | apply Hs' | by eapply kready_alloc_some |].
    right. pose proof (as_avail _ _ _ Hs') as [Hram Hav].
    split_and!; [destruct Hram; unfold MEM_START in *; lia | done | apply Hs' |
      apply Hs' | apply Hs' |].
    intros b. by apply avail_alloc_some.
Qed.

(** A machine with pages 3 and 5 of RAM free. *)
Definition two_pages : kstate :=
  set_start_page 0x80001000 (set_bitmap (<[5 := 1]> (<[3 := 1]> ∅)) lock_demo).

Lemma two_pages_ready : kready two_pages.
Proof.
  assert (hart_ok (sy two_pages)) by (split; vm_compute; intuition congruence).
  split; [split | by split | right; by split]; [vm_compute; intuition congruence |].
  intros i. unfold bit, two_pages. cbn [mem_bitmap set_start_page set_bitmap start_page].
  rewrite !get0_insert. change NUM_PAGES with 32768. change (idx 0x80001000) with 1.
  repeat case_decide; subst; [lia | lia | done].
Qed.

Lemma kalloc_correct_witness :
  wp kalloc (fun a s' => mem s' = mem two_pages /\ kframe two_pages s' /\ kready s' /\
    (a = 0 /\ (forall b, ~ avail two_pages b) /\ mem_bitmap s' = mem_bitmap two_pages
     \/ a <> 0 /\ ram_page a /\ start_page two_pages <= a /\ avail two_pages a
        /\ (forall b, avail two_pages b -> a <= b)
        /\ (forall b, avail s' b <-> avail two_pages b /\ b <> a))) two_pages.
Proof. apply (kalloc_correct two_pages), two_pages_ready. Defined.

(** C24 ([kfree] takes back exactly what was handed out): a page that is in
    the allocatable range and not free becomes available, zeroed, and nothing
    else changes; a misaligned address, one outside the range and a page that
    is already free each panic with their message. *)
Theorem kfree_correct pa s : kready s ->
  (owned s pa -> wp (kfree pa) (fun _ s' => kready s' /\ freed s pa s' /\
     forall b, avail s' b <-> avail s b \/ b = pa) s) /\
  (pa mod PAGE_SIZE <> 0 -> panics (kfree pa) "kfree: address not page aligned" s) /\
  (pa mod PAGE_SIZE = 0 -> pa < start_page s \/ MEM_END <= pa ->
     panics (kfree pa) "kfree: address outside the allocatable range" s) /\
  (avail s pa -> start_page s <= pa -> panics (kfree pa) "kfree: double free" s).
Proof.
  intros Hr. split_and!.
  - intros Ho. apply pa_free; [done | done |]. intros s' Hf.
    split_and!; [by eapply kready_freed | done |]. intros b. by apply avail_freed.
  - intros Hm. unfold kfree. apply Z.eqb_neq in Hm. rewrite Hm. apply panic_panics.
  - intros Hm Ho. unfold kfree. rewrite Hm. cbn [negb Z.eqb]. apply panics_bind, wp_gets.
    assert ((pa <? start_page s) || (MEM_END <=? pa) = true) as -> by lia. apply panic_panics.
  - intros [[Hm Hram] Hb] Hs. unfold kfree. rewrite Hm. cbn [negb Z.eqb].
    apply panics_bind, wp_gets.
    assert ((pa <? start_page s) || (MEM_END <=? pa) = false) as -> by lia.
    apply panics_bind, wp_memset_page, panics_bind.
    apply wp_lock; [apply Hr |]. apply panics_bind, wp_gets. unfold bit.
    cbn [mem_bitmap set_sy set_mem]. rewrite page_idx_ram by done.
    change (get0 0 (mem_bitmap s)) with (bit s). apply Z.eqb_neq in Hb. rewrite Hb. cbn [negb].
    apply panics_bind, (wp_unlock _ (sy s)); [apply Hr | done |].
    intros y' _. apply panic_panics.
Qed.

Lemma kfree_correct_witness :
  wp (kfree 0x80004000) (fun _ s' => kready s' /\ freed two_pages 0x80004000 s' /\
     forall b, avail s' b <-> avail two_pages b \/ b = 0x80004000) two_pages.
Proof.
  refine (proj1 (kfree_correct 0x80004000 two_pages two_pages_ready) _).
  vm_compute. intuition congruence.
Defined.

(** What [init_bitmap] leaves alone besides. *)
Lemma wp_init_bitmap `{L : Layout} {HL : LayoutOk L} s :
  (forall i, bit s i = 0) -> hart_ok (sy s) -> can_print s ->
  wp init_bitmap (fun _ s' => kready s' /\ start_page s' = sym_end /\ out s' = out s
    /\ (forall b, avail s' b <-> ram_page b /\ sym_end <= b)
    /\ (forall x, load8 (mem s') x =
          if (sym_end <=? x) && (x <? MEM_END) then 0 else load8 (mem s) x)
    /\ kframe (set_start_page sym_end (set_sy (set_lk MemLock (mk_spinlock 0 None "mem") (sy s)) s)) s') s.
Proof.
  intros Hz Hok Hp. destruct HL as [[Ht _] Het [[He1 He2] Hea]].
  assert (Hup : PGROUNDUP sym_end = sym_end).
  { apply PGROUNDUP_aligned; [done |]. unfold MEM_START, MEM_END, PAGE_SIZE, U32 in *. lia. }
  unfold init_bitmap, init_lock. apply wp_bind, wp_modify, wp_bind, wp_modify, wp_bind, wp_gets.
  cbn [start_page set_start_page]. rewrite Hup. apply wp_bind.
  eapply wp_mono; [apply clear_bits_spec; exact Hz |]. intros [] s1 (bm & -> & Hb1).
  unfold kfree_range. rewrite Hup. set (s1 := set_bitmap bm _) in *.
  assert (Hr1 : kready s1).
  { split; [split | split |].
    - cbn. unfold MEM_START, MEM_END, PAGE_SIZE in *. lia.
    - intros i. by rewrite Hb1.
    - destruct Hok. by split.
    - unfold lk_free, s1. cbn [sy set_bitmap set_start_page set_sy]. by rewrite lk_set_lk_eq.
    - destruct Hp as [? | [? Hf]]; [by left | right]. split; [by destruct Hok |].
      unfold lk_free, s1. cbn [sy set_bitmap set_start_page set_sy].
      by rewrite lk_set_lk_ne. }
  change (PGROUNDDOWN MEM_END) with MEM_END.
  eapply wp_mono; [apply kfree_range_loop_spec; try done |].
  - unfold MEM_START, MEM_END, PAGE_SIZE in *. lia.
  - intros a Ha Har. split_and!; [done | cbn; lia | apply Hb1].
  - rewrite Z2Nat.id by done. unfold MEM_END, MEM_START, PAGE_SIZE, U32 in *.
    change (4294967296 / 4096) with 1048576. zlia.
  - intros [] s' [F R O A Mm].
    split_and!; [done | apply F | done | | done | by destruct F].
    intros b. rewrite A. unfold avail. rewrite Hb1. split.
    + intros [[_ []] | [? ?]]; [done | split; [done | lia]].
    + intros [Hb ?]. right. split; [done |]. destruct Hb. lia.
Qed.

(** Boot: on a zeroed [.bss] with interrupts in a sound state,
    [init_bitmap] returns with the allocator ready: the available pages are
    exactly the page-aligned addresses from [end] to the end of RAM, each of
    them zeroed, and no other byte of memory has changed. *)
Theorem init_bitmap_correct `{L : Layout} {HL : LayoutOk L} s :
  (forall i, bit s i = 0) -> hart_ok (sy s) -> can_print s ->
  wp init_bitmap (fun _ s' => kready s' /\ start_page s' = sym_end /\ out s' = out s
    /\ (forall b, avail s' b <-> ram_page b /\ sym_end <= b)
    /\ (forall x, load8 (mem s') x =
          if (sym_end <=? x) && (x <? MEM_END) then 0 else load8 (mem s) x)) s.
Proof.
  intros Hz Hok Hp. eapply wp_mono; [by apply wp_init_bitmap |]. intros _ s' (G1 & G2 & G3 & G4 & G5 & _). done.
Qed.

(** The last three pages of RAM are free after boot. *)
#[export] Instance tiny_layout : Layout :=
  {| sym_trampoline := 0x80001000; sym_etext := 0x80002000; sym_end := 0x87FFD000 |}.
#[export] Instance tiny_layout_ok : LayoutOk tiny_layout.
Proof. split; vm_compute; intuition congruence. Qed.

Lemma init_bitmap_correct_witness :
  wp init_bitmap (fun _ s' => kready s' /\ start_page s' = sym_end /\ out s' = out boot_ram
    /\ (forall b, avail s' b <-> ram_page b /\ sym_end <= b)
    /\ (forall x, load8 (mem s') x =
          if (sym_end <=? x) && (x <? MEM_END) then 0 else load8 (mem boot_ram) x)) boot_ram.
Proof.
  apply (init_bitmap_correct boot_ram); [done | split; vm_compute; intuition congruence |].
  right. split; [split |]; vm_compute; intuition congruence.
Defined.
