(* ===== verification/Vm.v ===== *)
(** Virtual memory, the functions of vm.c and vm.h.

    Sv32 page tables live in byte memory: a table is a page of 1024 little-endian
    words, a page-table pointer is its physical address, and a pointer to an
    entry is the entry's address, 0 standing for [NULL]. Their properties are
    in PageTable.v, UserMem.v and UserSpace.v. *)
From S2P Require Import Prelude Machine Csr KPrint Spinlock Printf Mem.

(** * vm.h *)

Definition PTE_V : Z := Z.shiftl 1 0.
Definition PTE_R : Z := Z.shiftl 1 1.
Definition PTE_W : Z := Z.shiftl 1 2.
Definition PTE_X : Z := Z.shiftl 1 3.
Definition PTE_U : Z := Z.shiftl 1 4.
Definition PTE2PA (pte : Z) : Z := u32 (Z.shiftl (Z.shiftr (u32 pte) 10) 12).
Definition PA2PTE (pa : Z) : Z := u32 (Z.shiftl (Z.shiftr (u32 pa) 12) 10).
Definition PTE_FLAGS (pte : Z) : Z := Z.land pte 0x3FF.

Definition MAX_VA_ADDR : Z := 0xFFFFFFFF.
Definition USER_BASE : Z := 0x1000.
Definition TRAMPOLINE : Z := MAX_VA_ADDR - PAGE_SIZE + 1.
Definition TRAPFRAME : Z := TRAMPOLINE - PAGE_SIZE.
Definition USER_STACK_TOP : Z := TRAPFRAME - PAGE_SIZE.
Definition MAKE_SATP (pa : Z) : Z :=
  Z.lor (Z.shiftl 1 31) (Z.land (Z.shiftr pa 12) 0x003FFFFF).

(** uart.h *)
Definition UART_0 : Z := 0x10000000.

(** Loads and stores of page-table entries. *)
Definition ld (a : Z) : M Z := gets (fun s => load32 (mem s) a).
Definition st (a v : Z) : M unit := modify (fun s => set_mem (store32 (mem s) a v) s).

Definition valid (pte : Z) : bool := negb (Z.land pte PTE_V =? 0).
Definition vpn1 (va : Z) : Z := Z.land (Z.shiftr va 22) 0x3ff.
Definition vpn0 (va : Z) : Z := Z.land (Z.shiftr va 12) 0x3ff.

(** * Walking and mapping *)

Definition find_pte (pt va : Z) (alloc : bool) : M Z :=
  let pte1 := pt +w 4 * vpn1 va in
  e ← ld pte1;
  if valid e then mret (PTE2PA e +w 4 * vpn0 va)
  else if negb alloc then mret 0
  else
    pt2 ← kalloc;
    if pt2 =? 0 then error "find_pte: NULL address";; mret 0
    else
      memset pt2 0 PAGE_SIZE;;
      st pte1 (Z.lor (PA2PTE pt2) PTE_V);;
      mret (pt2 +w 4 * vpn0 va).

Definition mappage (pt va pa flags : Z) : M Z :=
  if negb (va mod PAGE_SIZE =? 0) then panic "mappage: va not aligned"
  else if negb (pa mod PAGE_SIZE =? 0) then panic "mappage: pa not aligned"
  else
    pte ← find_pte pt va true;
    if pte =? 0 then mret 0
    else
      v ← ld pte;
      if valid v then panic "mappage: remap of an already-mapped va"
      else
        st pte (u32 (Z.lor (Z.lor (PA2PTE pa) flags) PTE_V));;
        mret pte.

(** [for (curr_va = va; curr_va != end; ...)]: [fuel] is the number of pages. *)
Fixpoint mappages_loop (fuel : nat) (pt curr_va end_ pa flags : Z) : M Z :=
  if curr_va =? end_ then mret 0
  else
    match fuel with
    | O => nofuel
    | S fuel =>
        pte ← mappage pt curr_va pa flags;
        if pte =? 0 then error "mappages: failed to map va to pa";; mret (-1)
        else mappages_loop fuel pt (curr_va +w PAGE_SIZE) end_ (pa +w PAGE_SIZE) flags
    end.

Definition mappages (pt va pa size flags : Z) : M Z :=
  if negb (va mod PAGE_SIZE =? 0) then error "mappages: va not aligned";; mret (-1)
  else if negb (pa mod PAGE_SIZE =? 0) then error "mappages: pa not aligned";; mret (-1)
  else if negb (size mod PAGE_SIZE =? 0) then error "mappages: size not aligned";; mret (-1)
  else if size =? 0 then error "mappages: size 0";; mret (-1)
  else mappages_loop (Z.to_nat (size / PAGE_SIZE)) pt va (va +w size) pa flags.

Definition ptcreate : M Z :=
  pt ← kalloc;
  if pt =? 0 then mret 0 else memset pt 0 PAGE_SIZE;; mret pt.

(** * The kernel's own table *)

Definition kptable_make `{Layout} : M Z :=
  kpt ← kalloc;
  memset kpt 0 PAGE_SIZE;;
  mappages kpt UART_0 UART_0 PAGE_SIZE (Z.lor PTE_R PTE_W);;
  let etext_aligned := PGROUNDUP sym_etext in
  let text_size := etext_aligned -w KERNBASE in
  mappages kpt KERNBASE KERNBASE text_size (Z.lor PTE_R PTE_X);;
  mappages kpt etext_aligned etext_aligned (MEM_END -w etext_aligned) (Z.lor PTE_R PTE_W);;
  mret kpt.

Definition init_kptable `{Layout} : M unit :=
  kpt ← kptable_make; modify (set_kptable kpt).

Definition set_satp (pt : Z) : M unit :=
  let root_ppn := Z.land (Z.shiftr pt 12) 0x003FFFFF in
  w_satp (Z.lor (Z.shiftl 1 31) root_ppn).

Definition init_kvmhart : M unit := kpt ← gets kptable; set_satp kpt.

Definition paging_status : M Z := x ← r_satp; mret (Z.land (Z.shiftr x 31) 1).

(** Debug aid: prints where [va] maps. *)
Definition va2pa (pt va : Z) : M unit :=
  e ← ld (pt +w 4 * vpn1 va);
  let table := u32 (Z.shiftl (Z.shiftr e 10) 12) in
  e0 ← ld (table +w 4 * vpn0 va);
  let mapped_pa := u32 (Z.shiftl (Z.shiftr e0 10) 12) in
  printf ("mapping of va %p to pa %p" +:+ nl) [AInt va; AInt mapped_pa].

(** * User memory *)

Definition find_user_pa (pt va need : Z) : M Z :=
  pte ← find_pte pt va false;
  if pte =? 0 then mret 0
  else
    v ← ld pte;
    let want := Z.lor (Z.lor PTE_V PTE_U) need in
    if negb (Z.land v want =? want) then mret 0
    else mret (PTE2PA v +w Z.land va 0xFFF).

Definition find_pa (pt va : Z) : M Z := find_user_pa pt va 0.

(** The chunk of a page that one pass copies. *)
Definition chunk (pa len : Z) : Z :=
  let offset := pa mod PAGE_SIZE in
  let n := PAGE_SIZE - offset in
  if len <? n then len else n.

(** Each pass copies at least one byte: [len] passes are enough. *)
Fixpoint copyin_loop (fuel : nat) (pt dst src_va len : Z) : M Z :=
  if len <=? 0 then mret 0
  else
    match fuel with
    | O => nofuel
    | S fuel =>
        src_pa ← find_user_pa pt src_va PTE_R;
        if src_pa =? 0 then mret (-1)
        else
          let n := chunk src_pa len in
          memmove dst src_pa n;;
          copyin_loop fuel pt (dst +w n) (src_va +w n) (len - n)
    end.

Definition copyin (pt dst src_va len : Z) : M Z :=
  copyin_loop (Z.to_nat len) pt dst src_va len.

Fixpoint copyout_loop (fuel : nat) (pt dst_va src len : Z) : M Z :=
  if len <=? 0 then mret 0
  else
    match fuel with
    | O => nofuel
    | S fuel =>
        dst_pa ← find_user_pa pt dst_va PTE_W;
        if dst_pa =? 0 then mret (-1)
        else
          let n := chunk dst_pa len in
          memmove dst_pa src n;;
          copyout_loop fuel pt (dst_va +w n) (src +w n) (len - n)
    end.

Definition copyout (pt dst_va src len : Z) : M Z :=
  copyout_loop (Z.to_nat len) pt dst_va src len.

(** The inner loop of [copyinstr] over the [n] bytes of one page: the memory,
    [dst] and [max] afterwards and whether a NUL was copied. *)
Fixpoint copystr_page (n : nat) (m : gmap Z Z) (p dst max : Z) : gmap Z Z * Z * Z * bool :=
  match n with
  | O => (m, dst, max, false)
  | S n =>
      if load8 m p =? 0 then (store8 m dst 0, dst, max, true)
      else copystr_page n (store8 m dst (load8 m p)) (p +w 1) (dst +w 1) (max - 1)
  end.

Fixpoint copyinstr_loop (fuel : nat) (pt dst src_va max : Z) : M Z :=
  if max <=? 0 then mret (-1)
  else
    match fuel with
    | O => nofuel
    | S fuel =>
        src_pa ← find_user_pa pt src_va PTE_R;
        if src_pa =? 0 then mret (-1)
        else
          let n := chunk src_pa max in
          m ← gets mem;
          let '(m', dst', max', null) := copystr_page (Z.to_nat n) m src_pa dst max in
          modify (set_mem m');;
          if (null : bool) then mret 0
          else copyinstr_loop fuel pt dst' (src_va +w n) max'
    end.

Definition copyinstr (pt dst src_va max : Z) : M Z :=
  copyinstr_loop (Z.to_nat max) pt dst src_va max.

(** * User address spaces *)

Fixpoint uvmunmap_loop (fuel : nat) (pt curr end_ : Z) (free : bool) : M unit :=
  if curr <? end_ then
    match fuel with
    | O => nofuel
    | S fuel =>
        pte ← find_pte pt curr false;
        v ← (if pte =? 0 then mret 0 else ld pte);
        when (valid v)
          (when free (kfree (PTE2PA v));; st pte 0);;
        uvmunmap_loop fuel pt (curr +w PAGE_SIZE) end_ free
    end
  else mret tt.

Definition uvmunmap (pt va size : Z) (free : bool) : M unit :=
  if negb (va mod PAGE_SIZE =? 0) || negb (size mod PAGE_SIZE =? 0) then
    panic "uvmunmap: not aligned"
  else uvmunmap_loop (Z.to_nat (size / PAGE_SIZE)) pt va (va +w size) free.

(** [for (int i = 0; i < 1024; i++)]: [k] entries from [i] on. *)
Fixpoint freewalk_loop (k : nat) (pt i : Z) : M unit :=
  match k with
  | O => mret tt
  | S k =>
      pte1 ← ld (pt +w 4 * i);
      when (valid pte1) (kfree (PTE2PA pte1));;
      freewalk_loop k pt (i + 1)
  end.

Definition freewalk (pt : Z) : M unit :=
  freewalk_loop (Z.to_nat 1024) pt 0;; kfree pt.

Definition uvmfree (pt size : Z) : M unit :=
  if negb (size mod PAGE_SIZE =? 0) then panic "uvmfree: size not aligned"
  else
    when (USER_BASE <? size) (uvmunmap pt USER_BASE (size - USER_BASE) true);;
    uvmunmap pt (USER_STACK_TOP - PAGE_SIZE) PAGE_SIZE true;;
    freewalk pt.

Fixpoint uvmalloc_loop (fuel : nat) (pt start curr newsz xperm : Z) : M Z :=
  if curr <? newsz then
    match fuel with
    | O => nofuel
    | S fuel =>
        mem ← kalloc;
        if mem =? 0 then uvmunmap pt start (curr -w start) true;; mret 0
        else
          memset mem 0 PAGE_SIZE;;
          r ← mappages pt curr mem PAGE_SIZE (Z.lor (Z.lor PTE_R PTE_U) xperm);
          if negb (r =? 0) then
            kfree mem;; uvmunmap pt start (curr -w start) true;; mret 0
          else uvmalloc_loop fuel pt start (curr +w PAGE_SIZE) newsz xperm
    end
  else mret newsz.

Definition uvmalloc (pt oldsz newsz xperm : Z) : M Z :=
  if newsz <? oldsz then mret oldsz
  else
    let start := PGROUNDUP oldsz in
    uvmalloc_loop (Z.to_nat ((newsz - start + PAGE_SIZE - 1) / PAGE_SIZE))
      pt start start newsz xperm.
