(* ===== verification/PageTable.v ===== *)
(** Page tables as address spaces.

    A two-level table in memory represents the map from virtual page numbers
    to entries that [pte_at] reads off: 0 where nothing is mapped. [pt_wf] says
    which memory the table owns; [find_pte], [mappage] and [mappages] are shown
    to implement lookup and insertion of that map, without touching any other
    page and taking pages from the allocator only for new tables. *)
From S2P Require Import Prelude Machine Csr KPrint Spinlock Printf Mem Vm.

(** * Entries *)

Lemma land_1 x : Z.land x 1 = x mod 2.
Proof. change 1 with (Z.ones 1). rewrite land_ones_mod by lia. done. Qed.

Lemma lor_1 f : 0 <= f -> Z.lor f 1 = f / 2 * 2 + 1.
Proof.
  intros Hf. rewrite (Z.div_mod f 2) at 1 by lia. rewrite (Z.mul_comm 2).
  change 2 with (2 ^ 1) at 2. rewrite <- (lor_shifted_add _ _ 1) by (cbn; zlia).
  rewrite <- Z.lor_assoc. change (2 ^ 1) with 2.
  assert (Z.lor (f mod 2) 1 = 1) as ->.
  { assert (f mod 2 = 0 \/ f mod 2 = 1) as [-> | ->] by zlia; done. }
  apply (lor_shifted_add _ 1 1); lia.
Qed.

Lemma valid_odd e : valid e = negb (e mod 2 =? 0).
Proof. unfold valid. change PTE_V with 1. by rewrite land_1. Qed.

Lemma valid_0 : valid 0 = false.
Proof. done. Qed.

Lemma PTE2PA_spec e : 0 <= e < U32 -> PTE2PA e = u32 (e / 1024 * 4096).
Proof.
  intros He. unfold PTE2PA. rewrite (u32_small e) by done.
  by rewrite Z.shiftl_mul_pow2, Z.shiftr_div_pow2 by lia.
Qed.

Lemma PA2PTE_spec pa : 0 <= pa < U32 -> PA2PTE pa = pa / 4096 * 1024.
Proof.
  intros Hp. unfold PA2PTE. rewrite (u32_small pa) by done.
  rewrite Z.shiftl_mul_pow2, Z.shiftr_div_pow2 by lia. change (2 ^ 12) with 4096.
  change (2 ^ 10) with 1024. apply u32_small. unfold U32 in *. zlia.
Qed.

(** The entry [mappage] writes. *)
Definition mk_pte (pa flags : Z) : Z := u32 (Z.lor (Z.lor (PA2PTE pa) flags) PTE_V).

Lemma mk_pte_value pa flags : 0 <= pa < U32 -> 0 <= flags < 1024 ->
  mk_pte pa flags = pa / 4096 * 1024 + (flags / 2 * 2 + 1).
Proof.
  intros Hp Hf. unfold mk_pte. rewrite PA2PTE_spec by done. change PTE_V with 1.
  rewrite <- Z.lor_assoc, lor_1 by lia. change 1024 with (2 ^ 10).
  rewrite lor_shifted_add by (try change (2 ^ 10) with 1024; zlia).
  change (2 ^ 10) with 1024. apply u32_small. unfold U32 in *. zlia.
Qed.

Lemma mk_pte_facts pa flags : pa mod PAGE_SIZE = 0 -> 0 <= pa < U32 -> 0 <= flags < 1024 ->
  PTE2PA (mk_pte pa flags) = pa /\ PTE_FLAGS (mk_pte pa flags) = Z.lor flags PTE_V
  /\ valid (mk_pte pa flags) = true /\ 0 <= mk_pte pa flags < U32.
Proof.
  intros Ha Hp Hf. unfold PAGE_SIZE in Ha. change PTE_V with 1.
  rewrite valid_odd, lor_1 by lia. unfold PTE_FLAGS. change 0x3FF with 1023.
  rewrite land_1023, mk_pte_value by done.
  assert (Hr : 0 <= pa / 4096 * 1024 + (flags / 2 * 2 + 1) < U32) by (unfold U32 in *; zlia).
  split_and!; try apply Hr.
  - rewrite PTE2PA_spec by done. unfold u32, U32 in *. zlia.
  - zlia.
  - apply negb_true_iff, Z.eqb_neq. zlia.
Qed.

(** A pointer to a second-level table. *)
Lemma table_pte_facts p : ram_page p ->
  PTE2PA (Z.lor (PA2PTE p) PTE_V) = p /\ valid (Z.lor (PA2PTE p) PTE_V) = true
  /\ 0 <= Z.lor (PA2PTE p) PTE_V < U32.
Proof.
  intros [Ha Hr]. assert (Hp : 0 <= p < U32) by (unfold MEM_START, MEM_END, U32 in *; lia).
  destruct (mk_pte_facts p 0 Ha Hp) as (H1 & _ & H2 & H3); [lia |].
  assert (mk_pte p 0 = Z.lor (PA2PTE p) PTE_V) as <-; [| done].
  unfold mk_pte. rewrite Z.lor_0_r. apply u32_small.
  rewrite PA2PTE_spec by done. change PTE_V with 1. rewrite lor_1 by zlia.
  unfold U32 in *. zlia.
Qed.

(** * Indices *)

Lemma vpn1_spec va : vpn1 va = va / 4194304 mod 1024.
Proof. unfold vpn1. change 0x3ff with 1023. by rewrite land_1023, Z.shiftr_div_pow2 by lia. Qed.

Lemma vpn0_spec va : vpn0 va = va / 4096 mod 1024.
Proof. unfold vpn0. change 0x3ff with 1023. by rewrite land_1023, Z.shiftr_div_pow2 by lia. Qed.

Lemma vpn1_range va : 0 <= vpn1 va < 1024.
Proof. rewrite vpn1_spec. apply Z.mod_pos_bound. lia. Qed.

Lemma vpn0_range va : 0 <= vpn0 va < 1024.
Proof. rewrite vpn0_spec. apply Z.mod_pos_bound. lia. Qed.

(** The virtual page number and the two indices determine each other. *)
Definition vpn (va : Z) : Z := va / 4096.

Lemma vpn_split va : 0 <= va < U32 -> vpn va = vpn1 va * 1024 + vpn0 va.
Proof. intros H. rewrite vpn1_spec, vpn0_spec. unfold vpn, U32 in *. zlia. Qed.

Lemma vpn_eq va va' : 0 <= va < U32 -> 0 <= va' < U32 ->
  vpn va = vpn va' <-> vpn1 va = vpn1 va' /\ vpn0 va = vpn0 va'.
Proof.
  intros H H'. rewrite !vpn_split by done.
  pose proof (vpn0_range va). pose proof (vpn0_range va'). lia.
Qed.

#[export] Hint Resolve vpn1_range vpn0_range : word.

(** * The map a table represents *)

Definition l1 (m : gmap Z Z) (pt i : Z) : Z := load32 m (pt + 4 * i).

(** Where the entry of [va] is (0 without a second-level table), and the entry. *)
Definition pte_addr (m : gmap Z Z) (pt va : Z) : Z :=
  let e := l1 m pt (vpn1 va) in
  if valid e then PTE2PA e + 4 * vpn0 va else 0.
Definition pte_at (m : gmap Z Z) (pt va : Z) : Z :=
  let e := l1 m pt (vpn1 va) in
  if valid e then load32 m (PTE2PA e + 4 * vpn0 va) else 0.

(** The pages that hold the table. *)
Definition table (m : gmap Z Z) (pt t : Z) : Prop :=
  t = pt \/ exists i, 0 <= i < 1024 /\ valid (l1 m pt i) = true /\ t = PTE2PA (l1 m pt i).

Record pt_wf (s : kstate) (pt : Z) : Prop := {
  wf_root : owned s pt;
  wf_sub : forall i, 0 <= i < 1024 -> valid (l1 (mem s) pt i) = true ->
    owned s (PTE2PA (l1 (mem s) pt i)) /\ PTE2PA (l1 (mem s) pt i) <> pt;
  wf_inj : forall i j, 0 <= i < 1024 -> 0 <= j < 1024 ->
    valid (l1 (mem s) pt i) = true -> valid (l1 (mem s) pt j) = true ->
    PTE2PA (l1 (mem s) pt i) = PTE2PA (l1 (mem s) pt j) -> i = j
}.

Lemma table_owned s pt t : pt_wf s pt -> table (mem s) pt t -> owned s t.
Proof. intros [] [-> | (i & Hi & Hv & ->)]; [done | by apply wf_sub0]. Qed.

Lemma owned_ram s a : owned s a -> ram_page a.
Proof. by intros []. Qed.

Lemma entry_addr p i : ram_page p -> 0 <= i < 1024 -> p +w 4 * i = p + 4 * i.
Proof.
  intros [_ Hr] Hi. apply u32_small. unfold MEM_START, MEM_END, U32 in *. lia.
Qed.

Lemma entry_in_page p i a : 0 <= i < 1024 -> p + 4 * i <= a < p + 4 * i + 4 -> in_page p a.
Proof. unfold in_page, PAGE_SIZE. lia. Qed.

(** An entry of page [p] reads the same in memories that agree on [p]. *)
Lemma entry_ext m m' p i : 0 <= i < 1024 ->
  (forall a, in_page p a -> load8 m' a = load8 m a) ->
  load32 m' (p + 4 * i) = load32 m (p + 4 * i).
Proof. intros Hi H. apply load32_ext. intros b Hb. apply H. by eapply entry_in_page. Qed.

Lemma pte_addr_nonzero s pt va : pt_wf s pt -> valid (l1 (mem s) pt (vpn1 va)) = true ->
  pte_addr (mem s) pt va <> 0.
Proof.
  intros Hwf Hv. unfold pte_addr. rewrite Hv.
  destruct (wf_sub s pt Hwf (vpn1 va)) as [(Hr & _) _]; [apply vpn1_range | done |].
  destruct Hr as [_ Hr]. pose proof (vpn0_range va). unfold MEM_START in Hr. lia.
Qed.

Lemma pte_at_addr m pt va : pte_addr m pt va <> 0 ->
  pte_at m pt va = load32 m (pte_addr m pt va).
Proof. unfold pte_addr, pte_at. by destruct (valid _). Qed.

Lemma pte_at_noaddr m pt va : pte_addr m pt va = 0 -> valid (l1 m pt (vpn1 va)) = false ->
  pte_at m pt va = 0.
Proof. intros _ Hv. unfold pte_at. by rewrite Hv. Qed.

(** ** Walking without allocation is lookup *)

Lemma find_pte_run s pt va : pt_wf s pt ->
  find_pte pt va false s = Ok (pte_addr (mem s) pt va) s.
Proof.
  intros Hwf. pose proof (owned_ram _ _ (wf_root _ _ Hwf)) as Hpt.
  unfold find_pte, ld. erewrite bind_Ok by reflexivity.
  rewrite entry_addr by auto with word. fold (l1 (mem s) pt (vpn1 va)).
  unfold pte_addr. destruct (valid (l1 (mem s) pt (vpn1 va))) eqn:Hv; [| done].
  destruct (wf_sub s pt Hwf (vpn1 va)) as [Ho _]; [apply vpn1_range | done |].
  rewrite entry_addr; [done | by eapply owned_ram | apply vpn0_range].
Qed.

Lemma wp_find_pte s pt va Q : pt_wf s pt ->
  Q (pte_addr (mem s) pt va) s -> wp (find_pte pt va false) Q s.
Proof. intros Hwf HQ. unfold wp. by rewrite find_pte_run. Qed.

(** * Growing a table *)

(** From [s] to [s'] the table of [pt] may have gained second-level pages,
    taken from the allocator, and entries; nothing else happened. *)
Record pt_grow (pt : Z) (s s' : kstate) : Prop := {
  pg_frame : kframe s s';
  pg_ready : kready s';
  pg_wf : pt_wf s' pt;
  pg_mem : forall a, (forall t, table (mem s') pt t -> ~ in_page t a) ->
    load8 (mem s') a = load8 (mem s) a;
  pg_owned : forall b, owned s b -> owned s' b;
  pg_avail : forall b, avail s' b <-> avail s b /\ ~ table (mem s') pt b;
  pg_tables : forall t, table (mem s) pt t -> table (mem s') pt t;
  pg_new : forall t, table (mem s') pt t -> table (mem s) pt t \/ avail s t
}.

Lemma pt_grow_trans pt s1 s2 s3 : pt_grow pt s1 s2 -> pt_grow pt s2 s3 -> pt_grow pt s1 s3.
Proof.
  intros [F1 _ _ M1 O1 A1 T1 N1] [F2 R2 W2 M2 O2 A2 T2 N2]. split; auto.
  - by transitivity s2.
  - intros a Ha. rewrite M2, M1; [done | | done]. intros t Ht. apply Ha. auto.
  - intros b. rewrite A2, A1. pose proof (T2 b). tauto.
  - intros t Ht. destruct (N2 t Ht) as [H | H]; [auto | right]. by apply A1 in H as [? _].
Qed.

(** Nothing but the console and the synchronisation state moved. *)
Lemma pt_grow_same pt s s' : kframe s s' -> mem s' = mem s -> mem_bitmap s' = mem_bitmap s ->
  kready s -> pt_wf s pt -> pt_grow pt s s'.
Proof.
  intros Hf Hm Hb Hr Hwf.
  assert (Ho : forall b, owned s b -> owned s' b).
  { intros b (? & ? & ?). unfold owned, bit. by rewrite Hb, (kf_start _ _ Hf). }
  assert (Ha : forall b, avail s' b <-> avail s b) by (intros; unfold avail, bit; by rewrite Hb).
  split; rewrite ?Hm; auto.
  - eapply kready_frame; [done | done |]. apply (alloc_ok_same s); [apply Hf | | apply Hr].
    intros i. unfold bit. by rewrite Hb.
  - destruct Hwf as [W1 W2 W3]. split; rewrite ?Hm; auto.
    intros i Hi Hv. destruct (W2 i Hi Hv). auto.
  - intros b. rewrite Ha. split; [| by intros []]. intros Hav. split; [done |].
    intros Ht. by apply (owned_not_avail s b); [apply (table_owned s pt) |].
Qed.

Lemma pt_grow_refl pt s : kready s -> pt_wf s pt -> pt_grow pt s s.
Proof. intros. by apply pt_grow_same. Qed.

(** ** Adding a second-level table *)

(** Memory after page [p] is cleared and entry [i0] of the root points to it. *)
Definition hang_table (m : gmap Z Z) (pt i0 p : Z) : gmap Z Z :=
  store32 (zero_page m p) (pt + 4 * i0) (Z.lor (PA2PTE p) PTE_V).

Section HangTable.
Context (s : kstate) (pt i0 p : Z).
Context (Hpt : ram_page pt) (Hp : ram_page p) (Hne : p <> pt) (Hi0 : 0 <= i0 < 1024).
Let m := mem s.
Let m' := hang_table m pt i0 p.

Lemma hang_outside a : ~ in_page p a -> ~ (pt + 4 * i0 <= a < pt + 4 * i0 + 4) ->
  load8 m' a = load8 m a.
Proof.
  intros H1 H2. unfold m', hang_table. rewrite load8_store32_ne by lia.
  rewrite load8_zero_page by done. unfold in_page in H1. zcase; [lia | done].
Qed.

Lemma hang_new a : in_page p a -> load8 m' a = 0.
Proof.
  intros H1. unfold m', hang_table. rewrite load8_store32_ne.
  - rewrite load8_zero_page by done. unfold in_page in H1. zcase; [done | lia].
  - destruct (decide (pt + 4 * i0 <= a < pt + 4 * i0 + 4)) as [H2 | H2]; [| lia].
    destruct Hne. apply (page_disjoint p pt a); try done. by apply (entry_in_page pt i0).
Qed.

Lemma hang_l1 i : 0 <= i < 1024 ->
  l1 m' pt i = if decide (i = i0) then Z.lor (PA2PTE p) PTE_V else l1 m pt i.
Proof.
  intros Hi. unfold l1. case_decide as Heq.
  - subst i. unfold m', hang_table. rewrite load32_store32_eq. apply u32_small.
    exact (proj2 (proj2 (table_pte_facts p Hp))).
  - apply load32_ext. intros b Hb. apply hang_outside; [| lia].
    intros Hin. destruct Hne. apply (page_disjoint p pt b); try done.
    by apply (entry_in_page pt i).
Qed.

Lemma hang_entry t k : ram_page t -> t <> pt -> t <> p -> 0 <= k < 1024 ->
  load32 m' (t + 4 * k) = load32 m (t + 4 * k).
Proof.
  intros Ht Htpt Htp Hk. apply entry_ext; [done |]. intros a Ha. apply hang_outside.
  - intros Hin. destruct Htp. by apply (page_disjoint t p a).
  - intros Hin. destruct Htpt. apply (page_disjoint t pt a); try done.
    by apply (entry_in_page pt i0).
Qed.

Context (Hinv : valid (l1 m pt i0) = false).

Lemma hang_table_pages t : table m' pt t <-> table m pt t \/ t = p.
Proof.
  destruct (table_pte_facts p Hp) as (Hpa & Hval & _).
  split.
  - intros [-> | (i & Hi & Hv & ->)]; [by left; left |].
    rewrite hang_l1 in * by done. case_decide; [by right |]. left. right. eauto.
  - intros [[-> | (i & Hi & Hv & ->)] | ->]; [by left | right | right].
    + exists i. rewrite hang_l1 by done. case_decide; [congruence | done].
    + exists i0. rewrite hang_l1 by done. case_decide; [| done].
      split_and!; [lia | lia | done | done].
Qed.

Lemma hang_pte_at va : pt_wf s pt -> ~ table m pt p ->
  pte_at m' pt va = pte_at m pt va.
Proof.
  intros Hwf Hnt. destruct (table_pte_facts p Hp) as (Hpa & Hval & _).
  unfold pte_at. rewrite hang_l1 by apply vpn1_range. case_decide as Heq.
  - rewrite Hval, Hpa, Heq, Hinv.
    unfold load32. rewrite !hang_new; [done | | | |];
      unfold in_page, PAGE_SIZE; pose proof (vpn0_range va); lia.
  - destruct (valid (l1 m pt (vpn1 va))) eqn:Hv; [| done].
    destruct (wf_sub s pt Hwf (vpn1 va)) as [Ho Hnpt]; [apply vpn1_range | done |].
    apply hang_entry; [by eapply owned_ram | done | | apply vpn0_range].
    intros Heq'. apply Hnt. right. exists (vpn1 va). split; [apply vpn1_range | done].
Qed.
End HangTable.

Lemma pt_grow_hang s s1 pt i0 p : kready s -> pt_wf s pt -> 0 <= i0 < 1024 ->
  valid (l1 (mem s) pt i0) = false -> alloc_some s p s1 ->
  pt_grow pt s (set_mem (hang_table (mem s) pt i0 p) s1).
Proof.
  intros Hr Hwf Hi0 Hinv Ha. pose proof (as_avail _ _ _ Ha) as Hav.
  pose proof Hav as [Hp _]. pose proof (owned_ram _ _ (wf_root _ _ Hwf)) as Hpt.
  assert (Hnt : ~ table (mem s) pt p).
  { intros Ht. by apply (owned_not_avail s p); [apply (table_owned s pt) |]. }
  assert (Hne : p <> pt) by (intros ->; apply Hnt; by left).
  assert (Hk : forall b, owned s b -> owned s1 b) by (intros; by eapply owned_alloc_keep).
  pose proof (owned_alloc_some _ _ _ Ha) as Hop.
  destruct (table_pte_facts p Hp) as (Hpa & Hval & _).
  set (s' := set_mem _ s1).
  assert (Ht' : forall t, table (mem s') pt t <-> table (mem s) pt t \/ t = p)
    by (intros; by apply hang_table_pages).
  assert (Hl1 : forall i, 0 <= i < 1024 -> l1 (mem s') pt i =
    if decide (i = i0) then Z.lor (PA2PTE p) PTE_V else l1 (mem s) pt i)
    by (intros; by apply hang_l1).
  split.
  - apply kframe_set_mem, Ha.
  - eapply (kready_frame s); [apply kframe_set_mem, Ha | done |].
    destruct (kready_alloc_some _ _ _ Ha Hr) as [[A1 A2] _ _]. by split.
  - split; [by apply Hk, Hwf | |].
    + intros i Hi. rewrite Hl1 by done. case_decide; [by rewrite Hpa |].
      intros Hv. destruct (wf_sub _ _ Hwf i Hi Hv). split; [by apply Hk | done].
    + intros i j Hi Hj. rewrite !Hl1 by done. repeat case_decide; subst; rewrite ?Hpa; try done.
      * intros _ Hv He. destruct Hnt. right. eauto.
      * intros Hv _ He. destruct Hnt. right. eauto.
      * by apply (wf_inj _ _ Hwf).
  - intros a Hna. apply hang_outside; try done.
    + apply Hna, Ht'. by right.
    + intros Hin. apply (Hna pt); [by left | by apply (entry_in_page pt i0)].
  - intros b Hb. by apply Hk.
  - intros b. rewrite Ht'. change (avail s' b) with (avail s1 b).
    rewrite (avail_alloc_some _ _ _ b Ha). split; [| tauto].
    intros [Hb Hbp]. split; [done |]. intros [Ht | ->]; [| done].
    by apply (owned_not_avail s b); [apply (table_owned s pt) |].
  - intros t Ht. apply Ht'. by left.
  - intros t Ht. apply Ht' in Ht as [Ht | ->]; auto.
Qed.

Lemma wp_find_pte_alloc s pt va Q : kready s -> pt_wf s pt ->
  (forall s', pt_grow pt s s' -> mem s' = mem s -> (forall b, ~ avail s b) ->
     valid (l1 (mem s) pt (vpn1 va)) = false -> Q 0 s') ->
  (forall s', pt_grow pt s s' -> (forall v, pte_at (mem s') pt v = pte_at (mem s) pt v) ->
     valid (l1 (mem s') pt (vpn1 va)) = true -> Q (pte_addr (mem s') pt va) s') ->
  wp (find_pte pt va true) Q s.
Proof.
  intros Hr Hwf HN HS. pose proof (owned_ram _ _ (wf_root _ _ Hwf)) as Hpt.
  unfold find_pte, ld. apply wp_bind, wp_gets. rewrite entry_addr by auto with word.
  fold (l1 (mem s) pt (vpn1 va)). destruct (valid (l1 (mem s) pt (vpn1 va))) eqn:Hv.
  { destruct (wf_sub s pt Hwf (vpn1 va)) as [Ho _]; [apply vpn1_range | done |].
    rewrite entry_addr; [| by eapply owned_ram | apply vpn0_range].
    specialize (HS s). unfold pte_addr in HS. rewrite Hv in HS.
    apply wp_ret, HS; [by apply pt_grow_refl | done | done]. }
  cbn [negb]. apply wp_bind, pa_alloc; [done | |].
  - intros s1 Hs1. cbn [Z.eqb]. apply wp_bind, wp_error.
    { apply (kready_alloc_none _ _ Hs1 Hr). }
    intros s2 (Hf2 & Hm2 & Hb2 & _). apply wp_ret, HN; [| | apply Hs1 | done].
    + apply pt_grow_same; [transitivity s1; [apply Hs1 | done] | | | done | done].
      * by rewrite Hm2, (an_mem _ _ Hs1).
      * by rewrite Hb2, (an_bitmap _ _ Hs1).
    + by rewrite Hm2, (an_mem _ _ Hs1).
  - intros p s1 Hs1. pose proof (as_avail _ _ _ Hs1) as Hav. pose proof Hav as [Hp _].
    assert ((p =? 0) = false) as -> by (destruct Hp; unfold MEM_START in *; lia).
    unfold st. apply wp_bind, wp_memset_page, wp_bind, wp_modify.
    rewrite entry_addr by auto with word. cbn [mem set_mem]. rewrite (as_mem _ _ _ Hs1).
    fold (hang_table (mem s) pt (vpn1 va) p). apply wp_ret.
    assert (Hne : p <> pt).
    { intros ->. by apply (owned_not_avail s pt); [apply Hwf |]. }
    assert (Hl : l1 (hang_table (mem s) pt (vpn1 va) p) pt (vpn1 va) = Z.lor (PA2PTE p) PTE_V).
    { rewrite hang_l1 by auto with word. by case_decide. }
    destruct (table_pte_facts p Hp) as (Hpa & Hval & _).
    specialize (HS (set_mem (hang_table (mem s) pt (vpn1 va) p) s1)).
    unfold pte_addr in HS. cbn [mem set_mem] in HS. rewrite Hl, Hval, Hpa in HS. apply HS; [| | done].
    + apply pt_grow_hang; auto with word.
    + intros v. apply hang_pte_at; auto with word. intros Ht.
      by apply (owned_not_avail s p); [apply (table_owned s pt) |].
Qed.

(** * Writing an entry *)

Section SetPte.
Context (s : kstate) (pt va w : Z).
Context (Hwf : pt_wf s pt) (Hv1 : valid (l1 (mem s) pt (vpn1 va)) = true).
Let t := PTE2PA (l1 (mem s) pt (vpn1 va)).
Let m' := store32 (mem s) (pte_addr (mem s) pt va) w.

Lemma set_pte_table : owned s t /\ t <> pt.
Proof. apply (wf_sub _ _ Hwf); [apply vpn1_range | done]. Qed.

Lemma set_pte_addr : pte_addr (mem s) pt va = t + 4 * vpn0 va.
Proof. unfold pte_addr. by rewrite Hv1. Qed.

Lemma set_pte_outside a : ~ in_page t a -> load8 m' a = load8 (mem s) a.
Proof.
  intros Ha. unfold m'. rewrite load8_store32_ne; [done |].
  rewrite set_pte_addr. pose proof (vpn0_range va). unfold in_page, PAGE_SIZE in Ha. lia.
Qed.

Lemma set_pte_l1 i : 0 <= i < 1024 -> l1 m' pt i = l1 (mem s) pt i.
Proof.
  intros Hi. destruct set_pte_table as [Ho Hne].
  apply entry_ext; [done |]. intros a Ha. apply set_pte_outside. intros Hin.
  destruct Hne. apply (page_disjoint t pt a); try done; [by eapply owned_ram |].
  eapply owned_ram, Hwf.
Qed.

Lemma set_pte_tables b : table m' pt b <-> table (mem s) pt b.
Proof.
  unfold table. split; (intros [-> | (i & Hi & Hv & ->)]; [by left | right]);
    exists i; rewrite set_pte_l1 in * by done; done.
Qed.

Lemma set_pte_at va' : 0 <= va < U32 -> 0 <= va' < U32 ->
  pte_at m' pt va' = if decide (vpn va' = vpn va) then u32 w else pte_at (mem s) pt va'.
Proof.
  intros Hr Hr'. unfold pte_at. rewrite set_pte_l1 by apply vpn1_range.
  destruct set_pte_table as [Ho Hne]. pose proof (vpn0_range va). pose proof (vpn0_range va').
  case_decide as Heq.
  - apply vpn_eq in Heq as [-> ->]; [| done | done]. rewrite Hv1. unfold m'.
    rewrite set_pte_addr. apply load32_store32_eq.
  - destruct (valid (l1 (mem s) pt (vpn1 va'))) eqn:Hv'; [| done].
    unfold m'. rewrite set_pte_addr. apply load32_store32_ne.
    destruct (decide (vpn1 va' = vpn1 va)) as [H1 | H1].
    + fold t. rewrite H1. fold t. rewrite vpn_eq in Heq by done. lia.
    + assert (PTE2PA (l1 (mem s) pt (vpn1 va')) <> t).
      { intros He. apply H1, (wf_inj _ _ Hwf); auto with word. }
      destruct (wf_sub _ _ Hwf (vpn1 va')) as [Ho' _]; [auto with word | done |].
      apply owned_ram in Ho as [Ha1 Hb1]. apply owned_ram in Ho' as [Ha2 Hb2].
      unfold PAGE_SIZE in *. zlia.
Qed.

Lemma set_pte_grow : kready s -> pt_grow pt s (set_mem m' s).
Proof.
  intros Hr. split; cbn [mem set_mem].
  - by apply kframe_set_mem.
  - eapply (kready_frame s); [by apply kframe_set_mem | done |]. destruct Hr as [[] _ _]. by split.
  - destruct Hwf as [W1 W2 W3]. split; [done | |]; cbn [mem set_mem].
    + intros i Hi. rewrite set_pte_l1 by done. by apply W2.
    + intros i j Hi Hj. rewrite !set_pte_l1 by done. by apply W3.
  - intros a Ha. apply set_pte_outside, Ha, set_pte_tables. right.
    exists (vpn1 va). split; [apply vpn1_range | done].
  - done.
  - intros b. rewrite set_pte_tables. change (avail (set_mem m' s) b) with (avail s b).
    split; [| by intros []]. intros Hav. split; [done |]. intros Ht.
    by apply (owned_not_avail s b); [apply (table_owned s pt) |].
  - intros b. by apply set_pte_tables.
  - intros b Hb. left. by apply set_pte_tables.
Qed.
End SetPte.

(** * [mappage] is insertion *)

Lemma wp_mappage s pt va pa flags (Q : Z -> kstate -> Prop) : kready s -> pt_wf s pt ->
  va mod PAGE_SIZE = 0 -> 0 <= va < U32 -> pa mod PAGE_SIZE = 0 ->
  valid (pte_at (mem s) pt va) = false ->
  (forall s', pt_grow pt s s' -> mem s' = mem s -> (forall b, ~ avail s b) -> Q 0 s') ->
  (forall r s', pt_grow pt s s' -> r <> 0 ->
     (forall v, 0 <= v < U32 -> pte_at (mem s') pt v =
        if decide (vpn v = vpn va) then mk_pte pa flags else pte_at (mem s) pt v) -> Q r s') ->
  wp (mappage pt va pa flags) Q s.
Proof.
  intros Hr Hwf Hva Hvr Hpa Hun HN HS. unfold mappage. rewrite Hva, Hpa. cbn [negb Z.eqb].
  apply wp_bind, wp_find_pte_alloc; [done | done | |].
  - intros s1 Hg Hm Hf _. apply wp_ret. by apply HN.
  - intros s1 Hg Hsame Hv1. pose proof (pg_wf _ _ _ Hg) as Hwf1.
    pose proof (pte_addr_nonzero s1 pt va Hwf1 Hv1) as Hnz.
    destruct (pte_addr (mem s1) pt va =? 0) eqn:E; zbool; [done |].
    unfold ld, st. apply wp_bind, wp_gets. rewrite <- pte_at_addr, Hsame, Hun by done.
    apply wp_bind, wp_modify, wp_ret. fold (mk_pte pa flags). apply HS; [| done |].
    + eapply pt_grow_trans; [exact Hg |]. apply set_pte_grow; [done | done | apply Hg].
    + intros v Hv. cbn [mem set_mem]. rewrite set_pte_at, Hsame by done.
      unfold mk_pte at 1. by rewrite u32_idem.
Qed.

(** * [mappages] is insertion of a range *)

(** The map after [size] bytes from [va] on are mapped to [pa] on. *)
Definition mapped_range (old : Z -> Z) (va size pa flags v : Z) : Z :=
  if (va <=? v) && (v <? va + size) then mk_pte (pa + (vpn v - vpn va) * 4096) flags
  else old v.

Lemma mapped_range_cons old va pa flags k v : va mod 4096 = 0 -> 0 <= k ->
  mapped_range (fun v => if decide (vpn v = vpn va) then mk_pte pa flags else old v)
    (va + 4096) (4096 * k) (pa + 4096) flags v
  = mapped_range old va (4096 * (k + 1)) pa flags v.
Proof.
  intros Ha Hk. unfold mapped_range.
  assert (Hs : vpn (va + 4096) = vpn va + 1) by (unfold vpn; zlia). rewrite Hs.
  assert (Hd : vpn v = vpn va <-> va <= v < va + 4096) by (unfold vpn; zlia).
  repeat zcase; try case_decide; try lia; try done.
  - f_equal. lia.
  - rewrite (proj2 Hd) by lia. f_equal. lia.
Qed.

Lemma mapped_range_0 old va pa flags v : mapped_range old va 0 pa flags v = old v.
Proof. unfold mapped_range. zcase; [lia | done]. Qed.

(** What [mappages] leaves: [k] pages mapped, all of them or, when the
    allocator ran dry, fewer. *)
Definition mappages_post (s : kstate) (pt va n pa flags : Z) (r : Z) (s' : kstate) : Prop :=
  pt_grow pt s s' /\ exists k, 0 <= k <= n /\
    (forall v, 0 <= v < U32 -> pte_at (mem s') pt v =
       mapped_range (pte_at (mem s) pt) va (4096 * k) pa flags v) /\
    (r = 0 /\ k = n \/ r = -1 /\ k < n /\ forall b, ~ avail s' b).

Lemma mappages_post_cons s s1 pt va n pa flags r s' : va mod 4096 = 0 ->
  pt_grow pt s s1 ->
  (forall v, 0 <= v < U32 -> pte_at (mem s1) pt v =
     if decide (vpn v = vpn va) then mk_pte pa flags else pte_at (mem s) pt v) ->
  mappages_post s1 pt (va + 4096) n (pa + 4096) flags r s' ->
  mappages_post s pt va (n + 1) pa flags r s'.
Proof.
  intros Ha Hg Hm (Hg' & k & Hk & Hm' & Hr). split; [by eapply pt_grow_trans |].
  exists (k + 1). split_and!; [lia | lia | | destruct Hr as [[? ?] | (? & ? & ?)]; [left | right]];
    [| lia | split_and!; [done | lia | done]].
  intros v Hv. rewrite Hm', <- mapped_range_cons by (done || lia).
  unfold mapped_range. zcase; [done | by apply Hm].
Qed.

Lemma wp_mappages_loop n : forall s pt va pa flags, kready s -> pt_wf s pt ->
  va mod 4096 = 0 -> pa mod 4096 = 0 -> 0 <= va -> va + 4096 * Z.of_nat n <= U32 ->
  4096 * Z.of_nat n < U32 -> 0 <= pa ->
  pa + 4096 * Z.of_nat n <= U32 ->
  (forall v, va <= v < va + 4096 * Z.of_nat n -> valid (pte_at (mem s) pt v) = false) ->
  wp (mappages_loop n pt (u32 va) (u32 (va + 4096 * Z.of_nat n)) (u32 pa) flags)
     (mappages_post s pt va (Z.of_nat n) pa flags) s.
Proof.
  induction n as [|n IH]; intros s pt va pa flags Hr Hwf Hva Hpa Hv0 Hv1 Hsz Hp0 Hp1 Hun;
    cbn [mappages_loop].
  { change (Z.of_nat 0) with 0. rewrite Z.mul_0_r, Z.add_0_r, Z.eqb_refl. apply wp_ret.
    split; [by apply pt_grow_refl |]. exists 0.
    split_and!; [lia | lia | intros; by rewrite mapped_range_0 | by left]. }
  rewrite (u32_small va), (u32_small pa) by (unfold U32 in *; lia).
  destruct (va =? u32 _) eqn:E; zbool.
  { exfalso. unfold u32, U32 in *. zlia. }
  apply wp_bind, wp_mappage; try done; [unfold U32 in *; lia | apply Hun; lia | |].
  - intros s1 Hg Hm Hf. cbn [Z.eqb]. apply wp_bind, wp_error; [apply Hg |].
    intros s2 (Hf2 & Hm2 & Hb2 & _). apply wp_ret.
    assert (Hg2 : pt_grow pt s1 s2) by (apply pt_grow_same; [done | done | done | apply Hg | apply Hg]).
    split; [by eapply pt_grow_trans |]. exists 0. split_and!; [lia | lia | |].
    + intros v _. by rewrite mapped_range_0, Hm2, Hm.
    + right. split_and!; [done | lia |]. intros b Hb.
      apply (pg_avail _ _ _ Hg2) in Hb as [Hb _].
      apply (pg_avail _ _ _ Hg) in Hb as [Hb _]. by apply (Hf b).
  - intros r s1 Hg Hnz Hm. destruct (r =? 0) eqn:E0; zbool; [done |].
    replace (va + 4096 * Z.of_nat (S n)) with ((va + 4096) + 4096 * Z.of_nat n) by lia.
    eapply wp_mono; [apply (IH s1 pt (va + 4096) (pa + 4096));
      [apply Hg | apply Hg | clear IH; unfold PAGE_SIZE, U32 in *; zlia ..|] |].
    + intros v Hv. rewrite Hm by (unfold U32 in *; lia).
      rewrite decide_False by (unfold vpn; zlia). apply Hun. lia.
    + intros r' s' Hpost. replace (Z.of_nat (S n)) with (Z.of_nat n + 1) by lia.
      by eapply mappages_post_cons.
Qed.

Lemma mappages_pages n : 0 <= n -> 4096 * n / PAGE_SIZE = n /\ 4096 * n mod PAGE_SIZE = 0.
Proof. unfold PAGE_SIZE. intros. zlia. Qed.

Lemma wp_mappages s pt va pa size flags : kready s -> pt_wf s pt ->
  va mod PAGE_SIZE = 0 -> pa mod PAGE_SIZE = 0 -> size mod PAGE_SIZE = 0 -> 0 < size < U32 ->
  0 <= va -> va + size <= U32 -> 0 <= pa -> pa + size <= U32 ->
  (forall v, va <= v < va + size -> valid (pte_at (mem s) pt v) = false) ->
  wp (mappages pt va pa size flags) (mappages_post s pt va (size / PAGE_SIZE) pa flags) s.
Proof.
  intros Hr Hwf Hva Hpa Hsz [Hs0 Hs1] Hv0 Hv1 Hp0 Hp1 Hun. unfold mappages.
  rewrite Hva, Hpa, Hsz. cbn [negb Z.eqb]. destruct (size =? 0) eqn:E; zbool; [lia |].
  set (n := Z.to_nat (size / PAGE_SIZE)).
  assert (Hn : size = 4096 * Z.of_nat n) by (unfold n, PAGE_SIZE in *; zlia).
  assert (Hq : size / PAGE_SIZE = Z.of_nat n) by (unfold n, PAGE_SIZE in *; zlia).
  rewrite Hq, Hn in *. rewrite <- (u32_small va) at 1 by lia.
  rewrite <- (u32_small pa) at 1 by lia. by apply wp_mappages_loop.
Qed.

(** * Properties *)

(** [mappage] is insertion into the address space: on an unmapped,
    aligned page it either returns [NULL], and then no page was available and
    memory is unchanged, or it returns the entry's address and the address
    space is the old one with this one page added; the table's pages stay
    private, every byte outside them is unchanged, and pages leave the
    allocator only to become tables. A misaligned address and a page that is
    already mapped panic. *)
Theorem mappage_correct s pt va pa flags : kready s -> pt_wf s pt -> 0 <= va < U32 ->
  (va mod PAGE_SIZE = 0 -> pa mod PAGE_SIZE = 0 -> valid (pte_at (mem s) pt va) = false ->
   wp (mappage pt va pa flags) (fun r s' => pt_grow pt s s' /\
     (r = 0 /\ mem s' = mem s /\ (forall b, ~ avail s b) \/
      r <> 0 /\ forall v, 0 <= v < U32 -> pte_at (mem s') pt v =
        if decide (vpn v = vpn va) then mk_pte pa flags else pte_at (mem s) pt v)) s) /\
  (va mod PAGE_SIZE <> 0 -> panics (mappage pt va pa flags) "mappage: va not aligned" s) /\
  (va mod PAGE_SIZE = 0 -> pa mod PAGE_SIZE <> 0 ->
   panics (mappage pt va pa flags) "mappage: pa not aligned" s) /\
  (va mod PAGE_SIZE = 0 -> pa mod PAGE_SIZE = 0 -> valid (pte_at (mem s) pt va) = true ->
   panics (mappage pt va pa flags) "mappage: remap of an already-mapped va" s).
Proof.
  intros Hr Hwf Hvr. unfold mappage. split_and!.
  - intros Hva Hpa Hun. apply wp_mappage; try done; intros; split; auto.
  - intros Hva. apply Z.eqb_neq in Hva. rewrite Hva. apply panic_panics.
  - intros Hva Hpa. apply Z.eqb_neq in Hpa. rewrite Hva, Hpa. apply panic_panics.
  - intros Hva Hpa Hv. rewrite Hva, Hpa. cbn [negb Z.eqb].
    apply panics_bind, wp_find_pte_alloc; [done | done | |].
    + intros s1 _ _ _ Hi. unfold pte_at in Hv. by rewrite Hi in Hv.
    + intros s1 Hg Hsame Hv1.
      pose proof (pte_addr_nonzero s1 pt va (pg_wf _ _ _ Hg) Hv1) as Hnz.
      destruct (pte_addr (mem s1) pt va =? 0) eqn:E; zbool; [done |].
      apply panics_bind, wp_gets. rewrite <- pte_at_addr, Hsame, Hv by done.
      apply panic_panics.
Qed.

(** An empty table in page 2 of [two_pages]. *)
Definition demo_pt : Z := 0x80002000.

Lemma demo_l1 i : l1 (mem two_pages) demo_pt i = 0.
Proof. unfold l1, load32, load8. change (mem two_pages) with (∅ : gmap Z Z). unfold get0. by rewrite !lookup_empty. Qed.

Lemma demo_pt_wf : pt_wf two_pages demo_pt.
Proof.
  split.
  - vm_compute. intuition congruence.
  - intros i _. by rewrite demo_l1.
  - intros i j _ _. by rewrite demo_l1.
Qed.

Lemma demo_unmapped v : pte_at (mem two_pages) demo_pt v = 0.
Proof. unfold pte_at. by rewrite demo_l1. Qed.

Lemma mappage_correct_witness :
  wp (mappage demo_pt 0x1000 0x80004000 PTE_R) (fun r s' => pt_grow demo_pt two_pages s' /\
     (r = 0 /\ mem s' = mem two_pages /\ (forall b, ~ avail two_pages b) \/
      r <> 0 /\ forall v, 0 <= v < U32 -> pte_at (mem s') demo_pt v =
        if decide (vpn v = vpn 0x1000) then mk_pte 0x80004000 PTE_R
        else pte_at (mem two_pages) demo_pt v)) two_pages.
Proof.
  refine (proj1 (mappage_correct two_pages demo_pt 0x1000 0x80004000 PTE_R
    two_pages_ready demo_pt_wf _) _ _ _); [unfold U32; lia | done | done |].
  by rewrite demo_unmapped.
Defined.

(** C22 ([mappages] maps the whole range or reports it): for aligned,
    non-empty, unmapped ranges, also one that ends at the top of the address
    space where [end] wraps to 0, it terminates and returns 0 with exactly the
    pages of the range added, or -1 with a proper prefix of them added and the
    allocator exhausted. Misaligned or empty ranges return -1 and leave memory
    and allocator as they were. *)
Theorem mappages_correct s pt va pa size flags : kready s -> pt_wf s pt ->
  0 <= va -> va + size <= U32 -> 0 <= pa -> pa + size <= U32 -> 0 <= size < U32 ->
  (va mod PAGE_SIZE = 0 -> pa mod PAGE_SIZE = 0 -> size mod PAGE_SIZE = 0 -> size <> 0 ->
   (forall v, va <= v < va + size -> valid (pte_at (mem s) pt v) = false) ->
   wp (mappages pt va pa size flags) (fun r s' => pt_grow pt s s' /\
     exists k, 0 <= k <= size / PAGE_SIZE /\
     (forall v, 0 <= v < U32 -> pte_at (mem s') pt v =
        mapped_range (pte_at (mem s) pt) va (4096 * k) pa flags v) /\
     (r = 0 /\ k = size / PAGE_SIZE \/
      r = -1 /\ k < size / PAGE_SIZE /\ forall b, ~ avail s' b)) s) /\
  (va mod PAGE_SIZE <> 0 \/ pa mod PAGE_SIZE <> 0 \/ size mod PAGE_SIZE <> 0 \/ size = 0 ->
   wp (mappages pt va pa size flags) (fun r s' => r = -1 /\ printed s s') s).
Proof.
  intros Hr Hwf H1 H2 H3 H4 H5. split.
  - intros Hva Hpa Hsz Hne Hun. apply wp_mappages; try done. lia.
  - intros Hbad. unfold mappages.
    assert (He : forall str, wp (error str;; mret (-1)) (fun r s' => r = -1 /\ printed s s') s).
    { intros str. apply wp_bind, wp_error; [apply Hr |]. intros s' Hs'. by apply wp_ret. }
    destruct (va mod PAGE_SIZE =? 0) eqn:E1; zbool; [| apply He].
    destruct (pa mod PAGE_SIZE =? 0) eqn:E2; zbool; [| apply He].
    destruct (size mod PAGE_SIZE =? 0) eqn:E3; zbool; [| apply He].
    destruct (size =? 0) eqn:E4; zbool; [apply He | lia].
Qed.

(** The last two pages of the address space. *)
Lemma mappages_correct_witness :
  wp (mappages demo_pt 0xFFFFE000 0x80004000 0x2000 PTE_R)
    (fun r s' => pt_grow demo_pt two_pages s' /\
     exists k, 0 <= k <= 0x2000 / PAGE_SIZE /\
     (forall v, 0 <= v < U32 -> pte_at (mem s') demo_pt v =
        mapped_range (pte_at (mem two_pages) demo_pt) 0xFFFFE000 (4096 * k) 0x80004000 PTE_R v) /\
     (r = 0 /\ k = 0x2000 / PAGE_SIZE \/
      r = -1 /\ k < 0x2000 / PAGE_SIZE /\ forall b, ~ avail s' b)) two_pages.
Proof.
  refine (proj1 (mappages_correct two_pages demo_pt 0xFFFFE000 0x80004000 0x2000 PTE_R
    two_pages_ready demo_pt_wf _ _ _ _ _) _ _ _ _ _); try done.
Defined.
