(* ===== verification/KernelMap.v ===== *)
(** The kernel's own address space: [ptcreate], [kptable_make], [set_satp].

    [kernel_map] is the map kptable_make sets out to build: identity for the
    UART, for the text (read and execute) and for the rest of RAM (read and
    write). *)
From S2P Require Import Prelude Machine Csr KPrint Spinlock Printf Mem Vm PageTable.

(** * A fresh table *)

Section Fresh.
Context (s s1 : kstate) (p : Z) (Hr : kready s) (Ha : alloc_some s p s1).
Let s2 := set_mem (zero_page (mem s1) p) s1.

Lemma fresh_ram : ram_page p.
Proof. apply (as_avail _ _ _ Ha). Qed.

Lemma fresh_nonzero : (p =? 0) = false.
Proof. destruct fresh_ram as [_ H]. unfold MEM_START in H. lia. Qed.

Lemma fresh_load8 a : load8 (mem s2) a =
  if (p <=? a) && (a <? p + PAGE_SIZE) then 0 else load8 (mem s) a.
Proof. cbn [s2 mem set_mem]. by rewrite load8_zero_page, (as_mem _ _ _ Ha) by apply fresh_ram. Qed.

Lemma fresh_ready : kready s2.
Proof.
  destruct (kready_alloc_some _ _ _ Ha Hr) as [[A1 A2] L P]. by split.
Qed.

Lemma fresh_frame : kframe s s2.
Proof. apply kframe_set_mem, Ha. Qed.

Lemma fresh_l1 i : 0 <= i < 1024 -> l1 (mem s2) p i = 0.
Proof.
  intros Hi. unfold l1, load32. rewrite !fresh_load8. unfold PAGE_SIZE.
  repeat (zcase; [| lia]). done.
Qed.

Lemma fresh_wf : pt_wf s2 p.
Proof.
  split; [exact (owned_alloc_some _ _ _ Ha) | |].
  - intros i Hi Hv. rewrite (fresh_l1 i Hi) in Hv. discriminate Hv.
  - intros i j Hi _ Hv. rewrite (fresh_l1 i Hi) in Hv. discriminate Hv.
Qed.

Lemma fresh_unmapped v : pte_at (mem s2) p v = 0.
Proof. unfold pte_at. rewrite (fresh_l1 _ (vpn1_range v)). reflexivity. Qed.

Lemma fresh_table t : table (mem s2) p t <-> t = p.
Proof.
  split; [| by left]. intros [-> | (i & Hi & Hv & _)]; [done |].
  rewrite (fresh_l1 i Hi) in Hv. discriminate Hv.
Qed.

Lemma fresh_avail b : avail s2 b <-> avail s b /\ b <> p.
Proof. change (avail s2 b) with (avail s1 b). by apply avail_alloc_some. Qed.
End Fresh.

(** * The map the kernel wants *)

Definition ident_range (old : Z -> Z) (lo hi flags v : Z) : Z :=
  if (lo <=? v) && (v <? hi) then mk_pte (PGROUNDDOWN v) flags else old v.

Definition kernel_map `{Layout} (v : Z) : Z :=
  ident_range (ident_range (ident_range (fun _ => 0)
    UART_0 (UART_0 + PAGE_SIZE) (Z.lor PTE_R PTE_W))
    KERNBASE sym_etext (Z.lor PTE_R PTE_X))
    sym_etext MEM_END (Z.lor PTE_R PTE_W) v.

Lemma mapped_ident old lo n flags v : lo mod 4096 = 0 ->
  mapped_range old lo (4096 * n) lo flags v = ident_range old lo (lo + 4096 * n) flags v.
Proof.
  intros Hlo. unfold mapped_range, ident_range. zcase; [| done]. f_equal.
  rewrite PGROUNDDOWN_spec. unfold vpn. zlia.
Qed.

(** What one [mappages] of [kptable_make] adds, if it did not run dry. *)
Definition adds_ident (pt lo hi flags : Z) (s s' : kstate) : Prop :=
  pt_grow pt s s' /\
  (forall v, 0 <= v < U32 -> v < lo \/ hi <= v -> pte_at (mem s') pt v = pte_at (mem s) pt v) /\
  ((exists b, avail s' b) -> forall v, 0 <= v < U32 ->
     pte_at (mem s') pt v = ident_range (pte_at (mem s) pt) lo hi flags v).

Lemma wp_map_ident s pt lo hi flags (Q : Z -> kstate -> Prop) : kready s -> pt_wf s pt ->
  lo mod PAGE_SIZE = 0 -> hi mod PAGE_SIZE = 0 -> 0 <= lo < hi -> hi < U32 ->
  (forall v, lo <= v < hi -> valid (pte_at (mem s) pt v) = false) ->
  (forall r s', adds_ident pt lo hi flags s s' -> Q r s') ->
  wp (mappages pt lo lo (hi - lo) flags) Q s.
Proof.
  intros Hr Hwf Hlo Hhi Hlt Hu Hun HQ.
  eapply wp_mono; [apply wp_mappages; try done; try (unfold PAGE_SIZE, U32 in *; zlia) |].
  { intros v Hv. apply Hun. lia. }
  intros r s' (Hg & k & Hk & Hm & Hres). apply HQ.
  assert (Hn : hi - lo = 4096 * ((hi - lo) / PAGE_SIZE)) by (unfold PAGE_SIZE in *; zlia).
  split_and!; [done | |].
  - intros v Hv Ho. rewrite Hm by done. unfold mapped_range. zcase; [lia | done].
  - intros [b Hb] v Hv. rewrite Hm, mapped_ident by done.
    destruct Hres as [[_ ->] | (_ & _ & Hno)]; [| by destruct (Hno b)].
    rewrite <- Hn. f_equal. lia.
Qed.

Lemma flag_bit e i : 0 <= i < 10 -> Z.testbit e i = Z.testbit (PTE_FLAGS e) i.
Proof.
  intros Hi. unfold PTE_FLAGS. rewrite Z.land_spec. change 0x3FF with (Z.ones 10).
  rewrite Z.ones_spec_low by done. by rewrite andb_true_r.
Qed.

Lemma mk_pte_bit pa flags i : pa mod PAGE_SIZE = 0 -> 0 <= pa < U32 -> 0 <= flags < 1024 ->
  0 <= i < 10 -> Z.testbit (mk_pte pa flags) i = Z.testbit (Z.lor flags PTE_V) i.
Proof.
  intros Ha Hp Hf Hi. rewrite flag_bit by done.
  by destruct (mk_pte_facts pa flags Ha Hp Hf) as (_ & -> & _).
Qed.

(** No page of the kernel's map is both writable and executable. *)
Lemma kernel_map_wx `{Layout} v : 0 <= v < U32 ->
  Z.testbit (kernel_map v) 2 && Z.testbit (kernel_map v) 3 = false.
Proof.
  intros Hv. unfold kernel_map, ident_range.
  assert (PGROUNDDOWN v mod PAGE_SIZE = 0 /\ 0 <= PGROUNDDOWN v < U32) as [Ha Hr].
  { rewrite PGROUNDDOWN_spec. unfold PAGE_SIZE, U32 in *. zlia. }
  repeat (zcase; [rewrite !mk_pte_bit by (done || easy); reflexivity |]). reflexivity.
Qed.

(** * Properties *)

Lemma wp_kptable_make `{L : Layout} {HL : LayoutOk L} s :
  kready s -> (exists b, avail s b) ->
  wp kptable_make (fun kpt s' => kready s' /\ pt_wf s' kpt /\ kframe s s' /\ avail s kpt
    /\ (forall a, (forall t, table (mem s') kpt t -> ~ in_page t a) ->
          load8 (mem s') a = load8 (mem s) a)
    /\ (forall b, avail s' b <-> avail s b /\ ~ table (mem s') kpt b)
    /\ ((exists b, avail s' b) -> forall v, 0 <= v < U32 ->
          pte_at (mem s') kpt v = kernel_map v /\
          (Z.testbit (pte_at (mem s') kpt v) 2 && Z.testbit (pte_at (mem s') kpt v) 3) = false)) s.
Proof.
  intros Hr [b0 Hb0].
  assert (Hlay : sym_etext mod PAGE_SIZE = 0 /\ KERNBASE < sym_etext < MEM_END).
  { destruct HL as [[Ht1 Ht2] He [[Hn1 Hn2] _]]. unfold KERNBASE, MEM_START, PAGE_SIZE in *. zlia. }
  destruct Hlay as [Hea Her].
  unfold kptable_make. apply wp_bind, pa_alloc; [done | |].
  { intros s' Hs'. by destruct (an_full _ _ Hs' b0). }
  intros p s1 Hs1. pose proof (fresh_ready _ _ _ Hr Hs1) as Hr2.
  pose proof (fresh_wf _ _ _ Hs1) as Hw2.
  apply wp_bind, wp_memset_page, wp_bind.
  set (s2 := set_mem (zero_page (mem s1) p) s1) in *.
  assert (Hun : forall v, pte_at (mem s2) p v = 0) by (intros; apply (fresh_unmapped _ _ _ Hs1)).
  change PAGE_SIZE with (UART_0 + PAGE_SIZE - UART_0) at 1.
  apply wp_map_ident; try done; [by intros; rewrite Hun |]. intros _ s3 (Hg3 & Ho3 & Hm3).
  rewrite PGROUNDUP_aligned by (unfold U32, MEM_END, KERNBASE, PAGE_SIZE in *; lia).
  rewrite !u32_small by (unfold U32, MEM_END, KERNBASE in *; lia).
  apply wp_bind, wp_map_ident; [apply Hg3 | apply Hg3 | done | done |
    unfold KERNBASE in *; lia | unfold U32, MEM_END in *; lia | |].
  { intros v Hv. rewrite Ho3, Hun; [done | |]; unfold U32, UART_0, PAGE_SIZE, KERNBASE, MEM_END in *; lia. }
  intros _ s4 (Hg4 & Ho4 & Hm4).
  apply wp_bind, wp_map_ident; [apply Hg4 | apply Hg4 | done | done |
    unfold KERNBASE in *; lia | done | |].
  { intros v Hv. rewrite Ho4, Ho3, Hun; [done | | | |];
      unfold U32, UART_0, PAGE_SIZE, KERNBASE, MEM_END in *; lia. }
  intros _ s5 (Hg5 & Ho5 & Hm5). apply wp_ret.
  assert (Hg : pt_grow p s2 s5) by (eapply pt_grow_trans; [| done]; by eapply pt_grow_trans).
  split_and!; try apply Hg.
  - transitivity s2; [by eapply fresh_frame | apply Hg].
  - apply Hs1.
  - intros a Ha. rewrite (pg_mem _ _ _ Hg) by done. rewrite (fresh_load8 _ _ _ Hs1).
    zcase; [| done]. destruct (Ha p); [by left | unfold in_page; lia].
  - intros b. rewrite (pg_avail _ _ _ Hg). pose proof (fresh_avail _ _ _ Hs1 b).
    split; [tauto |]. intros [? Hnt].
    assert (b <> p) by (intros ->; apply Hnt; by left). tauto.
  - intros [b Hb] v Hv. assert (Hm : pte_at (mem s5) p v = kernel_map v).
    { assert (Hb4 : avail s4 b) by (by apply (pg_avail _ _ _ Hg5) in Hb as []).
      assert (Hb3 : avail s3 b) by (by apply (pg_avail _ _ _ Hg4) in Hb4 as []).
      rewrite Hm5 by eauto. unfold kernel_map, ident_range at 1 2.
      zcase; [done |]. rewrite Hm4 by eauto. unfold ident_range at 1 2.
      zcase; [done |]. rewrite Hm3 by eauto. unfold ident_range. zcase; [done | apply Hun]. }
    rewrite Hm. split; [done | by apply kernel_map_wx].
Qed.

(** C26 (the kernel's page table): with a page to start from, [kptable_make]
    returns a private, well-formed table; only table pages are taken from the
    allocator and only they are written. Unless memory ran out (no page is
    left), the table maps exactly the UART, the text and the rest of RAM, each
    to itself, and no page is both writable and executable. *)
Theorem kptable_make_correct `{L : Layout} {HL : LayoutOk L} s :
  kready s -> (exists b, avail s b) ->
  wp kptable_make (fun kpt s' => kready s' /\ pt_wf s' kpt /\ kframe s s' /\ avail s kpt
    /\ (forall a, (forall t, table (mem s') kpt t -> ~ in_page t a) ->
          load8 (mem s') a = load8 (mem s) a)
    /\ (forall b, avail s' b <-> avail s b /\ ~ table (mem s') kpt b)
    /\ ((exists b, avail s' b) -> forall v, 0 <= v < U32 ->
          pte_at (mem s') kpt v = kernel_map v /\
          (Z.testbit (pte_at (mem s') kpt v) 2 && Z.testbit (pte_at (mem s') kpt v) 3) = false)) s.
Proof. apply wp_kptable_make. Qed.

Lemma kptable_make_correct_witness :
  wp kptable_make (fun kpt s' => kready s' /\ pt_wf s' kpt /\ kframe two_pages s'
    /\ avail two_pages kpt
    /\ (forall a, (forall t, table (mem s') kpt t -> ~ in_page t a) ->
          load8 (mem s') a = load8 (mem two_pages) a)
    /\ (forall b, avail s' b <-> avail two_pages b /\ ~ table (mem s') kpt b)
    /\ ((exists b, avail s' b) -> forall v, 0 <= v < U32 ->
          pte_at (mem s') kpt v = kernel_map v /\
          (Z.testbit (pte_at (mem s') kpt v) 2 && Z.testbit (pte_at (mem s') kpt v) 3) = false))
    two_pages.
Proof.
  apply (kptable_make_correct two_pages); [exact two_pages_ready |].
  exists 0x80003000. vm_compute. intuition congruence.
Defined.

Lemma MAKE_SATP_value pt : ram_page pt -> MAKE_SATP pt = 524288 * 4096 + pt / 4096.
Proof.
  intros [_ Hr]. unfold MAKE_SATP. rewrite Z.shiftr_div_pow2 by lia.
  change 0x003FFFFF with (Z.ones 22). rewrite Z.land_ones by lia.
  change (2 ^ 12) with 4096. change (2 ^ 22) with 4194304.
  rewrite Z.mod_small by (unfold MEM_START, MEM_END in *; zlia).
  change (Z.shiftl 1 31) with (1 * 2 ^ 31). rewrite lor_shifted_add; [lia | lia |].
  change (2 ^ 31) with 2147483648. unfold MEM_START, MEM_END in *. zlia.
Qed.

(** The root table's address that the hardware takes from [satp]. *)
Definition satp_root (v : Z) : Z := Z.land v 0x003FFFFF * PAGE_SIZE.

(** ([set_satp] turns on Sv32 paging with this table): it returns, [satp]
    of the hart then holds the root's page number with the mode bit, from
    which the root address the hardware uses is the table,
    [paging_status] reports 1, and nothing but this hart's [satp] changes. *)
Theorem set_satp_correct s pt : ram_page pt ->
  wp (set_satp pt) (fun _ s' =>
    s' = set_sy (csr_set (sy s) SATP (MAKE_SATP pt)) s /\
    wp r_satp (fun v _ => satp_root v = pt) s' /\
    wp paging_status (fun r _ => r = 1) s') s.
Proof.
  intros Hr. unfold set_satp. fold (MAKE_SATP pt). apply wp_modify.
  assert (Hg : csr_get (csr_set (sy s) SATP (MAKE_SATP pt)) SATP = MAKE_SATP pt).
  { unfold csr_get, csr_set. cbn [csrs tp]. rewrite get0_insert_eq. apply u32_small.
    rewrite MAKE_SATP_value by done. destruct Hr. unfold MEM_START, MEM_END, U32 in *. zlia. }
  pose proof (MAKE_SATP_value pt Hr) as Hv. destruct Hr as [Ha Hr].
  split_and!; [done | apply wp_gets | apply wp_bind, wp_gets, wp_ret];
    cbn [sy set_sy]; rewrite Hg, Hv.
  - unfold satp_root. change 0x003FFFFF with (Z.ones 22). rewrite Z.land_ones by lia.
    change (2 ^ 22) with 4194304. unfold PAGE_SIZE, MEM_START, MEM_END in *. zlia.
  - rewrite land_1, Z.shiftr_div_pow2 by lia. change (2 ^ 31) with 2147483648.
    unfold MEM_START, MEM_END in *. zlia.
Qed.

Lemma set_satp_correct_witness :
  wp (set_satp demo_pt) (fun _ s' =>
    s' = set_sy (csr_set (sy two_pages) SATP (MAKE_SATP demo_pt)) two_pages /\
    wp r_satp (fun v _ => satp_root v = demo_pt) s' /\
    wp paging_status (fun r _ => r = 1) s') two_pages.
Proof. apply (set_satp_correct two_pages demo_pt). vm_compute. intuition congruence. Defined.
