(* ===== verification/UserMem.v ===== *)
(** Copying between the kernel and user memory: [find_user_pa], [copyin],
    [copyout] and [copyinstr] of vm.c.

    [user_pa] is the translation of a user address for an access that needs
    some permissions, read off the address space. The copying loops are shown
    to act byte by byte through it: page boundaries are invisible, permissions
    are never bypassed, and nothing outside the addressed bytes is written. *)
From S2P Require Import Prelude Machine Csr KPrint Spinlock Printf Mem Vm PageTable.

(** * Translation *)

Definition want (need : Z) : Z := Z.lor (Z.lor PTE_V PTE_U) need.
Definition allows (e need : Z) : bool := Z.land e (want need) =? want need.

(** The physical address of user address [va], 0 if the access is refused. *)
Definition user_pa (m : gmap Z Z) (pt need va : Z) : Z :=
  let e := pte_at m pt va in
  if allows e need then u32 (PTE2PA e + va mod PAGE_SIZE) else 0.

Lemma allows_0 need : allows 0 need = false.
Proof.
  unfold allows. rewrite Z.land_0_l. apply Z.eqb_neq. intros H.
  assert (Hb : Z.testbit (want need) 0 = true) by (unfold want; rewrite !Z.lor_spec; done).
  by rewrite <- H in Hb.
Qed.

(** Any access that is allowed is to a user page. *)
Lemma allows_user e need : allows e need = true -> allows e 0 = true.
Proof.
  unfold allows, want. rewrite !Z.eqb_eq, Z.lor_0_r. intros H.
  apply Z.bits_inj'. intros i Hi. apply (f_equal (fun z => Z.testbit z i)) in H.
  rewrite !Z.land_spec, !Z.lor_spec in *.
  destruct (Z.testbit e i), (Z.testbit PTE_V i), (Z.testbit PTE_U i); cbn in *; congruence.
Qed.

Lemma allows_valid e : allows e 0 = true -> valid e = true.
Proof.
  unfold allows, want, valid. rewrite Z.eqb_eq, Z.lor_0_r, negb_true_iff, Z.eqb_neq. intros H H0.
  apply (f_equal (fun z => Z.testbit z 0)) in H. apply (f_equal (fun z => Z.testbit z 0)) in H0.
  rewrite Z.land_spec in *. change (Z.testbit (Z.lor PTE_V PTE_U) 0) with true in H.
  change (Z.testbit PTE_V 0) with true in H0. rewrite andb_true_r in *.
  rewrite H0 in H. discriminate H.
Qed.

Lemma find_user_pa_run s pt va need : pt_wf s pt ->
  find_user_pa pt va need s = Ok (user_pa (mem s) pt need va) s.
Proof.
  intros Hwf. unfold find_user_pa. erewrite bind_Ok by by apply find_pte_run.
  fold (want need). unfold user_pa.
  destruct (pte_addr (mem s) pt va =? 0) eqn:E; zbool.
  - destruct (valid (l1 (mem s) pt (vpn1 va))) eqn:Hv.
    { by destruct (pte_addr_nonzero s pt va). }
    by rewrite pte_at_noaddr, allows_0.
  - unfold ld. erewrite bind_Ok by reflexivity. rewrite <- pte_at_addr by done.
    change 0xFFF with 4095. rewrite land_4095. fold (allows (pte_at (mem s) pt va) need).
    by destruct (allows _ _).
Qed.

Lemma wp_find_user_pa s pt va need Q : pt_wf s pt ->
  Q (user_pa (mem s) pt need va) s -> wp (find_user_pa pt va need) Q s.
Proof. intros Hwf HQ. unfold wp. by rewrite find_user_pa_run. Qed.

(** * User address spaces *)

(** User pages are handed-out pages, not tables, and none is mapped twice. *)
Record uspace_ok (s : kstate) (pt : Z) : Prop := {
  us_wf : pt_wf s pt;
  us_page : forall va, 0 <= va < U32 -> allows (pte_at (mem s) pt va) 0 = true ->
    owned s (PTE2PA (pte_at (mem s) pt va)) /\ ~ table (mem s) pt (PTE2PA (pte_at (mem s) pt va));
  us_inj : forall va va', 0 <= va < U32 -> 0 <= va' < U32 ->
    allows (pte_at (mem s) pt va) 0 = true -> allows (pte_at (mem s) pt va') 0 = true ->
    PTE2PA (pte_at (mem s) pt va) = PTE2PA (pte_at (mem s) pt va') -> vpn va = vpn va'
}.

(** A kernel buffer: it shares no byte with the tables or the user's pages. *)
Record kbuf (s : kstate) (pt a n : Z) : Prop := {
  kb_span : span_ok a n;
  kb_tables : forall x t, a <= x < a + n -> table (mem s) pt t -> ~ in_page t x;
  kb_user : forall x va, a <= x < a + n -> 0 <= va < U32 ->
    allows (pte_at (mem s) pt va) 0 = true -> ~ in_page (PTE2PA (pte_at (mem s) pt va)) x
}.

(** ** Memories with the same tables *)

Definition same_tables (m m' : gmap Z Z) (pt : Z) : Prop :=
  forall t a, table m pt t -> in_page t a -> load8 m' a = load8 m a.

Lemma same_tables_l1 m m' pt i : same_tables m m' pt -> 0 <= i < 1024 ->
  l1 m' pt i = l1 m pt i.
Proof. intros Hs Hi. apply entry_ext; [done |]. intros a. apply Hs. by left. Qed.

Lemma same_tables_pte m m' pt v : same_tables m m' pt -> pte_at m' pt v = pte_at m pt v.
Proof.
  intros Hs. unfold pte_at. rewrite (same_tables_l1 m m') by auto with word.
  destruct (valid (l1 m pt (vpn1 v))) eqn:Hv; [| done].
  apply entry_ext; [apply vpn0_range |]. intros a. apply Hs. right.
  exists (vpn1 v). split; [apply vpn1_range | done].
Qed.

Lemma same_tables_table m m' pt t : same_tables m m' pt -> table m' pt t <-> table m pt t.
Proof.
  intros Hs. unfold table. split; (intros [-> | (i & Hi & Hv & ->)]; [by left | right]);
    exists i; rewrite (same_tables_l1 m m') in * by done; done.
Qed.

Lemma same_tables_user_pa m m' pt need v : same_tables m m' pt ->
  user_pa m' pt need v = user_pa m pt need v.
Proof. intros Hs. unfold user_pa. by rewrite (same_tables_pte m m'). Qed.

Lemma same_tables_wf s m' pt : same_tables (mem s) m' pt -> pt_wf s pt -> pt_wf (set_mem m' s) pt.
Proof.
  intros Hs [W1 W2 W3]. split; [done | |]; cbn [mem set_mem].
  - intros i Hi. rewrite (same_tables_l1 (mem s)) by done. by apply W2.
  - intros i j Hi Hj. rewrite !(same_tables_l1 (mem s) m') by done. by apply W3.
Qed.

Lemma same_tables_uspace s m' pt : same_tables (mem s) m' pt -> uspace_ok s pt ->
  uspace_ok (set_mem m' s) pt.
Proof.
  intros Hs [W P I]. split; [by apply same_tables_wf | |]; cbn [mem set_mem].
  - intros va Hva. rewrite (same_tables_pte (mem s) m'), same_tables_table by done. by apply P.
  - intros va va' Hva Hva'. rewrite !(same_tables_pte (mem s) m') by done. by apply I.
Qed.

Lemma same_tables_kbuf s m' pt a n : same_tables (mem s) m' pt -> kbuf s pt a n ->
  kbuf (set_mem m' s) pt a n.
Proof.
  intros Hs [S T U]. split; [done | |]; cbn [mem set_mem].
  - intros x t Hx. rewrite same_tables_table by done. by apply T.
  - intros x va Hx Hva. rewrite (same_tables_pte (mem s) m') by done. by apply U.
Qed.

Lemma kbuf_sub s pt a n d k : kbuf s pt a n -> 0 <= d -> 0 <= k -> d + k <= n -> kbuf s pt (a + d) k.
Proof.
  intros [(S1 & S2 & S3) T U] Hd Hk Hn. split.
  - unfold span_ok. lia.
  - intros x t Hx. apply T. lia.
  - intros x va Hx. apply U. lia.
Qed.

(** ** Translation of user addresses *)

Section Translate.
Context (s : kstate) (pt : Z) (Hus : uspace_ok s pt).
Let m := mem s.

(** A translated address is the page's address plus the offset. *)
Lemma user_pa_page need va : 0 <= va < U32 -> user_pa m pt need va <> 0 ->
  let p := PTE2PA (pte_at m pt va) in
  allows (pte_at m pt va) need = true /\ ram_page p
  /\ user_pa m pt need va = p + va mod 4096 /\ in_page p (user_pa m pt need va).
Proof.
  intros Hva Hnz p. unfold user_pa in *. destruct (allows (pte_at m pt va) need) eqn:Ha; [| done].
  destruct (us_page _ _ Hus va Hva (allows_user _ _ Ha)) as [Ho _]. apply owned_ram in Ho.
  fold m in Ho. fold p in Ho |- *. unfold PAGE_SIZE.
  assert (Hu : u32 (p + va mod 4096) = p + va mod 4096).
  { apply u32_small. destruct Ho. unfold MEM_START, MEM_END, U32 in *. zlia. }
  rewrite Hu. split_and!; [done | done | done | unfold in_page, PAGE_SIZE; zlia ..].
Qed.

(** Addresses of one page translate together. *)
Lemma user_pa_offset need va j : 0 <= va < U32 -> user_pa m pt need va <> 0 ->
  0 <= j -> va mod 4096 + j < 4096 -> user_pa m pt need (va + j) = user_pa m pt need va + j.
Proof.
  intros Hva Hnz Hj Hlt. destruct (user_pa_page need va Hva Hnz) as (Ha & Hr & He & _).
  assert (Hsame : pte_at m pt (va + j) = pte_at m pt va).
  { assert (Hv : vpn (va + j) = vpn va) by (unfold vpn; zlia).
    apply vpn_eq in Hv as [H1 H0]; [| unfold U32 in *; zlia | done].
    unfold pte_at. by rewrite H1, H0. }
  rewrite He. unfold user_pa. rewrite Hsame, Ha. unfold PAGE_SIZE.
  rewrite u32_small; [zlia |]. destruct Hr. unfold MEM_START, MEM_END, U32 in *. zlia.
Qed.

Lemma user_pa_inj need va va' : 0 <= va < U32 -> 0 <= va' < U32 ->
  user_pa m pt need va <> 0 -> user_pa m pt need va' <> 0 ->
  user_pa m pt need va = user_pa m pt need va' -> va = va'.
Proof.
  intros H H' Hn Hn' He. destruct (user_pa_page need va H Hn) as (Ha & Hr & E & I).
  destruct (user_pa_page need va' H' Hn') as (Ha' & Hr' & E' & I'). rewrite He in I.
  pose proof (page_disjoint _ _ _ Hr Hr' I I') as Hp.
  pose proof (us_inj _ _ Hus va va' H H' (allows_user _ _ Ha) (allows_user _ _ Ha') Hp).
  rewrite E, E', Hp in He. unfold vpn in *. zlia.
Qed.

(** Writing a user page leaves the tables alone. *)
Lemma user_write_tables need va m' : 0 <= va < U32 -> user_pa m pt need va <> 0 ->
  (forall a, ~ in_page (PTE2PA (pte_at m pt va)) a -> load8 m' a = load8 m a) ->
  same_tables m m' pt.
Proof.
  intros Hva Hnz Hm t a Ht Ha. apply Hm. intros Hin.
  destruct (user_pa_page need va Hva Hnz) as (Hal & Hr & _).
  destruct (us_page _ _ Hus va Hva (allows_user _ _ Hal)) as [_ Hnt]. apply Hnt.
  assert (Hrt : ram_page t) by (apply (owned_ram s), (table_owned s pt); [apply Hus | done]).
  pose proof (page_disjoint _ t a Hr Hrt Hin Ha) as Hp. unfold m in Hp. by rewrite Hp.
Qed.

Lemma kbuf_write_tables a n m' : kbuf s pt a n ->
  (forall x, x < a \/ a + n <= x -> load8 m' x = load8 m x) -> same_tables m m' pt.
Proof.
  intros Hb Hm t x Ht Hx. destruct (decide (a <= x < a + n)) as [Hin | Hout]; [| apply Hm; lia].
  by destruct (kb_tables _ _ _ _ Hb x t Hin Ht).
Qed.
End Translate.

(** * The copying loops *)

Lemma chunk_spec pa len : 0 < len ->
  0 < chunk pa len <= len /\ pa mod 4096 + chunk pa len <= 4096.
Proof. intros Hl. unfold chunk, PAGE_SIZE. zcase; zlia. Qed.

Lemma wp_memmove dst src n (Q : Z -> kstate -> Prop) s : span_ok dst n -> span_ok src n ->
  (forall m', (forall a, load8 m' a =
      if (dst <=? a) && (a <? dst + n) then load8 (mem s) (src + (a - dst)) else load8 (mem s) a) ->
    Q dst (set_mem m' s)) -> wp (memmove dst src n) Q s.
Proof.
  intros Hd Hs HQ. unfold memmove. apply wp_bind, wp_modify, wp_ret, HQ.
  intros a. by apply memmove_mem_spec.
Qed.

(** The first [k] bytes from [src] have been written to user address [va] on,
    each through the translation, and nothing else has changed. *)
Record written (m m' : gmap Z Z) (pt need va src k : Z) : Prop := {
  wr_user : forall j, 0 <= j < k -> user_pa m pt need (va + j) <> 0 /\
    load8 m' (user_pa m pt need (va + j)) = load8 m (src + j);
  wr_frame : forall a, (forall j, 0 <= j < k -> a <> user_pa m pt need (va + j)) ->
    load8 m' a = load8 m a
}.

Section Pass.
Context (s : kstate) (pt va n need : Z) (Hus : uspace_ok s pt).
Context (Hva : 0 <= va) (Hend : va + n <= U32) (Hn : 0 < n).
Let m := mem s.
Let pa := user_pa m pt need va.
Context (Hnz : pa <> 0) (Hfit : pa mod 4096 + n <= 4096).

Lemma pass_page : PTE2PA (pte_at m pt va) <= pa /\ pa + n <= PTE2PA (pte_at m pt va) + 4096
  /\ va mod 4096 + n <= 4096 /\ ram_page (PTE2PA (pte_at m pt va)).
Proof.
  destruct (user_pa_page s pt Hus need va) as (_ & Hr & He & Hin); [unfold U32 in *; lia | done |].
  fold m in Hr, He, Hin. fold pa in He, Hin.
  assert (pa mod 4096 = va mod 4096) by (destruct Hr; unfold PAGE_SIZE in *; zlia).
  split_and!; try done; zlia.
Qed.

Lemma pass_span : span_ok pa n.
Proof.
  destruct pass_page as (H1 & H2 & _ & [_ H3]).
  unfold span_ok, MEM_START, MEM_END, U32 in *. lia.
Qed.

Lemma pass_user j : 0 <= j < n -> user_pa m pt need (va + j) = pa + j.
Proof.
  intros Hj. destruct pass_page as (_ & _ & H3 & _).
  apply (user_pa_offset s pt Hus); [unfold U32 in *; lia | done | lia | lia].
Qed.

Lemma pass_nonzero j : 0 <= j < n -> user_pa m pt need (va + j) <> 0.
Proof.
  intros Hj. rewrite pass_user by done. destruct pass_page as (H1 & _ & _ & [_ H2]).
  unfold MEM_START in H2. lia.
Qed.

(** A kernel buffer is apart from the bytes of the pass. *)
Lemma pass_kbuf b k x : kbuf s pt b k -> b <= x < b + k -> x < pa \/ pa + n <= x.
Proof.
  intros Hb Hx. destruct pass_page as (H1 & H2 & _ & _).
  destruct (user_pa_page s pt Hus need va) as (Hal & _); [unfold U32 in *; lia | done |].
  pose proof (kb_user _ _ _ _ Hb x va Hx) as Hd. fold m in Hd, Hal.
  unfold in_page, PAGE_SIZE in Hd. apply allows_user in Hal.
  destruct (decide (pa <= x < pa + n)); [| lia]. destruct Hd; [unfold U32 in *; lia | done | lia].
Qed.
End Pass.

Lemma written_pass s m1 m' pt need va src n k : uspace_ok s pt -> 0 <= va -> va + n + k <= U32 ->
  0 < n -> 0 <= k -> kbuf s pt src (n + k) -> same_tables (mem s) m1 pt ->
  let pa := user_pa (mem s) pt need va in
  pa <> 0 -> pa mod 4096 + n <= 4096 ->
  (forall a, load8 m1 a =
     if (pa <=? a) && (a <? pa + n) then load8 (mem s) (src + (a - pa)) else load8 (mem s) a) ->
  written m1 m' pt need (va + n) (src + n) k -> written (mem s) m' pt need va src (n + k).
Proof.
  intros Hus Hva Hend Hn Hk Hb Hst pa Hnz Hfit Hm1 [WU WF].
  assert (Hend' : va + n <= U32) by lia.
  pose proof (pass_user s pt va n need Hus Hva Hend' Hn Hnz Hfit) as Hpu.
  pose proof (pass_nonzero s pt va n need Hus Hva Hend' Hn Hnz Hfit) as Hp0.
  fold pa in Hpu. set (up := user_pa (mem s) pt need) in *.
  assert (Hup : forall v, user_pa m1 pt need v = up v)
    by (intros; by apply same_tables_user_pa).
  assert (Hj : forall j, n <= j < n + k -> up (va + j) <> 0 /\
            load8 m' (up (va + j)) = load8 (mem s) (src + j)).
  { intros j Hj. destruct (WU (j - n)) as [W1 W2]; [lia |]. rewrite Hup in W1, W2.
    replace (va + n + (j - n)) with (va + j) in * by lia. split; [done |].
    rewrite W2, Hm1. replace (src + n + (j - n)) with (src + j) by lia.
    assert (Hap : src + j < pa \/ pa + n <= src + j)
      by (apply (pass_kbuf s pt va n need Hus Hva Hend' Hn Hnz Hfit src (n + k)); [done | lia]).
    zcase; [lia | done]. }
  split; [| intros a Ha; rewrite WF].
  - intros j Hjr. fold up. destruct (decide (j < n)) as [Hlt | Hge]; [| apply Hj; lia].
    split; [apply Hp0; lia |]. rewrite WF.
    + rewrite (Hpu j), Hm1 by lia. zcase; [f_equal; lia | lia].
    + intros j' Hj'. rewrite Hup. replace (va + n + j') with (va + (n + j')) by lia. intros He.
      apply (user_pa_inj s pt Hus) in He; try (unfold U32 in *; lia).
      * apply Hp0. lia.
      * apply Hj. lia.
  - rewrite Hm1. zcase; [| done]. destruct (Ha (a - pa)); [lia |]. rewrite Hpu; lia.
  - intros j' Hj'. rewrite Hup. replace (va + n + j') with (va + (n + j')) by lia.
    apply Ha. lia.
Qed.

(** User writes leave the tables alone. *)
Lemma written_tables s m' pt need va src k : uspace_ok s pt -> 0 <= va -> va + k <= U32 ->
  written (mem s) m' pt need va src k -> same_tables (mem s) m' pt.
Proof.
  intros Hus Hva Hend [WU WF] t a Ht Ha. apply WF. intros j Hj ->. destruct (WU j Hj) as [Hnz _].
  destruct (user_pa_page s pt Hus need (va + j)) as (Hal & Hr & _ & Hin); [lia | done |].
  destruct (us_page _ _ Hus (va + j) ltac:(lia) (allows_user _ _ Hal)) as [_ Hnt].
  apply Hnt. assert (Hrt : ram_page t) by (apply (owned_ram s), (table_owned s pt); [apply Hus | done]).
  by rewrite (page_disjoint _ t _ Hr Hrt Hin Ha).
Qed.

(** A copy stops early only at an address that is refused. *)
Definition stops (m : gmap Z Z) (pt need va len r k : Z) : Prop :=
  0 <= k <= len /\ (r = 0 /\ k = len \/ r = -1 /\ k < len /\ user_pa m pt need (va + k) = 0).

Lemma stops_refused m pt need va len : 0 < len -> user_pa m pt need va = 0 ->
  stops m pt need va len (-1) 0.
Proof. intros Hl Hz. split; [lia |]. right. rewrite Z.add_0_r. split_and!; [done | lia | done]. Qed.

Lemma stops_pass m m1 pt need va len n r k : same_tables m m1 pt -> 0 < n <= len ->
  stops m1 pt need (va + n) (len - n) r k -> stops m pt need va len r (n + k).
Proof.
  intros Hs Hn [Hk Hr]. split; [lia |]. destruct Hr as [[? ?] | (? & ? & Hz)]; [left; lia | right].
  split_and!; [done | lia |]. rewrite <- (same_tables_user_pa m m1) by done.
  by replace (va + (n + k)) with (va + n + k) by lia.
Qed.

(** The loops that write to user memory, [copyout] and [load_segment], are the
    same but for the permission they ask for. *)
Section PutLoop.
Context (need : Z) (loop : nat -> Z -> Z -> Z -> Z -> M Z).
Context (loop_eq : forall fuel pt va src len, loop fuel pt va src len =
  if len <=? 0 then mret 0
  else match fuel with
       | O => nofuel
       | S fuel =>
           pa ← find_user_pa pt va need;
           if pa =? 0 then mret (-1)
           else
             memmove pa src (chunk pa len);;
             loop fuel pt (va +w chunk pa len) (src +w chunk pa len) (len - chunk pa len)
       end).

Lemma wp_put_loop fuel : forall s pt va src len, uspace_ok s pt ->
  0 <= va -> 0 <= len <= Z.of_nat fuel -> va + len <= U32 -> kbuf s pt src len ->
  wp (loop fuel pt (u32 va) src len) (fun r s' => exists m' k, s' = set_mem m' s /\
    stops (mem s) pt need va len r k /\ written (mem s) m' pt need va src k) s.
Proof.
  induction fuel as [|fuel IH]; intros s pt va src len Hus Hva Hlen Hend Hb; rewrite loop_eq.
  all: destruct (len <=? 0) eqn:E; zbool; [| try lia].
  1, 2: apply wp_ret; exists (mem s), 0; split_and!;
    [by destruct s | unfold stops; lia | split; [lia | done]].
  rewrite (u32_small va) by (unfold U32 in *; lia).
  apply wp_bind, wp_find_user_pa; [apply Hus |].
  set (pa := user_pa (mem s) pt need va). destruct (pa =? 0) eqn:E0; zbool.
  { apply wp_ret. exists (mem s), 0.
    split_and!; [by destruct s | by apply stops_refused | split; [lia | done]]. }
  destruct (chunk_spec pa len) as [Hn Hfit]; [lia |]. set (n := chunk pa len) in *.
  assert (Hend' : va + n <= U32) by lia. assert (Hn0 : 0 < n) by lia.
  pose proof (kb_span _ _ _ _ Hb) as (Hs0 & Hs1 & Hs2).
  apply wp_bind, wp_memmove.
  { by apply (pass_span s pt va n need). }
  { unfold span_ok. lia. }
  intros m1 Hm1. assert (Hst : same_tables (mem s) m1 pt).
  { apply (user_write_tables s pt Hus need va); [unfold U32 in *; lia | done |].
    intros a Ha. rewrite Hm1. zcase; [| done]. destruct Ha.
    destruct (pass_page s pt va n need Hus Hva Hend' Hn0 E0 Hfit) as (P1 & P2 & _).
    fold pa in P1, P2. unfold in_page, PAGE_SIZE. lia. }
  rewrite (u32_small (src + n)) by lia.
  eapply wp_mono; [apply (IH (set_mem m1 s) pt (va + n) (src + n) (len - n)) |]; try lia.
  - by apply same_tables_uspace.
  - apply same_tables_kbuf; [done |]. apply (kbuf_sub _ _ _ len); [done | lia ..].
  - cbn [mem set_mem]. intros r s' (m' & k & -> & Hstop & Hw). exists m', (n + k).
    pose proof Hstop as [Hk _].
    split_and!; [done | by eapply stops_pass |].
    apply (written_pass s m1); try done; try lia. by apply (kbuf_sub _ _ _ len 0 (n + k)) in Hb; [rewrite Z.add_0_r in Hb | lia ..].
Qed.
End PutLoop.

Lemma wp_copyout_loop fuel s pt va src len : uspace_ok s pt ->
  0 <= va -> 0 <= len <= Z.of_nat fuel -> va + len <= U32 -> kbuf s pt src len ->
  wp (copyout_loop fuel pt (u32 va) src len) (fun r s' => exists m' k, s' = set_mem m' s /\
    stops (mem s) pt PTE_W va len r k /\ written (mem s) m' pt PTE_W va src k) s.
Proof. apply (wp_put_loop PTE_W copyout_loop). by intros []. Qed.

(** The first [k] bytes from user address [va] have been read into [dst]. *)
Definition read_in (m m' : gmap Z Z) (pt dst va k : Z) : Prop :=
  (forall j, 0 <= j < k -> user_pa m pt PTE_R (va + j) <> 0) /\
  (forall a, load8 m' a =
     if (dst <=? a) && (a <? dst + k) then load8 m (user_pa m pt PTE_R (va + (a - dst)))
     else load8 m a).

(** A byte the user can address is not in a kernel buffer. *)
Lemma user_not_kbuf s pt need va a n : uspace_ok s pt -> kbuf s pt a n -> 0 <= va < U32 ->
  user_pa (mem s) pt need va <> 0 -> user_pa (mem s) pt need va < a \/ a + n <= user_pa (mem s) pt need va.
Proof.
  intros Hus Hb Hva Hnz. destruct (user_pa_page s pt Hus need va Hva Hnz) as (Hal & _ & _ & Hin).
  destruct (decide (a <= user_pa (mem s) pt need va < a + n)) as [Hx |]; [| lia].
  by destruct (kb_user _ _ _ _ Hb _ va Hx Hva (allows_user _ _ Hal)).
Qed.

Lemma read_in_pass s m1 m' pt dst va n k len : uspace_ok s pt -> 0 <= va -> va + len <= U32 ->
  0 < n -> 0 <= k -> n + k <= len -> kbuf s pt dst len -> same_tables (mem s) m1 pt ->
  let pa := user_pa (mem s) pt PTE_R va in
  pa <> 0 -> pa mod 4096 + n <= 4096 ->
  (forall a, load8 m1 a =
     if (dst <=? a) && (a <? dst + n) then load8 (mem s) (pa + (a - dst)) else load8 (mem s) a) ->
  read_in m1 m' pt (dst + n) (va + n) k -> read_in (mem s) m' pt dst va (n + k).
Proof.
  intros Hus Hva Hend Hn Hk Hl Hb Hst pa Hnz Hfit Hm1 [WU WF].
  assert (Hend' : va + n <= U32) by lia.
  pose proof (pass_user s pt va n PTE_R Hus Hva Hend' Hn Hnz Hfit) as Hpu.
  pose proof (pass_nonzero s pt va n PTE_R Hus Hva Hend' Hn Hnz Hfit) as Hp0.
  assert (Hup : forall v, user_pa m1 pt PTE_R v = user_pa (mem s) pt PTE_R v)
    by (intros; by apply same_tables_user_pa).
  assert (HU : forall j, 0 <= j < n + k -> user_pa (mem s) pt PTE_R (va + j) <> 0).
  { intros j Hj. destruct (decide (j < n)); [apply Hp0; lia |].
    specialize (WU (j - n) ltac:(lia)). rewrite Hup in WU.
    by replace (va + n + (j - n)) with (va + j) in WU by lia. }
  split; [done |]. intros a. rewrite WF, Hup.
  replace (va + n + (a - (dst + n))) with (va + (a - dst)) by lia.
  destruct (decide (dst + n <= a < dst + n + k)) as [Hin | Hout].
  - zcase; [| lia]. zcase; [| lia]. rewrite Hm1.
    destruct (user_not_kbuf s pt PTE_R (va + (a - dst)) dst len); try done;
      [unfold U32 in *; lia | apply HU; lia | zcase; [lia | done] ..].
  - zcase; [lia |]. rewrite Hm1. zcase; zcase; try lia.
    rewrite Hpu by lia. done.
Qed.

Lemma wp_copyin_loop fuel : forall s pt dst va len, uspace_ok s pt ->
  0 <= va -> 0 <= len <= Z.of_nat fuel -> va + len <= U32 -> kbuf s pt dst len ->
  wp (copyin_loop fuel pt dst (u32 va) len) (fun r s' => exists m' k, s' = set_mem m' s /\
    stops (mem s) pt PTE_R va len r k /\ read_in (mem s) m' pt dst va k) s.
Proof.
  induction fuel as [|fuel IH]; intros s pt dst va len Hus Hva Hlen Hend Hb; cbn [copyin_loop].
  all: destruct (len <=? 0) eqn:E; zbool; [| try lia].
  1, 2: apply wp_ret; exists (mem s), 0; split_and!;
    [by destruct s | unfold stops; lia | split; [lia | intros a; zcase; [lia | done]]].
  rewrite (u32_small va) by (unfold U32 in *; lia).
  apply wp_bind, wp_find_user_pa; [apply Hus |].
  set (pa := user_pa (mem s) pt PTE_R va). destruct (pa =? 0) eqn:E0; zbool.
  { apply wp_ret. exists (mem s), 0. split_and!; [by destruct s | by apply stops_refused |].
    split; [lia | intros a; zcase; [lia | done]]. }
  destruct (chunk_spec pa len) as [Hn Hfit]; [lia |]. set (n := chunk pa len) in *.
  assert (Hend' : va + n <= U32) by lia. assert (Hn0 : 0 < n) by lia.
  pose proof (kb_span _ _ _ _ Hb) as (Hs0 & Hs1 & Hs2).
  apply wp_bind, wp_memmove.
  { unfold span_ok. lia. }
  { by apply (pass_span s pt va n PTE_R). }
  intros m1 Hm1. assert (Hst : same_tables (mem s) m1 pt).
  { apply (kbuf_write_tables s pt dst len); [done |]. intros x Hx. rewrite Hm1. zcase; [lia | done]. }
  rewrite (u32_small (dst + n)) by lia.
  eapply wp_mono; [apply (IH (set_mem m1 s) pt (dst + n) (va + n) (len - n)) |]; try lia.
  - by apply same_tables_uspace.
  - apply same_tables_kbuf; [done |]. apply (kbuf_sub _ _ _ len); [done | lia ..].
  - cbn [mem set_mem]. intros r s' (m' & k & -> & Hstop & Hw). exists m', (n + k).
    pose proof Hstop as [Hk _].
    split_and!; [done | by eapply stops_pass |].
    apply (read_in_pass s m1 m' pt dst va n k len); try done; lia.
Qed.

(** ** Strings *)

(** Copying from [p] to [dst] one by one: [c] bytes moved. *)
Definition moved (m m' : gmap Z Z) (dst p c : Z) : Prop :=
  forall a, load8 m' a =
    if (dst <=? a) && (a <? dst + c) then load8 m (p + (a - dst)) else load8 m a.

Lemma moved_cons m m' dst p c : 0 <= c -> p + c < dst \/ dst + c < p ->
  moved (store8 m dst (load8 m p)) m' (dst + 1) (p + 1) c -> moved m m' dst p (c + 1).
Proof.
  intros Hc Hd Hm a. rewrite Hm. destruct (decide (a = dst)) as [-> |].
  - zcase; [lia |]. rewrite load8_store8_eq. unfold load8 at 1. rewrite u8_idem.
    zcase; [| lia]. unfold load8. do 2 f_equal. lia.
  - rewrite (load8_store8_ne m dst a) by done. zcase; zcase; try lia.
    rewrite load8_store8_ne by lia. f_equal. lia.
Qed.

Lemma copystr_page_spec n : forall m p dst max, span_ok p (Z.of_nat n) -> span_ok dst (Z.of_nat n) ->
  p + Z.of_nat n <= dst \/ dst + Z.of_nat n <= p ->
  exists m' k null, copystr_page n m p dst max = (m', dst + k, max - k, null)
    /\ (forall j, 0 <= j < k -> load8 m (p + j) <> 0)
    /\ (null = true /\ 0 <= k < Z.of_nat n /\ load8 m (p + k) = 0 /\ moved m m' dst p (k + 1)
        \/ null = false /\ k = Z.of_nat n /\ moved m m' dst p k).
Proof.
  induction n as [|n IH]; intros m p dst max (P1 & P2 & P3) (D1 & D2 & D3) Hd; cbn [copystr_page].
  { exists m, 0, false. rewrite Z.add_0_r, Z.sub_0_r. split_and!; [done | lia |].
    right. split_and!; [done | done |]. intros a. zcase; [lia | done]. }
  destruct (load8 m p =? 0) eqn:E; zbool.
  { exists (store8 m dst 0), 0, true. rewrite Z.add_0_r, Z.sub_0_r.
    split_and!; [done | lia |]. left. rewrite Z.add_0_r. split_and!; [done | lia | lia | done |].
    rewrite <- E. apply moved_cons; [lia | lia |]. intros a. zcase; [lia | done]. }
  set (m1 := store8 m dst (load8 m p)).
  assert (Hm1 : forall j, 0 <= j -> j < Z.of_nat n -> load8 m1 (p + 1 + j) = load8 m (p + (1 + j))).
  { intros j H0 H1. unfold m1. rewrite load8_store8_ne by lia. f_equal. lia. }
  rewrite !u32_small by lia.
  destruct (IH m1 (p + 1) (dst + 1) (max - 1)) as (m' & k & null & He & Hnz & Hr);
    [unfold span_ok; lia | unfold span_ok; lia | lia |].
  assert (Hk : 0 <= k <= Z.of_nat n) by (destruct Hr as [(_ & ? & _) | (_ & ? & _)]; lia).
  exists m', (1 + k), null. rewrite He. split_and!.
  - rewrite Z.add_assoc. by replace (max - 1 - k) with (max - (1 + k)) by lia.
  - intros j Hj. destruct (decide (j = 0)) as [-> | Hj0]; [by rewrite Z.add_0_r |].
    replace j with (1 + (j - 1)) by lia. rewrite <- Hm1 by lia. apply Hnz. lia.
  - destruct Hr as [(-> & Hk' & Hz & Hmv) | (-> & Hk' & Hmv)]; [left | right].
    + rewrite Hm1 in Hz by lia. split_and!; [done | lia | lia | done |].
      rewrite (Z.add_comm 1 k).
      apply moved_cons; [lia | lia | done].
    + split_and!; [done | lia |]. rewrite (Z.add_comm 1 k). apply moved_cons; [lia | lia | done].
Qed.

(** What [copyinstr] did: [k] bytes before the end, then the NUL, an address
    that is refused or the limit. *)
Definition copied_str (m m' : gmap Z Z) (pt dst va max r : Z) : Prop :=
  exists k, 0 <= k <= max /\
    (forall j, 0 <= j < k -> load8 m (user_pa m pt PTE_R (va + j)) <> 0) /\
    (r = 0 /\ k < max /\ load8 m (user_pa m pt PTE_R (va + k)) = 0 /\ read_in m m' pt dst va (k + 1)
     \/ r = -1 /\ (k = max \/ user_pa m pt PTE_R (va + k) = 0) /\ read_in m m' pt dst va k).

Lemma read_in_0 m pt dst va : read_in m m pt dst va 0.
Proof. split; [lia |]. intros a. zcase; [lia | done]. Qed.

Lemma copied_str_pass s m1 m' pt dst va n max r : uspace_ok s pt -> 0 <= va ->
  va + max <= U32 -> 0 < n <= max -> kbuf s pt dst max -> same_tables (mem s) m1 pt ->
  let pa := user_pa (mem s) pt PTE_R va in
  pa <> 0 -> pa mod 4096 + n <= 4096 -> moved (mem s) m1 dst pa n ->
  (forall j, 0 <= j < n -> load8 (mem s) (pa + j) <> 0) ->
  copied_str m1 m' pt (dst + n) (va + n) (max - n) r -> copied_str (mem s) m' pt dst va max r.
Proof.
  intros Hus Hva Hend Hn Hb Hst pa Hnz Hfit Hm1 Hbytes (k & Hk & Hkb & Hr).
  assert (Hend' : va + n <= U32) by lia. assert (Hn0 : 0 < n) by lia.
  pose proof (pass_user s pt va n PTE_R Hus Hva Hend' Hn0 Hnz Hfit) as Hpu.
  assert (Hup : forall v, user_pa m1 pt PTE_R v = user_pa (mem s) pt PTE_R v)
    by (intros; by apply same_tables_user_pa).
  assert (Hby : forall v, 0 <= v < U32 -> user_pa (mem s) pt PTE_R v <> 0 ->
    load8 m1 (user_pa m1 pt PTE_R v) = load8 (mem s) (user_pa (mem s) pt PTE_R v)).
  { intros v Hv Hvz. rewrite Hup, Hm1.
    destruct (user_not_kbuf s pt PTE_R v dst max Hus Hb Hv Hvz); (zcase; [lia | done]). }
  assert (Hread : forall c, 0 <= c <= max - n -> read_in m1 m' pt (dst + n) (va + n) c ->
    read_in (mem s) m' pt dst va (n + c)).
  { intros c Hc Hin. by apply (read_in_pass s m1 m' pt dst va n c max); try lia. }
  assert (Hnzk : forall c j, 0 <= j < c -> read_in m1 m' pt (dst + n) (va + n) c ->
    user_pa (mem s) pt PTE_R (va + n + j) <> 0).
  { intros c j Hj [Hu _]. rewrite <- Hup. auto. }
  exists (n + k). split; [lia |].
  replace (va + (n + k)) with (va + n + k) by lia. rewrite <- Hup.
  assert (Hall : (exists c, k <= c /\ read_in m1 m' pt (dst + n) (va + n) c) ->
    forall j, 0 <= j < n + k -> load8 (mem s) (user_pa (mem s) pt PTE_R (va + j)) <> 0).
  { intros (c & Hc & Hin) j Hj. destruct (decide (j < n)).
    - rewrite Hpu by lia. apply Hbytes. lia.
    - replace (va + j) with (va + n + (j - n)) by lia.
      rewrite <- Hby; [apply Hkb; lia | unfold U32 in *; lia | apply (Hnzk c); [lia | done]]. }
  destruct Hr as [(-> & Hlt & Hz & Hin) | (-> & Hwhy & Hin)]; (split; [apply Hall; eexists; split; [| exact Hin]; lia |]).
  - left. split_and!; [done | lia | | replace (n + k + 1) with (n + (k + 1)) by lia; apply Hread; [lia | done]].
    rewrite Hup. rewrite <- Hby; [done | unfold U32 in *; lia | apply (Hnzk (k + 1)); [lia | done]].
  - right. split_and!; [done | destruct Hwhy; [left; lia | by right] | apply Hread; [lia | done]].
Qed.

Lemma wp_copyinstr_loop fuel : forall s pt dst va max, uspace_ok s pt ->
  0 <= va -> 0 <= max <= Z.of_nat fuel -> va + max <= U32 -> kbuf s pt dst max ->
  wp (copyinstr_loop fuel pt dst (u32 va) max) (fun r s' => exists m', s' = set_mem m' s /\
    copied_str (mem s) m' pt dst va max r) s.
Proof.
  induction fuel as [|fuel IH]; intros s pt dst va max Hus Hva Hmax Hend Hb; cbn [copyinstr_loop].
  all: destruct (max <=? 0) eqn:E; zbool; [| try lia].
  1, 2: apply wp_ret; exists (mem s); split; [by destruct s |]; exists 0;
    split_and!; [lia | lia | lia |]; right; split_and!; [done | left; lia | apply read_in_0].
  rewrite (u32_small va) by (unfold U32 in *; lia).
  apply wp_bind, wp_find_user_pa; [apply Hus |].
  set (pa := user_pa (mem s) pt PTE_R va). destruct (pa =? 0) eqn:E0; zbool.
  { apply wp_ret. exists (mem s). split; [by destruct s |]. exists 0.
    split_and!; [lia | lia | lia |]. right. rewrite Z.add_0_r.
    split_and!; [done | by right | apply read_in_0]. }
  destruct (chunk_spec pa max) as [Hn Hfit]; [lia |]. set (n := chunk pa max) in *.
  assert (Hend' : va + n <= U32) by lia. assert (Hn0 : 0 < n) by lia.
  pose proof (kb_span _ _ _ _ Hb) as (Hs0 & Hs1 & Hs2).
  apply wp_bind, wp_gets.
  destruct (copystr_page_spec (Z.to_nat n) (mem s) pa dst max) as (m1 & k & null & He & Hnz & Hr);
    rewrite ?Z2Nat.id by lia.
  { by apply (pass_span s pt va n PTE_R). }
  { unfold span_ok. lia. }
  { destruct (decide (pa + n <= dst \/ dst + n <= pa)); [done |].
    pose proof (pass_kbuf s pt va n PTE_R Hus Hva Hend' Hn0 E0 Hfit dst n (Z.max pa dst)) as Hd.
    fold pa in Hd. exfalso. apply (kbuf_sub _ _ _ _ 0 n) in Hb; [| lia ..]. rewrite Z.add_0_r in Hb.
    destruct Hd; [done | lia | lia | lia]. }
  rewrite Z2Nat.id in Hr by lia. rewrite He.
  assert (Hkn : 0 <= k <= n) by (destruct Hr as [(_ & ? & _) | (_ & ? & _)]; lia).
  set (c := if null : bool then k + 1 else k).
  assert (Hc : 0 < c <= n /\ moved (mem s) m1 dst pa c).
  { destruct Hr as [(-> & ? & _ & ?) | (-> & ? & ?)]; (split; [cbn [c]; lia | done]). }
  destruct Hc as [Hc Hmv].
  assert (Hst : same_tables (mem s) m1 pt).
  { apply (kbuf_write_tables s pt dst max); [done |]. intros x Hx. rewrite Hmv. zcase; [lia | done]. }
  apply wp_bind, wp_modify.
  destruct Hr as [(-> & Hk & Hz & _) | (-> & -> & _)].
  - apply wp_ret. exists m1. split; [done |]. exists k. split_and!; [lia | lia | |].
    + intros j Hj. rewrite (pass_user s pt va n PTE_R) by (done || lia). apply Hnz. lia.
    + left. rewrite (pass_user s pt va n PTE_R) by (done || lia). split_and!; [done | lia | done |].
      replace (k + 1) with (c + 0) by (cbn [c]; lia).
      apply (read_in_pass s m1 m1 pt dst va c 0 max); try done; try (fold pa); try lia.
      apply read_in_0.
  - eapply wp_mono; [apply (IH (set_mem m1 s) pt (dst + n) (va + n) (max - n)) |]; try lia.
    + by apply same_tables_uspace.
    + apply same_tables_kbuf; [done |]. apply (kbuf_sub _ _ _ max); [done | lia ..].
    + cbn [mem set_mem]. intros r s' (m' & -> & Hcs). exists m'. split; [done |].
      by apply (copied_str_pass s m1 m' pt dst va n max r).
Qed.

(** ** A concrete address space

    Root table in page 2, second-level table in page 4, and user page 1 mapped
    to page 6 of RAM, readable and writable; a kernel buffer with "Hi" in page 1. *)
Definition demo_base : gmap Z Z := <[0x80001000 := 72]> (<[0x80001001 := 105]> ∅).
Definition demo_rwu : Z := Z.lor (Z.lor PTE_R PTE_W) PTE_U.
Definition user_demo : kstate :=
  set_mem (store32 (store32 demo_base 0x80002000 (Z.lor (PA2PTE 0x80004000) PTE_V))
    0x80004004 (mk_pte 0x80006000 demo_rwu)) two_pages.

Lemma demo_base_0 a : 0x80001002 <= a -> load32 demo_base a = 0.
Proof.
  intros Ha. unfold load32, load8, demo_base. rewrite !get0_insert_ne by lia.
  unfold get0. by rewrite !lookup_empty.
Qed.

Lemma user_demo_l1 i : 0 <= i < 1024 ->
  l1 (mem user_demo) demo_pt i = if decide (i = 0) then Z.lor (PA2PTE 0x80004000) PTE_V else 0.
Proof.
  intros Hi. unfold l1, user_demo, demo_pt. cbn [mem set_mem].
  rewrite load32_store32_ne by lia. case_decide as H0.
  - subst i. by rewrite Z.mul_0_r, Z.add_0_r, load32_store32_eq.
  - rewrite load32_store32_ne by lia. apply demo_base_0. lia.
Qed.

Lemma user_demo_pte v : 0 <= v < U32 ->
  pte_at (mem user_demo) demo_pt v = if decide (vpn v = 1) then mk_pte 0x80006000 demo_rwu else 0.
Proof.
  intros Hv. unfold pte_at. rewrite user_demo_l1 by apply vpn1_range.
  pose proof (vpn_split v Hv) as Hs. pose proof (vpn0_range v). pose proof (vpn1_range v).
  destruct (decide (vpn1 v = 0)) as [H1 | H1].
  - change (valid (Z.lor (PA2PTE 0x80004000) PTE_V)) with true.
    change (PTE2PA (Z.lor (PA2PTE 0x80004000) PTE_V)) with 0x80004000.
    unfold user_demo. cbn [mem set_mem]. case_decide as Hbad.
    + replace (vpn0 v) with 1 by lia. exact (load32_store32_eq _ _ _).
    + rewrite !load32_store32_ne by lia. apply demo_base_0. lia.
  - rewrite valid_0. rewrite decide_False by lia. done.
Qed.

Lemma user_demo_table t : table (mem user_demo) demo_pt t <-> t = demo_pt \/ t = 0x80004000.
Proof.
  unfold table. split; intros [-> | H]; try by left.
  - destruct H as (i & Hi & Hv & ->). rewrite user_demo_l1 in * by done.
    case_decide; [by right | discriminate Hv].
  - right. exists 0. rewrite user_demo_l1 by lia. by rewrite decide_True by done.
Qed.

Lemma user_demo_page v : 0 <= v < U32 -> allows (pte_at (mem user_demo) demo_pt v) 0 = true ->
  vpn v = 1 /\ PTE2PA (pte_at (mem user_demo) demo_pt v) = 0x80006000.
Proof.
  intros Hv. rewrite user_demo_pte by done. case_decide as H1; [done |].
  intros H. rewrite allows_0 in H. discriminate H.
Qed.

Lemma user_demo_ok : uspace_ok user_demo demo_pt.
Proof.
  split; [split | |].
  - vm_compute. intuition congruence.
  - intros i Hi. rewrite user_demo_l1 by done. case_decide; [| intros H0; discriminate H0].
    intros _. vm_compute. intuition congruence.
  - intros i j Hi Hj. rewrite !user_demo_l1 by done.
    repeat case_decide; try (intros; congruence); intros H1 H2; discriminate H1 || discriminate H2.
  - intros v Hv Ha. destruct (user_demo_page v Hv Ha) as [_ ->]. rewrite user_demo_table.
    vm_compute. intuition congruence.
  - intros v v' Hv Hv' Ha Ha' _. destruct (user_demo_page v Hv Ha) as [-> _].
    by destruct (user_demo_page v' Hv' Ha') as [-> _].
Qed.

Lemma user_demo_kbuf a n : 0x80001000 <= a -> 0 <= n -> a + n <= 0x80002000 ->
  kbuf user_demo demo_pt a n.
Proof.
  intros H1 H2 H3. split; [unfold span_ok, U32; lia | |].
  - intros x t Hx Ht. apply user_demo_table in Ht. unfold in_page, demo_pt, PAGE_SIZE in *. lia.
  - intros x v Hx Hv Ha. destruct (user_demo_page v Hv Ha) as [_ ->]. unfold in_page. lia.
Qed.

(** * Properties *)

(** C18 ([copyout] writes exactly the addressed user bytes): it terminates;
    it returns 0 when all [len] bytes were written and -1 when it met an
    address that is not valid, user-accessible and writable, having written
    the bytes before it. Byte [j] of the buffer is then at the physical
    address that user address [dst_va + j] translates to, across page
    boundaries, and no other byte of memory, no table and no other state has
    changed. *)
Theorem copyout_correct s pt dst_va src len : uspace_ok s pt -> kbuf s pt src len ->
  0 <= dst_va -> dst_va + len <= U32 -> 0 < len ->
  wp (copyout pt dst_va src len) (fun r s' => exists m' k, s' = set_mem m' s /\
    0 <= k <= len /\
    (r = 0 /\ k = len \/ r = -1 /\ k < len /\ user_pa (mem s) pt PTE_W (dst_va + k) = 0) /\
    (forall j, 0 <= j < k -> user_pa (mem s) pt PTE_W (dst_va + j) <> 0 /\
       load8 m' (user_pa (mem s) pt PTE_W (dst_va + j)) = load8 (mem s) (src + j)) /\
    (forall a, (forall j, 0 <= j < k -> a <> user_pa (mem s) pt PTE_W (dst_va + j)) ->
       load8 m' a = load8 (mem s) a)) s.
Proof.
  intros Hus Hb Hva Hend Hl. unfold copyout.
  rewrite <- (u32_small dst_va) at 1 by lia.
  eapply wp_mono; [apply wp_copyout_loop; try done; lia |].
  intros r s' (m' & k & -> & [Hk Hr] & [WU WF]). exists m', k. split_and!; try done; lia.
Qed.

(** The copy runs into the end of the user's page. *)
Lemma copyout_correct_witness :
  wp (copyout demo_pt 0x1FFF 0x80001000 2) (fun r s' => exists m' k, s' = set_mem m' user_demo /\
    0 <= k <= 2 /\
    (r = 0 /\ k = 2 \/ r = -1 /\ k < 2 /\ user_pa (mem user_demo) demo_pt PTE_W (0x1FFF + k) = 0) /\
    (forall j, 0 <= j < k -> user_pa (mem user_demo) demo_pt PTE_W (0x1FFF + j) <> 0 /\
       load8 m' (user_pa (mem user_demo) demo_pt PTE_W (0x1FFF + j))
       = load8 (mem user_demo) (0x80001000 + j)) /\
    (forall a, (forall j, 0 <= j < k -> a <> user_pa (mem user_demo) demo_pt PTE_W (0x1FFF + j)) ->
       load8 m' a = load8 (mem user_demo) a)) user_demo.
Proof.
  refine (copyout_correct user_demo demo_pt 0x1FFF 0x80001000 2 user_demo_ok
    (user_demo_kbuf _ _ _ _ _) _ _ _); unfold U32; lia.
Defined.

(** [copyin] reads exactly the addressed user bytes: the buffer receives
    what the user addresses translate to, as far as they are valid,
    user-accessible and readable; -1 is returned when that is not all of
    them; no byte outside the buffer changes. *)
Theorem copyin_correct s pt dst src_va len : uspace_ok s pt -> kbuf s pt dst len ->
  0 <= src_va -> src_va + len <= U32 -> 0 < len ->
  wp (copyin pt dst src_va len) (fun r s' => exists m' k, s' = set_mem m' s /\
    0 <= k <= len /\
    (r = 0 /\ k = len \/ r = -1 /\ k < len /\ user_pa (mem s) pt PTE_R (src_va + k) = 0) /\
    (forall j, 0 <= j < k -> user_pa (mem s) pt PTE_R (src_va + j) <> 0) /\
    (forall a, load8 m' a = if (dst <=? a) && (a <? dst + k)
       then load8 (mem s) (user_pa (mem s) pt PTE_R (src_va + (a - dst)))
       else load8 (mem s) a)) s.
Proof.
  intros Hus Hb Hva Hend Hl. unfold copyin.
  rewrite <- (u32_small src_va) at 1 by lia.
  eapply wp_mono; [apply wp_copyin_loop; try done; lia |].
  intros r s' (m' & k & -> & [Hk Hr] & [WU WF]). exists m', k. split_and!; try done; lia.
Qed.

Lemma copyin_correct_witness :
  wp (copyin demo_pt 0x80001100 0x1FF0 32) (fun r s' => exists m' k, s' = set_mem m' user_demo /\
    0 <= k <= 32 /\
    (r = 0 /\ k = 32 \/ r = -1 /\ k < 32 /\ user_pa (mem user_demo) demo_pt PTE_R (0x1FF0 + k) = 0) /\
    (forall j, 0 <= j < k -> user_pa (mem user_demo) demo_pt PTE_R (0x1FF0 + j) <> 0) /\
    (forall a, load8 m' a = if (0x80001100 <=? a) && (a <? 0x80001100 + k)
       then load8 (mem user_demo) (user_pa (mem user_demo) demo_pt PTE_R (0x1FF0 + (a - 0x80001100)))
       else load8 (mem user_demo) a)) user_demo.
Proof.
  refine (copyin_correct user_demo demo_pt 0x80001100 0x1FF0 32 user_demo_ok
    (user_demo_kbuf _ _ _ _ _) _ _ _); unfold U32; lia.
Defined.

(** The translation depends on the access only in being refused. *)
Lemma user_pa_need m pt n1 n2 va : user_pa m pt n1 va <> 0 -> user_pa m pt n2 va <> 0 ->
  user_pa m pt n1 va = user_pa m pt n2 va.
Proof. unfold user_pa. by destruct (allows _ n1), (allows _ n2). Qed.

(** C25 (what is copied out is read back): if the user may read and write all
    of [va .. va+len), copying a buffer out and copying the range back into
    another buffer both return 0 and the second buffer then holds the bytes of
    the first. *)
Theorem copyout_copyin_roundtrip s pt va src dst len : uspace_ok s pt ->
  kbuf s pt src len -> kbuf s pt dst len -> 0 <= va -> va + len <= U32 -> 0 < len ->
  (forall j, 0 <= j < len -> user_pa (mem s) pt PTE_R (va + j) <> 0
     /\ user_pa (mem s) pt PTE_W (va + j) <> 0) ->
  wp (r1 ← copyout pt va src len; r2 ← copyin pt dst va len; mret (r1, r2))
    (fun r s' => r = (0, 0) /\
       forall j, 0 <= j < len -> load8 (mem s') (dst + j) = load8 (mem s) (src + j)) s.
Proof.
  intros Hus Hsrc Hdst Hva Hend Hl Hrw. apply wp_bind. unfold copyout, copyin.
  rewrite <- (u32_small va) by lia.
  eapply wp_mono; [apply wp_copyout_loop; try done; lia |].
  intros r1 s1 (m1 & k1 & -> & [Hk1 Hr1] & [WU WF]).
  destruct Hr1 as [[-> ->] | (_ & Hlt & Hz)]; [| by destruct (Hrw k1) as [_ []]; [lia |]].
  assert (Hst : same_tables (mem s) m1 pt) by (by apply (written_tables s m1 pt PTE_W va src len)).
  apply wp_bind. eapply wp_mono; [apply (wp_copyin_loop _ (set_mem m1 s) pt dst va len); try lia |].
  { by apply same_tables_uspace. }
  { by apply same_tables_kbuf. }
  cbn [mem set_mem]. intros r2 s2 (m2 & k2 & -> & [Hk2 Hr2] & [_ RF]). apply wp_ret.
  assert (Hup : forall v, user_pa m1 pt PTE_R v = user_pa (mem s) pt PTE_R v)
    by (intros; by apply same_tables_user_pa).
  destruct Hr2 as [[-> ->] | (_ & Hlt & Hz)];
    [| rewrite Hup in Hz; by destruct (Hrw k2) as [[] _]; [lia |]].
  split; [done |]. intros j Hj. cbn [mem set_mem]. rewrite RF. zcase; [| lia].
  replace (dst + j - dst) with j by lia. destruct (Hrw j Hj) as [HR HW].
  rewrite Hup, (user_pa_need _ _ PTE_R PTE_W) by done. by apply WU.
Qed.

Lemma copyout_copyin_roundtrip_witness :
  wp (r1 ← copyout demo_pt 0x1000 0x80001000 2;
      r2 ← copyin demo_pt 0x80001100 0x1000 2; mret (r1, r2))
    (fun r s' => r = (0, 0) /\ forall j, 0 <= j < 2 ->
       load8 (mem s') (0x80001100 + j) = load8 (mem user_demo) (0x80001000 + j)) user_demo.
Proof.
  refine (copyout_copyin_roundtrip user_demo demo_pt 0x1000 0x80001000 0x80001100 2 user_demo_ok
    (user_demo_kbuf _ _ _ _ _) (user_demo_kbuf _ _ _ _ _) _ _ _ _); try (unfold U32; lia).
  intros j Hj. assert (Hv : j = 0 \/ j = 1) by lia.
  destruct Hv as [-> | ->]; vm_compute; intuition congruence.
Defined.

(** [copyinstr] copies a string or refuses it, within its limit: it
    returns 0 exactly with the user's bytes up to and including the first NUL
    in the buffer, all of them readable and the NUL among the first [max]; it
    returns -1 when the first [max] bytes hold no NUL or an unreadable address
    comes before it. At most [max] bytes of the buffer and no other byte of
    memory are written. *)
Theorem copyinstr_correct s pt dst src_va max : uspace_ok s pt -> kbuf s pt dst max ->
  0 <= src_va -> src_va + max <= U32 -> 0 < max ->
  let byte j := load8 (mem s) (user_pa (mem s) pt PTE_R (src_va + j)) in
  wp (copyinstr pt dst src_va max) (fun r s' => exists m' k c, s' = set_mem m' s /\
    0 <= k <= max /\ (forall j, 0 <= j < k -> byte j <> 0) /\
    (r = 0 /\ c = k + 1 /\ k < max /\ byte k = 0
     \/ r = -1 /\ c = k /\ (k = max \/ user_pa (mem s) pt PTE_R (src_va + k) = 0)) /\
    (forall j, 0 <= j < c -> user_pa (mem s) pt PTE_R (src_va + j) <> 0) /\
    (forall a, load8 m' a =
       if (dst <=? a) && (a <? dst + c) then byte (a - dst) else load8 (mem s) a)) s.
Proof.
  intros Hus Hb Hva Hend Hl byte. unfold copyinstr.
  rewrite <- (u32_small src_va) at 1 by lia.
  eapply wp_mono; [apply wp_copyinstr_loop; try done; lia |].
  intros r s' (m' & -> & k & Hk & Hnz & Hr).
  destruct Hr as [(-> & Hlt & Hz & [RU RF]) | (-> & Hw & [RU RF])];
    [exists m', k, (k + 1) | exists m', k, k]; (split_and!; [done | lia | lia | done | | done | done]).
  - left. split_and!; done.
  - right. split_and!; done.
Qed.

Lemma copyinstr_correct_witness :
  let byte j := load8 (mem user_demo) (user_pa (mem user_demo) demo_pt PTE_R (0x1000 + j)) in
  wp (copyinstr demo_pt 0x80001100 0x1000 16) (fun r s' => exists m' k c, s' = set_mem m' user_demo /\
    0 <= k <= 16 /\ (forall j, 0 <= j < k -> byte j <> 0) /\
    (r = 0 /\ c = k + 1 /\ k < 16 /\ byte k = 0
     \/ r = -1 /\ c = k /\ (k = 16 \/ user_pa (mem user_demo) demo_pt PTE_R (0x1000 + k) = 0)) /\
    (forall j, 0 <= j < c -> user_pa (mem user_demo) demo_pt PTE_R (0x1000 + j) <> 0) /\
    (forall a, load8 m' a =
       if (0x80001100 <=? a) && (a <? 0x80001100 + c) then byte (a - 0x80001100)
       else load8 (mem user_demo) a)) user_demo.
Proof.
  refine (copyinstr_correct user_demo demo_pt 0x80001100 0x1000 16 user_demo_ok
    (user_demo_kbuf _ _ _ _ _) _ _ _); unfold U32; lia.
Defined.
