(* ===== verification/UserSpace.v ===== *)
(** Taking address spaces apart and growing them: [uvmunmap], [freewalk],
    [uvmfree] and [uvmalloc] of vm.c.

    The accounting is in terms of the allocator's available pages: unmapping
    returns exactly the unmapped pages, freeing an address space returns its
    pages and its tables, and a growth that fails gives back every page it
    had mapped. *)
From S2P Require Import Prelude Machine Csr KPrint Spinlock Printf Mem Vm PageTable KernelMap UserMem.

Lemma pte_at_vpn m pt v v' : 0 <= v < U32 -> 0 <= v' < U32 -> vpn v = vpn v' ->
  pte_at m pt v = pte_at m pt v'.
Proof. intros Hv Hv' He. apply vpn_eq in He as [H1 H0]; try done. unfold pte_at. by rewrite H1, H0. Qed.

(** * Removing pages *)

Section Pages.
Context (pt : Z).

(** The pages mapped at the addresses of [P]. *)
Definition pages (P : Z -> Prop) (s : kstate) (b : Z) : Prop :=
  exists v, 0 <= v < U32 /\ P v /\ valid (pte_at (mem s) pt v) = true
    /\ b = PTE2PA (pte_at (mem s) pt v).

(** They may be freed: handed out, not tables, none mapped twice. *)
Record pages_ok (P : Z -> Prop) (s : kstate) : Prop := {
  po_owned : forall v, 0 <= v < U32 -> P v -> valid (pte_at (mem s) pt v) = true ->
    owned s (PTE2PA (pte_at (mem s) pt v)) /\ ~ table (mem s) pt (PTE2PA (pte_at (mem s) pt v));
  po_inj : forall v v', 0 <= v < U32 -> 0 <= v' < U32 -> P v -> P v' ->
    valid (pte_at (mem s) pt v) = true -> valid (pte_at (mem s) pt v') = true ->
    PTE2PA (pte_at (mem s) pt v) = PTE2PA (pte_at (mem s) pt v') -> vpn v = vpn v'
}.

(** From [s] to [s'] the addresses of [P] were unmapped, their pages going
    back to the allocator if [fr]; nothing else happened. *)
Record pt_shrink (fr : bool) (P : Z -> Prop) (s s' : kstate) : Prop := {
  ps_frame : kframe s s';
  ps_ready : kready s';
  ps_wf : pt_wf s' pt;
  ps_tables : forall t, table (mem s') pt t <-> table (mem s) pt t;
  ps_kept : forall v, 0 <= v < U32 -> pte_at (mem s') pt v = pte_at (mem s) pt v
    \/ P v /\ valid (pte_at (mem s) pt v) = true /\ pte_at (mem s') pt v = 0;
  ps_gone : forall v, 0 <= v < U32 -> P v -> valid (pte_at (mem s') pt v) = false;
  ps_avail : forall b, avail s' b <-> avail s b \/ fr = true /\ pages P s b;
  ps_owned : forall b, owned s b -> (fr = true -> ~ pages P s b) -> owned s' b;
  ps_mem : forall a, (forall t, table (mem s) pt t -> ~ in_page t a) ->
    (fr = true -> forall b, pages P s b -> ~ in_page b a) -> load8 (mem s') a = load8 (mem s) a
}.

Lemma pages_mono (P Q : Z -> Prop) s b : (forall v, P v -> Q v) -> pages P s b -> pages Q s b.
Proof. intros H (v & Hv & HP & Hx). exists v. destruct Hx. split_and!; first [done | lia | by apply H]. Qed.

Lemma pages_ok_mono (P Q : Z -> Prop) s : (forall v, P v -> Q v) -> pages_ok Q s -> pages_ok P s.
Proof. intros H [O I]. split; intros; [apply O | apply I]; auto. Qed.

Lemma pt_shrink_none fr P s : kready s -> pt_wf s pt ->
  (forall v, 0 <= v < U32 -> P v -> valid (pte_at (mem s) pt v) = false) -> pt_shrink fr P s s.
Proof.
  intros Hr Hwf Hn. split; auto.
  - done.
  - intros b. split; [by left |]. intros [? | (_ & v & Hv & HP & Hx & _)]; [done |].
    by rewrite Hn in Hx.
Qed.

Lemma pt_shrink_equiv fr (P Q : Z -> Prop) s s' : (forall v, 0 <= v < U32 -> P v <-> Q v) ->
  pt_shrink fr P s s' -> pt_shrink fr Q s s'.
Proof.
  intros H [F R W T K G A O M].
  assert (Hp : forall b, pages P s b <-> pages Q s b).
  { intros b. split; intros (v & Hv & HP & Hx); destruct Hx; exists v; split_and!; first [done | lia | by apply H]. }
  split; auto.
  - intros v Hv. destruct (K v Hv) as [? | (? & ? & ?)]; [by left | right]. by rewrite <- H.
  - intros v Hv HQ. apply G; [done |]. by apply H.
  - intros b. by rewrite A, Hp.
  - intros b Hb Hn. apply O; [done |]. intros E. rewrite Hp. auto.
  - intros a Ht Ha. apply M; [done |]. intros E b Hb. apply Ha; [done |]. by apply Hp.
Qed.

(** What is still mapped after a removal is as it was before. *)
Lemma shrink_valid fr P s s' v : pt_shrink fr P s s' -> 0 <= v < U32 ->
  valid (pte_at (mem s') pt v) = true -> pte_at (mem s') pt v = pte_at (mem s) pt v.
Proof.
  intros Hs Hv Hval. destruct (ps_kept _ _ _ _ Hs v Hv) as [? | (_ & _ & H0)]; [done |].
  rewrite H0 in Hval. discriminate Hval.
Qed.

Lemma shrink_pages_ok fr P Q s s' : pt_shrink fr P s s' ->
  pages_ok (fun v => P v \/ Q v) s -> pages_ok Q s'.
Proof.
  intros Hs [O I]. split.
  - intros v Hv HQ Hval. pose proof (shrink_valid _ _ _ _ _ Hs Hv Hval) as He.
    rewrite He in Hval |- *. destruct (O v Hv (or_intror HQ) Hval) as [Ho Hnt].
    rewrite (ps_tables _ _ _ _ Hs). split; [| done].
    apply (ps_owned _ _ _ _ Hs); [done |]. intros _ (v' & Hv' & HP & Hval' & Hpa).
    assert (Hvpn : vpn v = vpn v') by (apply I; auto).
    pose proof (ps_gone _ _ _ _ Hs v' Hv' HP) as Hg.
    rewrite <- (pte_at_vpn _ _ v v'), He, Hval in Hg by done. discriminate Hg.
  - intros v v' Hv Hv' HQ HQ' Hval Hval'.
    pose proof (shrink_valid _ _ _ _ _ Hs Hv Hval) as He.
    pose proof (shrink_valid _ _ _ _ _ Hs Hv' Hval') as He'.
    rewrite He, He' in *. apply I; auto.
Qed.

Lemma shrink_pages fr P Q s s' b : pt_shrink fr P s s' ->
  pages (fun v => P v \/ Q v) s b <-> pages P s b \/ pages Q s' b.
Proof.
  intros Hs. split.
  - intros (v & Hv & HPQ & Hval & ->). destruct (ps_kept _ _ _ _ Hs v Hv) as [He | (HP & _)].
    + destruct HPQ as [HP | HQ]; [left; by exists v |].
      right. exists v. rewrite He. split_and!; first [done | lia].
    + left. exists v. split_and!; first [done | lia].
  - intros [(v & Hv & HP & Hx & ->) | (v & Hv & HQ & Hx & ->)];
      [exists v; split_and!; first [done | lia | by left] |].
    pose proof (shrink_valid _ _ _ _ _ Hs Hv Hx) as He. rewrite He in Hx |- *.
    exists v. split_and!; first [done | lia | by right].
Qed.

Lemma pt_shrink_trans fr P Q s s1 s2 : pt_shrink fr P s s1 -> pt_shrink fr Q s1 s2 ->
  pt_shrink fr (fun v => P v \/ Q v) s s2.
Proof.
  intros H1 H2. pose proof (fun b => shrink_pages fr P Q s s1 b H1) as Hp.
  pose proof H1 as [F1 _ _ T1 K1 G1 A1 O1 M1]. pose proof H2 as [F2 R2 W2 T2 K2 G2 A2 O2 M2].
  split; auto.
  - by transitivity s1.
  - intros t. by rewrite T2, T1.
  - intros v Hv. destruct (K2 v Hv) as [-> | (HQ & Hval & H0)].
    + destruct (K1 v Hv) as [? | (? & ? & ?)]; [by left | right; auto].
    + right. pose proof (shrink_valid _ _ _ _ _ H1 Hv Hval) as He. rewrite He in Hval. auto.
  - intros v Hv [HP | HQ]; [| by apply G2].
    destruct (K2 v Hv) as [-> | (_ & _ & ->)]; [by apply G1 | done].
  - intros b. rewrite A2, A1, Hp. tauto.
  - intros b Hb Hn. apply O2; [apply O1; [done |] |]; intros E Hb'; apply (Hn E), Hp; auto.
  - intros a Ht Ha. rewrite M2, M1; [done | done | | | ].
    + intros E b Hb. apply (Ha E), Hp. by left.
    + intros t. rewrite T1. apply Ht.
    + intros E b Hb. apply (Ha E), Hp. by right.
Qed.
End Pages.

(** ** Freeing a page that is not a table *)

Section FreePage.
Context (s s1 : kstate) (pt p : Z).
Context (Hwf : pt_wf s pt) (Ho : owned s p) (Hnt : ~ table (mem s) pt p) (Hf : freed s p s1).

Lemma free_mem a : ~ in_page p a -> load8 (mem s1) a = load8 (mem s) a.
Proof. intros Ha. rewrite (fr_mem _ _ _ Hf). unfold in_page in Ha. zcase; [lia | done]. Qed.

Lemma free_same_tables : same_tables (mem s) (mem s1) pt.
Proof.
  intros t a Ht Ha. apply free_mem. intros Hin. apply Hnt.
  rewrite (page_disjoint p t a); try done; [by eapply owned_ram |].
  by eapply owned_ram, table_owned.
Qed.

Lemma free_owned b : owned s b -> b <> p -> owned s1 b.
Proof. intros Hb Hne. by apply (owned_freed s p). Qed.

Lemma free_wf : pt_wf s1 pt.
Proof.
  destruct Hwf as [W1 W2 W3].
  assert (Hl : forall i, 0 <= i < 1024 -> l1 (mem s1) pt i = l1 (mem s) pt i)
    by (intros; apply same_tables_l1; [apply free_same_tables | done]).
  split.
  - apply free_owned; [done |]. intros ->. apply Hnt. by left.
  - intros i Hi. rewrite Hl by done. intros Hv. destruct (W2 i Hi Hv) as [W2a W2b].
    split; [| done]. apply free_owned; [done |]. intros He. apply Hnt. right. eauto.
  - intros i j Hi Hj. rewrite !Hl by done. by apply W3.
Qed.
End FreePage.

(** ** One page of [uvmunmap] *)

Lemma pt_shrink_clear fr s s1 pt curr : 0 <= curr < U32 -> kready s1 -> kframe s s1 -> pt_wf s1 pt ->
  same_tables (mem s) (mem s1) pt ->
  let p := PTE2PA (pte_at (mem s) pt curr) in
  valid (pte_at (mem s) pt curr) = true ->
  (forall b, avail s1 b <-> avail s b \/ fr = true /\ b = p) ->
  (forall b, owned s b -> (fr = true -> b <> p) -> owned s1 b) ->
  (forall a, (fr = true -> ~ in_page p a) -> load8 (mem s1) a = load8 (mem s) a) ->
  pt_shrink pt fr (fun v => vpn v = vpn curr) s
    (set_mem (store32 (mem s1) (pte_addr (mem s1) pt curr) 0) s1).
Proof.
  intros Hc Hr Hf Hwf Hst p Hval Ha Ho Hm.
  assert (Hpte : forall v, pte_at (mem s1) pt v = pte_at (mem s) pt v)
    by (intros; by apply same_tables_pte).
  assert (Hv1 : valid (l1 (mem s1) pt (vpn1 curr)) = true).
  { rewrite <- Hpte in Hval. unfold pte_at in Hval. by destruct (valid (l1 _ _ _)). }
  pose proof (set_pte_grow s1 pt curr 0 Hwf Hv1 Hr) as Hg.
  assert (Hat : forall v, 0 <= v < U32 -> pte_at (store32 (mem s1) (pte_addr (mem s1) pt curr) 0) pt v
      = if decide (vpn v = vpn curr) then 0 else pte_at (mem s) pt v).
  { intros v Hv. rewrite set_pte_at by done. by rewrite Hpte. }
  assert (Hpg : forall b, pages pt (fun v => vpn v = vpn curr) s b <-> b = p).
  { intros b. split; [| intros ->; exists curr; split_and!; first [done | lia]].
    intros (v & Hv & He & _ & ->). by rewrite (pte_at_vpn _ _ v curr). }
  split; cbn [mem set_mem]; try apply Hg.
  - by apply kframe_set_mem.
  - intros t. rewrite set_pte_tables by done. by apply same_tables_table.
  - intros v Hv. rewrite Hat by done. case_decide as He; [right | by left].
    split; [done |]. split; [| done]. by rewrite (pte_at_vpn _ _ v curr).
  - intros v Hv He. rewrite Hat by done. by rewrite decide_True by done.
  - intros b. rewrite Hpg. exact (Ha b).
  - intros b Hb Hn. apply (pg_owned _ _ _ Hg), Ho; [done |]. intros E ->. by apply (Hn E), Hpg.
  - intros a Ht Hb. rewrite set_pte_outside; [| done |].
    + apply Hm. intros E. apply (Hb E), Hpg. done.
    + apply Ht. apply (same_tables_table (mem s) (mem s1)); [done |]. right.
      exists (vpn1 curr). split; [apply vpn1_range | done].
Qed.

Lemma wp_unmap_page s pt curr fr (k : M unit) Q : kready s -> pt_wf s pt -> 0 <= curr < U32 ->
  (fr = true -> pages_ok pt (fun v => vpn v = vpn curr) s) ->
  (forall s', pt_shrink pt fr (fun v => vpn v = vpn curr) s s' -> wp k Q s') ->
  wp (pte ← find_pte pt curr false;
      v ← (if pte =? 0 then mret 0 else ld pte);
      when (valid v) (when fr (kfree (PTE2PA v));; st pte 0);;
      k) Q s.
Proof.
  intros Hr Hwf Hc Hok HQ. apply wp_bind, wp_find_pte, wp_bind; [done |].
  assert (Hnone : valid (pte_at (mem s) pt curr) = false -> wp k Q s).
  { intros Hv. apply HQ, pt_shrink_none; [done | done |]. intros v Hvr He.
    by rewrite (pte_at_vpn _ _ v curr). }
  destruct (pte_addr (mem s) pt curr =? 0) eqn:E; zbool.
  { apply wp_ret. rewrite valid_0. apply wp_bind, wp_ret, Hnone.
    unfold pte_at. destruct (valid (l1 (mem s) pt (vpn1 curr))) eqn:Hv; [| done].
    by destruct (pte_addr_nonzero s pt curr). }
  apply wp_gets. rewrite <- pte_at_addr by done.
  destruct (valid (pte_at (mem s) pt curr)) eqn:Hv; [| by apply wp_bind, wp_ret, Hnone].
  apply wp_bind, wp_bind. destruct fr; cbn [when].
  - destruct (po_owned _ _ _ (Hok eq_refl) curr Hc eq_refl Hv) as [Ho Hnt].
    apply pa_free; [done | done |]. intros s1 Hs1.
    pose proof (free_same_tables s s1 pt _ Hwf Ho Hnt Hs1) as Hst.
    apply wp_modify, HQ.
    assert (Had : pte_addr (mem s) pt curr = pte_addr (mem s1) pt curr).
    { unfold pte_addr. by rewrite (same_tables_l1 (mem s) (mem s1)) by auto with word. }
    rewrite Had. apply pt_shrink_clear; try done.
    + by eapply kready_freed.
    + apply Hs1.
    + by eapply free_wf.
    + intros b. rewrite (avail_freed s _ s1 b Hs1 Ho). tauto.
    + intros b Hb Hne. eapply owned_freed; [exact Hs1 | exact Ho | exact Hb | auto].
    + intros a Ha. eapply free_mem; [exact Hs1 | auto].
  - apply wp_ret, wp_modify, HQ. apply pt_shrink_clear; try done.
    + intros b. split; [by left | intros [? | [? _]]; done].
Qed.

(** [uvmunmap] over [n] pages. *)
Lemma wp_uvmunmap_loop n : forall s pt curr fr, kready s -> pt_wf s pt ->
  curr mod 4096 = 0 -> 0 <= curr -> curr + 4096 * Z.of_nat n < U32 ->
  (fr = true -> pages_ok pt (fun v => curr <= v < curr + 4096 * Z.of_nat n) s) ->
  wp (uvmunmap_loop n pt curr (curr + 4096 * Z.of_nat n) fr)
     (fun _ s' => pt_shrink pt fr (fun v => curr <= v < curr + 4096 * Z.of_nat n) s s') s.
Proof.
  induction n as [|n IH]; intros s pt curr fr Hr Hwf Hal H0 Hend Hok; cbn [uvmunmap_loop].
  { assert ((curr <? curr + 4096 * Z.of_nat 0) = false) as -> by (apply Z.ltb_ge; lia).
    apply wp_ret, pt_shrink_none; try done. intros v _ Hv. lia. }
  assert ((curr <? curr + 4096 * Z.of_nat (S n)) = true) as -> by (apply Z.ltb_lt; lia).
  set (P := fun v => vpn v = vpn curr).
  set (P' := fun v => curr + 4096 <= v < curr + 4096 + 4096 * Z.of_nat n).
  assert (HPQ : forall v, 0 <= v < U32 ->
    P v \/ P' v <-> curr <= v < curr + 4096 * Z.of_nat (S n)).
  { intros v Hv. unfold P, P', vpn. zlia. }
  assert (Hsplit : fr = true -> pages_ok pt (fun v => P v \/ P' v) s).
  { intros E. destruct (Hok E) as [O I]. split.
    - intros v Hv HP. apply O; [done |]. by apply HPQ.
    - intros v v' Hv Hv' HP HP'. apply I; try done; by apply HPQ. }
  apply wp_unmap_page; [done | done | lia | |].
  { intros E. eapply pages_ok_mono; [| by apply Hsplit]. intros v Hv. by left. }
  intros s1 Hs1. rewrite u32_small by (unfold PAGE_SIZE; lia).
  replace (curr + 4096 * Z.of_nat (S n)) with (curr + PAGE_SIZE + 4096 * Z.of_nat n)
    by (unfold PAGE_SIZE; lia).
  eapply wp_mono; [apply IH; [apply Hs1 | apply Hs1 | unfold PAGE_SIZE; zlia .. |] |].
  - intros E. eapply shrink_pages_ok; [exact Hs1 | by apply Hsplit].
  - intros [] s2 Hs2. cbv beta in Hs2.
    eapply pt_shrink_equiv; [| eapply pt_shrink_trans; [exact Hs1 | exact Hs2]].
    intros v Hv. unfold PAGE_SIZE, vpn. zlia.
Qed.

Lemma wp_uvmunmap s pt va size fr (Q : unit -> kstate -> Prop) : kready s -> pt_wf s pt ->
  va mod PAGE_SIZE = 0 -> size mod PAGE_SIZE = 0 -> 0 <= va -> 0 <= size -> va + size < U32 ->
  (fr = true -> pages_ok pt (fun v => va <= v < va + size) s) ->
  (forall s', pt_shrink pt fr (fun v => va <= v < va + size) s s' -> Q tt s') ->
  wp (uvmunmap pt va size fr) Q s.
Proof.
  intros Hr Hwf Hva Hsz H0 H1 H2 Hok HQ. unfold uvmunmap. rewrite Hva, Hsz. cbn [negb orb Z.eqb].
  set (n := Z.to_nat (size / PAGE_SIZE)).
  assert (Hn : size = 4096 * Z.of_nat n) by (unfold n, PAGE_SIZE in *; zlia).
  rewrite u32_small by lia. clearbody n. subst size.
  eapply wp_mono; [apply wp_uvmunmap_loop; (done || lia) |].
  intros [] s' Hs'. by apply HQ.
Qed.

(** * Freeing the tables *)

(** The second-level tables of entries [i] and up. *)
Definition subtables (pt i : Z) (s : kstate) (b : Z) : Prop :=
  exists j, i <= j < 1024 /\ valid (l1 (mem s) pt j) = true /\ b = PTE2PA (l1 (mem s) pt j).

Record walk_ok (pt i : Z) (s : kstate) : Prop := {
  wk_ready : kready s;
  wk_root : owned s pt;
  wk_sub : forall j, i <= j < 1024 -> valid (l1 (mem s) pt j) = true ->
    owned s (PTE2PA (l1 (mem s) pt j)) /\ PTE2PA (l1 (mem s) pt j) <> pt;
  wk_inj : forall j k, i <= j < 1024 -> i <= k < 1024 -> valid (l1 (mem s) pt j) = true ->
    valid (l1 (mem s) pt k) = true -> PTE2PA (l1 (mem s) pt j) = PTE2PA (l1 (mem s) pt k) -> j = k
}.

Lemma pt_wf_walk s pt : kready s -> pt_wf s pt -> walk_ok pt 0 s.
Proof. intros Hr [W1 W2 W3]. by split. Qed.

(** [s'] is [s] with the pages of [B] free, zeroed. *)
Record freed_set (B : Z -> Prop) (s s' : kstate) : Prop := {
  fs_frame : kframe s s';
  fs_ready : kready s';
  fs_avail : forall b, avail s' b <-> avail s b \/ B b;
  fs_owned : forall b, owned s b -> ~ B b -> owned s' b;
  fs_mem : forall a, (forall b, B b -> ~ in_page b a) -> load8 (mem s') a = load8 (mem s) a
}.

Lemma freed_set_one s s' p : kready s -> owned s p -> freed s p s' -> freed_set (fun b => b = p) s s'.
Proof.
  intros Hr Ho Hf. split.
  - apply Hf.
  - by eapply kready_freed.
  - intros b. by apply avail_freed.
  - intros b Hb Hn. by eapply owned_freed.
  - intros a Ha. eapply free_mem; [done | by apply Ha].
Qed.

Lemma freed_set_trans B C D s s1 s2 : freed_set B s s1 -> freed_set C s1 s2 ->
  (forall b, D b <-> B b \/ C b) -> freed_set D s s2.
Proof.
  intros [F1 R1 A1 O1 M1] [F2 R2 A2 O2 M2] HD. split; [by transitivity s1 | done | | |].
  - intros b. rewrite A2, A1, HD. tauto.
  - intros b Hb Hn. rewrite HD in Hn. apply O2; [apply O1 |]; tauto.
  - intros a Ha. rewrite M2, M1; [done | |]; intros b Hb; apply Ha, HD; auto.
Qed.

Lemma wp_freewalk_loop k : forall s pt i, 0 <= i -> i + Z.of_nat k = 1024 -> walk_ok pt i s ->
  wp (freewalk_loop k pt i) (fun _ s' => freed_set (subtables pt i s) s s') s.
Proof.
  induction k as [|k IH]; intros s pt i Hi Hk Hok; cbn [freewalk_loop].
  { apply wp_ret. destruct Hok. split; [done | done | | done | done].
    intros b. split; [by left |]. intros [? | (j & Hj & _)]; [done | lia]. }
  pose proof Hok as [Hr Hroot Hsub Hinj]. pose proof (owned_ram _ _ Hroot) as Hram.
  apply wp_bind, wp_gets. rewrite entry_addr by (done || lia).
  fold (l1 (mem s) pt i). apply wp_bind.
  destruct (valid (l1 (mem s) pt i)) eqn:Hv; cbn [when].
  - destruct (Hsub i) as [Ho Hne]; [lia | done |]. apply pa_free; [done | done |]. intros s1 Hs1.
    set (p := PTE2PA (l1 (mem s) pt i)) in *.
    assert (Hl : forall j, 0 <= j < 1024 -> l1 (mem s1) pt j = l1 (mem s) pt j).
    { intros j Hj. apply entry_ext; [done |]. intros a Ha. eapply free_mem; [done |].
      intros Hin. destruct Hne. apply (page_disjoint p pt a); try done. by eapply owned_ram. }
    assert (Hokeep : forall b, owned s b -> b <> p -> owned s1 b) by (intros; by eapply owned_freed).
    eapply wp_mono; [apply (IH s1 pt (i + 1)); [lia | lia |] |].
    + split; [by eapply kready_freed | by apply Hokeep | |].
      * intros j Hj. rewrite Hl by lia. intros Hvj. destruct (Hsub j) as [Hoj Hnj]; [lia | done |].
        split; [| done]. apply Hokeep; [done |]. intros He.
        assert (j = i) by (apply Hinj; (done || lia)). lia.
      * intros j j' Hj Hj'. rewrite !Hl by lia. apply Hinj; lia.
    + intros [] s' Hs'. eapply freed_set_trans; [by apply freed_set_one | exact Hs' |].
      intros b. unfold subtables. split.
      * intros (j & Hj & Hvj & ->). destruct (decide (j = i)) as [-> | Hji]; [by left | right].
        exists j. rewrite Hl by lia. split_and!; (done || lia).
      * intros [-> | (j & Hj & Hvj & ->)]; [exists i; split_and!; (done || lia) |].
        exists j. rewrite Hl in Hvj |- * by lia. split_and!; (done || lia).
  - apply wp_ret. eapply wp_mono; [apply (IH s pt (i + 1)); [lia | lia |] |].
    + split; [done | done | |]; [intros j Hj; apply Hsub; lia | intros j j' Hj Hj'; apply Hinj; lia].
    + intros [] s' [F R A O Mm].
      assert (Hb : forall b, subtables pt (i + 1) s b <-> subtables pt i s b).
      { intros b. split; intros (j & Hj & Hvj & ->).
        - exists j. split_and!; (done || lia).
        - exists j. destruct (decide (j = i)) as [-> | Hji]; [congruence |].
          split_and!; (done || lia). }
      split; [done | done | | |].
      * intros b. by rewrite A, Hb.
      * intros b Hob. rewrite <- Hb. by apply O.
      * intros a Ha. apply Mm. intros b Hsb. by apply Ha, Hb.
Qed.

Lemma wp_freewalk s pt (Q : unit -> kstate -> Prop) : kready s -> pt_wf s pt ->
  (forall s', freed_set (table (mem s) pt) s s' -> Q tt s') -> wp (freewalk pt) Q s.
Proof.
  intros Hr Hwf HQ. unfold freewalk. apply wp_bind.
  eapply wp_mono; [apply wp_freewalk_loop; [done | done | by apply pt_wf_walk] |].
  intros [] s1 Hs1. assert (Ho : owned s1 pt).
  { apply (fs_owned _ _ _ Hs1); [apply Hwf |]. intros (j & Hj & Hv & He).
    by destruct (wf_sub _ _ Hwf j Hj Hv). }
  apply pa_free; [apply Hs1 | done |]. intros s2 Hs2. apply HQ.
  eapply freed_set_trans; [exact Hs1 | apply freed_set_one; [apply Hs1 | done | done] |].
  intros b. unfold table, subtables. tauto.
Qed.

(** * Freeing an address space *)

(** The addresses [uvmfree] unmaps: the image and the page of the stack. *)
Definition image_or_stack (size v : Z) : Prop :=
  USER_BASE <= v < size \/ USER_STACK_TOP - PAGE_SIZE <= v < USER_STACK_TOP.

Lemma wp_unmap_all s pt size (k : M unit) Q : kready s -> pt_wf s pt ->
  size mod PAGE_SIZE = 0 -> 0 <= size < U32 -> pages_ok pt (image_or_stack size) s ->
  (forall s', pt_shrink pt true (image_or_stack size) s s' -> wp k Q s') ->
  wp (when (USER_BASE <? size) (uvmunmap pt USER_BASE (size - USER_BASE) true);;
      uvmunmap pt (USER_STACK_TOP - PAGE_SIZE) PAGE_SIZE true;; k) Q s.
Proof.
  intros Hr Hwf Hal Hsz Hok HQ. apply wp_bind.
  set (P := fun v => USER_BASE <= v < size).
  set (P' := fun v => USER_STACK_TOP - PAGE_SIZE <= v < USER_STACK_TOP - PAGE_SIZE + PAGE_SIZE).
  assert (HPQ : forall v, P v \/ P' v <-> image_or_stack size v).
  { intros v. unfold P, P', image_or_stack. lia. }
  assert (Hok' : pages_ok pt (fun v => P v \/ P' v) s)
    by (eapply pages_ok_mono; [| exact Hok]; intros v; apply HPQ).
  assert (Hnext : forall s1, pt_shrink pt true P s s1 ->
    wp (uvmunmap pt (USER_STACK_TOP - PAGE_SIZE) PAGE_SIZE true;; k) Q s1).
  { intros s1 Hs1. apply wp_bind, wp_uvmunmap; try done; [apply Hs1 | apply Hs1 | |].
    - intros _. by eapply shrink_pages_ok.
    - intros s2 Hs2. apply HQ. eapply pt_shrink_equiv; [| eapply pt_shrink_trans; done].
      intros v _. apply HPQ. }
  destruct (USER_BASE <? size) eqn:E; zbool; cbn [when].
  - assert (Hp : forall v, P v <-> USER_BASE <= v < USER_BASE + (size - USER_BASE))
      by (intros; unfold P; lia).
    apply wp_uvmunmap; try done; try (unfold USER_BASE, PAGE_SIZE in *; zlia).
    + intros _. eapply pages_ok_mono; [| exact Hok']. intros v Hv. left. by apply Hp.
    + intros s1 Hs1. apply Hnext. eapply pt_shrink_equiv; [| exact Hs1]. intros v _. by rewrite Hp.
  - apply wp_ret, Hnext, pt_shrink_none; [done | done |]. unfold P. intros v _ Hv. lia.
Qed.

(** * Growing an address space *)

(** From [s] to [s'] pages left the allocator to become tables of [pt] or the
    data pages [D]; what was in use is as it was. *)
Record pt_ext (pt : Z) (D : Z -> Prop) (s s' : kstate) : Prop := {
  ex_frame : kframe s s';
  ex_ready : kready s';
  ex_wf : pt_wf s' pt;
  ex_tables : forall t, table (mem s) pt t -> table (mem s') pt t;
  ex_new : forall t, table (mem s') pt t -> table (mem s) pt t \/ avail s t;
  ex_owned : forall b, owned s b -> owned s' b;
  ex_avail : forall b, avail s' b <-> avail s b /\ ~ table (mem s') pt b /\ ~ D b;
  ex_mem : forall a, (forall t, table (mem s) pt t -> ~ in_page t a) ->
    (forall b, avail s b -> ~ in_page b a) -> load8 (mem s') a = load8 (mem s) a
}.

(** No more than [n] pages are left. *)
Abbreviation scarce n s := (few n (avail s)).

Lemma few_tables m pt : few 1025 (table m pt).
Proof.
  apply (few_or 1 1024 _ _ _ (few_one pt) (few_image (fun i => PTE2PA (l1 m pt i)) 0 1024 ltac:(lia))).
  intros b [Hb | (i & Hi & _ & Hb)] Hn; [exact Hb |]. destruct Hn. by exists i.
Qed.

(** After it took the tables and at most [n] pages, nothing was left. *)
Definition ran_out (pt n : Z) (s : kstate) : Prop :=
  exists D s', pt_ext pt D s s' /\ few n D /\ forall b, ~ avail s' b.

Lemma pte_at_page m pt v : pte_at m pt v = pte_at m pt (PAGE_SIZE * (v / PAGE_SIZE)).
Proof.
  assert (H1 : vpn1 v = vpn1 (PAGE_SIZE * (v / PAGE_SIZE))) by (rewrite !vpn1_spec; unfold PAGE_SIZE; zlia).
  assert (H0 : vpn0 v = vpn0 (PAGE_SIZE * (v / PAGE_SIZE))) by (rewrite !vpn0_spec; unfold PAGE_SIZE; zlia).
  unfold pte_at. by rewrite H1, H0.
Qed.

Lemma few_pages pt lo hi s : lo mod PAGE_SIZE = 0 -> hi mod PAGE_SIZE = 0 -> lo <= hi ->
  few ((hi - lo) / PAGE_SIZE) (pages pt (fun v => lo <= v < hi) s).
Proof.
  intros Hlo Hhi Hle.
  eapply few_mono; [apply (few_image (fun i => PTE2PA (pte_at (mem s) pt (PAGE_SIZE * i))) (lo / PAGE_SIZE) (hi / PAGE_SIZE)) | |].
  - unfold PAGE_SIZE in *. zlia.
  - unfold PAGE_SIZE in *. zlia.
  - intros b (v & Hv & Hr & _ & ->). exists (v / PAGE_SIZE). split; [unfold PAGE_SIZE in *; zlia |].
    by rewrite pte_at_page.
Qed.

(** Pages run out after [D] and the tables were taken: there were few before. *)
Lemma scarce_ext pt D n m s s' : pt_ext pt D s s' -> scarce n s' -> few m D -> scarce (n + m + 1025) s.
Proof.
  intros Ex Hn Hm. eapply few_or; [eapply (few_or n m _ _ (fun b => avail s b /\ ~ table (mem s') pt b)); [exact Hn | exact Hm |]
    | apply (few_tables (mem s') pt) |].
  - intros b [Hb Ht] HD. by apply (ex_avail _ _ _ _ Ex).
  - by intros b Hb Ht.
Qed.

Lemma ran_out_mono pt n m s : ran_out pt n s -> n <= m -> ran_out pt m s.
Proof. intros (D & s' & Ex & Hn & Hf) Hle. exists D, s'. split_and!; [done | by eapply few_mono | done]. Qed.

Lemma ran_out_scarce pt n s : ran_out pt n s -> scarce (n + 1025) s.
Proof.
  intros (D & s' & Ex & Hn & Hf). eapply few_mono; [apply (scarce_ext pt D 0 n s s' Ex (few_none 0 _ ltac:(done) Hf) Hn) | lia | done].
Qed.

(** The addresses [[lo, hi)] are mapped to fresh zeroed pages with [flags]. *)
Record grown (pt lo hi flags : Z) (s s' : kstate) : Prop := {
  gr_ext : pt_ext pt (pages pt (fun v => lo <= v < hi) s') s s';
  gr_kept : forall v, 0 <= v < U32 -> v < lo \/ hi <= v -> pte_at (mem s') pt v = pte_at (mem s) pt v;
  gr_page : forall v, 0 <= v < U32 -> lo <= v < hi -> exists p,
    pte_at (mem s') pt v = mk_pte p flags /\ avail s p /\ owned s' p /\ ~ table (mem s') pt p
    /\ forall a, in_page p a -> load8 (mem s') a = 0;
  gr_inj : forall v v', 0 <= v < U32 -> 0 <= v' < U32 -> lo <= v < hi -> lo <= v' < hi ->
    pte_at (mem s') pt v = pte_at (mem s') pt v' -> vpn v = vpn v'
}.

Lemma mk_pte_ram p flags : ram_page p -> 0 <= flags < 1024 ->
  PTE2PA (mk_pte p flags) = p /\ valid (mk_pte p flags) = true.
Proof.
  intros [Ha Hr] Hf. destruct (mk_pte_facts p flags) as (H1 & _ & H2 & _); try done.
  unfold MEM_START, MEM_END, U32 in *. lia.
Qed.

Lemma avail_ram s b : avail s b -> ram_page b.
Proof. by intros []. Qed.

Lemma table_not_avail s pt t : pt_wf s pt -> table (mem s) pt t -> ~ avail s t.
Proof. intros Hwf Ht. by apply owned_not_avail, (table_owned s pt). Qed.

Lemma pt_ext_refl pt s : kready s -> pt_wf s pt -> pt_ext pt (fun _ => False) s s.
Proof.
  intros Hr Hwf. split; auto; [done |]. intros b. split; [| tauto].
  intros Hb. split_and!; [done | | tauto]. intros Ht. by apply (table_not_avail s pt b).
Qed.

Lemma pt_ext_trans pt D E F s s1 s2 : pt_ext pt D s s1 -> pt_ext pt E s1 s2 ->
  (forall b, F b <-> D b \/ E b) -> pt_ext pt F s s2.
Proof.
  intros [F1 R1 W1 T1 N1 O1 A1 M1] [F2 R2 W2 T2 N2 O2 A2 M2] HF. split; auto.
  - by transitivity s1.
  - intros t Ht. destruct (N2 t Ht) as [H | H]; [auto |]. right. by apply A1 in H as [? _].
  - intros b. rewrite A2, A1, HF. pose proof (T2 b). tauto.
  - intros a Ht Ha. rewrite M2, M1; [done | done | done | |].
    + intros t Htt. destruct (N1 t Htt); auto.
    + intros b Hb. apply A1 in Hb as [? _]. auto.
Qed.

Lemma ran_out_ext pt D n m s s' : pt_ext pt D s s' -> few n D -> ran_out pt m s' -> ran_out pt (n + m) s.
Proof.
  intros Ex Hn (E & s2 & Ex2 & Hm & Hf). exists (fun b => D b \/ E b), s2. split_and!; [by eapply pt_ext_trans | | done].
  eapply few_or; [exact Hn | exact Hm |]. by intros b [Hb | Hb] HE.
Qed.

Lemma pt_grow_ext pt s s' : pt_grow pt s s' -> pt_ext pt (fun _ => False) s s'.
Proof.
  intros [F R W M O A T N]. split; auto.
  - intros b. rewrite A. tauto.
  - intros a Ht Ha. apply M. intros t Htt. destruct (N t Htt); auto.
Qed.

(** A page fresh from the allocator, after its bytes were written. *)
Lemma alloc_fill_ext s s1 pt p m' : kready s -> pt_wf s pt -> alloc_some s p s1 ->
  (forall a, ~ in_page p a -> load8 m' a = load8 (mem s) a) ->
  let s2 := set_mem m' s1 in
  pt_ext pt (fun b => b = p) s s2 /\ same_tables (mem s) (mem s2) pt /\ owned s2 p.
Proof.
  intros Hr Hwf Ha Hm s2. pose proof (as_avail _ _ _ Ha) as Hav.
  assert (Hst : same_tables (mem s) (mem s2) pt).
  { intros t a Ht Hin. apply Hm. intros Hp. apply (table_not_avail s pt t Hwf Ht).
    assert (t = p) as ->; [| done].
    apply (page_disjoint t p a); [by eapply owned_ram, table_owned | by eapply avail_ram | done | done]. }
  assert (Ho : forall b, owned s b -> owned s2 b) by (intros; by apply (owned_alloc_keep s p s1)).
  assert (Hl : forall i, 0 <= i < 1024 -> l1 (mem s2) pt i = l1 (mem s) pt i)
    by (intros; by apply same_tables_l1).
  split_and!; [| done | exact (owned_alloc_some _ _ _ Ha)].
  split; auto.
  - apply kframe_set_mem, Ha.
  - destruct (kready_alloc_some _ _ _ Ha Hr) as [[A1 A2] L P]. by split.
  - destruct Hwf as [W1 W2 W3]. split; [auto | |].
    + intros i Hi. rewrite Hl by done. intros Hv. destruct (W2 i Hi Hv). auto.
    + intros i j Hi Hj. rewrite !Hl by done. by apply W3.
  - intros t. by apply same_tables_table.
  - intros t Ht. left. by apply (same_tables_table (mem s) (mem s2)).
  - intros b. change (avail s2 b) with (avail s1 b). rewrite (avail_alloc_some s p s1 b Ha).
    split; [| tauto]. intros [H1 H2]. split_and!; try done. intros Ht.
    apply (table_not_avail s pt b); try done. by apply (same_tables_table (mem s) (mem s2)).
Qed.

(** A cleared page fresh from the allocator. *)
Lemma alloc_zero_ext s s1 pt p : kready s -> pt_wf s pt -> alloc_some s p s1 ->
  let s2 := set_mem (zero_page (mem s1) p) s1 in
  pt_ext pt (fun b => b = p) s s2 /\ same_tables (mem s) (mem s2) pt /\ owned s2 p.
Proof.
  intros Hr Hwf Ha. apply (alloc_fill_ext s s1 pt p); try done. intros a Hn.
  pose proof (fresh_load8 s s1 p Ha a) as Hl. cbn [mem set_mem] in Hl. rewrite Hl.
  unfold in_page in Hn. zcase; [lia | done].
Qed.

Lemma ex_not_table pt D s s' b : pt_ext pt D s s' -> pt_wf s pt -> ~ table (mem s) pt b -> owned s b ->
  ~ table (mem s') pt b.
Proof.
  intros He Hwf Hnt Ho Ht. destruct (ex_new _ _ _ _ He b Ht) as [? | Ha]; [done |].
  by apply (owned_not_avail s b).
Qed.

(** Bytes of a page in use that is not a table are kept. *)
Lemma ex_page pt D s s' b a : pt_ext pt D s s' -> pt_wf s pt -> owned s b -> ~ table (mem s) pt b ->
  in_page b a -> load8 (mem s') a = load8 (mem s) a.
Proof.
  intros He Hwf Ho Hnt Ha. pose proof (owned_ram _ _ Ho) as Hr. apply (ex_mem _ _ _ _ He).
  - intros t Ht Hin. apply Hnt. rewrite (page_disjoint b t a); try done.
    by eapply owned_ram, table_owned.
  - intros c Hc Hin. apply (owned_not_avail s b); [done |].
    rewrite (page_disjoint b c a); try done. by eapply avail_ram.
Qed.

Lemma grown_none pt lo flags s : kready s -> pt_wf s pt -> grown pt lo lo flags s s.
Proof.
  intros Hr Hwf. split; [| done | lia | lia].
  eapply pt_ext_trans; [by apply pt_ext_refl | by apply pt_ext_refl |].
  intros b. split; [intros (v & _ & Hv & _); lia | tauto].
Qed.

(** The page tables of a growing space may be extended further. *)
Lemma grown_ext pt lo hi flags s s1 s2 : 0 <= flags < 1024 -> grown pt lo hi flags s s1 ->
  pt_ext pt (fun _ => False) s1 s2 ->
  (forall v, 0 <= v < U32 -> pte_at (mem s2) pt v = pte_at (mem s1) pt v) ->
  grown pt lo hi flags s s2.
Proof.
  intros Hf [Ex K G I] E2 Hp. split.
  - eapply pt_ext_trans; [exact Ex | exact E2 |]. intros b.
    split; [intros (v & Hv & Hin & Hval & ->); left | intros [(v & Hv & Hin & Hval & ->) | []]];
      exists v; rewrite Hp in * by done; split_and!; (done || lia).
  - intros v Hv Ho. rewrite Hp by done. by apply K.
  - intros v Hv Hin. rewrite Hp by done. destruct (G v Hv Hin) as (p & He & Ha & Ho & Hnt & Hz).
    exists p. split_and!; [done | done | by apply E2 | | ].
    + eapply ex_not_table; [exact E2 | apply Ex | done | done].
    + intros a Hpa. rewrite (ex_page _ _ _ _ p a E2); auto. apply Ex.
  - intros v v' Hv Hv' Hin Hin'. rewrite !Hp by done. by apply I.
Qed.

(** One more page. *)
Lemma grown_step pt lo hi flags s s1 s2 p : 0 <= flags < 1024 -> hi mod 4096 = 0 -> 0 <= hi ->
  hi + 4096 <= U32 -> lo <= hi -> grown pt lo hi flags s s1 ->
  pt_ext pt (fun b => b = p) s1 s2 -> avail s1 p -> owned s2 p -> ~ table (mem s2) pt p ->
  (forall a, in_page p a -> load8 (mem s2) a = 0) ->
  (forall v, 0 <= v < U32 -> pte_at (mem s2) pt v =
     if decide (vpn v = vpn hi) then mk_pte p flags else pte_at (mem s1) pt v) ->
  grown pt lo (hi + 4096) flags s s2.
Proof.
  intros Hf Hal Hhi Hend Hlo [Ex K G I] E2 Hav Ho2 Hnt2 Hz2 Hp.
  assert (Hold : forall v, 0 <= v < U32 -> v < hi \/ hi + 4096 <= v ->
    pte_at (mem s2) pt v = pte_at (mem s1) pt v).
  { intros v Hv Hd. rewrite Hp by done. rewrite decide_False; [done | unfold vpn; zlia]. }
  assert (Hnew : forall v, hi <= v < hi + 4096 -> pte_at (mem s2) pt v = mk_pte p flags).
  { intros v Hv. rewrite Hp by lia. rewrite decide_True; [done | unfold vpn; zlia]. }
  destruct (mk_pte_ram p flags (avail_ram _ _ Hav) Hf) as [Hpa Hval].
  split.
  - eapply pt_ext_trans; [exact Ex | exact E2 |]. intros b. split.
    + intros (v & Hv & Hin & Hvv & ->). destruct (decide (v < hi)).
      * left. rewrite Hold in * by lia. exists v. split_and!; (done || lia).
      * right. by rewrite Hnew by lia.
    + intros [(v & Hv & Hin & Hvv & ->) | ->].
      * exists v. rewrite Hold by lia. split_and!; (done || lia).
      * exists hi. rewrite Hnew by lia. split_and!; (done || lia).
  - intros v Hv Hd. rewrite Hold by lia. apply K; [done | lia].
  - intros v Hv Hin. destruct (decide (v < hi)).
    + rewrite Hold by lia. destruct (G v Hv) as (q & He & Ha & Ho & Hnt & Hz); [lia |].
      exists q. split_and!; [done | done | by apply E2 | | ].
      * eapply ex_not_table; [exact E2 | apply Ex | done | done].
      * intros a Hqa. rewrite (ex_page _ _ _ _ q a E2); auto. apply Ex.
    + exists p. rewrite Hnew by lia. split_and!; try done. by apply (ex_avail _ _ _ _ Ex) in Hav as [? _].
  - assert (Hne : forall v, 0 <= v < U32 -> lo <= v < hi -> pte_at (mem s1) pt v <> mk_pte p flags).
    { intros v Hv Hin He. destruct (G v Hv Hin) as (q & Hq & Ha & Ho & _).
      destruct (mk_pte_ram q flags (avail_ram _ _ Ha) Hf) as [Hqa _].
      assert (q = p) as -> by congruence. by apply (owned_not_avail s1 p). }
    intros v v' Hv Hv' Hin Hin'. destruct (decide (v < hi)), (decide (v' < hi)).
    + rewrite !Hold by lia. apply I; (done || lia).
    + rewrite Hold, Hnew by lia. intros He. by destruct (Hne v Hv); [lia |].
    + rewrite Hnew, Hold by lia. intros He. by destruct (Hne v' Hv'); [lia |].
    + intros _. unfold vpn. zlia.
Qed.

(** Whether a page is mapped in a range is decided by looking at each address. *)
Lemma pages_range_dec pt lo hi s b :
  pages pt (fun v => lo <= v < hi) s b \/ ~ pages pt (fun v => lo <= v < hi) s b.
Proof.
  set (mapped := fun v => 0 <= v < U32 /\ valid (pte_at (mem s) pt v) = true
    /\ b = PTE2PA (pte_at (mem s) pt v)).
  destruct (decide (Exists mapped (seqZ lo (hi - lo)))) as [Hy | Hn]; [left | right].
  - apply list.Exists_exists in Hy as (v & Hin & H1 & H2 & H3). apply elem_of_seqZ in Hin.
    exists v. split_and!; (done || lia).
  - intros (v & H1 & H2 & H3 & H4). apply Hn, list.Exists_exists. exists v.
    rewrite elem_of_seqZ. split; [lia | done].
Qed.

(** Undoing a growth returns the data pages. *)
Lemma grown_pages_ok pt lo hi flags s s1 : 0 <= flags < 1024 -> grown pt lo hi flags s s1 ->
  pages_ok pt (fun v => lo <= v < hi) s1.
Proof.
  intros Hf [Ex K G I]. split.
  - intros v Hv Hin _. destruct (G v Hv Hin) as (p & -> & Ha & Ho & Hnt & _).
    by rewrite (proj1 (mk_pte_ram p flags (avail_ram _ _ Ha) Hf)).
  - intros v v' Hv Hv' Hin Hin' _ _ He. apply I; try done.
    destruct (G v Hv Hin) as (p & Hp & Ha & _). destruct (G v' Hv' Hin') as (q & Hq & Hb & _).
    rewrite Hp, Hq in *. rewrite (proj1 (mk_pte_ram p flags (avail_ram _ _ Ha) Hf)) in He.
    rewrite (proj1 (mk_pte_ram q flags (avail_ram _ _ Hb) Hf)) in He. by rewrite He.
Qed.

Lemma grown_undo pt lo hi flags s s1 s2 : 0 <= flags < 1024 -> pt_wf s pt ->
  grown pt lo hi flags s s1 ->
  (forall v, 0 <= v < U32 -> lo <= v < hi -> valid (pte_at (mem s) pt v) = false) ->
  pt_shrink pt true (fun v => lo <= v < hi) s1 s2 ->
  pt_ext pt (fun _ => False) s s2 /\
  (forall v, 0 <= v < U32 -> valid (pte_at (mem s2) pt v) = valid (pte_at (mem s) pt v) /\
     (valid (pte_at (mem s) pt v) = true -> pte_at (mem s2) pt v = pte_at (mem s) pt v)).
Proof.
  intros Hf Hwf Hg Hun Hs. pose proof Hg as [Ex K G I].
  pose proof (grown_pages_ok _ _ _ _ _ _ Hf Hg) as Hok.
  assert (Hdata : forall b, pages pt (fun v => lo <= v < hi) s1 b -> avail s b /\ ~ table (mem s1) pt b).
  { intros b (v & Hv & Hin & _ & ->). destruct (G v Hv Hin) as (p & -> & Ha & _ & Hnt & _).
    by rewrite (proj1 (mk_pte_ram p flags (avail_ram _ _ Ha) Hf)). }
  pose proof (ps_tables _ _ _ _ _ Hs) as Ht. split.
  - split; try apply Hs.
    + transitivity s1; [apply Ex | apply Hs].
    + intros t Htt. apply Ht. by apply (ex_tables _ _ _ _ Ex).
    + intros t Htt. apply Ht in Htt. by apply (ex_new _ _ _ _ Ex).
    + intros b Hb. apply (ps_owned _ _ _ _ _ Hs); [by apply (ex_owned _ _ _ _ Ex) |].
      intros _ Hp. by apply (owned_not_avail s b); [| apply Hdata].
    + intros b. rewrite (ps_avail _ _ _ _ _ Hs), (ex_avail _ _ _ _ Ex), Ht.
      pose proof (Hdata b). destruct (pages_range_dec pt lo hi s1 b); tauto.
    + intros a Htt Ha. rewrite (ps_mem _ _ _ _ _ Hs); [by apply (ex_mem _ _ _ _ Ex) | |].
      * intros t Htn. destruct (ex_new _ _ _ _ Ex t Htn); auto.
      * intros _ b Hb. apply Ha, Hdata, Hb.
  - intros v Hv. destruct (decide (lo <= v < hi)) as [Hin | Hout].
    + rewrite (ps_gone _ _ _ _ _ Hs v Hv Hin), (Hun v Hv Hin). done.
    + rewrite <- (K v Hv) by lia.
      destruct (ps_kept _ _ _ _ _ Hs v Hv) as [-> | (Hin & _)]; [done | lia].
Qed.

Lemma lor_flags_range a b : 0 <= a < 1024 -> 0 <= b < 1024 -> 0 <= Z.lor a b < 1024.
Proof.
  intros Ha Hb. assert (Hn : 0 <= Z.lor a b) by (apply Z.lor_nonneg; lia). split; [done |].
  destruct (decide (Z.lor a b = 0)) as [-> | H0]; [lia |].
  change 1024 with (2 ^ 10). apply Z.log2_lt_pow2; [lia |]. rewrite Z.log2_lor by lia.
  assert (Hl : forall x, 0 <= x < 1024 -> Z.log2 x < 10).
  { intros x Hx. destruct (decide (x = 0)) as [-> |]; [done |]. apply Z.log2_lt_pow2; [lia | cbn; lia]. }
  pose proof (Hl a Ha). pose proof (Hl b Hb). lia.
Qed.

(** What a growth that fails leaves: the mappings as they were and no page
    gone but to tables. *)
Definition regrown (pt : Z) (s s' : kstate) : Prop :=
  pt_ext pt (fun _ => False) s s' /\
  (forall v, 0 <= v < U32 -> valid (pte_at (mem s') pt v) = valid (pte_at (mem s) pt v) /\
     (valid (pte_at (mem s) pt v) = true -> pte_at (mem s') pt v = pte_at (mem s) pt v)).

(** A data page that is given back at once. *)
Lemma pt_ext_return pt s s4 s5 p : pt_ext pt (fun b => b = p) s s4 -> avail s p -> owned s4 p ->
  ~ table (mem s4) pt p -> freed s4 p s5 -> pt_ext pt (fun _ => False) s s5.
Proof.
  intros [F R W T N O A Mm] Hav Ho Hnt Hf.
  pose proof (free_same_tables s4 s5 pt p W Ho Hnt Hf) as Hst.
  pose proof (fun t => same_tables_table (mem s4) (mem s5) pt t Hst) as Ht. split.
  - transitivity s4; [done | apply Hf].
  - by eapply kready_freed.
  - by eapply free_wf.
  - intros t Htt. apply Ht. auto.
  - intros t Htt. apply Ht in Htt. auto.
  - intros b Hb. eapply owned_freed; [exact Hf | exact Ho | auto |]. intros ->.
    by apply (owned_not_avail s p).
  - intros b. rewrite (avail_freed s4 p s5 b Hf Ho), A, Ht.
    destruct (decide (b = p)) as [-> |]; tauto.
  - intros a Htt Ha. rewrite (free_mem s4 s5 p Hf); auto.
Qed.

Section Growth.
Context (pt lo top newsz xperm : Z) (s : kstate).
Let flags := Z.lor (Z.lor PTE_R PTE_U) xperm.
Context (Hf : 0 <= flags < 1024) (Hwf : pt_wf s pt).
Context (Hlo : lo mod 4096 = 0 /\ 0 <= lo) (Htop : top mod 4096 = 0 /\ newsz <= top < newsz + 4096).
Context (Hend : top + 4096 < U32).
Context (Hun : forall v, 0 <= v < U32 -> lo <= v < top -> valid (pte_at (mem s) pt v) = false).

Definition growth_done (r : Z) (s' : kstate) : Prop :=
  r = newsz /\ grown pt lo (Z.max lo top) flags s s' \/ r = 0 /\ regrown pt s s' /\ ran_out pt ((top - lo) / PAGE_SIZE) s.

Lemma wp_growth_undo s1 curr : grown pt lo curr flags s s1 -> curr mod 4096 = 0 ->
  lo <= curr <= top -> ran_out pt ((top - lo) / PAGE_SIZE) s ->
  wp (uvmunmap pt lo (curr -w lo) true;; mret 0) growth_done s1.
Proof.
  intros Hg Hc Hr Hout. rewrite u32_small by (unfold U32 in *; lia).
  pose proof (gr_ext _ _ _ _ _ _ Hg) as Ex.
  apply wp_bind, wp_uvmunmap; [apply Ex | apply Ex | unfold PAGE_SIZE, U32 in *; zlia .. | |].
  - intros _. replace (lo + (curr - lo)) with curr by lia. by eapply grown_pages_ok.
  - intros s2 Hs2. apply wp_ret. right. split_and!; [done | | done].
    eapply (grown_undo pt lo curr flags s s1 s2); try done.
    + intros v Hv Hin. apply Hun; [done | lia].
    + by replace (lo + (curr - lo)) with curr in Hs2 by lia.
Qed.

(** Mapping one cleared page at the end of the grown range. *)
Lemma grown_map_page s1 s2 p curr : grown pt lo curr flags s s1 -> alloc_some s1 p s2 ->
  curr mod 4096 = 0 -> lo <= curr -> curr + 4096 <= top ->
  wp (mappages pt curr p PAGE_SIZE flags) (fun r s' =>
    r = 0 /\ grown pt lo (curr + 4096) flags s s' \/
    r <> 0 /\ kready s' /\ owned s' p /\ ran_out pt ((top - lo) / PAGE_SIZE) s /\
      forall s5, freed s' p s5 -> grown pt lo curr flags s s5)
    (set_mem (zero_page (mem s2) p) s2).
Proof.
  intros Hg Ha Hc Hl Ht. pose proof (gr_ext _ _ _ _ _ _ Hg) as Ex.
  destruct (alloc_zero_ext s1 s2 pt p (ex_ready _ _ _ _ Ex) (ex_wf _ _ _ _ Ex) Ha) as (E3 & Hst & Ho3).
  set (s3 := set_mem (zero_page (mem s2) p) s2) in *.
  pose proof (as_avail _ _ _ Ha) as Hav. pose proof (avail_ram _ _ Hav) as Hram.
  assert (Hp3 : forall v, pte_at (mem s3) pt v = pte_at (mem s1) pt v)
    by (intros; by apply same_tables_pte).
  assert (Hnt3 : ~ table (mem s3) pt p).
  { intros Htp. apply (table_not_avail s1 pt p (ex_wf _ _ _ _ Ex)); [| done].
    by apply (same_tables_table (mem s1) (mem s3)). }
  pose proof Hram as [Hpal Hpr].
  eapply wp_mono; [apply wp_mappages; [apply E3 | apply E3 | done | done |
    unfold PAGE_SIZE, U32, MEM_START, MEM_END in *; zlia .. |] |].
  { intros v Hv. unfold PAGE_SIZE in *. rewrite Hp3, (gr_kept _ _ _ _ _ _ Hg) by (unfold U32 in *; lia).
    apply Hun; unfold U32 in *; lia. }
  intros r s4 (Hgr & k & Hk & Hm & Hr). pose proof (pt_grow_ext _ _ _ Hgr) as E4.
  assert (Hnt4 : ~ table (mem s4) pt p)
    by (eapply ex_not_table; [exact E4 | apply E3 | done | done]).
  assert (E34 : pt_ext pt (fun b => b = p) s1 s4) by (eapply pt_ext_trans; [exact E3 | exact E4 | intros b; tauto]).
  change (PAGE_SIZE / PAGE_SIZE) with 1 in *.
  destruct Hr as [[-> ->] | (-> & Hk1 & Hfull)]; [left | right].
  - split; [done |]. eapply (grown_step pt lo curr flags s s1 s4 p); try done; try lia.
    + by apply E4.
    + intros a Hin. rewrite (ex_page _ _ _ _ p a E4); [| apply E3 | done | done | done].
      unfold s3. rewrite (fresh_load8 s1 s2 p Ha). unfold in_page in Hin. zcase; [done | lia].
    + intros v Hv. rewrite Hm by done. unfold mapped_range. rewrite Hp3.
      case_decide as He; zcase; try done; try (unfold vpn in He; zlia).
      f_equal. unfold vpn in *. lia.
  - assert (k = 0) as -> by lia. split; [done |]. split_and!; [apply E4 | by apply E4 | |].
    { exists (fun b => pages pt (fun v => lo <= v < curr) s1 b \/ b = p), s4.
      split_and!; [eapply pt_ext_trans; [exact Ex | exact E34 | done] | | exact Hfull].
      assert (Hd : few ((curr - lo) / PAGE_SIZE) (pages pt (fun v => lo <= v < curr) s1)) by (apply few_pages; [apply Hlo | done | done]).
      eapply few_mono; [apply (few_or _ _ _ _ (fun b => pages pt (fun v => lo <= v < curr) s1 b \/ b = p) Hd (few_one p)) | | done].
      - by intros b [Hb | Hb] Hn.
      - destruct Hlo. unfold PAGE_SIZE. zlia. }
    intros s5 Hs5. assert (Ho4 : owned s4 p) by (by apply E4).
    pose proof (free_same_tables s4 s5 pt p (ex_wf _ _ _ _ E4) Ho4 Hnt4 Hs5) as Hst5.
    eapply (grown_ext pt lo curr flags s s1 s5); [done | done | |].
    + by eapply (pt_ext_return pt s1 s4).
    + intros v Hv. rewrite (same_tables_pte (mem s4) (mem s5)) by done.
      rewrite Hm by done. unfold mapped_range. zcase; [lia | apply Hp3].
Qed.

Lemma wp_uvmalloc_loop fuel : forall s1 curr, grown pt lo curr flags s s1 ->
  curr mod 4096 = 0 -> lo <= curr <= Z.max lo top -> top - curr <= 4096 * Z.of_nat fuel ->
  wp (uvmalloc_loop fuel pt lo curr newsz xperm) growth_done s1.
Proof.
  induction fuel as [|fuel IH]; intros s1 curr Hg Hc Hr Hfuel; cbn [uvmalloc_loop];
    destruct (curr <? newsz) eqn:E; zbool; [lia | | |].
  1, 3: apply wp_ret; left; split; [done |];
    replace (Z.max lo top) with curr by zlia; exact Hg.
  assert (Hct : curr + 4096 <= top) by zlia.
  pose proof (gr_ext _ _ _ _ _ _ Hg) as Ex.
  apply wp_bind, pa_alloc; [apply Ex | |].
  - intros s2 Hs2. cbn [Z.eqb]. apply (wp_growth_undo s2 curr); [| done | lia |].
    2: { eexists _, s1. split_and!; [exact Ex | | apply Hs2].
         destruct Hlo as [Hl0 Hl1]. eapply few_mono; [apply (few_pages pt lo curr s1 Hl0 Hc ltac:(lia)) | unfold PAGE_SIZE; zlia | done]. }
    assert (Hgr : pt_grow pt s1 s2).
    { apply pt_grow_same; try apply Hs2; apply Ex. }
    eapply grown_ext; [done | exact Hg | by apply pt_grow_ext |].
    intros v _. by rewrite (an_mem _ _ Hs2).
  - intros p s2 Hs2. rewrite (fresh_nonzero s1 s2 p Hs2).
    apply wp_bind, wp_memset_page, wp_bind. fold flags.
    eapply wp_mono; [by apply (grown_map_page s1 s2 p curr); try lia |].
    intros r s4 [[-> Hg4] | (Hr4 & Hk4 & Ho4 & Hsc & Hs5)].
    + cbn [negb Z.eqb]. rewrite u32_small by (unfold PAGE_SIZE, U32 in *; lia).
      apply IH; unfold PAGE_SIZE; [done | zlia | lia | lia].
    + destruct (r =? 0) eqn:E0; zbool; [done |]. cbn [negb].
      apply wp_bind, pa_free; [done | done |]. intros s5 Hf5.
      apply (wp_growth_undo s5 curr); [by apply Hs5 | done | lia | done].
Qed.
End Growth.

Lemma PGROUNDUP_bounds x : 0 <= x -> x + PAGE_SIZE <= U32 ->
  PGROUNDUP x mod 4096 = 0 /\ x <= PGROUNDUP x < x + 4096.
Proof.
  intros H0 Hx. rewrite PGROUNDUP_spec, u32_small by (unfold PAGE_SIZE, U32 in *; lia). zlia.
Qed.

Lemma wp_uvmalloc s pt oldsz newsz xperm : kready s -> pt_wf s pt ->
  0 <= oldsz -> oldsz <= newsz -> 0 <= xperm < 1024 -> newsz + 2 * PAGE_SIZE <= U32 ->
  (forall v, 0 <= v < U32 -> PGROUNDUP oldsz <= v < PGROUNDUP newsz ->
      valid (pte_at (mem s) pt v) = false) ->
  wp (uvmalloc pt oldsz newsz xperm) (fun r s' =>
     r = newsz /\ grown pt (PGROUNDUP oldsz) (PGROUNDUP newsz)
       (Z.lor (Z.lor PTE_R PTE_U) xperm) s s'
     \/ r = 0 /\ regrown pt s s' /\
        ran_out pt ((PGROUNDUP newsz - PGROUNDUP oldsz) / PAGE_SIZE) s) s.
Proof.
  intros Hr Hwf Ho Hle Hx Hend Hun. unfold uvmalloc.
  assert ((newsz <? oldsz) = false) as -> by lia.
  destruct (PGROUNDUP_bounds oldsz) as [Ha1 Hb1]; [lia | unfold PAGE_SIZE in *; lia |].
  destruct (PGROUNDUP_bounds newsz) as [Ha2 Hb2]; [lia | unfold PAGE_SIZE in *; lia |].
  assert (Hm : Z.max (PGROUNDUP oldsz) (PGROUNDUP newsz) = PGROUNDUP newsz) by zlia.
  eapply wp_mono; [apply (wp_uvmalloc_loop pt (PGROUNDUP oldsz) (PGROUNDUP newsz) newsz xperm s) |].
  - apply lor_flags_range; [done | done].
  - done.
  - split; [done | lia].
  - done.
  - unfold PAGE_SIZE in *. lia.
  - done.
  - by apply grown_none.
  - done.
  - lia.
  - unfold PAGE_SIZE. zlia.
  - unfold growth_done. rewrite Hm. auto.
Qed.

(** The pages [uvmfree] gives back. *)
Definition space (s : kstate) (pt size b : Z) : Prop :=
  pages pt (image_or_stack size) s b \/ table (mem s) pt b.

Lemma wp_uvmfree_set s pt size (Q : unit -> kstate -> Prop) : kready s -> pt_wf s pt -> 0 <= size < U32 ->
  size mod PAGE_SIZE = 0 -> pages_ok pt (image_or_stack size) s ->
  (forall s', freed_set (space s pt size) s s' -> Q tt s') -> wp (uvmfree pt size) Q s.
Proof.
  intros Hr Hwf Hsz Hal Hok HQ. unfold uvmfree. rewrite Hal. cbn [negb Z.eqb].
  apply wp_unmap_all; try done. intros s1 Hs1.
  apply wp_freewalk; [apply Hs1 | apply Hs1 |]. intros s2 Hs2. apply HQ.
  pose proof (ps_tables _ _ _ _ _ Hs1) as Ht. unfold space. split.
  - transitivity s1; [apply Hs1 | apply Hs2].
  - apply Hs2.
  - intros b. rewrite (fs_avail _ _ _ Hs2), (ps_avail _ _ _ _ _ Hs1), Ht. tauto.
  - intros b Hb Hn. apply (fs_owned _ _ _ Hs2); [| rewrite Ht; tauto].
    apply (ps_owned _ _ _ _ _ Hs1); [done | tauto].
  - intros a Ha. rewrite (fs_mem _ _ _ Hs2), (ps_mem _ _ _ _ _ Hs1); auto.
    intros b. rewrite Ht. auto.
Qed.

(** Pages in use that are not freed keep their bytes. *)
Lemma freed_set_page B s s' b a : freed_set B s s' -> owned s b -> ~ B b -> in_page b a ->
  load8 (mem s') a = load8 (mem s) a.
Proof.
  intros Hf Ho Hn Ha. apply (fs_mem _ _ _ Hf). intros c Hc Hin. apply Hn.
  assert (Hra : ram_page c) by (eapply avail_ram, (fs_avail _ _ _ Hf); by right).
  by rewrite (page_disjoint b c a (owned_ram _ _ Ho) Hra Ha Hin).
Qed.

Lemma wp_uvmfree s pt size : kready s -> pt_wf s pt -> 0 <= size < U32 ->
  size mod PAGE_SIZE = 0 -> pages_ok pt (image_or_stack size) s ->
  wp (uvmfree pt size) (fun _ s' => kready s' /\ kframe s s' /\
    (forall b, avail s' b <->
       avail s b \/ pages pt (image_or_stack size) s b \/ table (mem s) pt b) /\
    (forall b, owned s b -> ~ pages pt (image_or_stack size) s b -> ~ table (mem s) pt b ->
       owned s' b /\ forall a, in_page b a -> load8 (mem s') a = load8 (mem s) a)) s.
Proof.
  intros Hr Hwf Hsz Hal Hok. apply wp_uvmfree_set; try done. intros s' Hs'.
  split_and!; [apply Hs' | apply Hs' | apply Hs' |]. intros b Hb Hnp Hnt.
  assert (Hn : ~ space s pt size b) by (unfold space; tauto).
  split; [by apply (fs_owned _ _ _ Hs') | intros a Ha; by eapply freed_set_page].
Qed.

Lemma user_demo_ready : kready user_demo.
Proof. destruct two_pages_ready as [[A1 A2] L P]. by split. Qed.

Lemma user_demo_valid v : 0 <= v < U32 -> valid (pte_at (mem user_demo) demo_pt v) = true ->
  vpn v = 1 /\ PTE2PA (pte_at (mem user_demo) demo_pt v) = 0x80006000.
Proof.
  intros Hv. rewrite user_demo_pte by done. case_decide as H1; [done |].
  rewrite valid_0. intros H. discriminate H.
Qed.

Lemma user_demo_pages P : pages_ok demo_pt P user_demo.
Proof.
  split.
  - intros v Hv _ Hval. destruct (user_demo_valid v Hv Hval) as [_ ->].
    rewrite user_demo_table. vm_compute. intuition congruence.
  - intros v v' Hv Hv' _ _ Hval Hval' _. destruct (user_demo_valid v Hv Hval) as [-> _].
    by destruct (user_demo_valid v' Hv' Hval') as [-> _].
Qed.

(** * Properties *)

(** [uvmunmap] unmaps exactly the range: for an aligned range below the
    top of the address space it terminates, every mapping in the range is
    gone, every other one is as it was, and, if asked to, exactly the pages
    that were mapped there are available again; no table is added or dropped,
    and no byte outside the tables and the freed pages changes. A misaligned
    range panics. *)
Theorem uvmunmap_correct s pt va size fr : kready s -> pt_wf s pt ->
  0 <= va -> 0 <= size -> va + size < U32 ->
  let rng := fun v => va <= v < va + size in
  (va mod PAGE_SIZE = 0 -> size mod PAGE_SIZE = 0 -> (fr = true -> pages_ok pt rng s) ->
   wp (uvmunmap pt va size fr) (fun _ s' => kready s' /\ pt_wf s' pt /\ kframe s s' /\
     (forall v, 0 <= v < U32 -> rng v -> valid (pte_at (mem s') pt v) = false) /\
     (forall v, 0 <= v < U32 -> ~ rng v -> pte_at (mem s') pt v = pte_at (mem s) pt v) /\
     (forall b, avail s' b <-> avail s b \/ fr = true /\ pages pt rng s b) /\
     (forall t, table (mem s') pt t <-> table (mem s) pt t) /\
     (forall a, (forall t, table (mem s) pt t -> ~ in_page t a) ->
        (fr = true -> forall b, pages pt rng s b -> ~ in_page b a) ->
        load8 (mem s') a = load8 (mem s) a)) s) /\
  (va mod PAGE_SIZE <> 0 \/ size mod PAGE_SIZE <> 0 ->
   panics (uvmunmap pt va size fr) "uvmunmap: not aligned" s).
Proof.
  intros Hr Hwf H0 H1 H2 rng. split.
  - intros Hva Hsz Hok. apply wp_uvmunmap; try done. intros s' Hs'.
    split_and!; try apply Hs'.
    intros v Hv Hn. destruct (ps_kept _ _ _ _ _ Hs' v Hv) as [? | (Hin & _)]; [done |].
    by destruct Hn.
  - intros Hbad. unfold uvmunmap.
    assert (negb (va mod PAGE_SIZE =? 0) || negb (size mod PAGE_SIZE =? 0) = true) as -> by lia.
    apply panic_panics.
Qed.

Lemma uvmunmap_correct_witness :
  let rng := fun v => 0x1000 <= v < 0x1000 + 0x1000 in
  wp (uvmunmap demo_pt 0x1000 0x1000 true) (fun _ s' => kready s' /\ pt_wf s' demo_pt /\
     kframe user_demo s' /\
     (forall v, 0 <= v < U32 -> rng v -> valid (pte_at (mem s') demo_pt v) = false) /\
     (forall v, 0 <= v < U32 -> ~ rng v ->
        pte_at (mem s') demo_pt v = pte_at (mem user_demo) demo_pt v) /\
     (forall b, avail s' b <-> avail user_demo b \/ true = true /\ pages demo_pt rng user_demo b) /\
     (forall t, table (mem s') demo_pt t <-> table (mem user_demo) demo_pt t) /\
     (forall a, (forall t, table (mem user_demo) demo_pt t -> ~ in_page t a) ->
        (true = true -> forall b, pages demo_pt rng user_demo b -> ~ in_page b a) ->
        load8 (mem s') a = load8 (mem user_demo) a)) user_demo.
Proof.
  refine (proj1 (uvmunmap_correct user_demo demo_pt 0x1000 0x1000 true user_demo_ready
    (us_wf _ _ user_demo_ok) _ _ _) _ _ _); try done.
  intros _. apply user_demo_pages.
Defined.

(** C21 (an address space is freed completely): [uvmfree] returns, and the
    pages available afterwards are those available before, the image's pages
    in [USER_BASE, size), the stack page, and every page of the page table;
    no other handed-out page is touched. An unaligned size panics. *)
Theorem uvmfree_correct s pt size : kready s -> pt_wf s pt -> 0 <= size < U32 ->
  (size mod PAGE_SIZE = 0 -> pages_ok pt (image_or_stack size) s ->
   wp (uvmfree pt size) (fun _ s' => kready s' /\ kframe s s' /\
     (forall b, avail s' b <->
        avail s b \/ pages pt (image_or_stack size) s b \/ table (mem s) pt b) /\
     (forall b, owned s b -> ~ pages pt (image_or_stack size) s b -> ~ table (mem s) pt b ->
        owned s' b /\ forall a, in_page b a -> load8 (mem s') a = load8 (mem s) a)) s) /\
  (size mod PAGE_SIZE <> 0 -> panics (uvmfree pt size) "uvmfree: size not aligned" s).
Proof.
  intros Hr Hwf Hsz. split; [by intros; apply wp_uvmfree |].
  intros Hal. unfold uvmfree. apply Z.eqb_neq in Hal. rewrite Hal. apply panic_panics.
Qed.

Lemma uvmfree_correct_witness :
  wp (uvmfree demo_pt 0x2000) (fun _ s' => kready s' /\ kframe user_demo s' /\
     (forall b, avail s' b <-> avail user_demo b
        \/ pages demo_pt (image_or_stack 0x2000) user_demo b \/ table (mem user_demo) demo_pt b) /\
     (forall b, owned user_demo b -> ~ pages demo_pt (image_or_stack 0x2000) user_demo b ->
        ~ table (mem user_demo) demo_pt b ->
        owned s' b /\ forall a, in_page b a -> load8 (mem s') a = load8 (mem user_demo) a)) user_demo.
Proof.
  refine (proj1 (uvmfree_correct user_demo demo_pt 0x2000 user_demo_ready
    (us_wf _ _ user_demo_ok) _) _ _); [done | done |].
  apply user_demo_pages.
Defined.

(** Growing an address space, without leaks: if [newsz] is below
    [oldsz], [uvmalloc] returns [oldsz] and does nothing. Otherwise it returns;
    either [newsz], and every page from [PGROUNDUP(oldsz)] to [newsz] is then
    mapped, readable, user-accessible and with [xperm], to a fresh zeroed page
    of its own, every other mapping being as it was; or 0, when memory ran
    out, and then the mappings are those before the call and every page the
    call took is back with the allocator, the tables it added apart; this
    happens only if no more pages were available than those of the range and of
    a page table. What was in use before is not touched either way. *)
Theorem uvmalloc_correct s pt oldsz newsz xperm : kready s -> pt_wf s pt ->
  0 <= oldsz -> 0 <= newsz -> 0 <= xperm < 1024 -> newsz + 2 * PAGE_SIZE <= U32 ->
  (newsz < oldsz -> uvmalloc pt oldsz newsz xperm s = Ok oldsz s) /\
  (oldsz <= newsz ->
   (forall v, 0 <= v < U32 -> PGROUNDUP oldsz <= v < PGROUNDUP newsz ->
      valid (pte_at (mem s) pt v) = false) ->
   wp (uvmalloc pt oldsz newsz xperm) (fun r s' =>
     r = newsz /\ grown pt (PGROUNDUP oldsz) (PGROUNDUP newsz)
       (Z.lor (Z.lor PTE_R PTE_U) xperm) s s'
     \/ r = 0 /\ regrown pt s s' /\ scarce ((PGROUNDUP newsz - PGROUNDUP oldsz) / PAGE_SIZE + 1025) s) s).
Proof.
  intros Hr Hwf Ho Hn Hx Hend. split.
  2: { intros Hle Hun. eapply wp_mono; [by apply wp_uvmalloc |]. intros r s' [H | (-> & H & Hout)]; [by left | right].
       split_and!; [done | done | by eapply ran_out_scarce]. }
  intros Hlt. unfold uvmalloc. by assert ((newsz <? oldsz) = true) as -> by lia.
Qed.

Lemma uvmalloc_correct_witness :
  wp (uvmalloc demo_pt 0x1000 0x1800 PTE_W) (fun r s' =>
     r = 0x1800 /\ grown demo_pt (PGROUNDUP 0x1000) (PGROUNDUP 0x1800)
       (Z.lor (Z.lor PTE_R PTE_U) PTE_W) two_pages s'
     \/ r = 0 /\ regrown demo_pt two_pages s' /\ scarce ((PGROUNDUP 0x1800 - PGROUNDUP 0x1000) / PAGE_SIZE + 1025) two_pages) two_pages.
Proof.
  refine (proj2 (uvmalloc_correct two_pages demo_pt 0x1000 0x1800 PTE_W two_pages_ready
    demo_pt_wf _ _ _ _) _ _); try done.
Defined.
