(* ===== verification/Took.v ===== *)
(** Taking pages from the allocator and returning them, by functions that may
    also change the process table.

    [took D s s'] says that a function took the pages [D] and left everything
    that was in use alone, so that "it failed and leaked nothing" is [took] of
    no pages. [tookx F D s s'] allows it to write the addresses [F] as well, the
    locals of a function that passes their address on. *)
From S2P Require Import Prelude Machine Csr KPrint Spinlock Printf Mem Vm PageTable KernelMap UserMem UserSpace.

(** * Frames that allow the process table to change *)

Record oframe (s s' : kstate) : Prop := {
  of_start : start_page s' = start_page s;
  of_kpt : kptable s' = kptable s;
  of_ticks : ticks s' = ticks s;
  of_hang : hang s' = hang s;
  of_tsrc : tsrc s' = tsrc s;
  of_tpos : tpos s' = tpos s;
  of_sy : sy s' ≡ sy s
}.

#[global] Instance oframe_preorder : PreOrder oframe.
Proof.
  split; [by split |]. intros a b c [] []. split; first [congruence | etransitivity; eassumption].
Qed.

Lemma kframe_oframe s s' : kframe s s' -> oframe s s'.
Proof. intros []. by split. Qed.

(** No lock is held, by this hart or another. *)
Record quiet (s : kstate) : Prop := {
  qu_alloc : alloc_ok s;
  qu_locks : forall l, can_lock l (sy s)
}.

Lemma quiet_ready s : quiet s -> kready s.
Proof. intros [Ha Hl]. split; [done | apply Hl | right; apply Hl]. Qed.

Lemma quiet_frame s s' : oframe s s' -> alloc_ok s' -> quiet s -> quiet s'.
Proof. intros Hf Ha [_ Hl]. split; [done |]. intros l. rewrite (of_sy _ _ Hf). apply Hl. Qed.

(** Inside a section of a process's lock the allocator may be called. *)
Lemma ready_locked l s : quiet s -> l <> MemLock -> l <> PrintLock -> kready (set_sy (sync_lock l (sy s)) s).
Proof.
  intros [[A1 A2] Hl] H1 H2. split; [by split | |]; [| right]; cbn [sy set_sy]; by apply can_lock_other.
Qed.

(** * Taking and returning pages *)

Record tookx (F D : Z -> Prop) (s s' : kstate) : Prop := {
  tk_frame : oframe s s';
  tk_alloc : alloc_ok s';
  tk_avail : forall b, avail s' b <-> avail s b /\ ~ D b;
  tk_new : forall b, D b -> avail s b /\ owned s' b;
  tk_owned : forall b, owned s b -> owned s' b;
  tk_memx : forall a, ~ F a -> (forall b, avail s b -> ~ in_page b a) -> load8 (mem s') a = load8 (mem s) a
}.

Abbreviation took := (tookx (fun _ => False)).

(** Nothing was taken. *)
Abbreviation kept := (took (fun _ => False)).

Lemma tk_mem D s s' : took D s s' ->
  forall a, (forall b, avail s b -> ~ in_page b a) -> load8 (mem s') a = load8 (mem s) a.
Proof. intros Ht a Ha. apply (tk_memx _ _ _ _ Ht); [tauto | done]. Qed.

Lemma took_refl s : alloc_ok s -> kept s s.
Proof. intros Ha. split; try done. intros b. tauto. Qed.

Lemma took_equiv F (D E : Z -> Prop) s s' : (forall b, D b <-> E b) -> tookx F D s s' -> tookx F E s s'.
Proof. intros H [Fr R A N O Mm]. split; auto; intros b; rewrite <- H; auto. Qed.

Lemma took_trans F D E s s1 s2 : tookx F D s s1 -> tookx F E s1 s2 -> tookx F (fun b => D b \/ E b) s s2.
Proof.
  intros [F1 R1 A1 N1 O1 M1] [F2 R2 A2 N2 O2 M2]. split; auto.
  - by transitivity s1.
  - intros b. rewrite A2, A1. tauto.
  - intros b [Hd | He].
    + destruct (N1 b Hd). auto.
    + destruct (N2 b He) as [Ha Ho]. apply A1 in Ha as [? _]. auto.
  - intros a Hn Ha. rewrite M2, M1; [done | done | done | done |]. intros b Hb. apply A1 in Hb as [? _]. auto.
Qed.

Lemma took_widen (F : Z -> Prop) D s s' : took D s s' -> tookx F D s s'.
Proof. intros [Fr R A N O Mm]. split; try done. intros a _. apply Mm. tauto. Qed.

(** Pages run out after [D] was taken: there were few before. *)
Lemma scarce_took F D n m s s' : tookx F D s s' -> few m D -> scarce n s' -> scarce (n + m) s.
Proof. intros Ht Hm Hn. eapply few_or; [exact Hn | exact Hm |]. intros b Hb HD. by apply (tk_avail _ _ _ _ Ht). Qed.

(** The same for a page table that is new and then extended; locks may have
    changed hands in between. *)
Lemma scarce_new_table F E k n pt s s1 s1' : tookx F (fun b => E b \/ table (mem s1) pt b) s s1 -> few k E ->
  mem s1' = mem s1 -> mem_bitmap s1' = mem_bitmap s1 -> ran_out pt n s1' -> scarce (n + k + 1025) s.
Proof.
  intros Ht Hk Hm Hb (D & s2 & Ex & Hn & Hf).
  assert (H0 : few 0 (fun b => avail s b /\ ~ table (mem s2) pt b /\ ~ E b /\ ~ D b)).
  { apply few_none; [done |]. intros b (Ha & Htb & He & Hd). apply (Hf b), (ex_avail _ _ _ _ Ex).
    split_and!; [| done | done]. unfold avail, bit. rewrite Hb. apply (tk_avail _ _ _ _ Ht). split; [done |].
    intros [|Ht1]; [done |]. apply Htb, (ex_tables _ _ _ _ Ex). by rewrite Hm. }
  pose proof (few_or _ _ _ _ (fun b => avail s b /\ ~ table (mem s2) pt b /\ ~ E b) H0 Hn ltac:(naive_solver)) as H1.
  pose proof (few_or _ _ _ _ (fun b => avail s b /\ ~ table (mem s2) pt b) H1 Hk ltac:(naive_solver)) as H2.
  exact (few_or _ _ _ _ (avail s) H2 (few_tables (mem s2) pt) ltac:(naive_solver)).
Qed.

(** Pages in use keep their bytes. *)
Lemma took_page D s s' b a : took D s s' -> owned s b -> in_page b a -> load8 (mem s') a = load8 (mem s) a.
Proof.
  intros Ht Ho Ha. apply (tk_mem _ _ _ Ht). intros c Hc Hin. apply (owned_not_avail s b Ho).
  by rewrite (page_disjoint b c a (owned_ram _ _ Ho) (avail_ram _ _ Hc) Ha Hin).
Qed.

(** Returning some of the pages. *)
Lemma took_return F D B s s1 s2 : tookx F D s s1 -> freed_set B s1 s2 -> (forall b, B b -> D b) ->
  tookx F (fun b => D b /\ ~ B b) s s2.
Proof.
  intros [F1 R1 A1 N1 O1 M1] [F2 [R2 _ _] A2 O2 M2] HB. split.
  - etransitivity; [done | by apply kframe_oframe].
  - done.
  - intros b. rewrite A2, A1. split; [intros [? | Hb] | intros [Ha Hn]].
    + tauto.
    + split; [by apply N1, HB | tauto].
    + destruct (decide (bit s2 (idx b) = 0)) as [H0 | H0].
      * exfalso. assert (Hna : ~ avail s2 b) by (by intros [_ ?]). rewrite A2, A1 in Hna. tauto.
      * assert (avail s2 b) as Hav by (split; [apply Ha | done]). by rewrite A2, A1 in Hav.
  - intros b [Hd Hn]. destruct (N1 b Hd). auto.
  - intros b Hb. apply O2; [by apply O1 |]. intros Hbb. destruct (N1 b (HB b Hbb)) as [Ha _].
    by apply (owned_not_avail s b).
  - intros a Hn Ha. rewrite M2, M1; [done | done | done |]. intros b Hb. apply Ha. by apply N1, HB.
Qed.

(** ** A page table whose pages keep their bytes and stay in use *)

Lemma wf_kept s s' pt : same_tables (mem s) (mem s') pt -> (forall b, owned s b -> owned s' b) -> pt_wf s pt -> pt_wf s' pt.
Proof.
  intros Hst Ho [W1 W2 W3]. split; [auto | |].
  - intros i Hi. rewrite (same_tables_l1 (mem s)) by done. intros Hv. destruct (W2 i Hi Hv). auto.
  - intros i j Hi Hj. rewrite !(same_tables_l1 (mem s) (mem s')) by done. by apply W3.
Qed.

Lemma uspace_kept s s' pt : same_tables (mem s) (mem s') pt -> (forall b, owned s b -> owned s' b) -> uspace_ok s pt -> uspace_ok s' pt.
Proof.
  intros Hst Ho [W P I]. split; [by apply (wf_kept s) | |].
  - intros v Hv. rewrite (same_tables_pte (mem s)), (same_tables_table (mem s)) by done. intros Ha. destruct (P v Hv Ha). auto.
  - intros v v' Hv Hv'. rewrite !(same_tables_pte (mem s) (mem s')) by done. by apply I.
Qed.

Lemma took_frame F D s s1 s2 : tookx F D s s1 -> oframe s1 s2 -> mem s2 = mem s1 ->
  mem_bitmap s2 = mem_bitmap s1 -> tookx F D s s2.
Proof.
  intros [Fr [R1 R2] A N O Mm] Hf Hm Hb.
  assert (Hbit : forall i, bit s2 i = bit s1 i) by (intros; unfold bit; by rewrite Hb).
  assert (Ho : forall b, owned s1 b -> owned s2 b)
    by (intros b (? & ? & ?); unfold owned; by rewrite Hbit, (of_start _ _ Hf)).
  split.
  - by transitivity s1.
  - split; rewrite (of_start _ _ Hf); [done |]. intros i. rewrite Hbit. apply R2.
  - intros b. rewrite <- A. unfold avail. by rewrite Hbit.
  - intros b Hd. destruct (N b Hd). auto.
  - auto.
  - intros a Hn Ha. rewrite Hm. auto.
Qed.

Lemma took_alloc s p s1 m' : alloc_ok s -> alloc_some s p s1 ->
  (forall a, ~ in_page p a -> load8 m' a = load8 (mem s) a) -> took (fun b => b = p) s (set_mem m' s1).
Proof.
  intros Hr Ha Hm. split.
  - apply kframe_oframe, kframe_set_mem, Ha.
  - destruct Hr as [A1 A2]. pose proof (as_frame _ _ _ Ha) as Hf. split; cbn [start_page set_mem];
      rewrite (kf_start _ _ Hf); [done |]. intros i. change (bit (set_mem m' s1) i) with (bit s1 i).
    rewrite (bit_alloc_some _ _ _ i Ha). case_decide; [done | apply A2].
  - intros b. exact (avail_alloc_some s p s1 b Ha).
  - intros b ->. split; [apply Ha | exact (owned_alloc_some _ _ _ Ha)].
  - intros b Hb. exact (owned_alloc_keep _ _ _ b Ha Hb).
  - intros a _ Hb. cbn [mem set_mem]. apply Hm, Hb, Ha.
Qed.

Lemma took_alloc_only s p s1 : alloc_ok s -> alloc_some s p s1 -> took (fun b => b = p) s s1.
Proof.
  intros Hr Ha. pose proof (took_alloc s p s1 (mem s1) Hr Ha) as Ht.
  assert (Hs : set_mem (mem s1) s1 = s1) by (by destruct s1). rewrite Hs in Ht. apply Ht.
  intros a _. by rewrite (as_mem _ _ _ Ha).
Qed.

Lemma took_alloc_none s s1 : alloc_ok s -> alloc_none s s1 -> kept s s1.
Proof.
  intros Hr Ha. eapply took_frame; [by apply took_refl | apply kframe_oframe, Ha | apply Ha | apply Ha].
Qed.

(** A new table. *)
Lemma took_table s p s1 s' : alloc_ok s -> alloc_some s p s1 ->
  pt_grow p (set_mem (zero_page (mem s1) p) s1) s' -> took (table (mem s') p) s s'.
Proof.
  intros Hr Ha Hg. set (s2 := set_mem _ s1) in *.
  assert (Ht : took (fun b => b = p) s s2).
  { apply took_alloc; [done | done |]. intros a Hn. pose proof (fresh_load8 s s1 p Ha a) as Hl.
    cbn [mem set_mem] in Hl. rewrite Hl. unfold in_page in Hn. zcase; [lia | done]. }
  pose proof (fresh_table s s1 p Ha) as Hft. fold s2 in Hft.
  assert (Hnew : forall t, table (mem s') p t -> avail s t).
  { intros t Htt. destruct (pg_new _ _ _ Hg t Htt) as [H | H].
    - apply Hft in H as ->. apply Ha.
    - by apply (tk_avail _ _ _ _ Ht) in H as [? _]. }
  split.
  - transitivity s2; [apply Ht | apply kframe_oframe, Hg].
  - apply Hg.
  - intros b. rewrite (pg_avail _ _ _ Hg), (tk_avail _ _ _ _ Ht). split; [tauto |]. intros [Hb Hn].
    split_and!; try done. intros ->. apply Hn. by left.
  - intros b Hb. split; [auto |]. by eapply table_owned; [apply Hg |].
  - intros b Hb. by apply (pg_owned _ _ _ Hg), (tk_owned _ _ _ _ Ht).
  - intros a _ Hn. rewrite (pg_mem _ _ _ Hg), (tk_mem _ _ _ Ht); [done | done |]. auto.
Qed.

Lemma freed_set_none s : kready s -> freed_set (fun _ => False) s s.
Proof. intros Hr. split; try done. intros b. tauto. Qed.

Lemma freed_set_equiv (B C : Z -> Prop) s s' : (forall b, B b <-> C b) -> freed_set B s s' -> freed_set C s s'.
Proof.
  intros H [F R A O Mm]. split; auto.
  - intros b. by rewrite A, H.
  - intros b Hb Hn. apply O; [done |]. by rewrite H.
  - intros a Ha. apply Mm. intros b. rewrite H. apply Ha.
Qed.

(** Freeing inside a critical section, seen from outside it. *)
Lemma freed_set_sy B s y s1 y' : quiet s -> freed_set B (set_sy y s) s1 -> y' ≡ sy s ->
  freed_set B s (set_sy y' s1).
Proof.
  intros Hq [[] [[R1 R2] _ _] A O Mm] Hy. cbn in *.
  assert (Hf : kframe s (set_sy y' s1)) by (by split).
  split; try done. apply quiet_ready. apply (quiet_frame s); [by apply kframe_oframe | by split | done].
Qed.

(** Writing into a page that was taken, and the locals. *)
Lemma took_write F D s s1 p m' : tookx F D s s1 -> D p ->
  (forall a, ~ F a -> ~ in_page p a -> load8 m' a = load8 (mem s1) a) -> tookx F D s (set_mem m' s1).
Proof.
  intros [Fr [R1 R2] A N O Mm] Hp Hm. split; try done.
  - destruct Fr. by split.
  - intros a Hn Ha. cbn [mem set_mem]. rewrite Hm; [by apply Mm | done |]. apply Ha. by apply N.
Qed.

(** Extending a page table whose pages were taken. *)
Lemma took_ext F D E pt s s1 s2 : tookx F D s s1 -> (forall t, table (mem s1) pt t -> D t) -> pt_ext pt E s1 s2 ->
  (forall b, E b -> avail s1 b /\ owned s2 b) ->
  tookx F (fun b => D b \/ table (mem s2) pt b \/ E b) s s2.
Proof.
  intros [Fr R A N O Mm] Ht [F2 [R2 _ _] W2 T2 N2 O2 A2 M2] HE.
  assert (Hav : forall b, avail s1 b -> avail s b) by (intros b Hb; by apply A in Hb as [? _]).
  split.
  - etransitivity; [exact Fr | by apply kframe_oframe].
  - done.
  - intros b. rewrite A2, A. tauto.
  - intros b [Hd | [Htb | He]].
    + destruct (N b Hd). auto.
    + split; [| by eapply table_owned]. destruct (N2 b Htb) as [H | H]; [by apply N, Ht | auto].
    + destruct (HE b He). auto.
  - auto.
  - intros a Hn Ha. rewrite M2, Mm; auto. intros t Htt. by apply Ha, N, Ht.
Qed.

Lemma took_sy F D y s s' : y ≡ sy s -> tookx F D (set_sy y s) s' -> tookx F D s s'.
Proof. intros Hy [[] R A N O Mm]. split; try done. split; try done. cbn in *. by rewrite <- Hy. Qed.
