(* ===== verification/Exec.v ===== *)
(** Program loading: exec.c and elf.h.

    [find_program], [load_segment] and [load_elf]. The images are bytes of
    physical memory (initcode.h, which the build generates, places them there);
    a C local that only holds a copy, like the two headers, is a value. *)
From S2P Require Import Prelude Machine Csr KPrint Spinlock Printf Mem Vm PageTable KernelMap UserMem UserSpace.

(** * elf.h *)

Definition ELF_MAGIC : Z := 0x464C457F.
Definition PT_LOAD : Z := 1.
Definition PF_X : Z := 0x1.
Definition PF_W : Z := 0x2.
Definition ET_EXEC : Z := 2.
Definition EM_RISCV : Z := 243.
Definition ELFCLASS32 : Z := 1.

Record elf_hdr := mk_elf_hdr {
  e_magic : Z; e_ident0 : Z; e_type : Z; e_machine : Z; e_version : Z; e_entry : Z;
  e_phoff : Z; e_shoff : Z; e_flags : Z; e_ehsize : Z; e_phentsize : Z; e_phnum : Z;
  e_shentsize : Z; e_shnum : Z; e_shstrndx : Z
}.

Record prg_hdr := mk_prg_hdr {
  p_type : Z; p_offset : Z; p_va : Z; p_pa : Z;
  p_filesz : Z; p_memsz : Z; p_flags : Z; p_align : Z
}.

Definition sizeof_elf_hdr : Z := 52.
Definition sizeof_prg_hdr : Z := 32.

(** The structs as they lie in memory; [e_ident] starts at byte 4. *)
Definition read_elf_hdr (m : gmap Z Z) (a : Z) : elf_hdr :=
  mk_elf_hdr (load32 m a) (load8 m (a + 4)) (load16 m (a + 16)) (load16 m (a + 18))
    (load32 m (a + 20)) (load32 m (a + 24)) (load32 m (a + 28)) (load32 m (a + 32))
    (load32 m (a + 36)) (load16 m (a + 40)) (load16 m (a + 42)) (load16 m (a + 44))
    (load16 m (a + 46)) (load16 m (a + 48)) (load16 m (a + 50)).

Definition read_prg_hdr (m : gmap Z Z) (a : Z) : prg_hdr :=
  mk_prg_hdr (load32 m a) (load32 m (a + 4)) (load32 m (a + 8)) (load32 m (a + 12))
    (load32 m (a + 16)) (load32 m (a + 20)) (load32 m (a + 24)) (load32 m (a + 28)).

(** * The embedded programs *)

(** Where initcode.h puts the images, and how long they are. *)
Class Initcode := {
  user_init_elf : Z; user_init_elf_len : Z;
  user_hello_elf : Z; user_hello_elf_len : Z;
  user_echo_elf : Z; user_echo_elf_len : Z
}.

Record program := mk_program { pr_name : list Z; pr_img : Z; pr_len : Z }.

Definition programs `{Initcode} : list program :=
  [ mk_program (bytes "init") user_init_elf user_init_elf_len;
    mk_program (bytes "hello") user_hello_elf user_hello_elf_len;
    mk_program (bytes "echo") user_echo_elf user_echo_elf_len ].

Fixpoint find_loop (name : list Z) (ps : list program) : option (Z * Z) :=
  match ps with
  | [] => None
  | p :: ps => if strcmp name (pr_name p) =? 0 then Some (pr_img p, pr_len p) else find_loop name ps
  end.

(** [None] is the result -1; [Some (img, len)] is 0 with the outputs set. *)
Definition find_program `{Initcode} (name : list Z) : option (Z * Z) := find_loop name programs.

(** * Loading *)

(** Each pass copies at least one byte: [sz] passes are enough. *)
Fixpoint load_segment_loop (fuel : nat) (pt va img sz : Z) : M Z :=
  if sz <=? 0 then mret 0
  else
    match fuel with
    | O => nofuel
    | S fuel =>
        pa ← find_pa pt va;
        if pa =? 0 then mret (-1)
        else
          let n := chunk pa sz in
          memmove pa img n;;
          load_segment_loop fuel pt (va +w n) (img +w n) (sz - n)
    end.

Definition load_segment (pt va img offset sz : Z) : M Z :=
  load_segment_loop (Z.to_nat sz) pt va (img +w offset) sz.

Definition seg_perm (flags : Z) : Z :=
  let perm := if Z.land flags PF_X =? 0 then 0 else PTE_X in
  if Z.land flags PF_W =? 0 then perm else Z.lor perm PTE_W.

(** The checks on a loadable segment, in order; [true] rejects the file. *)
Definition bad_segment (prg : prg_hdr) (len size : Z) : bool :=
  (p_memsz prg <? p_filesz prg)
  || ((p_offset prg +w p_filesz prg <? p_offset prg) || (len <? p_offset prg +w p_filesz prg))
  || negb (p_va prg mod PAGE_SIZE =? 0)
  || (p_va prg <? size)
  || ((p_va prg +w p_memsz prg <? p_va prg) || (UART_0 <? p_va prg +w p_memsz prg)).

(** Passes [i] to [phnum - 1]: the result, the local [size] and [*sz]. *)
Fixpoint load_elf_loop (k : nat) (pt img len phoff i size sz : Z) : M (Z * Z * Z) :=
  match k with
  | O => mret (0, size, sz)
  | S k =>
      let off := phoff +w i * sizeof_prg_hdr in
      if (off <? phoff) || (len <? off +w sizeof_prg_hdr) then mret (-1, size, sz)
      else
        prg ← gets (fun s => read_prg_hdr (mem s) (img +w off));
        if negb (p_type prg =? PT_LOAD) then load_elf_loop k pt img len phoff (i + 1) size sz
        else if p_memsz prg =? 0 then load_elf_loop k pt img len phoff (i + 1) size sz
        else if bad_segment prg len size then mret (-1, size, sz)
        else
          newsz ← uvmalloc pt size (p_va prg +w p_memsz prg) (seg_perm (p_flags prg));
          if newsz =? 0 then mret (-1, size, sz)
          else
            let size := newsz in
            let sz := PGROUNDUP size in
            r ← load_segment pt (p_va prg) img (p_offset prg) (p_filesz prg);
            if r <? 0 then mret (-1, size, sz)
            else load_elf_loop k pt img len phoff (i + 1) size sz
  end.

Definition bad_elf_hdr (elf : elf_hdr) : bool :=
  negb (e_magic elf =? ELF_MAGIC) || negb (e_ident0 elf =? ELFCLASS32)
  || negb (e_type elf =? ET_EXEC) || negb (e_machine elf =? EM_RISCV)
  || negb (e_phentsize elf =? sizeof_prg_hdr).

(** The result, [*entry] ([entry0] if it was not set) and [*sz]. *)
Definition load_elf (pt img len entry0 : Z) : M (Z * Z * Z) :=
  if len <? sizeof_elf_hdr then mret (-1, entry0, USER_BASE)
  else
    elf ← gets (fun s => read_elf_hdr (mem s) img);
    if bad_elf_hdr elf then mret (-1, entry0, USER_BASE)
    else
      '(r, size, sz) ← load_elf_loop (Z.to_nat (e_phnum elf)) pt img len (e_phoff elf)
                         0 USER_BASE USER_BASE;
      if r <? 0 then mret (-1, entry0, sz) else mret (0, e_entry elf, PGROUNDUP size).
