(* ===== verification/ExecProofs.v ===== *)
(** Properties of program loading (Exec.v).

    [image] relates the state before loading to the state while or after it:
    the user range up to [hi] is mapped to fresh pages, everything else is as
    it was. [load_elf] keeps this on every path, so that its caller can free
    what was loaded, and on success every loadable segment is in place. *)
From S2P Require Import Prelude Machine Csr KPrint Spinlock Printf Mem Vm PageTable KernelMap UserMem UserSpace Exec.

(** * Kernel memory below the allocatable pages *)

Lemma avail_start s b : kready s -> avail s b -> start_page s <= b.
Proof.
  intros [[Hs Hb] _ _] [[Ha Hr] Hbit]. destruct (Hb _ Hbit) as [Hle _]. revert Hle Hr Ha Hs.
  unfold idx, MEM_START, MEM_END, PAGE_SIZE. intros. zlia.
Qed.

Lemma low_kbuf s pt a n : kready s -> uspace_ok s pt -> 0 <= a -> 0 <= n -> a + n <= start_page s ->
  kbuf s pt a n.
Proof.
  intros [[Hs _] _ _] Hus Ha Hn Hle. split.
  - unfold span_ok, MEM_START, MEM_END, U32 in *. lia.
  - intros x t Hx Ht. destruct (table_owned s pt t (us_wf _ _ Hus) Ht) as (_ & Hst & _).
    unfold in_page. lia.
  - intros x va Hx Hva Hal. destruct (us_page _ _ Hus va Hva Hal) as [(_ & Hst & _) _].
    unfold in_page. lia.
Qed.

(** * Loading one segment's bytes *)

Lemma wp_load_segment s pt va img off sz : uspace_ok s pt -> 0 <= va -> 0 <= sz -> va + sz <= U32 ->
  0 <= img + off < U32 -> kbuf s pt (img + off) sz ->
  wp (load_segment pt va img off sz) (fun r s' => exists m' k, s' = set_mem m' s /\
    stops (mem s) pt 0 va sz r k /\ written (mem s) m' pt 0 va (img + off) k) s.
Proof.
  intros Hus Hva Hsz Hend Hio Hb. unfold load_segment. rewrite (u32_small (img + off)) by done.
  destruct (decide (sz = 0)) as [-> | Hne].
  { cbn. apply wp_ret. exists (mem s), 0. split_and!; [by destruct s | | split; [lia | done]].
    unfold stops. lia. }
  rewrite <- (u32_small va) at 1 by lia.
  apply (wp_put_loop 0 load_segment_loop); try done; [by intros [] | lia].
Qed.

(** * The image under construction *)

(** Two entries that are the same mapping. *)
Definition same_entry (e e' : Z) : Prop := valid e' = valid e /\ (valid e = true -> e' = e).

Definition image_range (hi v : Z) : Prop := USER_BASE <= v < hi.

Record image (pt hi : Z) (s0 s : kstate) : Prop := {
  im_ext : pt_ext pt (pages pt (image_range hi) s) s0 s;
  im_kept : forall v, 0 <= v < U32 -> v < USER_BASE \/ hi <= v ->
    same_entry (pte_at (mem s0) pt v) (pte_at (mem s) pt v);
  im_page : forall v, 0 <= v < U32 -> image_range hi v -> exists p flags,
    pte_at (mem s) pt v = mk_pte p (Z.lor (Z.lor PTE_R PTE_U) flags) /\ 0 <= flags < 1024
    /\ avail s0 p /\ owned s p /\ ~ table (mem s) pt p;
  im_inj : forall v v', 0 <= v < U32 -> 0 <= v' < U32 -> image_range hi v -> image_range hi v' ->
    PTE2PA (pte_at (mem s) pt v) = PTE2PA (pte_at (mem s) pt v') -> vpn v = vpn v'
}.

Lemma same_entry_trans e1 e2 e3 : same_entry e1 e2 -> same_entry e2 e3 -> same_entry e1 e3.
Proof. intros [V1 E1] [V2 E2]. split; [congruence |]. intros H. rewrite E2, E1; congruence. Qed.

Lemma same_entry_valid e e' : same_entry e e' -> valid e' = true -> e' = e.
Proof. intros [V E] H. apply E. congruence. Qed.

Lemma ru_flags flags : 0 <= flags < 1024 -> 0 <= Z.lor (Z.lor PTE_R PTE_U) flags < 1024.
Proof. by apply lor_flags_range. Qed.

(** An entry with [PTE_R | PTE_U] is a user entry. *)
Lemma mk_pte_allows p flags : ram_page p -> 0 <= flags < 1024 ->
  allows (mk_pte p (Z.lor (Z.lor PTE_R PTE_U) flags)) 0 = true
  /\ PTE2PA (mk_pte p (Z.lor (Z.lor PTE_R PTE_U) flags)) = p
  /\ valid (mk_pte p (Z.lor (Z.lor PTE_R PTE_U) flags)) = true.
Proof.
  intros Hp Hf. pose proof (ru_flags flags Hf) as Hr.
  destruct (mk_pte_ram p _ Hp Hr) as [H1 H2]. split; [| done].
  unfold allows, want. rewrite Z.lor_0_r. apply Z.eqb_eq, Z.bits_inj'. intros i Hi.
  rewrite Z.land_spec. destruct (decide (i = 0 \/ i = 4)) as [H04 | H04].
  - destruct Hp as [Ha Hb].
    rewrite mk_pte_bit; [| done | unfold MEM_START, MEM_END, U32 in *; lia | done | lia].
    rewrite !Z.lor_spec. destruct H04 as [-> | ->]; cbn; by rewrite ?orb_true_r.
  - assert (Z.testbit (Z.lor PTE_V PTE_U) i = false) as ->; [| by rewrite andb_false_r].
    change (Z.lor PTE_V PTE_U) with (Z.lor (2 ^ 0) (2 ^ 4)).
    rewrite Z.lor_spec, !Z.pow2_bits_false by lia. done.
Qed.

Lemma image_none pt s : kready s -> pt_wf s pt -> image pt USER_BASE s s.
Proof.
  intros Hr Hwf. split; try (intros v; unfold image_range; lia).
  - eapply pt_ext_trans; [by apply pt_ext_refl | by apply pt_ext_refl |].
    intros b. split; [intros (v & _ & Hv & _); unfold image_range in Hv; lia | tauto].
  - done.
Qed.

Section Image.
Context (pt hi : Z) (s0 s : kstate) (Him : image pt hi s0 s).

Lemma image_page v : 0 <= v < U32 -> image_range hi v ->
  let p := PTE2PA (pte_at (mem s) pt v) in
  allows (pte_at (mem s) pt v) 0 = true /\ valid (pte_at (mem s) pt v) = true
  /\ avail s0 p /\ owned s p /\ ~ table (mem s) pt p.
Proof.
  intros Hv Hin p. unfold p. destruct (im_page _ _ _ _ Him v Hv Hin) as (q & fl & -> & Hf & Ha & Ho & Hnt).
  destruct (mk_pte_allows q fl (avail_ram _ _ Ha) Hf) as (H1 & -> & H2). done.
Qed.

Lemma image_pages b : pages pt (image_range hi) s b -> avail s0 b.
Proof. intros (v & Hv & Hin & _ & ->). by apply image_page. Qed.

Lemma image_pages_ok : pages_ok pt (image_range hi) s.
Proof.
  split.
  - intros v Hv Hin _. destruct (image_page v Hv Hin) as (_ & _ & _ & Ho & Hnt). done.
  - intros v v' Hv Hv' Hin Hin' _ _. by apply (im_inj _ _ _ _ Him).
Qed.

Lemma image_uspace : uspace_ok s0 pt -> uspace_ok s pt.
Proof.
  intros [W P I]. pose proof (im_ext _ _ _ _ Him) as Ex.
  assert (Hout : forall v, 0 <= v < U32 -> ~ image_range hi v -> allows (pte_at (mem s) pt v) 0 = true ->
    pte_at (mem s) pt v = pte_at (mem s0) pt v).
  { intros v Hv Hn Ha. apply same_entry_valid; [| by apply allows_valid].
    apply (im_kept _ _ _ _ Him); [done |]. unfold image_range in Hn. lia. }
  assert (Hdec : forall v, image_range hi v \/ ~ image_range hi v) by (unfold image_range; lia).
  split; [apply Ex | |].
  - intros v Hv Ha. destruct (Hdec v) as [Hin | Hn].
    + destruct (image_page v Hv Hin) as (_ & _ & _ & Ho & Hnt). done.
    + pose proof (Hout v Hv Hn Ha) as He. rewrite He in Ha |- *.
      destruct (P v Hv Ha) as [Ho Hnt]. split; [by apply (ex_owned _ _ _ _ Ex) |].
      eapply ex_not_table; [exact Ex | exact W | exact Hnt | exact Ho].
  - assert (Hmix : forall v v', 0 <= v < U32 -> 0 <= v' < U32 -> image_range hi v ->
      ~ image_range hi v' -> allows (pte_at (mem s) pt v') 0 = true ->
      PTE2PA (pte_at (mem s) pt v) <> PTE2PA (pte_at (mem s) pt v')).
    { intros v v' Hv Hv' Hin Hn Ha He. pose proof (Hout v' Hv' Hn Ha) as He'. rewrite He' in Ha, He.
      destruct (P v' Hv' Ha) as [Ho _]. destruct (image_page v Hv Hin) as (_ & _ & Hav & _).
      rewrite He in Hav. by apply (owned_not_avail s0 _ Ho). }
    intros v v' Hv Hv' Ha Ha' He. destruct (Hdec v) as [Hin | Hn], (Hdec v') as [Hin' | Hn'].
    + by apply (im_inj _ _ _ _ Him).
    + by destruct (Hmix v v' Hv Hv' Hin Hn' Ha').
    + by destruct (Hmix v' v Hv' Hv Hin' Hn Ha).
    + pose proof (Hout v Hv Hn Ha) as E1. pose proof (Hout v' Hv' Hn' Ha') as E2.
      rewrite E1 in Ha, He. rewrite E2 in Ha', He. by apply I.
Qed.

(** Bytes of kernel memory below the allocatable pages have not changed. *)
Lemma image_low x : kready s0 -> pt_wf s0 pt -> x < start_page s0 ->
  load8 (mem s) x = load8 (mem s0) x.
Proof.
  intros Hr Hwf Hx. apply (ex_mem _ _ _ _ (im_ext _ _ _ _ Him)).
  - intros t Ht. destruct (table_owned s0 pt t Hwf Ht) as (_ & Hst & _). unfold in_page. lia.
  - intros b Hb. pose proof (avail_start s0 b Hr Hb). unfold in_page. lia.
Qed.

(** Mapping more pages above. *)
Lemma image_grow hi' flags s' : 0 <= flags < 1024 -> USER_BASE <= hi <= hi' -> hi' <= U32 ->
  grown pt hi hi' (Z.lor (Z.lor PTE_R PTE_U) flags) s s' -> image pt hi' s0 s'.
Proof.
  intros Hf Hle Hend Hg. pose proof (ru_flags flags Hf) as Hrf.
  pose proof (im_ext _ _ _ _ Him) as Ex. pose proof (gr_ext _ _ _ _ _ _ Hg) as Ex'.
  assert (Hold : forall v, 0 <= v < U32 -> v < hi -> pte_at (mem s') pt v = pte_at (mem s) pt v).
  { intros v Hv Hlt. apply (gr_kept _ _ _ _ _ _ Hg); [done | lia]. }
  assert (Havs : forall b, avail s b -> avail s0 b) by (intros b Hb; by apply (ex_avail _ _ _ _ Ex) in Hb as []).
  split.
  - eapply pt_ext_trans; [exact Ex | exact Ex' |]. intros b. unfold pages, image_range. split.
    + intros (v & Hv & Hin & Hval & ->). destruct (decide (v < hi)).
      * left. rewrite Hold in * by lia. exists v. split_and!; (done || lia).
      * right. exists v. split_and!; (done || lia).
    + intros [(v & Hv & Hin & Hval & ->) | (v & Hv & Hin & Hval & ->)].
      * exists v. rewrite Hold by lia. split_and!; (done || lia).
      * exists v. split_and!; (done || lia).
  - intros v Hv Hd. rewrite (gr_kept _ _ _ _ _ _ Hg) by lia. apply (im_kept _ _ _ _ Him); [done | lia].
  - intros v Hv Hin. unfold image_range in Hin. destruct (decide (v < hi)).
    + rewrite Hold by lia.
      destruct (im_page _ _ _ _ Him v Hv) as (p & fl & He & Hfl & Ha & Ho & Hnt); [unfold image_range; lia |].
      exists p, fl. split_and!; try done; try lia; [by apply (ex_owned _ _ _ _ Ex') |].
      eapply ex_not_table; [exact Ex' | apply Ex | exact Hnt | exact Ho].
    + destruct (gr_page _ _ _ _ _ _ Hg v Hv) as (p & He & Ha & Ho & Hnt & _); [lia |].
      exists p, flags. split_and!; try done; try lia. auto.
  - intros v v' Hv Hv' Hin Hin' He. unfold image_range in *.
    assert (Hnew : forall v, 0 <= v < U32 -> hi <= v < hi' -> exists p, avail s p /\ ram_page p /\
      pte_at (mem s') pt v = mk_pte p (Z.lor (Z.lor PTE_R PTE_U) flags) /\ PTE2PA (pte_at (mem s') pt v) = p).
    { intros w Hw Hwin. destruct (gr_page _ _ _ _ _ _ Hg w Hw Hwin) as (p & Hp & Ha & _).
      exists p. rewrite Hp. pose proof (avail_ram _ _ Ha).
      destruct (mk_pte_ram p _ H Hrf). split_and!; done. }
    assert (Hne : forall v v', 0 <= v < U32 -> 0 <= v' < U32 -> image_range hi v -> hi <= v' < hi' ->
      PTE2PA (pte_at (mem s) pt v) <> PTE2PA (pte_at (mem s') pt v')).
    { intros w w' Hw Hw' Hwi Hwi' Hq. destruct (image_page w Hw Hwi) as (_ & _ & _ & Ho & _).
      destruct (Hnew w' Hw' Hwi') as (p & Ha & _ & _ & Hp). rewrite Hq, Hp in Ho.
      by apply (owned_not_avail s p). }
    destruct (decide (v < hi)), (decide (v' < hi)).
    + rewrite !Hold in He by lia. apply (im_inj _ _ _ _ Him); unfold image_range; (done || lia).
    + rewrite Hold in He by lia. destruct (Hne v v'); unfold image_range; (done || lia).
    + rewrite (Hold v') in He by lia. destruct (Hne v' v); unfold image_range; (done || lia).
    + destruct (Hnew v Hv) as (p & _ & _ & Hp & Hpa); [lia |].
      destruct (Hnew v' Hv') as (p' & _ & _ & Hp' & Hpa'); [lia |].
      apply (gr_inj _ _ _ _ _ _ Hg); try done; try lia. congruence.
Qed.
End Image.

(** A growth that failed leaves the image. *)
Lemma image_regrown pt hi s0 s s' : image pt hi s0 s -> regrown pt s s' -> image pt hi s0 s'.
Proof.
  intros Him [Ex' Hp]. pose proof (im_ext _ _ _ _ Him) as Ex.
  assert (Hin : forall v, 0 <= v < U32 -> image_range hi v -> pte_at (mem s') pt v = pte_at (mem s) pt v).
  { intros v Hv Hi. apply (Hp v Hv). by apply (image_page _ _ _ _ Him). }
  split.
  - eapply pt_ext_trans; [exact Ex | exact Ex' |]. intros b. split.
    + intros (v & Hv & Hi & Hval & ->). left. rewrite Hin in * by done. by exists v.
    + intros [(v & Hv & Hi & Hval & ->) | []]. exists v. by rewrite Hin.
  - intros v Hv Hd. eapply same_entry_trans; [by apply (im_kept _ _ _ _ Him) |]. by apply Hp.
  - intros v Hv Hi. rewrite Hin by done.
    destruct (im_page _ _ _ _ Him v Hv Hi) as (p & fl & He & Hfl & Ha & Ho & Hnt).
    exists p, fl. split_and!; try done; try lia; [by apply (ex_owned _ _ _ _ Ex') |].
    eapply ex_not_table; [exact Ex' | apply Ex | exact Hnt | exact Ho].
  - intros v v' Hv Hv' Hi Hi'. rewrite !Hin by done. by apply (im_inj _ _ _ _ Him).
Qed.

(** Writing bytes of the image's pages leaves the image. *)
Lemma image_write pt hi s0 s m' : image pt hi s0 s -> same_tables (mem s) m' pt ->
  (forall a, (forall v, 0 <= v < U32 -> image_range hi v ->
     ~ in_page (PTE2PA (pte_at (mem s) pt v)) a) -> load8 m' a = load8 (mem s) a) ->
  image pt hi s0 (set_mem m' s).
Proof.
  intros Him Hst Hm. pose proof (im_ext _ _ _ _ Him) as [F R W T N O A Mm].
  pose proof (fun v => same_tables_pte (mem s) m' pt v Hst) as Hp.
  pose proof (fun t => same_tables_table (mem s) m' pt t Hst) as Ht.
  assert (Hpg : forall b, pages pt (image_range hi) (set_mem m' s) b <-> pages pt (image_range hi) s b).
  { intros b. unfold pages. cbn [mem set_mem]. setoid_rewrite Hp. done. }
  split; cbn [mem set_mem].
  - split; cbn [mem set_mem].
    + by apply kframe_set_mem.
    + destruct R as [[R1 R2] R3 R4]. by split.
    + by apply same_tables_wf.
    + intros t Htt. apply Ht. auto.
    + intros t Htt. apply Ht in Htt. auto.
    + exact O.
    + intros b. rewrite Hpg, Ht. apply A.
    + intros a Hta Hva. rewrite Hm; [by apply Mm |]. intros v Hv Hi. apply Hva.
      by apply (image_page _ _ _ _ Him).
  - intros v Hv Hd. rewrite Hp. by apply (im_kept _ _ _ _ Him).
  - intros v Hv Hi. rewrite Hp.
    destruct (im_page _ _ _ _ Him v Hv Hi) as (p & fl & He & Hfl & Ha & Ho & Hnt).
    exists p, fl. rewrite Ht. split_and!; (done || lia).
  - intros v v' Hv Hv' Hi Hi'. rewrite !Hp. by apply (im_inj _ _ _ _ Him).
Qed.

(** * Segments in place *)

Definition ubyte (m : gmap Z Z) (pt v : Z) : Z := load8 m (user_pa m pt 0 v).

(** [prg]'s memory is mapped with its permissions and holds the bytes of the
    file, read in [m0], followed by zeros. *)
Definition seg_loaded (m0 m : gmap Z Z) (pt img : Z) (prg : prg_hdr) : Prop :=
  forall j, 0 <= j < p_memsz prg ->
    let v := p_va prg + j in
    allows (pte_at m pt v) 0 = true
    /\ PTE_FLAGS (pte_at m pt v) = Z.lor (Z.lor (Z.lor PTE_R PTE_U) (seg_perm (p_flags prg))) PTE_V
    /\ ubyte m pt v = if j <? p_filesz prg then load8 m0 (img + p_offset prg + j) else 0.

Lemma seg_loaded_ext m0 m m' pt img prg :
  (forall v, p_va prg <= v < p_va prg + p_memsz prg ->
     pte_at m' pt v = pte_at m pt v /\ ubyte m' pt v = ubyte m pt v) ->
  seg_loaded m0 m pt img prg -> seg_loaded m0 m' pt img prg.
Proof.
  intros H Hs j Hj v. destruct (H v) as [-> ->]; [unfold v; lia |]. by apply Hs.
Qed.

(** Growing the image does not disturb what is below. *)
Lemma ubyte_grown pt hi hi' flags s0 s s' v : image pt hi s0 s -> uspace_ok s0 pt ->
  grown pt hi hi' flags s s' -> 0 <= v < U32 -> image_range hi v ->
  pte_at (mem s') pt v = pte_at (mem s) pt v /\ ubyte (mem s') pt v = ubyte (mem s) pt v.
Proof.
  intros Him Hus0 Hg Hv Hi. pose proof (image_uspace _ _ _ _ Him Hus0) as Hus.
  destruct (image_page _ _ _ _ Him v Hv Hi) as (Ha & _ & _ & Ho & Hnt).
  assert (He : pte_at (mem s') pt v = pte_at (mem s) pt v).
  { apply (gr_kept _ _ _ _ _ _ Hg); [done |]. unfold image_range in Hi. lia. }
  split; [done |]. unfold ubyte.
  assert (Hu : user_pa (mem s') pt 0 v = user_pa (mem s) pt 0 v) by (unfold user_pa; by rewrite He).
  rewrite Hu. eapply (ex_page _ _ _ _ _ _ (gr_ext _ _ _ _ _ _ Hg)); [apply Hus | exact Ho | exact Hnt |].
  apply (user_pa_page s pt Hus 0 v Hv). unfold user_pa. rewrite Ha. destruct Ho as ([Hal Hr] & _).
  rewrite u32_small by (unfold PAGE_SIZE, MEM_START, MEM_END, U32 in *; zlia).
  unfold MEM_START, PAGE_SIZE in *. zlia.
Qed.

(** An address of the image translates. *)
Lemma image_user_pa pt hi s0 s v : image pt hi s0 s -> 0 <= v < U32 -> image_range hi v ->
  user_pa (mem s) pt 0 v <> 0.
Proof.
  intros Him Hv Hi. destruct (image_page _ _ _ _ Him v Hv Hi) as (Ha & _ & _ & (([Hal Hr] & _) & _)).
  unfold user_pa. rewrite Ha.
  rewrite u32_small by (unfold PAGE_SIZE, MEM_START, MEM_END, U32 in *; zlia).
  unfold MEM_START, PAGE_SIZE in *. zlia.
Qed.

Lemma seg_perm_range f : 0 <= seg_perm f < 1024.
Proof. unfold seg_perm. repeat destruct (_ =? _); done. Qed.

(** What the checks on a segment guarantee. *)
Lemma bad_segment_ok prg len size : bad_segment prg len size = false ->
  0 <= p_va prg < U32 -> 0 <= p_offset prg < U32 -> 0 <= p_filesz prg < U32 -> 0 <= p_memsz prg < U32 ->
  p_filesz prg <= p_memsz prg /\ p_offset prg + p_filesz prg <= len /\ p_va prg mod PAGE_SIZE = 0
  /\ size <= p_va prg /\ p_va prg + p_memsz prg <= UART_0
  /\ p_va prg +w p_memsz prg = p_va prg + p_memsz prg.
Proof.
  unfold bad_segment. intros Hb Hv Ho Hf Hm.
  repeat (apply orb_false_elim in Hb as [Hb ?]). zbool. unfold UART_0 in *.
  assert (p_offset prg +w p_filesz prg = p_offset prg + p_filesz prg) by (u32lia).
  assert (p_va prg +w p_memsz prg = p_va prg + p_memsz prg) by (u32lia).
  split_and!; (done || lia).
Qed.

Section Loading.
Context (pt img len : Z) (s0 : kstate).
Context (Hr0 : kready s0) (Hus0 : uspace_ok s0 pt) (Himg : 0 <= img) (Hlen : 0 <= len).
Context (Hlow : img + len <= start_page s0).
Context (Hun0 : forall v, USER_BASE <= v < UART_0 -> valid (pte_at (mem s0) pt v) = false).

Lemma load_bounds : 0 <= len /\ img + len < U32.
Proof. destruct Hr0 as [[Hs _] _ _]. unfold MEM_START, MEM_END, U32 in *. lia. Qed.

(** One segment: mapped, or the file is given up. *)
Lemma wp_segment_map hi s size prg : image pt hi s0 s -> hi = PGROUNDUP size ->
  USER_BASE <= size -> size <= p_va prg -> p_va prg + p_memsz prg <= UART_0 -> 0 <= p_memsz prg ->
  wp (uvmalloc pt size (p_va prg + p_memsz prg) (seg_perm (p_flags prg))) (fun r s' =>
    r = p_va prg + p_memsz prg /\ grown pt hi (PGROUNDUP (p_va prg + p_memsz prg))
      (Z.lor (Z.lor PTE_R PTE_U) (seg_perm (p_flags prg))) s s'
    \/ r = 0 /\ image pt hi s0 s' /\
       ran_out pt ((PGROUNDUP (p_va prg + p_memsz prg) - USER_BASE) / PAGE_SIZE) s0) s.
Proof.
  intros Him -> Hs1 Hs2 Hend Hm. pose proof (im_ext _ _ _ _ Him) as Ex.
  unfold USER_BASE, UART_0 in *.
  eapply wp_mono; [apply wp_uvmalloc; [apply Ex | apply Ex | lia | lia | apply seg_perm_range |
    unfold PAGE_SIZE, U32; lia |] |].
  - intros v Hv Hin. destruct (PGROUNDUP_bounds (p_va prg + p_memsz prg)) as [Ha Hb];
      [lia | unfold PAGE_SIZE, U32; lia |].
    destruct (PGROUNDUP_bounds size) as [Ha' Hb']; [lia | unfold PAGE_SIZE, U32; lia |].
    destruct (im_kept _ _ _ _ Him v Hv) as [-> _]; [lia |]. apply Hun0. zlia.
  - intros r s' [[-> Hg] | (-> & Hg & Hout)]; [by left | right]. split_and!; [done | by eapply image_regrown |].
    destruct (PGROUNDUP_bounds size) as [Ha Hb]; [lia | unfold PAGE_SIZE, U32; lia |].
    assert (Hfew : few ((PGROUNDUP size - 0x1000) / PAGE_SIZE) (pages pt (image_range (PGROUNDUP size)) s))
      by (apply few_pages; [done | done | zlia]).
    eapply ran_out_mono; [apply (ran_out_ext _ _ _ _ _ _ Ex Hfew Hout) | unfold USER_BASE, PAGE_SIZE; zlia].
Qed.

(** Its bytes are then copied without fault. *)
Lemma wp_segment_copy hi hi' s s1 prg : image pt hi s0 s -> USER_BASE <= hi <= p_va prg ->
  hi' = PGROUNDUP (p_va prg + p_memsz prg) -> p_va prg + p_memsz prg <= UART_0 ->
  0 <= p_filesz prg <= p_memsz prg -> 0 <= p_offset prg -> p_offset prg + p_filesz prg <= len ->
  grown pt hi hi' (Z.lor (Z.lor PTE_R PTE_U) (seg_perm (p_flags prg))) s s1 ->
  wp (load_segment pt (p_va prg) img (p_offset prg) (p_filesz prg)) (fun r s' => r = 0 /\
    image pt hi' s0 s' /\ seg_loaded (mem s0) (mem s') pt img prg /\
    forall v, image_range hi v ->
      pte_at (mem s') pt v = pte_at (mem s) pt v /\ ubyte (mem s') pt v = ubyte (mem s) pt v) s1.
Proof.
  intros Him Hhi -> Hend Hfz Ho Hol Hg. pose proof load_bounds as [_ Hlb].
  pose proof (seg_perm_range (p_flags prg)) as Hpf. unfold USER_BASE, UART_0 in *.
  destruct (PGROUNDUP_bounds (p_va prg + p_memsz prg)) as [Ha Hb];
    [lia | unfold PAGE_SIZE, U32; lia |]. set (hi' := PGROUNDUP (p_va prg + p_memsz prg)) in *.
  assert (Him1 : image pt hi' s0 s1).
  { apply (image_grow pt hi s0 s Him hi' (seg_perm (p_flags prg))); try done;
      unfold USER_BASE, U32; lia. }
  pose proof (image_uspace _ _ _ _ Him1 Hus0) as Hus1. pose proof (im_ext _ _ _ _ Him1) as Ex1.
  assert (Hrng : forall j, 0 <= j < p_memsz prg -> 0 <= p_va prg + j < U32 /\ image_range hi' (p_va prg + j)).
  { intros j Hj. unfold image_range, USER_BASE, U32. lia. }
  eapply wp_mono; [apply wp_load_segment; try done; try (unfold U32 in *; lia) |].
  { apply low_kbuf; [apply Ex1 | done | lia | lia |].
    rewrite (kf_start _ _ (ex_frame _ _ _ _ Ex1)). lia. }
  intros r s' (m' & k & -> & [Hk Hr] & Hw).
  assert (Hok : r = 0 /\ k = p_filesz prg).
  { destruct Hr as [? | (_ & Hlt & Hz)]; [done |]. destruct (Hrng k) as [Hv Hi]; [lia |].
    by destruct (image_user_pa pt hi' s0 s1 (p_va prg + k)). }
  destruct Hok as [-> ->]. pose proof Hw as [WU WF].
  assert (Hst : same_tables (mem s1) m' pt).
  { apply (written_tables s1 m' pt 0 (p_va prg) (img + p_offset prg) (p_filesz prg));
      (done || unfold U32; lia). }
  assert (Hpte : forall v, pte_at m' pt v = pte_at (mem s1) pt v) by (intros; by apply same_tables_pte).
  assert (Hupa : forall v, user_pa m' pt 0 v = user_pa (mem s1) pt 0 v)
    by (intros; by apply same_tables_user_pa).
  assert (Hkeep : forall v, 0 <= v < U32 -> image_range hi' v ->
    v < p_va prg \/ p_va prg + p_filesz prg <= v -> ubyte m' pt v = ubyte (mem s1) pt v).
  { intros v Hv Hi Hd. unfold ubyte. rewrite Hupa. apply WF. intros j Hj He.
    apply (user_pa_inj s1 pt Hus1) in He; [lia | done | apply Hrng; lia | |].
    - by eapply image_user_pa.
    - apply WU. lia. }
  split; [done |]. split_and!.
  - apply image_write; [done | done |]. intros a Hna. apply WF. intros j Hj ->.
    destruct (Hrng j) as [Hv Hi]; [lia |]. apply (Hna (p_va prg + j) Hv Hi).
    by apply (user_pa_page s1 pt Hus1 0 (p_va prg + j) Hv), WU.
  - intros j Hj v. destruct (Hrng j Hj) as [Hv Hi]. fold v in Hv, Hi. cbn [mem set_mem].
    rewrite Hpte. destruct (image_page _ _ _ _ Him1 v Hv Hi) as (Hal & _).
    destruct (gr_page _ _ _ _ _ _ Hg v Hv) as (p & Hp & Hav & _ & _ & Hz); [unfold v; lia |].
    split_and!; [done | |].
    + pose proof (avail_ram _ _ Hav) as [Hpa Hpr]. rewrite Hp.
      apply mk_pte_facts; [done | unfold MEM_START, MEM_END, U32 in *; lia | by apply ru_flags].
    + zcase.
      * unfold ubyte. rewrite Hupa. unfold v. destruct (WU j ltac:(lia)) as [_ ->].
        apply (image_low pt hi' s0 s1 Him1); [done | apply Hus0 | lia].
      * rewrite Hkeep by (done || unfold v; lia). unfold ubyte. apply Hz.
        destruct (user_pa_page s1 pt Hus1 0 v Hv) as (_ & _ & _ & Hin); [by eapply image_user_pa |].
        rewrite Hp in Hin at 1.
        by rewrite (proj1 (mk_pte_ram p _ (avail_ram _ _ Hav) (ru_flags _ Hpf))) in Hin.
  - intros v Hi. cbn [mem set_mem]. rewrite Hpte.
    assert (Hv : 0 <= v < U32) by (unfold image_range, USER_BASE, U32 in *; lia).
    destruct (ubyte_grown pt hi hi' _ s0 s s1 v Him Hus0 Hg Hv Hi) as [H1 H2].
    split; [done |]. rewrite Hkeep; [done | done | | left]; unfold image_range in *; lia.
Qed.

(** ** The loop over the program headers *)

Context (phoff : Z) (Hph : 0 <= phoff <= len) (Hl31 : len < 0x80000000).

(** Header [i] of the file. *)
Definition hdr (i : Z) : prg_hdr :=
  read_prg_hdr (mem s0) (img + (phoff + i * sizeof_prg_hdr)).
Definition loadable (prg : prg_hdr) : Prop := p_type prg = PT_LOAD /\ p_memsz prg <> 0.

(** Headers below [i] are in the file, and their segments are in place. *)
Definition loaded (i size : Z) (s : kstate) : Prop :=
  forall j, 0 <= j < i -> phoff + (j + 1) * sizeof_prg_hdr <= len /\
    (loadable (hdr j) -> USER_BASE <= p_va (hdr j) /\ p_va (hdr j) + p_memsz (hdr j) <= size /\
       p_offset (hdr j) + p_filesz (hdr j) <= len /\ seg_loaded (mem s0) (mem s) pt img (hdr j)).

Lemma hdr_range i : 0 <= p_va (hdr i) < U32 /\ 0 <= p_offset (hdr i) < U32
  /\ 0 <= p_filesz (hdr i) < U32 /\ 0 <= p_memsz (hdr i) < U32.
Proof. unfold hdr, read_prg_hdr. cbn [p_va p_offset p_filesz p_memsz]. split_and!; apply load32_range. Qed.

Lemma hdr_read hi s i : image pt hi s0 s -> phoff + (i + 1) * sizeof_prg_hdr <= len -> 0 <= i ->
  read_prg_hdr (mem s) (img + (phoff + i * sizeof_prg_hdr)) = hdr i.
Proof.
  intros Him Hle Hi. unfold hdr, read_prg_hdr, sizeof_prg_hdr in *.
  f_equal; apply load32_ext; intros b Hb;
    (apply (image_low pt hi s0 s Him); [done | apply Hus0 | lia]).
Qed.

(** What the loader asks of the first [n] headers: they are in the file, and the
    segments they describe are in it, page aligned, in ascending order without
    overlap, and below [top]. *)
Record segments_ok (n top : Z) : Prop := {
  so_file : forall j, 0 <= j < n -> phoff + (j + 1) * sizeof_prg_hdr <= len;
  so_good : forall j, 0 <= j < n -> loadable (hdr j) ->
    p_filesz (hdr j) <= p_memsz (hdr j) /\ p_offset (hdr j) + p_filesz (hdr j) <= len /\
    p_va (hdr j) mod PAGE_SIZE = 0 /\ USER_BASE <= p_va (hdr j) /\ p_va (hdr j) + p_memsz (hdr j) <= top;
  so_order : forall i j, 0 <= i < j -> j < n -> loadable (hdr i) -> loadable (hdr j) ->
    p_va (hdr i) + p_memsz (hdr i) <= p_va (hdr j);
  so_top : USER_BASE <= top <= UART_0
}.

Definition pages_below (top : Z) : Z := (PGROUNDUP top - USER_BASE) / PAGE_SIZE.

(** [size] is where the segments before [i] end. *)
Definition sized (i size : Z) : Prop := size = USER_BASE \/
  exists j, 0 <= j < i /\ loadable (hdr j) /\ size = p_va (hdr j) + p_memsz (hdr j).

Lemma good_segment n top i size : segments_ok n top -> 0 <= i < n -> loadable (hdr i) -> sized i size ->
  bad_segment (hdr i) len size = false.
Proof.
  intros [_ HG HO HT] Hi Hlo Hs. destruct (HG i Hi Hlo) as (G1 & G2 & G3 & G4 & G5).
  destruct (hdr_range i) as (Rv & Ro & Rf & Rm). unfold bad_segment.
  assert (Hsz : size <= p_va (hdr i)).
  { destruct Hs as [-> | (j & Hj & Hlj & ->)]; [done |]. by apply HO; [lia | lia | |]. }
  rewrite (u32_small (p_offset _ + _)), (u32_small (p_va _ + _)) by (unfold UART_0, U32 in *; lia).
  rewrite !orb_false_iff, negb_false_iff. split_and!; lia.
Qed.

Lemma sized_top n top size : segments_ok n top -> sized n size -> PGROUNDUP size <= PGROUNDUP top.
Proof.
  intros Hso Hs. destruct (so_top _ _ Hso) as [T1 T2].
  assert (Hb : USER_BASE <= size <= top).
  { destruct Hs as [-> | (j & Hj & Hlo & ->)]; [lia |]. destruct (so_good _ _ Hso j Hj Hlo) as (_ & _ & _ & ? & ?).
    destruct (hdr_range j) as (_ & _ & _ & ?). lia. }
  destruct (PGROUNDUP_bounds size); [unfold USER_BASE in *; lia | unfold PAGE_SIZE, U32, UART_0 in *; lia |].
  destruct (PGROUNDUP_bounds top); [unfold USER_BASE in *; lia | unfold PAGE_SIZE, U32, UART_0 in *; lia |]. zlia.
Qed.

Definition load_post (n : Z) (res : Z * Z * Z) (s : kstate) : Prop :=
  let '(r, size, sz) := res in
  image pt sz s0 s /\ sz = PGROUNDUP size /\ USER_BASE <= size <= UART_0 /\
  (r = -1 /\ (forall top, segments_ok n top -> ran_out pt (pages_below top) s0) \/
   r = 0 /\ loaded n size s /\ sized n size).

Lemma wp_load_elf_loop k : forall s i size, 0 <= i -> i + Z.of_nat k <= 65536 ->
  image pt (PGROUNDUP size) s0 s -> USER_BASE <= size <= UART_0 -> loaded i size s -> sized i size ->
  wp (load_elf_loop k pt img len phoff i size (PGROUNDUP size)) (load_post (i + Z.of_nat k)) s.
Proof.
  induction k as [|k IH]; intros s i size Hi Hk Him Hsz Hld Hsd; cbn [load_elf_loop].
  { rewrite Z.add_0_r. apply wp_ret. split_and!; try done; try lia. by right. }
  assert (Hgive : forall s', image pt (PGROUNDUP size) s0 s' ->
    (forall top, segments_ok (i + Z.of_nat (S k)) top -> ran_out pt (pages_below top) s0) ->
    load_post (i + Z.of_nat (S k)) (-1, size, PGROUNDUP size) s').
  { intros s' Him' Hout. split_and!; try done; try lia. by left. }
  assert (Hoff : phoff +w i * sizeof_prg_hdr = phoff + i * sizeof_prg_hdr)
    by (apply u32_small; unfold sizeof_prg_hdr, U32; lia).
  assert (Hoff2 : phoff + i * sizeof_prg_hdr +w sizeof_prg_hdr = phoff + (i + 1) * sizeof_prg_hdr).
  { rewrite u32_small; [lia | unfold sizeof_prg_hdr, U32; lia]. }
  rewrite Hoff, Hoff2. destruct (_ || _) eqn:E; zbool.
  { apply wp_ret, Hgive; [done |]. intros top Hso. pose proof (so_file _ _ Hso i ltac:(lia)). unfold sizeof_prg_hdr in *. lia. }
  pose proof load_bounds as [_ Hlb].
  rewrite (u32_small (img + _)) by (unfold sizeof_prg_hdr in *; lia).
  apply wp_bind, wp_gets. rewrite (hdr_read _ s i Him) by (done || lia). set (prg := hdr i).
  replace (i + Z.of_nat (S k)) with (i + 1 + Z.of_nat k) in * by lia.
  assert (Hnext : forall s' size', image pt (PGROUNDUP size') s0 s' -> USER_BASE <= size' <= UART_0 ->
    size <= size' ->
    (forall j, 0 <= j < i -> loadable (hdr j) -> seg_loaded (mem s0) (mem s) pt img (hdr j) ->
       USER_BASE <= p_va (hdr j) -> p_va (hdr j) + p_memsz (hdr j) <= size ->
       seg_loaded (mem s0) (mem s') pt img (hdr j)) ->
    sized (i + 1) size' ->
    (loadable prg -> USER_BASE <= p_va prg /\ p_va prg + p_memsz prg <= size' /\
       p_offset prg + p_filesz prg <= len /\ seg_loaded (mem s0) (mem s') pt img prg) ->
    wp (load_elf_loop k pt img len phoff (i + 1) size' (PGROUNDUP size')) (load_post (i + 1 + Z.of_nat k)) s').
  { intros s' size' Him' Hsz' Hle Hkeep Hsd' Hnew. apply IH; try lia; [done | | done].
    intros j Hj. destruct (decide (j = i)) as [-> | Hne]; [done |].
    destruct (Hld j) as [H1 H2]; [lia |]. split; [done |]. intros Hlo.
    destruct (H2 Hlo) as (H3 & H4 & Hio & H5). split_and!; [done | lia | done |]. apply Hkeep; (done || lia). }
  assert (Hstay : sized (i + 1) size).
  { destruct Hsd as [| (j & Hj & Hrest)]; [by left | right]. exists j. split; [lia | done]. }
  destruct (negb (p_type prg =? PT_LOAD)) eqn:Et; zbool.
  { apply Hnext; try done; try lia. by intros [? _]. }
  destruct (p_memsz prg =? 0) eqn:Em; zbool.
  { apply Hnext; try done; try lia. by intros [_ ?]. }
  destruct (bad_segment prg len size) eqn:Eb.
  { apply wp_ret, Hgive; [done |]. intros top Hso.
    pose proof (good_segment _ top i size Hso ltac:(lia) ltac:(done) Hsd) as Hgood. fold prg in Hgood. congruence. }
  destruct (hdr_range i) as (Rv & Ro & Rf & Rm). fold prg in Rv, Ro, Rf, Rm.
  destruct (bad_segment_ok prg len size Eb Rv Ro Rf Rm) as (Hb1 & Hb2 & Hb3 & Hb4 & Hb5 & ->).
  assert (Hhi : PGROUNDUP size <= p_va prg /\ USER_BASE <= PGROUNDUP size /\ size <= PGROUNDUP size).
  { destruct (PGROUNDUP_bounds size); unfold PAGE_SIZE, U32, USER_BASE, UART_0 in *; [lia | lia | zlia]. }
  apply wp_bind. eapply wp_mono;
    [apply (wp_segment_map (PGROUNDUP size) s size prg); (done || lia) |].
  intros r s1 [[-> Hg] | (-> & Him1 & Hout)].
  2: { apply wp_ret, Hgive; [done |]. intros top Hso.
       destruct (so_good _ _ Hso i ltac:(lia) ltac:(done)) as (_ & _ & _ & _ & Htop). fold prg in Htop.
       destruct (so_top _ _ Hso). eapply ran_out_mono; [exact Hout |]. unfold pages_below.
       destruct (PGROUNDUP_bounds (p_va prg + p_memsz prg)); [lia | unfold PAGE_SIZE, U32, UART_0 in *; lia |].
       destruct (PGROUNDUP_bounds top); unfold PAGE_SIZE, U32, USER_BASE, UART_0 in *; [lia | lia | zlia]. }
  destruct (_ =? 0) eqn:Ez; zbool; [unfold USER_BASE in *; lia |].
  apply wp_bind. eapply wp_mono;
    [apply (wp_segment_copy (PGROUNDUP size) (PGROUNDUP (p_va prg + p_memsz prg)) s s1 prg Him);
      (done || lia) |].
  intros r s2 (-> & Him2 & Hseg & Hsame). cbn [Z.ltb Z.compare].
  apply Hnext; try done; try lia.
  - intros j Hj Hlo Hs Hv0 Hv1. eapply seg_loaded_ext; [| exact Hs].
    intros v Hv. apply Hsame. unfold image_range. lia.
  - right. exists i. split_and!; [lia | lia | by split | done].
  - intros _. split_and!; [lia | lia | done | done].
Qed.
End Loading.

(** * A small program

    An ELF file of 88 bytes at the start of RAM: one segment for address
    0x1000 with four bytes of code and eight bytes of memory. *)
Fixpoint fill (m : gmap Z Z) (a : Z) (bs : list Z) : gmap Z Z :=
  match bs with [] => m | b :: bs => fill (<[a := b]> m) (a + 1) bs end.

Definition le32 (z : Z) : list Z := [u8 z; u8 (z / 256); u8 (z / 65536); u8 (z / 16777216)].
Definition le16 (z : Z) : list Z := [u8 z; u8 (z / 256)].

Definition demo_elf_hdr (phoff : Z) : list Z :=
  le32 ELF_MAGIC ++ [ELFCLASS32] ++ replicate 11 0 ++ le16 ET_EXEC ++ le16 EM_RISCV ++ le32 1
  ++ le32 0x1000 ++ le32 phoff ++ le32 0 ++ le32 0 ++ le16 52 ++ le16 32 ++ le16 1
  ++ le16 0 ++ le16 0 ++ le16 0.
Definition demo_prg_hdr (type filesz memsz : Z) : list Z :=
  le32 type ++ le32 84 ++ le32 0x1000 ++ le32 0 ++ le32 filesz ++ le32 memsz ++ le32 5 ++ le32 4096.

Definition demo_img : Z := 0x80000000.
Definition demo_file : list Z := demo_elf_hdr 52 ++ demo_prg_hdr 1 4 8 ++ [0x13; 0; 0; 0].
Definition elf_demo : kstate := set_mem (fill ∅ demo_img demo_file) two_pages.

Lemma fill_above bs : forall m a x, a + Z.of_nat (length bs) <= x -> load8 (fill m a bs) x = load8 m x.
Proof.
  induction bs as [|b bs IH]; intros m a x Hx; cbn [fill length] in *; [done |].
  rewrite IH by lia. unfold load8. by rewrite get0_insert_ne by lia.
Qed.

Lemma elf_demo_l1 i : 0 <= i -> l1 (mem elf_demo) demo_pt i = 0.
Proof.
  intros Hi. assert (Hl : Z.of_nat (length demo_file) = 88) by reflexivity.
  assert (H0 : forall x, 0x80000058 <= x -> load8 (mem elf_demo) x = 0).
  { intros x Hx. unfold elf_demo, demo_img. cbn [mem set_mem].
    rewrite fill_above by (rewrite Hl; lia). unfold load8, get0. by rewrite lookup_empty. }
  unfold l1, load32, demo_pt. rewrite !H0 by lia. reflexivity.
Qed.

Lemma elf_demo_ready : kready elf_demo.
Proof. destruct two_pages_ready as [[A1 A2] L P]. by split. Qed.

Lemma elf_demo_unmapped v : pte_at (mem elf_demo) demo_pt v = 0.
Proof. unfold pte_at. rewrite elf_demo_l1 by apply vpn1_range. by rewrite valid_0. Qed.

Lemma elf_demo_uspace : uspace_ok elf_demo demo_pt.
Proof.
  split; [split | |].
  - vm_compute. intuition congruence.
  - intros i Hi Hv. rewrite elf_demo_l1 in Hv by lia. discriminate Hv.
  - intros i j Hi _ Hv. rewrite elf_demo_l1 in Hv by lia. discriminate Hv.
  - intros v Hv Ha. rewrite elf_demo_unmapped, allows_0 in Ha. discriminate Ha.
  - intros v v' Hv _ Ha. rewrite elf_demo_unmapped, allows_0 in Ha. discriminate Ha.
Qed.

(** * Properties *)

(** A RISC-V executable of [len] bytes whose image ends at or below [top]. *)
Record executable (s : kstate) (img len top : Z) : Prop := {
  xe_len : sizeof_elf_hdr <= len;
  xe_hdr : bad_elf_hdr (read_elf_hdr (mem s) img) = false;
  xe_segs : segments_ok img len s (e_phoff (read_elf_hdr (mem s) img)) (e_phnum (read_elf_hdr (mem s) img)) top
}.

Lemma pages_below_nonneg s img len top : executable s img len top -> 0 <= pages_below top.
Proof.
  intros [_ _ Hx]. destruct (so_top _ _ _ _ _ _ Hx) as [T1 T2]. unfold pages_below.
  destruct (PGROUNDUP_bounds top); [unfold USER_BASE in *; lia | unfold PAGE_SIZE, U32, UART_0 in *; lia |].
  apply Z.div_pos; [lia | done].
Qed.

Lemma wp_load_elf pt img len entry0 s : kready s -> uspace_ok s pt ->
  0 <= img -> 0 <= len < 0x80000000 -> img + len <= start_page s ->
  (forall v, USER_BASE <= v < UART_0 -> valid (pte_at (mem s) pt v) = false) ->
  let elf := read_elf_hdr (mem s) img in e_phoff elf <= len ->
  wp (load_elf pt img len entry0) (fun res s' => let '(r, entry, sz) := res in
    image pt sz s s' /\ USER_BASE <= sz <= UART_0 /\ sz mod PAGE_SIZE = 0 /\
    (r = -1 /\ entry = entry0 /\ (forall top, executable s img len top -> ran_out pt (pages_below top) s) \/
     r = 0 /\ entry = e_entry elf /\ (forall top, executable s img len top -> sz <= PGROUNDUP top) /\ bad_elf_hdr elf = false /\
     forall j, 0 <= j < e_phnum elf ->
       let prg := hdr img s (e_phoff elf) j in
       e_phoff elf + (j + 1) * sizeof_prg_hdr <= len /\
       (loadable prg -> p_va prg + p_memsz prg <= sz /\ p_offset prg + p_filesz prg <= len /\
          seg_loaded (mem s) (mem s') pt img prg))) s.
Proof.
  intros Hr Hus Himg Hlen Hlow Hun elf Hph. unfold load_elf.
  pose proof (image_none pt s Hr (us_wf _ _ Hus)) as Him.
  assert (Hbase : forall (P : Prop), P -> image pt USER_BASE s s /\ USER_BASE <= USER_BASE <= UART_0 /\
    USER_BASE mod PAGE_SIZE = 0 /\ P).
  { intros P HP. split_and!; done. }
  destruct (len <? sizeof_elf_hdr) eqn:El; zbool.
  { apply wp_ret, Hbase. left. split_and!; [done | done |]. intros top [Hx _ _]. lia. }
  apply wp_bind, wp_gets. fold elf.
  destruct (bad_elf_hdr elf) eqn:Eb.
  { apply wp_ret, Hbase. left. split_and!; [done | done |]. intros top [_ Hx _]. unfold elf in Eb. congruence. }
  assert (Hn : 0 <= e_phnum elf < 65536).
  { unfold elf, read_elf_hdr. cbn [e_phnum]. unfold load16.
    pose proof (load8_range (mem s) (img + 44)). pose proof (load8_range (mem s) (img + 44 + 1)). lia. }
  assert (Hp0 : 0 <= e_phoff elf) by apply load32_range.
  apply wp_bind. change USER_BASE with (PGROUNDUP USER_BASE) at 2.
  eapply wp_mono; [apply (wp_load_elf_loop pt img len s); try done; try lia |].
  { intros j Hj. lia. }
  { by left. }
  intros [[r size] sz] s' (Him' & -> & Hsz & Hres). rewrite Z.add_0_l, Z2Nat.id in Hres by lia.
  destruct (PGROUNDUP_bounds size) as [Ha Hb]; [unfold USER_BASE in *; lia |
    unfold UART_0, PAGE_SIZE, U32 in *; lia |].
  assert (Hsz' : USER_BASE <= PGROUNDUP size <= UART_0) by (unfold USER_BASE, UART_0 in *; zlia).
  destruct Hres as [[-> Hout] | (-> & Hld & Hsd)]; cbn [Z.ltb Z.compare]; apply wp_ret; (split; [done |]);
    (split; [done |]); (split; [done |]).
  - left. split_and!; [done | done |]. intros top [_ _ Hx]. by apply Hout.
  - right. split_and!; [done | done | | done |].
    { intros top [_ _ Hx]. by apply (sized_top img len s (e_phoff elf) (e_phnum elf)). }
    intros j Hj. destruct (Hld j Hj) as [H1 H2].
    split; [done |]. intros Hlo. destruct (H2 Hlo) as (_ & H3 & H4 & H5). split_and!; [lia | done | done].
Qed.

(** C20 (program loading): for any file in the kernel's image whose header
    table starts inside it, [load_elf] returns without panicking, however
    malformed the file is; the address space then differs from the one before
    only in fresh pages mapped in [USER_BASE, *sz), which ends below the UART.
    It reports 0 only for a RISC-V executable all of whose program headers are
    inside the file, and then every loadable segment is mapped, with the
    permissions its flags ask for, and holds the file's bytes followed by
    zeros; [*entry] is the file's entry point. Otherwise it reports -1; for a
    well-formed executable, whose segments are in the file, aligned and in
    ascending order below the UART, only if there were no more pages than those
    of the image and of a page table. *)
Theorem load_elf_correct pt img len entry0 s : kready s -> uspace_ok s pt ->
  0 <= img -> 0 <= len < 0x80000000 -> img + len <= start_page s ->
  (forall v, USER_BASE <= v < UART_0 -> valid (pte_at (mem s) pt v) = false) ->
  let elf := read_elf_hdr (mem s) img in e_phoff elf <= len ->
  wp (load_elf pt img len entry0) (fun res s' => let '(r, entry, sz) := res in
    image pt sz s s' /\ USER_BASE <= sz <= UART_0 /\ sz mod PAGE_SIZE = 0 /\
    (r = -1 /\ entry = entry0 /\ (forall top, executable s img len top -> scarce (pages_below top + 1025) s) \/
     r = 0 /\ entry = e_entry elf /\ bad_elf_hdr elf = false /\
     forall j, 0 <= j < e_phnum elf ->
       let prg := hdr img s (e_phoff elf) j in
       e_phoff elf + (j + 1) * sizeof_prg_hdr <= len /\
       (loadable prg -> p_va prg + p_memsz prg <= sz /\ p_offset prg + p_filesz prg <= len /\
          seg_loaded (mem s) (mem s') pt img prg))) s.
Proof.
  intros Hr Hus Hi Hl Hlow Hun elf Hph. eapply wp_mono; [by apply wp_load_elf |].
  intros [[r entry] sz] s' (H1 & H2 & H3 & H4). do 3 (split; [done |]).
  destruct H4 as [(H4 & H5 & H6) | (H4 & H5 & _ & H6)]; [left | by right]. split_and!; [done | done |].
  intros top Hx. by eapply ran_out_scarce, H6.
Qed.

Lemma load_elf_correct_witness :
  let elf := read_elf_hdr (mem elf_demo) demo_img in
  wp (load_elf demo_pt demo_img 88 0) (fun res s' => let '(r, entry, sz) := res in
    image demo_pt sz elf_demo s' /\ USER_BASE <= sz <= UART_0 /\ sz mod PAGE_SIZE = 0 /\
    (r = -1 /\ entry = 0 /\ (forall top, executable elf_demo demo_img 88 top -> scarce (pages_below top + 1025) elf_demo) \/
     r = 0 /\ entry = e_entry elf /\ bad_elf_hdr elf = false /\
     forall j, 0 <= j < e_phnum elf ->
       let prg := hdr demo_img elf_demo (e_phoff elf) j in
       e_phoff elf + (j + 1) * sizeof_prg_hdr <= 88 /\
       (loadable prg -> p_va prg + p_memsz prg <= sz /\ p_offset prg + p_filesz prg <= 88 /\
          seg_loaded (mem elf_demo) (mem s') demo_pt demo_img prg))) elf_demo.
Proof.
  refine (load_elf_correct demo_pt demo_img 88 0 elf_demo elf_demo_ready elf_demo_uspace
    _ _ _ _ _); [vm_compute; congruence | lia | vm_compute; congruence | | vm_compute; congruence].
  intros v _. by rewrite elf_demo_unmapped.
Defined.

(** The small program does load: one page, entry 0x1000. *)
Example demo_loads :
  match load_elf demo_pt demo_img 88 0 elf_demo with
  | Ok res s' => res = (0, 0x1000, 0x2000) /\ ubyte (mem s') demo_pt 0x1000 = 0x13
  | _ => False
  end.
Proof. vm_compute. split; reflexivity. Qed.

(** An image in a space whose stack is not mapped. *)
Lemma image_no_stack pt sz s s1 : image pt sz s s1 -> USER_BASE <= sz <= UART_0 ->
  (forall v, USER_STACK_TOP - PAGE_SIZE <= v < USER_STACK_TOP -> valid (pte_at (mem s) pt v) = false) ->
  (forall v, USER_STACK_TOP - PAGE_SIZE <= v < USER_STACK_TOP -> valid (pte_at (mem s1) pt v) = false) /\
  (forall b, pages pt (image_or_stack sz) s1 b <-> pages pt (image_range sz) s1 b) /\
  pages_ok pt (image_or_stack sz) s1.
Proof.
  intros Him Hsz Hst. unfold UART_0, USER_BASE in Hsz.
  assert (Hnost : forall v, USER_STACK_TOP - PAGE_SIZE <= v < USER_STACK_TOP ->
    valid (pte_at (mem s1) pt v) = false).
  { intros v Hv. rewrite <- (Hst v Hv). apply (im_kept _ _ _ _ Him); unfold U32; [|right];
      revert Hv; cbv -[Z.le Z.lt]; lia. }
  assert (Hin : forall v, image_or_stack sz v -> valid (pte_at (mem s1) pt v) = true -> image_range sz v).
  { intros v [? | Hv] Hval; [done |]. rewrite Hnost in Hval by done. discriminate Hval. }
  split_and!; [done | |].
  - intros b. split; intros (v & Hv & Hi & Hval & ->); exists v; split_and!; auto; try lia. by left.
  - destruct (image_pages_ok _ _ _ _ Him) as [O I]. split; intros; [apply O | apply I]; auto.
Qed.

(** A failed load leaks nothing: whatever [load_elf] reports, freeing
    the address space with the size it set returns every page: those
    available afterwards are the ones available before loading and the pages
    of the table itself. *)
Theorem load_elf_freeable pt img len entry0 s : kready s -> uspace_ok s pt ->
  0 <= img -> 0 <= len < 0x80000000 -> img + len <= start_page s ->
  (forall v, USER_BASE <= v < UART_0 -> valid (pte_at (mem s) pt v) = false) ->
  (forall v, USER_STACK_TOP - PAGE_SIZE <= v < USER_STACK_TOP -> valid (pte_at (mem s) pt v) = false) ->
  e_phoff (read_elf_hdr (mem s) img) <= len ->
  wp (res ← load_elf pt img len entry0; uvmfree pt (res.2)) (fun _ s' => kready s' /\
    forall b, avail s' b <-> avail s b \/ table (mem s) pt b) s.
Proof.
  intros Hr Hus Himg Hlen Hlow Hun Hst Hph. apply wp_bind.
  eapply wp_mono; [by apply wp_load_elf |].
  intros [[r entry] sz] s1 (Him & Hsz & Hal & _). cbn [snd].
  pose proof (im_ext _ _ _ _ Him) as Ex. destruct (image_no_stack pt sz s s1 Him Hsz Hst) as (_ & Hpg & Hok).
  eapply wp_mono; [apply wp_uvmfree; [apply Ex | apply Ex | unfold UART_0, USER_BASE, U32 in *; lia | done | done] |].
  intros [] s2 (Hr2 & _ & Ha2 & _). split; [done |]. intros b. rewrite Ha2, Hpg. split.
  - intros [Ha | [Hp | Ht]].
    + left. by apply (ex_avail _ _ _ _ Ex) in Ha as [? _].
    + left. by apply (image_pages _ _ _ _ Him).
    + destruct (ex_new _ _ _ _ Ex b Ht); auto.
  - intros [Ha | Ht]; [| right; right; by apply (ex_tables _ _ _ _ Ex)].
    rewrite <- Hpg, <- Ha2. destruct (decide (bit s2 (idx b) = 0)) as [H0 | H0]; [| by split; [apply Ha |]].
    exfalso. assert (Hn : ~ avail s2 b) by (by intros [_ ?]). rewrite Ha2, Hpg in Hn.
    apply Hn. left. apply (ex_avail _ _ _ _ Ex). tauto.
Qed.

Lemma load_elf_freeable_witness :
  wp (res ← load_elf demo_pt demo_img 88 0; uvmfree demo_pt (res.2)) (fun _ s' => kready s' /\
    forall b, avail s' b <-> avail elf_demo b \/ table (mem elf_demo) demo_pt b) elf_demo.
Proof.
  refine (load_elf_freeable demo_pt demo_img 88 0 elf_demo elf_demo_ready elf_demo_uspace
    _ _ _ _ _ _); [vm_compute; congruence | lia | vm_compute; congruence | | | vm_compute; congruence];
    intros v _; by rewrite elf_demo_unmapped.
Defined.

Lemma find_loop_spec name ps : cstring name -> Forall (fun p => cstring (pr_name p)) ps ->
  match find_loop name ps with
  | Some (img, len) => exists p, p ∈ ps /\ pr_name p = name /\ img = pr_img p /\ len = pr_len p
  | None => forall p, p ∈ ps -> pr_name p <> name
  end.
Proof.
  intros Hn Hps. induction Hps as [|p ps Hp _ IH]; cbn [find_loop]; [by intros p ?%elem_of_nil |].
  destruct (strcmp name (pr_name p) =? 0) eqn:E; zbool.
  - apply (strcmp_spec name (pr_name p) Hn Hp) in E. exists p. split_and!; try done. by left.
  - assert (Hne : pr_name p <> name).
    { intros He. apply E, (strcmp_spec name (pr_name p) Hn Hp). done. }
    destruct (find_loop name ps) as [[img len]|].
    + destruct IH as (q & Hq & Hx). exists q. split; [by right | done].
    + intros q [-> | Hq]%elem_of_cons; [done | by apply IH].
Qed.

(** The program table: [find_program] finds a name exactly if it is one
    of the embedded programs', and yields that program's image and length. *)
Theorem find_program_correct `{Initcode} name : cstring name ->
  match find_program name with
  | Some (img, len) => exists p, p ∈ programs /\ pr_name p = name /\ img = pr_img p /\ len = pr_len p
  | None => forall p, p ∈ programs -> pr_name p <> name
  end.
Proof.
  intros Hn. apply find_loop_spec; [done |].
  repeat constructor; vm_compute; congruence.
Qed.

#[export] Instance demo_initcode : Initcode :=
  {| user_init_elf := demo_img; user_init_elf_len := 88; user_hello_elf := 0x80000100;
     user_hello_elf_len := 64; user_echo_elf := 0x80000200; user_echo_elf_len := 64 |}.

Lemma find_program_correct_witness :
  match find_program (bytes "echo") with
  | Some (img, len) => exists p, p ∈ programs /\ pr_name p = bytes "echo" /\ img = pr_img p /\ len = pr_len p
  | None => forall p, p ∈ programs -> pr_name p <> bytes "echo"
  end.
Proof. apply find_program_correct. repeat constructor; vm_compute; congruence. Defined.

(** ** Reading outside the file

    The bound [off + sizeof(struct prg_hdr) > len] is computed in 32 bits. A
    file whose header table is said to start 32 bytes below 2^32 passes it,
    and the header is read from the 32 bytes before the image. *)

Definition wrapped_file : list Z := demo_elf_hdr 0xFFFFFFE0.
Definition before_plain : list Z := replicate 32 0.
Definition before_load : list Z := demo_prg_hdr 1 2 1.

(** The same file, with different kernel bytes in front of it. *)
Definition wrapped (before : list Z) : kstate :=
  set_mem (fill ∅ demo_img (before ++ wrapped_file)) two_pages.

Definition result_of (r : res (Z * Z * Z)) : option Z :=
  match r with Ok (r, _, _) _ => Some r | _ => None end.

