(* ===== verification/Proc.v ===== *)
(** Processes and the scheduler: proc.c.

    A [struct proc *] is an index into [proctable]; the trap frame and the page
    tables are in byte memory. A process gives up the hart in [sched] and the
    scheduler hands it out in [scheduler], both through [swtch], the outcome
    [Swtch], which keeps the rest of the function for when it is switched back
    to. *)
From S2P Require Import Prelude Machine Csr KPrint Spinlock Printf Mem Vm Exec.

Definition NPROC : nat := 32.

(** Functions whose addresses the kernel stores. *)
Class KSyms := {
  sym_forkret : Z;
  sym_kerneltrap : Z;
  sym_u_trap_handle : Z;
  sym_usertrap : Z
}.

(** Where the compiler puts [wait]'s local [xstate], as an offset into the
    page of the kernel stack. *)
Class Frames := { fr_xstate : Z }.

(** ** Trap frames (proc.h): offsets of [struct trapframe_t] *)
Definition tf_k_sp : Z := 0.
Definition tf_k_trap : Z := 4.
Definition tf_k_satp : Z := 8.
Definition tf_u_trap : Z := 12.
Definition tf_epc : Z := 16.
Definition tf_regs (i : Z) : Z := 20 + 4 * i.
Definition tf_k_hartid : Z := 148.
Definition sizeof_trapframe : Z := 152.

(** ** Access to the process table *)

Definition get_proc (s : kstate) (i : nat) : proc := get0 proc0 (proctable s) i.
Definition put_proc (i : nat) (p : proc) (s : kstate) : kstate :=
  set_proctable (<[i := p]> (proctable s)) s.
Definition the_proc (i : nat) : M proc := gets (fun s => get_proc s i).
Definition with_proc (i : nat) (f : proc -> proc) : M unit :=
  modify (fun s => put_proc i (f (get_proc s i)) s).

Definition set_pid v p := mk_proc v (p_state p) (p_name p) (p_pt p) (kstack p) (p_sz p)
  (p_tf p) (xstate p) (p_chan p) (p_context p) (parent p).
Definition set_state v p := mk_proc (pid p) v (p_name p) (p_pt p) (kstack p) (p_sz p)
  (p_tf p) (xstate p) (p_chan p) (p_context p) (parent p).
Definition set_name v p := mk_proc (pid p) (p_state p) v (p_pt p) (kstack p) (p_sz p)
  (p_tf p) (xstate p) (p_chan p) (p_context p) (parent p).
Definition set_pt v p := mk_proc (pid p) (p_state p) (p_name p) v (kstack p) (p_sz p)
  (p_tf p) (xstate p) (p_chan p) (p_context p) (parent p).
Definition set_kstack v p := mk_proc (pid p) (p_state p) (p_name p) (p_pt p) v (p_sz p)
  (p_tf p) (xstate p) (p_chan p) (p_context p) (parent p).
Definition set_sz v p := mk_proc (pid p) (p_state p) (p_name p) (p_pt p) (kstack p) v
  (p_tf p) (xstate p) (p_chan p) (p_context p) (parent p).
Definition set_tf v p := mk_proc (pid p) (p_state p) (p_name p) (p_pt p) (kstack p) (p_sz p)
  v (xstate p) (p_chan p) (p_context p) (parent p).
Definition set_xstate v p := mk_proc (pid p) (p_state p) (p_name p) (p_pt p) (kstack p) (p_sz p)
  (p_tf p) v (p_chan p) (p_context p) (parent p).
Definition set_chan v p := mk_proc (pid p) (p_state p) (p_name p) (p_pt p) (kstack p) (p_sz p)
  (p_tf p) (xstate p) v (p_context p) (parent p).
Definition set_context v p := mk_proc (pid p) (p_state p) (p_name p) (p_pt p) (kstack p) (p_sz p)
  (p_tf p) (xstate p) (p_chan p) v (parent p).
Definition set_parent v p := mk_proc (pid p) (p_state p) (p_name p) (p_pt p) (kstack p) (p_sz p)
  (p_tf p) (xstate p) (p_chan p) (p_context p) v.

(** A [NULL] pointer that is dereferenced. *)
Definition deref_proc (o : option nat) : M nat :=
  match o with Some i => mret i | None => undef end.

Definition swtch : M unit := fun s => Swtch s (fun s' => Ok tt s').

(** [jr usertrapret], which ends in [sret]. *)
Definition to_user {A} : M A := fun s => User s.

(** [q->state == st] *)
Definition in_state (st : procstate) (p : proc) : bool := bool_decide (p_state p = st).

(** * proc.c *)

Definition myproc : M (option nat) :=
  push_off;; c ← this_cpu; pop_off;; mret (cpu_proc c).

Fixpoint init_procs (k : nat) (i : nat) : M unit :=
  match k with
  | O => mret tt
  | S k =>
      init_lock (ProcLock i) "proc";;
      with_proc i (fun p => set_state UNUSED (set_kstack 0 p));;
      init_procs k (S i)
  end.

Definition init_proctable : M unit :=
  init_lock PidLock "pid";; init_lock WaitLock "wait";; init_procs NPROC 0.

(** [curr_pid++] on an [int] at its maximum is not defined. *)
Definition allocpid : M Z :=
  lock PidLock;;
  p ← gets curr_pid;
  if p =? 0x7FFFFFFF then undef
  else modify (set_curr_pid (p + 1));; unlock PidLock;; mret p.

Definition init_userpt `{Layout} : M Z :=
  pt ← ptcreate;
  if pt =? 0 then mret 0
  else
    let text_len := sym_trampoline -w KERNBASE in
    let data_start := sym_trampoline +w PAGE_SIZE in
    let fail := freewalk pt;; mret 0 in
    r1 ← mappages pt KERNBASE KERNBASE text_len (Z.lor (Z.lor PTE_R PTE_X) PTE_V);
    if r1 <? 0 then fail else
    r2 ← mappages pt sym_trampoline sym_trampoline PAGE_SIZE (Z.lor (Z.lor PTE_R PTE_X) PTE_V);
    if r2 <? 0 then fail else
    r3 ← mappages pt data_start data_start (MEM_END -w data_start) (Z.lor (Z.lor PTE_R PTE_W) PTE_V);
    if r3 <? 0 then fail else
    r4 ← mappages pt UART_0 UART_0 PAGE_SIZE (Z.lor (Z.lor PTE_R PTE_W) PTE_V);
    if r4 <? 0 then fail else
    mret pt.

(** The search of [procalloc]. *)
Fixpoint claim_slot (k : nat) (i : nat) : M (option nat) :=
  match k with
  | O => mret None
  | S k =>
      lock (ProcLock i);;
      p ← the_proc i;
      if in_state UNUSED p then
        with_proc i (set_state NEW);; unlock (ProcLock i);; mret (Some i)
      else unlock (ProcLock i);; claim_slot k (S i)
  end.

(** [enum procstate] as a number. *)
Definition state_num (st : procstate) : Z :=
  match st with UNUSED => 0 | NEW => 1 | READY => 2 | RUNNING => 3 | WAITING => 4 | ZOMBIE => 5 end.

(** Debugging aids. *)
Definition print_proc (p : proc) : M unit :=
  printf ("Process PID: %d" +:+ nl) [AInt (pid p)];;
  printf ("State: %d" +:+ nl) [AInt (state_num (p_state p))];;
  printf ("Kernel Stack: %p" +:+ nl) [AInt (kstack p)];;
  printf ("Page Table: %p" +:+ nl) [AInt (p_pt p)].

Fixpoint print_procs (k : nat) (i : nat) : M unit :=
  match k with
  | O => mret tt
  | S k =>
      p ← the_proc i;
      printf ("%d sp %p" +:+ nl) [AInt (Z.of_nat i); AInt (kstack p)];;
      print_procs k (S i)
  end.

Definition print_proctable : M unit := print_procs NPROC 0.

Definition releaseproc (i : nat) : M unit :=
  h ← holding (ProcLock i);
  if negb h then panic "releaseproc: lock not held"
  else
    p ← the_proc i;
    when (negb (p_tf p =? 0)) (kfree (p_tf p));;
    when (negb (p_pt p =? 0)) (uvmfree (p_pt p) (p_sz p));;
    when (negb (kstack p =? 0)) (kfree (kstack p));;
    with_proc i (fun p =>
      mk_proc 0 UNUSED (<[0%nat := 0]> (p_name p)) 0 0 0 0 0 ChanNull context0 None).

Definition procalloc `{Layout, KSyms} : M (option nat) :=
  found ← claim_slot NPROC 0;
  match found with
  | None => mret None
  | Some i =>
      let fail := lock (ProcLock i);; releaseproc i;; unlock (ProcLock i);; mret None in
      id ← allocpid;
      with_proc i (set_pid id);;
      kstack_pa ← kalloc;
      if kstack_pa =? 0 then fail else
      with_proc i (set_kstack kstack_pa);;
      tf ← kalloc;
      with_proc i (set_tf tf);;
      if tf =? 0 then fail else
      memset tf 0 PAGE_SIZE;;
      pt ← init_userpt;
      with_proc i (set_pt pt);;
      if pt =? 0 then fail else
      with_proc i (set_context
        (mk_context (u32 sym_forkret) (kstack_pa +w PAGE_SIZE) 0 0 0 0 0 0 0 0 0 0 0 0));;
      mret (Some i)
  end.

Definition uvmfirst `{Initcode, KSyms} (i : nat) (sp : Z) : M unit :=
  lock (ProcLock i);;
  match find_program (bytes "init") with
  | None => panic "uvmfirst: no init program"
  | Some (img, len) =>
      p ← the_proc i;
      '(r, entry, sz) ← load_elf (p_pt p) img len 0;
      if r <? 0 then panic "uvmfirst: cannot load init ELF" else
      stack_pa ← kalloc;
      if stack_pa =? 0 then panic "uvmfirst: out of memory" else
      m ← mappage (p_pt p) (USER_STACK_TOP - PAGE_SIZE) stack_pa
            (Z.lor (Z.lor (Z.lor PTE_R PTE_W) PTE_U) PTE_V);
      if m =? 0 then panic "uvmfirst: mappage" else
      kpt ← gets kptable;
      st (p_tf p + tf_epc) entry;;
      st (p_tf p + tf_regs 2) sp;;
      st (p_tf p + tf_k_sp) (kstack p +w PAGE_SIZE);;
      st (p_tf p + tf_k_satp) (MAKE_SATP kpt);;
      st (p_tf p + tf_k_trap) sym_kerneltrap;;
      st (p_tf p + tf_u_trap) sym_u_trap_handle;;
      with_proc i (set_sz sz);;
      with_proc i (fun p => set_name (bytes "init" ++ [0] ++ drop 5 (p_name p)) p);;
      with_proc i (set_state READY);;
      unlock (ProcLock i)
  end.

(** The entry of [va], 0 if there is no table for it. *)
Definition read_pte (pt va : Z) : M Z :=
  pte ← find_pte pt va false; if pte =? 0 then mret 0 else ld pte.

(** The body of [uvmcopy]'s loop: copy one mapped page. *)
Definition uvmcopy_page (new_pt va e : Z) (str_alloc str_map : string) : M Z :=
  mem ← kalloc;
  if mem =? 0 then error str_alloc;; mret (-1)
  else
    memmove mem (PTE2PA e) PAGE_SIZE;;
    r ← mappage new_pt va mem (PTE_FLAGS e);
    if r =? 0 then error str_map;; kfree mem;; mret (-1)
    else mret 0.

Fixpoint uvmcopy_loop (fuel : nat) (old_pt new_pt va sz : Z) : M Z :=
  if va <? sz then
    match fuel with
    | O => nofuel
    | S fuel =>
        e ← read_pte old_pt va;
        if negb (valid e) then uvmcopy_loop fuel old_pt new_pt (va +w PAGE_SIZE) sz
        else
          r ← uvmcopy_page new_pt va e "uvmcopy: kalloc" "uvmcopy: mappage";
          if r <? 0 then mret (-1)
          else uvmcopy_loop fuel old_pt new_pt (va +w PAGE_SIZE) sz
    end
  else mret 0.

Definition uvmcopy (old_pt new_pt sz : Z) : M Z :=
  r ← uvmcopy_loop (Z.to_nat ((sz - USER_BASE + PAGE_SIZE - 1) / PAGE_SIZE)) old_pt new_pt USER_BASE sz;
  if r <? 0 then mret (-1)
  else
    let stack_va := USER_STACK_TOP - PAGE_SIZE in
    e ← read_pte old_pt stack_va;
    if negb (valid e) then error "uvmcopy: parent has no stack mapped";; mret (-1)
    else uvmcopy_page new_pt stack_va e "uvmcopy: kalloc (stack)" "uvmcopy: mappage (stack)".

Definition init_userproc `{Layout, Initcode, KSyms} : M unit :=
  o ← procalloc;
  match o with
  | None => panic "init_userproc: procalloc fail"
  | Some i => uvmfirst i USER_STACK_TOP
  end.

(** Set [c->proc] of this hart. *)
Definition set_cpu_proc (o : option nat) : M unit :=
  c ← this_cpu; put_cpu (mk_cpu (cpu_id c) (depth c) (intena c) o (cpu_context c)).

(** The scheduler's round over the table from [i] on; whether anything ran. *)
Fixpoint sched_round (k : nat) (i : nat) (run : bool) : M bool :=
  match k with
  | O => mret run
  | S k =>
      lock (ProcLock i);;
      p ← the_proc i;
      run' ← (if in_state READY p then
                with_proc i (set_state RUNNING);;
                set_cpu_proc (Some i);;
                swtch;;
                set_cpu_proc None;;
                q ← the_proc i;
                when (in_state ZOMBIE q && bool_decide (parent q = None)) (releaseproc i);;
                mret true
              else mret run);
      unlock (ProcLock i);;
      sched_round k (S i) run'
  end.

(** One turn of the scheduler's endless loop; [wfi] only waits. *)
Definition scheduler_turn : M unit :=
  interrupt_on;; interrupt_off;; sched_round NPROC 0 false;; mret tt.

Definition sched : M unit :=
  c ← this_cpu;
  i ← deref_proc (cpu_proc c);
  h ← holding (ProcLock i);
  if negb h then panic "sched: no lock"
  else if negb (depth c =? 1) then panic "sched: multiple lock held"
  else
    p ← the_proc i;
    if in_state RUNNING p then panic "sched: process still running"
    else
      on ← is_interrupt;
      if (on : bool) then panic "sched: interruptible"
      else
        swtch;;
        c2 ← this_cpu;
        put_cpu (mk_cpu (cpu_id c2) (depth c2) (intena c) (cpu_proc c2) (cpu_context c2)).

Definition yield : M unit :=
  o ← myproc; i ← deref_proc o;
  lock (ProcLock i);;
  with_proc i (set_state READY);;
  sched;;
  unlock (ProcLock i).

Definition sleep (ch : chan) (lk : lockid) : M unit :=
  o ← myproc; i ← deref_proc o;
  lock (ProcLock i);;
  unlock lk;;
  with_proc i (set_chan ch);;
  with_proc i (set_state WAITING);;
  sched;;
  with_proc i (set_chan ChanNull);;
  unlock (ProcLock i);;
  lock lk.

Fixpoint wakeup_loop (k : nat) (q : nat) (ch : chan) : M unit :=
  match k with
  | O => mret tt
  | S k =>
      lock (ProcLock q);;
      p ← the_proc q;
      when (bool_decide (p_chan p = ch) && in_state WAITING p) (with_proc q (set_state READY));;
      unlock (ProcLock q);;
      wakeup_loop k (S q) ch
  end.

Definition wakeup (ch : chan) : M unit := wakeup_loop NPROC 0 ch.

(** trap.c: the way back to user mode, up to the [sret] of usertrapret.S. *)
Definition utrapret {A} `{KSyms} : M A :=
  o ← myproc; i ← deref_proc o;
  interrupt_off;;
  w_stvec sym_usertrap;;
  p ← the_proc i;
  w_sscratch (p_tf p);;
  st (p_tf p + tf_k_sp) (kstack p +w PAGE_SIZE);;
  h ← r_tp;
  st (p_tf p + tf_k_hartid) h;;
  x ← r_sstatus;
  w_sstatus (Z.lor (Z.land x (Z.lnot SSTATUS_SPP)) SSTATUS_SPIE);;
  epc ← ld (p_tf p + tf_epc);
  w_sepc epc;;
  w_satp (MAKE_SATP (p_pt p));;
  to_user.

Definition forkret {A} `{KSyms} : M A :=
  o ← myproc; i ← deref_proc o; unlock (ProcLock i);; utrapret.

Definition fork `{Layout, KSyms} : M Z :=
  o ← myproc; i ← deref_proc o;
  np ← procalloc;
  match np with
  | None => error "sys_fork: procalloc fail";; mret (-1)
  | Some n =>
      p ← the_proc i;
      q ← the_proc n;
      r ← uvmcopy (p_pt p) (p_pt q) (p_sz p);
      with_proc n (set_sz (p_sz p));;
      if r <? 0 then
        lock (ProcLock n);; releaseproc n;; unlock (ProcLock n);; mret (-1)
      else
        child_ksp ← ld (p_tf q + tf_k_sp);
        memmove (p_tf q) (p_tf p) sizeof_trapframe;;
        st (p_tf q + tf_k_sp) child_ksp;;
        st (p_tf q + tf_regs 10) 0;;
        with_proc n (set_name (p_name p));;
        lock WaitLock;;
        lock (ProcLock n);;
        with_proc n (fun q => set_state READY (set_parent (Some i) q));;
        unlock (ProcLock n);;
        unlock WaitLock;;
        mret (pid q)
  end.

(** One scan of [wait] from slot [q] on: [inl r] when it returns [r], else
    whether a child was seen. *)
Fixpoint wait_scan `{Frames} (k : nat) (q i : nat) (addr : Z) (have : bool) : M (Z + bool) :=
  match k with
  | O => mret (inr have)
  | S k =>
      c ← the_proc q;
      if negb (bool_decide (parent c = Some i)) then wait_scan k (S q) i addr have
      else
        lock (ProcLock q);;
        c ← the_proc q;
        if in_state ZOMBIE c then
          p ← the_proc i;
          r ← (if addr =? 0 then mret 0
               else
                 st (kstack p + fr_xstate) (xstate c);;
                 copyout (p_pt p) addr (kstack p + fr_xstate) 4);
          if r <? 0 then
            unlock (ProcLock q);; unlock WaitLock;; mret (inl (-1))
          else
            releaseproc q;;
            unlock (ProcLock q);;
            unlock WaitLock;;
            mret (inl (pid c))
        else unlock (ProcLock q);; wait_scan k (S q) i addr true
  end.

(** Each turn but the last ends in a sleep. *)
Fixpoint wait_loop `{Frames} (fuel : nat) (i : nat) (addr : Z) : M Z :=
  match fuel with
  | O => nofuel
  | S fuel =>
      r ← wait_scan NPROC 0 i addr false;
      match r with
      | inl r => mret r
      | inr false => unlock WaitLock;; mret (-1)
      | inr true => sleep (ChanProc i) WaitLock;; wait_loop fuel i addr
      end
  end.

Definition wait `{Frames} (fuel : nat) (addr : Z) : M Z :=
  o ← myproc; i ← deref_proc o; lock WaitLock;; wait_loop fuel i addr.

(** [kexit]'s search for the reaper. *)
Fixpoint find_reaper (k : nat) (q i : nat) (s : kstate) : option nat :=
  match k with
  | O => None
  | S k =>
      let c := get_proc s q in
      if (pid c =? 1) && negb (Nat.eqb q i) && negb (in_state ZOMBIE c) then Some q
      else find_reaper k (S q) i s
  end.

(** Handing the children of [i] to the reaper; whether one was a zombie. *)
Fixpoint reparent (k : nat) (q i : nat) (reaper : option nat) (gave : bool) : M bool :=
  match k with
  | O => mret gave
  | S k =>
      c ← the_proc q;
      if bool_decide (parent c = Some i) then
        lock (ProcLock q);;
        with_proc q (set_parent reaper);;
        c ← the_proc q;
        gave ← (if in_state ZOMBIE c then
                  match reaper with
                  | None => releaseproc q;; mret gave
                  | Some _ => mret true
                  end
                else mret gave);
        unlock (ProcLock q);;
        reparent k (S q) i reaper gave
      else reparent k (S q) i reaper gave
  end.

Definition kexit {A} (status : Z) : M A :=
  o ← myproc; i ← deref_proc o;
  p ← the_proc i;
  uvmfree (p_pt p) (p_sz p);;
  with_proc i (set_pt 0);;
  lock WaitLock;;
  reaper ← gets (find_reaper NPROC 0 i);
  gave ← reparent NPROC 0 i reaper false;
  (match reaper with
   | Some r => when gave (wakeup (ChanProc r))
   | None => mret tt
   end);;
  p ← the_proc i;
  (match parent p with Some pp => wakeup (ChanProc pp) | None => mret tt end);;
  lock (ProcLock i);;
  with_proc i (set_xstate status);;
  with_proc i (set_state ZOMBIE);;
  unlock WaitLock;;
  sched;;
  panic "kexit: zombie returned".
