(* ===== verification/Asm.v ===== *)
(** RV32 assembly: the instructions that the .S files use, the register file,
    and gpr.c, whose functions are single moves.

    A program is the list of its lines, labels included; [run] executes it from
    a line on until it leaves: jumps through a register, calls a C function,
    makes a system call or returns from a trap. Registers are 32-bit values in
    [Z]; memory is that of Machine.v. Kernel addresses are mapped to themselves
    in every page table (KernelMap, ProcProofs), so that accesses go to
    physical memory; [sfence.vma] and [wfi] have no effect on what is
    modelled. *)
From S2P Require Import Prelude Machine Csr.

(** * Registers *)

(** ABI names, in the order of their numbers. *)
Inductive reg :=
  | ZERO | RA | SP | GP | TP | T0 | T1 | T2 | S0 | S1
  | A0 | A1 | A2 | A3 | A4 | A5 | A6 | A7
  | S2 | S3 | S4 | S5 | S6 | S7 | S8 | S9 | S10 | S11
  | T3 | T4 | T5 | T6.

#[global] Instance reg_eq_dec : EqDecision reg.
Proof. solve_decision. Defined.

Definition all_regs : list reg :=
  [ZERO; RA; SP; GP; TP; T0; T1; T2; S0; S1; A0; A1; A2; A3; A4; A5; A6; A7;
   S2; S3; S4; S5; S6; S7; S8; S9; S10; S11; T3; T4; T5; T6].

(** [x<n>] *)
Definition reg_num (r : reg) : Z :=
  match r with
  | ZERO => 0 | RA => 1 | SP => 2 | GP => 3 | TP => 4 | T0 => 5 | T1 => 6 | T2 => 7
  | S0 => 8 | S1 => 9 | A0 => 10 | A1 => 11 | A2 => 12 | A3 => 13 | A4 => 14 | A5 => 15
  | A6 => 16 | A7 => 17 | S2 => 18 | S3 => 19 | S4 => 20 | S5 => 21 | S6 => 22 | S7 => 23
  | S8 => 24 | S9 => 25 | S10 => 26 | S11 => 27 | T3 => 28 | T4 => 29 | T5 => 30 | T6 => 31
  end.

Lemma reg_num_inj r r' : reg_num r = reg_num r' -> r = r'.
Proof. by destruct r, r'. Qed.

Lemma reg_num_range r : 0 <= reg_num r < 32.
Proof. destruct r; cbn; lia. Qed.

Definition regfile := reg -> Z.

(** [x0] is hardwired to 0. *)
Definition rget (rs : regfile) (r : reg) : Z := if decide (r = ZERO) then 0 else rs r.
Definition rset (r : reg) (v : Z) (rs : regfile) : regfile :=
  fun x => if decide (x = r) then u32 v else rs x.

Lemma rget_eq r v rs : r <> ZERO -> rget (rset r v rs) r = u32 v.
Proof. intros H. unfold rget, rset. by rewrite decide_False, decide_True. Qed.

Lemma rget_ne r r' v rs : r' <> r -> rget (rset r v rs) r' = rget rs r'.
Proof. intros H. unfold rget, rset. by rewrite (decide_False (P := r' = r)). Qed.

Lemma rget_zero rs : rget rs ZERO = 0.
Proof. done. Qed.

Create Rewrite HintDb asm.
#[export] Hint Rewrite rget_zero : asm.
#[export] Hint Rewrite rget_eq using done : asm.
#[export] Hint Rewrite rget_ne using done : asm.

(** ** gpr.c *)

Definition r_t0 (rs : regfile) : Z := rget rs T0.
Definition w_t0 (x : Z) (rs : regfile) : regfile := rset T0 x rs.
Definition r_a0 (rs : regfile) : Z := rget rs A0.
Definition w_a0 (x : Z) (rs : regfile) : regfile := rset A0 x rs.
Definition r_a1 (rs : regfile) : Z := rget rs A1.
Definition w_a1 (x : Z) (rs : regfile) : regfile := rset A1 x rs.
Definition r_a2 (rs : regfile) : Z := rget rs A2.
Definition w_a2 (x : Z) (rs : regfile) : regfile := rset A2 x rs.
Definition r_a3 (rs : regfile) : Z := rget rs A3.
Definition w_a3 (x : Z) (rs : regfile) : regfile := rset A3 x rs.
Definition r_a4 (rs : regfile) : Z := rget rs A4.
Definition w_a4 (x : Z) (rs : regfile) : regfile := rset A4 x rs.
Definition r_a5 (rs : regfile) : Z := rget rs A5.
Definition w_a5 (x : Z) (rs : regfile) : regfile := rset A5 x rs.
Definition r_a6 (rs : regfile) : Z := rget rs A6.
Definition w_a6 (x : Z) (rs : regfile) : regfile := rset A6 x rs.
Definition r_a7 (rs : regfile) : Z := rget rs A7.
Definition w_a7 (x : Z) (rs : regfile) : regfile := rset A7 x rs.

(** The pairs, with the register of each. *)
Definition gpr : list (reg * ((regfile -> Z) * (Z -> regfile -> regfile))) :=
  [ (T0, (r_t0, w_t0)); (A0, (r_a0, w_a0)); (A1, (r_a1, w_a1)); (A2, (r_a2, w_a2)); (A3, (r_a3, w_a3)); (A4, (r_a4, w_a4));
    (A5, (r_a5, w_a5)); (A6, (r_a6, w_a6)); (A7, (r_a7, w_a7)) ].

(** What is written is read back, modulo 2^32, and no other register changes. *)
Lemma gpr_read_write : Forall (fun '(r, (rd, wr)) => forall x rs,
  rd (wr x rs) = u32 x /\ forall r', r' <> r -> rget (wr x rs) r' = rget rs r') gpr.
Proof. repeat constructor; try (by apply rget_eq); intros r' Hne; by apply rget_ne. Qed.

(** * Instructions *)

Inductive instr :=
  | Label (l : string)
  | Lw (rd : reg) (off : Z) (rs : reg)      (* lw rd, off(rs) *)
  | Lbu (rd : reg) (off : Z) (rs : reg)
  | Sw (rv : reg) (off : Z) (rs : reg)      (* sw rv, off(rs) *)
  | Addi (rd rs : reg) (imm : Z)
  | Sub (rd rs rt : reg)
  | Mul (rd rs rt : reg)
  | Mv (rd rs : reg)
  | Li (rd : reg) (imm : Z)
  | La (rd : reg) (sym : Z)                 (* the symbol's address *)
  | Csrr (rd : reg) (csr : Z)
  | Csrw (csr : Z) (rs : reg)
  | Csrrw (rd : reg) (csr : Z) (rs : reg)
  | SfenceVma
  | Wfi
  | Beqz (rs : reg) (l : string)
  | Bnez (rs : reg) (l : string)
  | Bgeu (rs rt : reg) (l : string)
  | J (l : string)
  | Jr (rs : reg)
  | Ret
  | Call (f : string)
  | Ecall
  | Sret.

(** The registers, the memory and the control registers of the hart. *)
Record mach := mk_mach {
  rg : regfile;
  mm : gmap Z Z;
  hc : gmap Z Z
}.

Definition csr_of (m : mach) (c : Z) : Z := get0 0 (hc m) c.
Definition put_reg (r : reg) (v : Z) (m : mach) : mach := mk_mach (rset r v (rg m)) (mm m) (hc m).
Definition put_mem (a v : Z) (m : mach) : mach := mk_mach (rg m) (store32 (mm m) a v) (hc m).
Definition put_csr (c v : Z) (m : mach) : mach := mk_mach (rg m) (mm m) (<[c := u32 v]> (hc m)).
Definition addr (m : mach) (rs : reg) (off : Z) : Z := rget (rg m) rs +w off.

(** Instructions after which the next line follows. *)
Definition exec (i : instr) (m : mach) : option mach :=
  match i with
  | Label _ | SfenceVma | Wfi => Some m
  | Lw rd off rs => Some (put_reg rd (load32 (mm m) (addr m rs off)) m)
  | Lbu rd off rs => Some (put_reg rd (load8 (mm m) (addr m rs off)) m)
  | Sw rv off rs => Some (put_mem (addr m rs off) (rget (rg m) rv) m)
  | Addi rd rs imm => Some (put_reg rd (rget (rg m) rs + imm) m)
  | Sub rd rs rt => Some (put_reg rd (rget (rg m) rs - rget (rg m) rt) m)
  | Mul rd rs rt => Some (put_reg rd (rget (rg m) rs * rget (rg m) rt) m)
  | Mv rd rs => Some (put_reg rd (rget (rg m) rs) m)
  | Li rd imm => Some (put_reg rd imm m)
  | La rd sym => Some (put_reg rd sym m)
  | Csrr rd c => Some (put_reg rd (csr_of m c) m)
  | Csrw c rs => Some (put_csr c (rget (rg m) rs) m)
  | Csrrw rd c rs => Some (put_reg rd (csr_of m c) (put_csr c (rget (rg m) rs) m))
  | _ => None
  end.

(** How the code is left, or where it goes on. *)
Inductive event := Jump (a : Z) | Called (f : string) | Ecalled | Sreturned.

Fixpoint line_of (l : string) (p : list instr) (n : nat) : option nat :=
  match p with
  | [] => None
  | Label l' :: p => if String.eqb l l' then Some n else line_of l p (S n)
  | _ :: p => line_of l p (S n)
  end.

Definition branch (p : list instr) (l : string) (taken : bool) (pc : nat) : option (nat + event) :=
  if taken then option_map inl (line_of l p 0) else Some (inl (S pc)).

Definition control (p : list instr) (pc : nat) (i : instr) (m : mach) : option (nat + event) :=
  match i with
  | Beqz rs l => branch p l (rget (rg m) rs =? 0) pc
  | Bnez rs l => branch p l (negb (rget (rg m) rs =? 0)) pc
  | Bgeu rs rt l => branch p l (rget (rg m) rt <=? rget (rg m) rs) pc
  | J l => branch p l true pc
  | Jr rs => Some (inr (Jump (rget (rg m) rs)))
  | Ret => Some (inr (Jump (rget (rg m) RA)))
  | Call f => Some (inr (Called f))
  | Ecall => Some (inr Ecalled)
  | Sret => Some (inr Sreturned)
  | _ => None
  end.

(** * Running *)

(** [Left e pc m]: left with [e], the line after it being [pc]; [Running]: the
    fuel is used up; [Lost]: no such line or label. *)
Inductive result :=
  | Left (e : event) (pc : nat) (m : mach)
  | Running (pc : nat) (m : mach)
  | Lost.

Fixpoint run (fuel : nat) (p : list instr) (pc : nat) (m : mach) : result :=
  match fuel with
  | O => Running pc m
  | S fuel =>
      match p !! pc with
      | None => Lost
      | Some i =>
          match exec i m with
          | Some m' => run fuel p (S pc) m'
          | None =>
              match control p pc i m with
              | Some (inl pc') => run fuel p pc' m
              | Some (inr e) => Left e (S pc) m
              | None => Lost
              end
          end
      end
  end.

(** A run of lines without branches. *)
Fixpoint execs (l : list instr) (m : mach) : option mach :=
  match l with
  | [] => Some m
  | i :: l => match exec i m with Some m' => execs l m' | None => None end
  end.

Lemma run_add n k p : forall pc m, run (n + k) p pc m =
  match run n p pc m with Running pc' m' => run k p pc' m' | r => r end.
Proof.
  induction n as [|n IH]; intros pc m; [done |]. cbn [run Nat.add]. destruct (p !! pc) as [i |]; [| done].
  destruct (exec i m); [apply IH |]. destruct (control p pc i m) as [[pc' | e] |]; [apply IH | done | done].
Qed.

(** Line by line. *)
Lemma run_S_exec n p pc m i m' : p !! pc = Some i -> exec i m = Some m' -> run (S n) p pc m = run n p (S pc) m'.
Proof. intros Hp He. cbn [run]. by rewrite Hp, He. Qed.

Lemma run_S_goto n p pc m i pc' : p !! pc = Some i -> exec i m = None -> control p pc i m = Some (inl pc') ->
  run (S n) p pc m = run n p pc' m.
Proof. intros Hp He Hc. cbn [run]. by rewrite Hp, He, Hc. Qed.

Lemma run_S_leave n p pc m i e : p !! pc = Some i -> exec i m = None -> control p pc i m = Some (inr e) ->
  run (S n) p pc m = Left e (S pc) m.
Proof. intros Hp He Hc. cbn [run]. by rewrite Hp, He, Hc. Qed.

(** More fuel does not change an answer. *)
Lemma run_more n k p pc m e pc' m' : run n p pc m = Left e pc' m' -> run (n + k) p pc m = Left e pc' m'.
Proof. intros H. by rewrite run_add, H. Qed.

Lemma run_execs l : forall p pc m m' k, execs l m = Some m' -> take (length l) (drop pc p) = l ->
  run (length l + k) p pc m = run k p (pc + length l) m'.
Proof.
  induction l as [|i l IH]; intros p pc m m' k He Hp.
  { cbn in He. injection He as <-. by rewrite Nat.add_0_r. }
  assert (Hi : p !! pc = Some i).
  { destruct (drop pc p) as [|i' q] eqn:Ed; [done |]. cbn in Hp. injection Hp as -> _.
    rewrite <- (Nat.add_0_r pc), <- lookup_drop, Ed. done. }
  assert (Hd : drop (S pc) p = tail (drop pc p)) by (rewrite <- Nat.add_1_r, <- drop_drop; by destruct (drop pc p)).
  cbn [length run Nat.add]. rewrite Hi. cbn [execs] in He. destruct (exec i m) as [m1 |]; [| done].
  rewrite <- Nat.add_succ_comm. apply IH; [done |]. rewrite Hd. destruct (drop pc p); [done |]. cbn in Hp |- *. by injection Hp.
Qed.

Lemma execs_app l l' m : execs (l ++ l') m = match execs l m with Some m' => execs l' m' | None => None end.
Proof. revert m. induction l as [|i l IH]; intros m; cbn; [done |]. by destruct (exec i m). Qed.

(** * Saving and restoring registers *)

Definition saves (b : reg) (l : list (reg * Z)) : list instr := (fun '(r, o) => Sw r o b) <$> l.
Definition loads (b : reg) (l : list (reg * Z)) : list instr := (fun '(r, o) => Lw r o b) <$> l.

(** The slots are distinct words of [n] bytes from the base on. *)
Record slots_ok (n : Z) (l : list (reg * Z)) : Prop := {
  so_range : Forall (fun e => 0 <= e.2 /\ e.2 + 4 <= n /\ e.2 mod 4 = 0) l;
  so_nodup : NoDup (l.*2);
  so_regs : NoDup (l.*1)
}.

Definition slots_okb (n : Z) (l : list (reg * Z)) : bool :=
  forallb (fun e => (0 <=? e.2) && (e.2 + 4 <=? n) && (e.2 mod 4 =? 0)) l
  && bool_decide (NoDup (l.*2)) && bool_decide (NoDup (l.*1)).

Lemma slots_okb_ok n l : slots_okb n l = true -> slots_ok n l.
Proof.
  unfold slots_okb. rewrite !andb_true_iff, !bool_decide_eq_true. intros [[H1 H2] H3]. split; [| done | done].
  apply list.Forall_forall. intros e He. apply list_elem_of_In in He. rewrite forallb_forall in H1. specialize (H1 e He). lia.
Qed.

Lemma slots_apart n l r o r' o' : slots_ok n l -> (r, o) ∈ l -> (r', o') ∈ l -> o <> o' -> o + 4 <= o' \/ o' + 4 <= o.
Proof.
  intros [Hr _ _] H1 H2 Hne. rewrite list.Forall_forall in Hr. apply Hr in H1 as (_ & _ & Hm). apply Hr in H2 as (_ & _ & Hm').
  cbn in Hm, Hm'. apply Z.mod_divide in Hm as [q ->]; [| done]. apply Z.mod_divide in Hm' as [q' ->]; [| done]. lia.
Qed.

Lemma slots_ok_cons n e l : slots_ok n (e :: l) -> slots_ok n l.
Proof. intros [H1 H2 H3]. split; [by inversion H1 | by inversion H2 | by inversion H3]. Qed.

Lemma execs_saves b n base l : forall m, rget (rg m) b = base -> 0 <= base -> base + n <= U32 -> slots_ok n l ->
  exists mm', execs (saves b l) m = Some (mk_mach (rg m) mm' (hc m)) /\
    (forall r o, (r, o) ∈ l -> load32 mm' (base + o) = u32 (rget (rg m) r)) /\
    (forall a, (forall r o, (r, o) ∈ l -> ~ (base + o <= a < base + o + 4)) -> load8 mm' a = load8 (mm m) a).
Proof.
  induction l as [|[r o] l IH]; intros m Hb H0 Hn Hok.
  { exists (mm m). split_and!; [by destruct m | | done]. intros r o Hin. by apply elem_of_nil in Hin. }
  pose proof (so_range _ _ Hok) as Hr. apply list.Forall_cons in Hr as [(Ho & Hon & _) _]. cbn in Ho, Hon.
  assert (Ha : addr m b o = base + o) by (unfold addr; rewrite Hb; apply u32_small; lia).
  change (saves b ((r, o) :: l)) with (Sw r o b :: saves b l). cbn [execs exec]. rewrite Ha.
  destruct (IH (put_mem (base + o) (rget (rg m) r) m)) as (mm' & He & Hs & Hu); [done | done | done | by eapply slots_ok_cons |].
  exists mm'. split_and!; [exact He | |].
  - intros r' o' [[= -> ->] | Hin]%elem_of_cons; [| by apply Hs]. rewrite <- load32_store32_eq with (m := mm m) (a := base + o).
    apply load32_ext. intros a Hab. apply Hu. intros r' o' Hin Hin'.
    assert (o <> o') by (intros ->; pose proof (so_nodup _ _ Hok) as Hd; cbn in Hd; apply list.NoDup_cons in Hd as [Hd _];
      by apply Hd, list_elem_of_fmap; exists (r', o')).
    destruct (slots_apart n _ r o r' o' Hok); [by left | by right | done | lia | lia].
  - intros a Hna. rewrite Hu by (intros r' o' Hin; apply (Hna r'); by right). apply load8_store32_ne.
    specialize (Hna r o ltac:(by left)). lia.
Qed.

Lemma execs_loads b n base l : forall m, rget (rg m) b = base -> 0 <= base -> base + n <= U32 -> slots_ok n l ->
  b ∉ l.*1 -> ZERO ∉ l.*1 ->
  exists rs', execs (loads b l) m = Some (mk_mach rs' (mm m) (hc m)) /\
    (forall r o, (r, o) ∈ l -> rget rs' r = load32 (mm m) (base + o)) /\
    (forall r, r ∉ l.*1 -> rget rs' r = rget (rg m) r).
Proof.
  induction l as [|[r o] l IH]; intros m Hb H0 Hn Hok Hnb Hnz.
  { exists (rg m). split_and!; [by destruct m | | done]. intros r o Hin. by apply elem_of_nil in Hin. }
  cbn [fmap list_fmap fst] in Hnb, Hnz. rewrite not_elem_of_cons in Hnb, Hnz. destruct Hnb as [Hb1 Hb2], Hnz as [Hz1 Hz2].
  pose proof (so_range _ _ Hok) as Hr. apply list.Forall_cons in Hr as [(Ho & Hon & _) _]. cbn in Ho, Hon.
  assert (Ha : addr m b o = base + o) by (unfold addr; rewrite Hb; apply u32_small; lia).
  change (loads b ((r, o) :: l)) with (Lw r o b :: loads b l). cbn [execs exec]. rewrite Ha.
  destruct (IH (put_reg r (load32 (mm m) (base + o)) m)) as (rs' & He & Hs & Hu);
    [cbn; by rewrite rget_ne | done | done | by eapply slots_ok_cons | done | done |].
  exists rs'. pose proof (so_regs _ _ Hok) as Hd. cbn in Hd. apply list.NoDup_cons in Hd as [Hd _]. split_and!; [exact He | |].
  - intros r' o' [[= -> ->] | Hin]%elem_of_cons; [| by apply Hs]. rewrite Hu by done. cbn. rewrite rget_eq by done.
    apply u32_small, load32_range.
  - intros r' Hnr. cbn [fmap list_fmap fst] in Hnr. rewrite not_elem_of_cons in Hnr. destruct Hnr as [H1 H2].
    rewrite Hu by done. cbn. by rewrite rget_ne.
Qed.

(** Executes the next line, which is no branch. *)
Ltac asm_exec := erewrite run_S_exec; [| reflexivity | reflexivity].

(** Goes to line [k]; what decides the branch is left to prove. *)
Ltac asm_goto k := erewrite (run_S_goto _ _ _ _ _ k); [| reflexivity | reflexivity | cbn [control]; unfold branch; cbn [line_of option_map String.eqb Ascii.eqb Bool.eqb]].

Ltac asm_leave := erewrite run_S_leave; [| reflexivity | reflexivity | reflexivity].
