(* ===== verification/AsmTrap.v ===== *)
(** The assembly around traps: usertrap.S, usertrapret.S, kerneltrap.S and
    swtch.S, line by line, and what they save and restore. *)
From S2P Require Import Prelude Machine Csr KPrint Spinlock Printf Mem Vm Exec Proc Asm.

(** * The code *)

Definition usertrap : list instr :=
  [ Csrrw A0 SSCRATCH A0;
    Sw RA 24 A0; Sw SP 28 A0; Sw GP 32 A0; Sw TP 36 A0; Sw T0 40 A0; Sw T1 44 A0; Sw T2 48 A0;
    Sw S0 52 A0; Sw S1 56 A0; Sw A1 64 A0; Sw A2 68 A0; Sw A3 72 A0; Sw A4 76 A0; Sw A5 80 A0;
    Sw A6 84 A0; Sw A7 88 A0; Sw S2 92 A0; Sw S3 96 A0; Sw S4 100 A0; Sw S5 104 A0; Sw S6 108 A0;
    Sw S7 112 A0; Sw S8 116 A0; Sw S9 120 A0; Sw S10 124 A0; Sw S11 128 A0; Sw T3 132 A0;
    Sw T4 136 A0; Sw T5 140 A0; Sw T6 144 A0;
    Csrr T0 SSCRATCH; Sw T0 60 A0;
    Csrr T1 SEPC; Sw T1 16 A0;
    Lw TP 148 A0; Lw SP 0 A0; Lw T0 4 A0; Lw T1 8 A0; Lw T2 12 A0;
    SfenceVma; Csrw SATP T1; SfenceVma;
    Csrw STVEC T0;
    Csrr A0 SCAUSE; Csrr A1 SEPC;
    Jr T2 ].

Definition usertrapret : list instr :=
  [ Lw RA 24 A0; Lw SP 28 A0; Lw GP 32 A0; Lw TP 36 A0; Lw T0 40 A0; Lw T1 44 A0; Lw T2 48 A0;
    Lw S0 52 A0; Lw S1 56 A0; Lw A1 64 A0; Lw A2 68 A0; Lw A3 72 A0; Lw A4 76 A0; Lw A5 80 A0;
    Lw A6 84 A0; Lw A7 88 A0; Lw S2 92 A0; Lw S3 96 A0; Lw S4 100 A0; Lw S5 104 A0; Lw S6 108 A0;
    Lw S7 112 A0; Lw S8 116 A0; Lw S9 120 A0; Lw S10 124 A0; Lw S11 128 A0; Lw T3 132 A0;
    Lw T4 136 A0; Lw T5 140 A0; Lw T6 144 A0;
    Csrw SSCRATCH A0;
    Lw A0 60 A0;
    Sret ].

Definition kerneltrap : list instr :=
  [ Addi SP SP (-128);
    Sw RA 0 SP; Sw GP 8 SP; Sw TP 12 SP;
    Sw T0 16 SP; Sw T1 20 SP; Sw T2 24 SP; Sw T3 28 SP; Sw T4 32 SP; Sw T5 36 SP; Sw T6 40 SP;
    Sw A0 44 SP; Sw A1 48 SP; Sw A2 52 SP; Sw A3 56 SP; Sw A4 60 SP; Sw A5 64 SP; Sw A6 68 SP; Sw A7 72 SP;
    Sw S0 76 SP; Sw S1 80 SP; Sw S2 84 SP; Sw S3 88 SP; Sw S4 92 SP; Sw S5 96 SP; Sw S6 100 SP;
    Sw S7 104 SP; Sw S8 108 SP; Sw S9 112 SP; Sw S10 116 SP; Sw S11 120 SP;
    Csrr A0 SCAUSE; Csrr A1 SEPC;
    Call "s_trap_handle";
    Lw RA 0 SP; Lw GP 8 SP;
    Lw T0 16 SP; Lw T1 20 SP; Lw T2 24 SP; Lw T3 28 SP; Lw T4 32 SP; Lw T5 36 SP; Lw T6 40 SP;
    Lw A0 44 SP; Lw A1 48 SP; Lw A2 52 SP; Lw A3 56 SP; Lw A4 60 SP; Lw A5 64 SP; Lw A6 68 SP; Lw A7 72 SP;
    Lw S0 76 SP; Lw S1 80 SP; Lw S2 84 SP; Lw S3 88 SP; Lw S4 92 SP; Lw S5 96 SP; Lw S6 100 SP;
    Lw S7 104 SP; Lw S8 108 SP; Lw S9 112 SP; Lw S10 116 SP; Lw S11 120 SP;
    Addi SP SP 128;
    Sret ].

Definition swtch_S : list instr :=
  [ Sw RA 0 A0; Sw SP 4 A0; Sw S0 8 A0; Sw S1 12 A0; Sw S2 16 A0; Sw S3 20 A0; Sw S4 24 A0; Sw S5 28 A0;
    Sw S6 32 A0; Sw S7 36 A0; Sw S8 40 A0; Sw S9 44 A0; Sw S10 48 A0; Sw S11 52 A0;
    Lw RA 0 A1; Lw SP 4 A1; Lw S0 8 A1; Lw S1 12 A1; Lw S2 16 A1; Lw S3 20 A1; Lw S4 24 A1; Lw S5 28 A1;
    Lw S6 32 A1; Lw S7 36 A1; Lw S8 40 A1; Lw S9 44 A1; Lw S10 48 A1; Lw S11 52 A1;
    Ret ].

(** * The trap frame *)

Ltac tf_lia := unfold tf_k_sp, tf_k_trap, tf_k_satp, tf_u_trap, tf_epc, tf_k_hartid, tf_regs, sizeof_trapframe in *; lia.

(** Every register but [x0] and [a0], at its place in [struct trapframe_t]. *)
Definition frame_slots : list (reg * Z) :=
  (fun r => (r, tf_regs (reg_num r))) <$> filter (fun r => r <> ZERO /\ r <> A0) all_regs.

Lemma frame_slots_ok : slots_ok sizeof_trapframe frame_slots.
Proof. by apply slots_okb_ok. Qed.

Lemma frame_slots_in r : r <> ZERO -> r <> A0 -> (r, tf_regs (reg_num r)) ∈ frame_slots.
Proof.
  intros H1 H2. apply list_elem_of_fmap. exists r. split; [done |]. apply list_elem_of_filter. split; [done |].
  destruct r; cbn; set_solver.
Qed.

Lemma frame_slots_inv r o : (r, o) ∈ frame_slots -> r <> ZERO /\ r <> A0 /\ o = tf_regs (reg_num r).
Proof.
  intros (r' & [= -> ->] & Hf)%list_elem_of_fmap. apply list_elem_of_filter in Hf. tauto.
Qed.

Lemma frame_slots_regs r : r ∈ frame_slots.*1 <-> r <> ZERO /\ r <> A0.
Proof.
  rewrite list_elem_of_fmap. split.
  - intros ([r' o] & -> & Hin). cbn. apply frame_slots_inv in Hin. tauto.
  - intros [H1 H2]. exists (r, tf_regs (reg_num r)). split; [done | by apply frame_slots_in].
Qed.

(** The two files follow the struct. *)
Lemma usertrap_code : usertrap = [Csrrw A0 SSCRATCH A0] ++ saves A0 frame_slots ++ drop 31 usertrap.
Proof. reflexivity. Qed.

Lemma usertrapret_code : usertrapret = loads A0 frame_slots ++ drop 30 usertrapret.
Proof. reflexivity. Qed.

Definition regs_ok (rs : regfile) : Prop := forall r, 0 <= rget rs r < U32.

(** The user's registers are in the frame at [tf]. *)
Definition frame_holds (mem : gmap Z Z) (tf : Z) (rs : regfile) : Prop :=
  forall r, r <> ZERO -> load32 mem (tf + tf_regs (reg_num r)) = rget rs r.

Lemma addr_small m b off base : rget (rg m) b = base -> 0 <= base + off < U32 -> addr m b off = base + off.
Proof. intros Hb Hr. unfold addr. rewrite Hb. by apply u32_small. Qed.

Lemma csr_put_eq c v m : csr_of (put_csr c v m) c = u32 v.
Proof. unfold csr_of, put_csr. cbn. apply get0_insert_eq. Qed.

Lemma csr_put_ne c c' v m : c <> c' -> csr_of (put_csr c v m) c' = csr_of m c'.
Proof. intros H. unfold csr_of, put_csr. cbn. by apply get0_insert_ne. Qed.

(** * usertrap.S *)

(** Entered from user mode with registers [rg m]: what the kernel finds when
    [usertrap] jumps to the handler. *)
Record entered (m m' : mach) (tf : Z) : Prop := {
  en_frame : frame_holds (mm m') tf (rg m);
  en_epc : load32 (mm m') (tf + tf_epc) = u32 (csr_of m SEPC);
  en_mem : forall a, ~ (tf + tf_epc <= a < tf + tf_k_hartid) -> load8 (mm m') a = load8 (mm m) a;
  en_sp : rget (rg m') SP = load32 (mm m) (tf + tf_k_sp);
  en_tp : rget (rg m') TP = load32 (mm m) (tf + tf_k_hartid);
  en_args : rget (rg m') A0 = u32 (csr_of m SCAUSE) /\ rget (rg m') A1 = u32 (csr_of m SEPC);
  en_satp : csr_of m' SATP = load32 (mm m) (tf + tf_k_satp);
  en_stvec : csr_of m' STVEC = load32 (mm m) (tf + tf_k_trap);
  en_csrs : forall c, c <> SATP -> c <> STVEC -> c <> SSCRATCH -> csr_of m' c = csr_of m c
}.

(** What the kernel left in the frame for itself. *)
Definition kernel_slots : list (reg * Z) := [(TP, 148); (SP, 0); (T0, 4); (T1, 8); (T2, 12)].

Lemma save_csr r c off m tf : rget (rg m) A0 = tf -> r <> ZERO -> r <> A0 -> 0 <= tf + off < U32 ->
  execs [Csrr r c; Sw r off A0] m =
    Some (mk_mach (rset r (csr_of m c) (rg m)) (store32 (mm m) (tf + off) (u32 (csr_of m c))) (hc m)).
Proof.
  intros Ha H1 H2 Hr. cbn [execs exec]. rewrite (addr_small _ _ _ tf); [| cbn; by rewrite rget_ne | done].
  unfold put_mem, put_reg. cbn [rg mm hc]. by rewrite rget_eq.
Qed.

(** What follows the saves. *)
Lemma usertrap_tail m tf : rget (rg m) A0 = tf -> 0 <= tf -> tf + sizeof_trapframe <= U32 ->
  exists rs, let mm' := store32 (store32 (mm m) (tf + 60) (u32 (csr_of m SSCRATCH))) (tf + 16) (u32 (csr_of m SEPC)) in
  let m' := put_csr STVEC (load32 mm' (tf + 4)) (put_csr SATP (load32 mm' (tf + 8)) (mk_mach rs mm' (hc m))) in
  execs (take 15 (drop 31 usertrap)) m = Some m' /\
  rget rs SP = load32 mm' (tf + 0) /\ rget rs TP = load32 mm' (tf + 148) /\ rget rs T2 = load32 mm' (tf + 12) /\
  rget rs A0 = u32 (csr_of m SCAUSE) /\ rget rs A1 = u32 (csr_of m SEPC).
Proof.
  intros Ha H0 Hn.
  change (take 15 (drop 31 usertrap)) with ([Csrr T0 SSCRATCH; Sw T0 60 A0] ++ [Csrr T1 SEPC; Sw T1 16 A0] ++
    loads A0 kernel_slots ++ [SfenceVma; Csrw SATP T1; SfenceVma; Csrw STVEC T0; Csrr A0 SCAUSE; Csrr A1 SEPC]).
  rewrite execs_app, (save_csr T0 SSCRATCH 60 m tf), execs_app by (done || unfold sizeof_trapframe in *; lia).
  rewrite (save_csr T1 SEPC 16 _ tf), execs_app by (done || unfold sizeof_trapframe in *; lia).
  change (csr_of (mk_mach _ _ (hc m)) SEPC) with (csr_of m SEPC). cbn [rg mm hc].
  set (mm' := store32 (store32 _ _ _) _ _). set (m1 := mk_mach _ mm' (hc m)).
  destruct (execs_loads A0 sizeof_trapframe tf kernel_slots m1) as (rs & He & Hl & _);
    [done | done | done | by apply slots_okb_ok | by apply (bool_decide_unpack _) | by apply (bool_decide_unpack _) |].
  rewrite He. change (mm m1) with mm' in *. change (hc m1) with (hc m).
  exists (rset A1 (csr_of m SEPC) (rset A0 (csr_of m SCAUSE) rs)). cbn [execs exec].
  unfold put_csr, put_reg, csr_of. cbn [rg mm hc]. rewrite !get0_insert_ne by done.
  autorewrite with asm. rewrite (Hl T0 4), (Hl T1 8), (Hl SP 0), (Hl TP 148), (Hl T2 12) by (by apply (bool_decide_unpack _)).
  done.
Qed.

Section Usertrap.
Context (m : mach) (tf : Z) (Hsc : csr_of m SSCRATCH = tf) (H0 : 0 <= tf) (Hn : tf + sizeof_trapframe <= U32).
Context (Hrs : regs_ok (rg m)).

(** [a0] and [sscratch] are exchanged. *)
Definition swapped : mach := put_reg A0 tf (put_csr SSCRATCH (rget (rg m) A0) m).

Lemma swapped_regs r : r <> ZERO -> rget (rg swapped) r = if decide (r = A0) then tf else rget (rg m) r.
Proof.
  intros Hr. cbn. case_decide as E; [subst r; rewrite rget_eq by done | by rewrite rget_ne].
  apply u32_small. unfold sizeof_trapframe in Hn. lia.
Qed.

Lemma swapped_csr c : csr_of swapped c = if decide (c = SSCRATCH) then rget (rg m) A0 else csr_of m c.
Proof.
  change (csr_of swapped c) with (csr_of (put_csr SSCRATCH (rget (rg m) A0) m) c).
  case_decide as E; [subst c; rewrite csr_put_eq; apply u32_small, Hrs | by rewrite csr_put_ne].
Qed.

Lemma execs_usertrap : exists m', execs (take 46 usertrap) m = Some m' /\ entered m m' tf /\
  rget (rg m') T2 = load32 (mm m) (tf + tf_u_trap).
Proof.
  change (take 46 usertrap) with ([Csrrw A0 SSCRATCH A0] ++ saves A0 frame_slots ++ take 15 (drop 31 usertrap)).
  rewrite execs_app. cbn [execs exec]. rewrite Hsc. fold swapped. rewrite execs_app.
  destruct (execs_saves A0 sizeof_trapframe tf frame_slots swapped) as (mm2 & He & Hs & Hu);
    [by rewrite swapped_regs | done | done | apply frame_slots_ok |]. rewrite He.
  destruct (usertrap_tail (mk_mach (rg swapped) mm2 (hc swapped)) tf) as (rs & Ht & HSP & HTP & HT2 & HA0 & HA1);
    [cbn [rg]; by rewrite swapped_regs | done | done |]. cbn [mm hc] in *.
  change (csr_of (mk_mach (rg swapped) mm2 (hc swapped))) with (csr_of swapped) in *.
  rewrite !swapped_csr in *. cbn [decide decide_rel] in *. rewrite !(decide_True (P := SSCRATCH = SSCRATCH)) in * by done.
  rewrite !decide_False in * by done. rewrite (u32_small (rget (rg m) A0)) in * by apply Hrs.
  set (mm3 := store32 (store32 mm2 (tf + 60) (rget (rg m) A0)) (tf + 16) (u32 (csr_of m SEPC))) in *.
  eexists. split; [exact Ht |].
  assert (Hout : forall a, ~ (tf + tf_epc <= a < tf + tf_k_hartid) -> load8 mm3 a = load8 (mm m) a).
  { intros a Ha. unfold tf_epc, tf_k_hartid in Ha. unfold mm3. rewrite !load8_store32_ne by lia. apply Hu.
    intros r o Hin. apply frame_slots_inv in Hin as (_ & _ & ->). pose proof (reg_num_range r). unfold tf_regs. lia. }
  assert (Hk : forall o, 0 <= o /\ o + 4 <= tf_epc \/ tf_k_hartid <= o -> load32 mm3 (tf + o) = load32 (mm m) (tf + o)).
  { intros o Ho. apply load32_ext. intros a Ha. apply Hout. unfold tf_epc, tf_k_hartid in *. lia. }
  split; [| cbn [rg put_csr]; rewrite HT2; apply Hk; tf_lia]. split; cbn [rg mm put_csr].
  - intros r Hr. destruct (decide (r = A0)) as [-> | Hne].
    + change (tf + tf_regs (reg_num A0)) with (tf + 60). unfold mm3. rewrite load32_store32_ne, load32_store32_eq by lia.
      apply u32_small, Hrs.
    + pose proof (Hs r _ (frame_slots_in r Hr Hne)) as Hv. rewrite swapped_regs, decide_False in Hv by done.
      assert (Hnum : reg_num r <> 10) by (intros E; by apply Hne, reg_num_inj). pose proof (reg_num_range r).
      unfold mm3. rewrite !load32_store32_ne, Hv by (unfold tf_regs; lia). apply u32_small, Hrs.
  - unfold mm3. rewrite load32_store32_eq. apply u32_idem.
  - exact Hout.
  - rewrite HSP. apply Hk. tf_lia.
  - rewrite HTP. apply Hk. tf_lia.
  - split; [exact HA0 | exact HA1].
  - rewrite csr_put_ne by discriminate. rewrite csr_put_eq, u32_small by apply load32_range. apply Hk. tf_lia.
  - rewrite csr_put_eq, u32_small by apply load32_range. apply Hk. tf_lia.
  - intros c H1 H2 H3. rewrite !csr_put_ne by done.
    change (csr_of (mk_mach rs mm3 (hc swapped)) c) with (csr_of swapped c). by rewrite swapped_csr, decide_False.
Qed.

Lemma usertrap_run : exists m', run 47 usertrap 0 m = Left (Jump (load32 (mm m) (tf + tf_u_trap))) 47 m' /\ entered m m' tf.
Proof.
  destruct execs_usertrap as (m' & He & Hen & HT2). exists m'. split; [| done].
  change 47%nat with (length (take 46 usertrap) + 1)%nat at 1.
  rewrite (run_execs _ usertrap 0 _ _ 1 He eq_refl). cbn. by rewrite HT2.
Qed.
End Usertrap.

(** * usertrapret.S *)

Lemma usertrapret_run m tf : rget (rg m) A0 = tf -> 0 <= tf -> tf + sizeof_trapframe <= U32 ->
  exists m', run 33 usertrapret 0 m = Left Sreturned 33 m' /\ frame_holds (mm m) tf (rg m') /\ mm m' = mm m /\
    csr_of m' SSCRATCH = tf /\ forall c, c <> SSCRATCH -> csr_of m' c = csr_of m c.
Proof.
  intros Ha H0 Hn.
  destruct (execs_loads A0 sizeof_trapframe tf frame_slots m) as (rs & He & Hl & Hk);
    [done | done | done | apply frame_slots_ok | by rewrite frame_slots_regs; intros [_ ?] | by rewrite frame_slots_regs; intros [? _] |].
  assert (Ha' : rget rs A0 = tf).
  { rewrite Hk; [exact Ha |]. rewrite frame_slots_regs. intros [_ H]. by apply H. }
  assert (Hs : execs (take 32 usertrapret) m =
    Some (mk_mach (rset A0 (load32 (mm m) (tf + 60)) rs) (mm m) (<[SSCRATCH := u32 tf]> (hc m)))).
  { change (take 32 usertrapret) with (loads A0 frame_slots ++ [Csrw SSCRATCH A0; Lw A0 60 A0]).
    rewrite execs_app, He. cbn [execs exec]. rewrite (addr_small _ _ _ tf); [| done | unfold sizeof_trapframe in Hn; lia].
    unfold put_csr, put_reg. cbn [rg mm hc]. by rewrite Ha'. }
  eexists. split.
  { change 33%nat with (length (take 32 usertrapret) + 1)%nat at 1. rewrite (run_execs _ usertrapret 0 _ _ 1 Hs eq_refl). reflexivity. }
  split_and!; cbn [rg mm].
  - intros r Hr. destruct (decide (r = A0)) as [-> | Hne].
    + rewrite rget_eq by discriminate. rewrite u32_small by apply load32_range. reflexivity.
    + rewrite rget_ne by done. symmetry. by apply Hl, frame_slots_in.
  - done.
  - unfold csr_of. cbn [hc]. rewrite get0_insert_eq. apply u32_small. unfold sizeof_trapframe in Hn. lia.
  - intros c Hc. unfold csr_of. cbn [hc]. by rewrite get0_insert_ne.
Qed.

(** * kerneltrap.S *)

(** Every register but [x0] and [sp]. *)
Definition stack_slots : list (reg * Z) :=
  [(RA, 0); (GP, 8); (TP, 12); (T0, 16); (T1, 20); (T2, 24); (T3, 28); (T4, 32); (T5, 36); (T6, 40);
   (A0, 44); (A1, 48); (A2, 52); (A3, 56); (A4, 60); (A5, 64); (A6, 68); (A7, 72);
   (S0, 76); (S1, 80); (S2, 84); (S3, 88); (S4, 92); (S5, 96); (S6, 100); (S7, 104); (S8, 108); (S9, 112);
   (S10, 116); (S11, 120)].

(** [tp] is not restored: the hart may be another one by then. *)
Definition restored_slots : list (reg * Z) := filter (fun e => e.1 <> TP) stack_slots.

Lemma stack_slots_all r : r <> ZERO -> r <> SP -> exists o, (r, o) ∈ stack_slots /\ (r <> TP -> (r, o) ∈ restored_slots).
Proof.
  intros H1 H2. assert (Hin : r ∈ stack_slots.*1) by (destruct r; try done; by apply (bool_decide_unpack _)).
  apply list_elem_of_fmap in Hin as ([r' o] & -> & Hin). exists o. split; [done |]. intros H3.
  by apply list_elem_of_filter.
Qed.

Lemma stack_slots_range r o : (r, o) ∈ stack_slots -> 0 <= o /\ o + 4 <= 128.
Proof.
  intros Hin. assert (Hok : slots_ok 128 stack_slots) by (by apply slots_okb_ok).
  pose proof (so_range _ _ Hok) as Hr. rewrite list.Forall_forall in Hr. apply Hr in Hin as (? & ? & _). done.
Qed.

Section Kerneltrap.
Context (m : mach) (sp : Z) (Hsp : rget (rg m) SP = sp) (Hr : 128 <= sp < U32) (Hrs : regs_ok (rg m)).

(** Where the C handler is called. *)
Record pushed_regs (m1 : mach) : Prop := {
  pr_sp : rget (rg m1) SP = sp - 128;
  pr_tp : rget (rg m1) TP = rget (rg m) TP;
  pr_saved : forall r o, (r, o) ∈ stack_slots -> load32 (mm m1) (sp - 128 + o) = rget (rg m) r;
  pr_args : rget (rg m1) A0 = u32 (csr_of m SCAUSE) /\ rget (rg m1) A1 = u32 (csr_of m SEPC);
  pr_mem : forall a, ~ (sp - 128 <= a < sp) -> load8 (mm m1) a = load8 (mm m) a;
  pr_csrs : hc m1 = hc m
}.

Lemma kerneltrap_call : exists m1, run 34 kerneltrap 0 m = Left (Called "s_trap_handle") 34 m1 /\ pushed_regs m1.
Proof.
  set (m0 := put_reg SP (sp - 128) m).
  assert (Hb : rget (rg m0) SP = sp - 128) by (cbn; rewrite rget_eq by done; apply u32_small; lia).
  destruct (execs_saves SP 128 (sp - 128) stack_slots m0) as (mm1 & He & Hs & Hu); [done | lia | lia | by apply slots_okb_ok |].
  set (m1 := mk_mach (rset A1 (csr_of m SEPC) (rset A0 (csr_of m SCAUSE) (rg m0))) mm1 (hc m)).
  assert (Hx : execs (take 33 kerneltrap) m = Some m1).
  { change (take 33 kerneltrap) with ([Addi SP SP (-128)] ++ saves SP stack_slots ++ [Csrr A0 SCAUSE; Csrr A1 SEPC]).
    rewrite execs_app. cbn [execs exec]. rewrite Hsp. change (sp + -128) with (sp - 128). fold m0.
    rewrite execs_app, He. reflexivity. }
  exists m1. split.
  { change 34%nat with (length (take 33 kerneltrap) + 1)%nat at 1. rewrite (run_execs _ kerneltrap 0 _ _ 1 Hx eq_refl). reflexivity. }
  split; cbn [m1 rg mm hc].
  - autorewrite with asm. exact Hb.
  - autorewrite with asm. cbn. by autorewrite with asm.
  - intros r o Hin. rewrite (Hs r o Hin). cbn. destruct (decide (r = SP)) as [-> | Hne].
    + exfalso. revert Hin. apply (bool_decide_unpack _). exact I.
    + rewrite rget_ne by done. apply u32_small, Hrs.
  - split; [rewrite rget_ne, rget_eq by discriminate | rewrite rget_eq by discriminate]; reflexivity.
  - intros a Ha. rewrite Hu; [done |]. intros r o Hin. pose proof (stack_slots_range r o Hin). lia.
  - done.
Qed.

(** Back from the handler, on whichever hart, with the stack as it was. *)
Lemma kerneltrap_return m1 m2 : pushed_regs m1 -> rget (rg m2) SP = sp - 128 ->
  (forall a, sp - 128 <= a < sp -> load8 (mm m2) a = load8 (mm m1) a) ->
  exists m3, run 31 kerneltrap 34 m2 = Left Sreturned 65 m3 /\
    (forall r, r <> TP -> rget (rg m3) r = rget (rg m) r) /\ rget (rg m3) TP = rget (rg m2) TP /\
    mm m3 = mm m2 /\ hc m3 = hc m2.
Proof.
  intros Hp Hs2 Hm2.
  destruct (execs_loads SP 128 (sp - 128) restored_slots m2) as (rs & He & Hl & Hk);
    [done | lia | lia | by apply slots_okb_ok | by apply (bool_decide_unpack _) | by apply (bool_decide_unpack _) |].
  assert (Hb : rget rs SP = sp - 128) by (rewrite Hk; [exact Hs2 | by apply (bool_decide_unpack _)]).
  assert (Hx : execs (take 30 (drop 34 kerneltrap)) m2 = Some (mk_mach (rset SP sp rs) (mm m2) (hc m2))).
  { change (take 30 (drop 34 kerneltrap)) with (loads SP restored_slots ++ [Addi SP SP 128]).
    rewrite execs_app, He. cbn [execs exec rg]. rewrite Hb. replace (sp - 128 + 128) with sp by lia. reflexivity. }
  eexists. split.
  { change 31%nat with (length (take 30 (drop 34 kerneltrap)) + 1)%nat at 1.
    rewrite (run_execs _ kerneltrap 34 _ _ 1 Hx eq_refl). reflexivity. }
  cbn [rg mm hc]. split_and!; [| | done | done].
  - intros r Hne. destruct (decide (r = ZERO)) as [-> | H0]; [done |]. destruct (decide (r = SP)) as [-> | H1].
    { rewrite rget_eq by done. rewrite Hsp. apply u32_small. lia. }
    rewrite rget_ne by done. destruct (stack_slots_all r H0 H1) as (o & Hin & Hin'). rewrite (Hl r o (Hin' Hne)).
    rewrite <- (pr_saved _ Hp r o Hin). apply load32_ext. intros a Ha. apply Hm2. pose proof (stack_slots_range r o Hin). lia.
  - rewrite rget_ne by done. apply Hk. by apply (bool_decide_unpack _).
Qed.
End Kerneltrap.

(** * swtch.S *)

Definition context_slots : list (reg * Z) :=
  [(RA, 0); (SP, 4); (S0, 8); (S1, 12); (S2, 16); (S3, 20); (S4, 24); (S5, 28); (S6, 32); (S7, 36); (S8, 40);
   (S9, 44); (S10, 48); (S11, 52)].
Definition sizeof_context : Z := 56.

(** [struct context] in memory, and as registers. *)
Definition context_at (mem : gmap Z Z) (a : Z) : context :=
  let w k := load32 mem (a + 4 * k) in
  mk_context (w 0) (w 1) (w 2) (w 3) (w 4) (w 5) (w 6) (w 7) (w 8) (w 9) (w 10) (w 11) (w 12) (w 13).
Definition context_regs (rs : regfile) : context :=
  mk_context (rget rs RA) (rget rs SP) (rget rs S0) (rget rs S1) (rget rs S2) (rget rs S3) (rget rs S4) (rget rs S5)
    (rget rs S6) (rget rs S7) (rget rs S8) (rget rs S9) (rget rs S10) (rget rs S11).

Lemma context_eq mem a rs : (forall r o, (r, o) ∈ context_slots -> load32 mem (a + o) = rget rs r) ->
  context_at mem a = context_regs rs.
Proof.
  intros H. unfold context_at, context_regs. f_equal; (apply H; by apply (bool_decide_unpack _)).
Qed.

Lemma swtch_run m old new : rget (rg m) A0 = old -> rget (rg m) A1 = new -> regs_ok (rg m) ->
  0 <= old -> old + sizeof_context <= U32 -> 0 <= new -> new + sizeof_context <= U32 ->
  old + sizeof_context <= new \/ new + sizeof_context <= old ->
  exists m', run 29 swtch_S 0 m = Left (Jump (c_ra (context_at (mm m) new))) 29 m' /\
    context_at (mm m') old = context_regs (rg m) /\ context_regs (rg m') = context_at (mm m) new /\
    (forall r, r ∉ context_slots.*1 -> rget (rg m') r = rget (rg m) r) /\
    (forall a, ~ (old <= a < old + sizeof_context) -> load8 (mm m') a = load8 (mm m) a) /\ hc m' = hc m.
Proof.
  intros Ho Hn Hrs O1 O2 N1 N2 Hd.
  assert (Hok : slots_ok sizeof_context context_slots) by (by apply slots_okb_ok).
  assert (Hrange : forall r o, (r, o) ∈ context_slots -> 0 <= o /\ o + 4 <= sizeof_context).
  { intros r o Hin. pose proof (so_range _ _ Hok) as Hr. rewrite list.Forall_forall in Hr. apply Hr in Hin as (? & ? & _). done. }
  destruct (execs_saves A0 sizeof_context old context_slots m) as (mm1 & He & Hs & Hu); [done.. |].
  destruct (execs_loads A1 sizeof_context new context_slots (mk_mach (rg m) mm1 (hc m))) as (rs & He' & Hl & Hk);
    [done | done | done | done | by apply (bool_decide_unpack _) | by apply (bool_decide_unpack _) |]. cbn [mm hc rg] in *.
  assert (Hx : execs (take 28 swtch_S) m = Some (mk_mach rs mm1 (hc m))).
  { change (take 28 swtch_S) with (saves A0 context_slots ++ loads A1 context_slots). by rewrite execs_app, He. }
  assert (Hout : forall a, ~ (old <= a < old + sizeof_context) -> load8 mm1 a = load8 (mm m) a).
  { intros a Ha. apply Hu. intros r o Hin. pose proof (Hrange r o Hin). lia. }
  assert (Hnew : forall r o, (r, o) ∈ context_slots -> load32 (mm m) (new + o) = rget rs r).
  { intros r o Hin. rewrite (Hl r o Hin). symmetry. apply load32_ext. intros a Ha. apply Hout. pose proof (Hrange r o Hin). lia. }
  exists (mk_mach rs mm1 (hc m)). cbn [rg mm hc]. split_and!.
  - change 29%nat with (length (take 28 swtch_S) + 1)%nat at 1. rewrite (run_execs _ swtch_S 0 _ _ 1 Hx eq_refl). cbn.
    rewrite <- (Hnew RA 0) by (by apply (bool_decide_unpack _)). reflexivity.
  - apply context_eq. intros r o Hin. rewrite (Hs r o Hin). apply u32_small, Hrs.
  - symmetry. by apply context_eq.
  - exact Hk.
  - exact Hout.
  - reflexivity.
Qed.

(** * Properties *)

Section Properties.
Context (m : mach).

(** C31 ([swtch] there and back): [swtch(old, new)] stores the caller's [ra],
    [sp] and [s0]..[s11] in [*old], which is all it writes, loads them from
    [*new] and returns to the [ra] found there. When somebody later switches to
    [old], unchanged by then, execution goes on where the first call would have
    returned, with the registers that a call preserves as they were. *)
Theorem swtch_roundtrip old new : rget (rg m) A0 = old -> rget (rg m) A1 = new -> regs_ok (rg m) ->
  0 <= old -> old + sizeof_context <= U32 -> 0 <= new -> new + sizeof_context <= U32 ->
  old + sizeof_context <= new \/ new + sizeof_context <= old ->
  exists m1, run 29 swtch_S 0 m = Left (Jump (c_ra (context_at (mm m) new))) 29 m1 /\
    context_at (mm m1) old = context_regs (rg m) /\ context_regs (rg m1) = context_at (mm m) new /\
    (forall a, ~ (old <= a < old + sizeof_context) -> load8 (mm m1) a = load8 (mm m) a) /\
    forall m2 other, rget (rg m2) A0 = other -> rget (rg m2) A1 = old -> regs_ok (rg m2) ->
      0 <= other -> other + sizeof_context <= U32 -> other + sizeof_context <= old \/ old + sizeof_context <= other ->
      (forall a, old <= a < old + sizeof_context -> load8 (mm m2) a = load8 (mm m1) a) ->
      exists m3, run 29 swtch_S 0 m2 = Left (Jump (rget (rg m) RA)) 29 m3 /\ context_regs (rg m3) = context_regs (rg m).
Proof.
  intros Ho Hn Hrs O1 O2 N1 N2 Hd. destruct (swtch_run m old new) as (m1 & He & Hs & Hl & _ & Hm & _); try assumption.
  exists m1. split; [exact He |]. split; [exact Hs |]. split; [exact Hl |]. split; [exact Hm |].
  intros m2 other Ha Hb Hrs2 P1 P2 Hd2 Hkeep.
  destruct (swtch_run m2 other old) as (m3 & He3 & _ & Hl3 & _); try assumption.
  assert (Hc : context_at (mm m2) old = context_regs (rg m)).
  { rewrite <- Hs. unfold context_at. f_equal; apply load32_ext; intros a Hab; apply Hkeep; unfold sizeof_context; lia. }
  rewrite Hc in He3, Hl3. exists m3. split; [exact He3 | exact Hl3].
Qed.
End Properties.

(** A user program traps; its frame is page 7 of RAM. *)
Definition user_regs : regfile := fun r => 100 + reg_num r.
Definition trap_mach : mach := mk_mach user_regs (store32 ∅ 0x8000700C 0x80000300) {[SSCRATCH := 0x80007000; SEPC := 0x1004; SCAUSE := 8]}.

Lemma user_regs_ok : regs_ok user_regs.
Proof. intros r. unfold rget, user_regs, U32. case_decide; [lia |]. pose proof (reg_num_range r). lia. Qed.

Lemma kernel_regs_ok r v : 0 <= v < U32 -> regs_ok (rset r v user_regs).
Proof.
  intros Hv x. unfold rget, rset. case_decide; [unfold U32; lia |]. case_decide; [apply u32_range |].
  pose proof (user_regs_ok x) as Hx. unfold rget in Hx. by rewrite decide_False in Hx.
Qed.

(** The scheduler's context at 0x80003000, a process's at 0x80003100. *)
Definition switch_mach : mach :=
  mk_mach (rset A1 0x80003100 (rset A0 0x80003000 user_regs)) (store32 ∅ 0x80003100 0x80000500) ∅.

Lemma swtch_roundtrip_witness :
  exists m1, run 29 swtch_S 0 switch_mach = Left (Jump (c_ra (context_at (mm switch_mach) 0x80003100))) 29 m1 /\
    context_at (mm m1) 0x80003000 = context_regs (rg switch_mach) /\
    context_regs (rg m1) = context_at (mm switch_mach) 0x80003100 /\
    (forall a, ~ (0x80003000 <= a < 0x80003000 + sizeof_context) -> load8 (mm m1) a = load8 (mm switch_mach) a) /\
    forall m2 other, rget (rg m2) A0 = other -> rget (rg m2) A1 = 0x80003000 -> regs_ok (rg m2) ->
      0 <= other -> other + sizeof_context <= U32 ->
      other + sizeof_context <= 0x80003000 \/ 0x80003000 + sizeof_context <= other ->
      (forall a, 0x80003000 <= a < 0x80003000 + sizeof_context -> load8 (mm m2) a = load8 (mm m1) a) ->
      exists m3, run 29 swtch_S 0 m2 = Left (Jump (rget (rg switch_mach) RA)) 29 m3 /\
        context_regs (rg m3) = context_regs (rg switch_mach).
Proof.
  apply (swtch_roundtrip switch_mach 0x80003000 0x80003100); try (unfold U32, sizeof_context; lia).
  - vm_compute. reflexivity.
  - vm_compute. reflexivity.
  - intros x. unfold switch_mach. cbn [rg]. destruct (decide (x = A1)) as [-> | H1]; [vm_compute; split; congruence |].
    rewrite rget_ne by done. apply kernel_regs_ok. unfold U32. lia.
Defined.
