(* ===== verification/ProcProofs.v ===== *)
(** Properties of the process code (Proc.v): building a user page table, and
    waking processes. *)
From S2P Require Import Prelude Machine Csr KPrint Spinlock Printf Mem Vm PageTable KernelMap UserMem UserSpace Took Exec ExecProofs Proc.

(** * User page tables *)

(** [PTE_V] among the flags makes no difference. *)
Lemma mk_pte_V p flags : mk_pte p (Z.lor flags PTE_V) = mk_pte p flags.
Proof. unfold mk_pte. by rewrite <- !Z.lor_assoc, Z.lor_diag. Qed.

(** One [mappages] of [init_userpt]: all of it, or failure. *)
Lemma wp_map_ident_all s pt lo hi flags (Q : Z -> kstate -> Prop) : kready s -> pt_wf s pt ->
  lo mod PAGE_SIZE = 0 -> hi mod PAGE_SIZE = 0 -> 0 <= lo < hi -> hi < U32 ->
  (forall v, lo <= v < hi -> valid (pte_at (mem s) pt v) = false) ->
  (forall s', pt_grow pt s s' -> (forall b, ~ avail s' b) -> Q (-1) s') ->
  (forall s', pt_grow pt s s' -> (forall v, 0 <= v < U32 -> pte_at (mem s') pt v =
     ident_range (pte_at (mem s) pt) lo hi flags v) -> Q 0 s') ->
  wp (mappages pt lo lo (hi - lo) (Z.lor flags PTE_V)) Q s.
Proof.
  intros Hr Hwf Hlo Hhi Hlt Hu Hun HF HS.
  eapply wp_mono; [apply wp_mappages; try done; try (unfold PAGE_SIZE, U32 in *; zlia) |].
  { intros v Hv. apply Hun. lia. }
  intros r s' (Hg & k & Hk & Hm & [[-> ->] | (-> & _ & Hf)]); [| by apply HF].
  apply HS; [done |]. intros v Hv.
  assert (Hn : 4096 * ((hi - lo) / PAGE_SIZE) = hi - lo) by (unfold PAGE_SIZE in *; zlia).
  rewrite Hm, mapped_ident, Hn by done. unfold ident_range.
  replace (lo + (hi - lo)) with hi by lia. by rewrite mk_pte_V.
Qed.

(** Giving up a table under construction returns every page. *)
Lemma wp_abandon s s1 p s3 (Q : Z -> kstate -> Prop) : kready s -> alloc_some s p s1 ->
  pt_grow p (set_mem (zero_page (mem s1) p) s1) s3 ->
  (forall s', kready s' -> kframe s s' -> kept s s' -> Q 0 s') -> wp (freewalk p;; mret 0) Q s3.
Proof.
  intros Hr Ha Hg HQ. apply wp_bind, wp_freewalk; [apply Hg | apply Hg |].
  intros s' Hs'. apply wp_ret, HQ; [apply Hs' | |].
  { transitivity s3; [| apply Hs']. etransitivity; [by eapply fresh_frame | apply Hg]. }
  eapply took_equiv; [| eapply took_return; [eapply took_table; [apply Hr | done | done] | exact Hs' | done]].
  intros b. tauto.
Qed.

(** A table for which there was no memory. *)
Lemma scarce_table s s1 p s3 : alloc_some s p s1 -> pt_grow p (set_mem (zero_page (mem s1) p) s1) s3 ->
  (forall b, ~ avail s3 b) -> scarce 1026 s.
Proof.
  intros Ha Hg Hf. pose proof (scarce_ext p _ 0 0 _ _ (pt_grow_ext _ _ _ Hg) (few_none 0 _ ltac:(done) Hf)
    (few_none 0 _ ltac:(done) (fun _ HF => HF))) as Hs.
  apply (few_or 1025 1 _ _ _ Hs (few_one p)). intros b Hb Hne. by apply (fresh_avail s s1 p Ha).
Qed.

(** What a user's table maps before the program is loaded: the kernel. *)
Definition user_map0 `{Layout} (v : Z) : Z :=
  ident_range (ident_range (ident_range (ident_range (fun _ => 0)
    KERNBASE sym_trampoline (Z.lor PTE_R PTE_X))
    sym_trampoline (sym_trampoline + PAGE_SIZE) (Z.lor PTE_R PTE_X))
    (sym_trampoline + PAGE_SIZE) MEM_END (Z.lor PTE_R PTE_W))
    UART_0 (UART_0 + PAGE_SIZE) (Z.lor PTE_R PTE_W) v.

(** None of it is accessible to the user. *)
Lemma user_map0_kernel `{Layout} v : 0 <= v < U32 -> allows (user_map0 v) 0 = false.
Proof.
  intros Hv. unfold user_map0, ident_range.
  assert (Hr : PGROUNDDOWN v mod PAGE_SIZE = 0 /\ 0 <= PGROUNDDOWN v < U32).
  { rewrite PGROUNDDOWN_spec. unfold PAGE_SIZE, U32 in *. zlia. }
  assert (Hno : forall flags, 0 <= flags < 1024 -> Z.testbit flags 4 = false ->
    allows (mk_pte (PGROUNDDOWN v) flags) 0 = false).
  { intros flags Hf H4. apply not_true_iff_false. unfold allows, want. rewrite Z.lor_0_r, Z.eqb_eq.
    intros He. apply (f_equal (fun z => Z.testbit z 4)) in He.
    rewrite Z.land_spec, mk_pte_bit, Z.lor_spec, H4 in He by (done || easy). discriminate He. }
  repeat (zcase; [by apply Hno |]). apply allows_0.
Qed.

(** It leaves the user's addresses and the stack page free. *)
Lemma user_map0_free `{L : Layout} {HL : LayoutOk L} v :
  USER_BASE <= v < UART_0 \/ USER_STACK_TOP - PAGE_SIZE <= v < USER_STACK_TOP -> user_map0 v = 0.
Proof.
  destruct HL as [[Ht _] He [[H1 H2] _]]. intros Hv. unfold user_map0, ident_range.
  assert (Hd : v < KERNBASE \/ MEM_END <= v) by
    (revert Hv; cbv -[Z.le Z.lt]; lia).
  assert (Hu : v < UART_0 \/ UART_0 + PAGE_SIZE <= v) by (revert Hv; cbv -[Z.le Z.lt]; lia).
  unfold KERNBASE, MEM_START, PAGE_SIZE in *. repeat (zcase; [lia |]). done.
Qed.

(** The table is built step by step; every step may fail. *)
Lemma wp_init_userpt `{L : Layout} {HL : LayoutOk L} s (Q : Z -> kstate -> Prop) : kready s ->
  (forall s', kready s' -> kframe s s' -> kept s s' -> scarce 1026 s -> Q 0 s') ->
  (forall p s1 s', alloc_some s p s1 -> pt_grow p (set_mem (zero_page (mem s1) p) s1) s' ->
     (forall v, 0 <= v < U32 -> pte_at (mem s') p v = user_map0 v) -> Q p s') ->
  wp init_userpt Q s.
Proof.
  intros Hr HF HS. destruct HL as [[Ht1 Ht2] He [[Hn1 Hn2] _]].
  unfold init_userpt, ptcreate. apply wp_bind, wp_bind, pa_alloc; [done | |].
  { intros s1 Hs1. cbn [Z.eqb]. apply wp_ret, wp_ret, HF; [by eapply kready_alloc_none | apply Hs1 | |].
    { apply took_alloc_none; [apply Hr | done]. }
    apply few_none; [done | apply Hs1]. }
  intros p s1 Hs1. rewrite (fresh_nonzero _ _ _ Hs1). apply wp_bind, wp_memset_page, wp_ret.
  rewrite (fresh_nonzero _ _ _ Hs1).
  set (s2 := set_mem (zero_page (mem s1) p) s1).
  assert (Hg2 : pt_grow p s2 s2) by (apply pt_grow_refl; [by eapply fresh_ready | by eapply fresh_wf]).
  assert (Hun : forall v, pte_at (mem s2) p v = 0) by (intros; apply (fresh_unmapped _ _ _ Hs1)).
  assert (Hab : forall s3, pt_grow p s2 s3 -> (forall b, ~ avail s3 b) -> wp (freewalk p;; mret 0) Q s3).
  { intros s3 Hg Hf. eapply wp_abandon; [done | done | done |]. intros s' H1 H2 H3. apply HF; try done.
    by apply (scarce_table s s1 p s3). }
  assert (Hb : KERNBASE < sym_trampoline /\ sym_trampoline + PAGE_SIZE < MEM_END)
    by (unfold KERNBASE, MEM_START, PAGE_SIZE in *; lia).
  set (T := sym_trampoline) in *.
  rewrite !u32_small by (unfold KERNBASE, MEM_END, PAGE_SIZE, U32 in *; lia).
  (* text *)
  apply wp_bind, wp_map_ident_all; [apply Hg2 | apply Hg2 | done | done |
    unfold KERNBASE in *; lia | unfold MEM_END, PAGE_SIZE, U32 in *; lia |
    by intros; rewrite Hun | by intros s3 Hg3 Hf3; apply Hab |].
  intros s3 Hg3 Hm3. cbn [Z.ltb Z.compare].
  (* trampoline *)
  replace PAGE_SIZE with (T + PAGE_SIZE - T) at 1 by lia.
  apply wp_bind, wp_map_ident_all; [apply Hg3 | apply Hg3 | done | unfold PAGE_SIZE in *; zlia |
    unfold KERNBASE, PAGE_SIZE in *; lia | unfold MEM_END, PAGE_SIZE, U32 in *; lia | |
    by intros s4 Hg4 Hf4; apply Hab; [eapply pt_grow_trans |] |].
  { intros v Hv. rewrite Hm3 by (unfold MEM_END, PAGE_SIZE, U32, KERNBASE in *; lia).
    unfold ident_range. zcase; [lia |]. by rewrite Hun. }
  intros s4 Hg4 Hm4. cbn [Z.ltb Z.compare].
  (* data *)
  apply wp_bind, wp_map_ident_all; [apply Hg4 | apply Hg4 | unfold PAGE_SIZE in *; zlia | done |
    unfold KERNBASE, PAGE_SIZE in *; lia | done | |
    by intros s5 Hg5 Hf5; apply Hab; [eapply pt_grow_trans; [eapply pt_grow_trans |] |] |].
  { intros v Hv. assert (Hv' : 0 <= v < U32) by (unfold MEM_END, PAGE_SIZE, U32, KERNBASE in *; lia).
    rewrite Hm4 by done. unfold ident_range. zcase; [lia |].
    rewrite Hm3 by done. unfold ident_range. zcase; [unfold PAGE_SIZE in *; lia |]. by rewrite Hun. }
  intros s5 Hg5 Hm5. cbn [Z.ltb Z.compare].
  assert (Hg25 : pt_grow p s2 s5) by (eapply pt_grow_trans; [eapply pt_grow_trans |]; done).
  (* UART *)
  change PAGE_SIZE with (UART_0 + PAGE_SIZE - UART_0) at 1.
  apply wp_bind, wp_map_ident_all; [apply Hg5 | apply Hg5 | done | done | done | done | |
    by intros s6 Hg6 Hf6; apply Hab; [eapply pt_grow_trans |] |].
  { intros v Hv. assert (Hv' : 0 <= v < U32) by (unfold UART_0, PAGE_SIZE, U32 in *; lia).
    unfold ident_range, UART_0, KERNBASE, PAGE_SIZE in *. rewrite Hm5 by done. zcase; [lia |].
    rewrite Hm4 by done. zcase; [lia |]. rewrite Hm3 by done. zcase; [lia |]. by rewrite Hun. }
  intros s6 Hg6 Hm6. cbn [Z.ltb Z.compare]. apply wp_ret, (HS p s1); [done | by eapply pt_grow_trans |].
  intros v Hv. unfold user_map0. fold T. rewrite Hm6 by done. unfold ident_range in *.
  zcase; [done |]. rewrite Hm5 by done. zcase; [done |]. rewrite Hm4 by done. zcase; [done |].
  rewrite Hm3 by done. zcase; [done | apply Hun].
Qed.

(** A table in which only the kernel is mapped is an empty user space. *)
Lemma kernel_only_uspace `{Layout} s pt : pt_wf s pt ->
  (forall v, 0 <= v < U32 -> pte_at (mem s) pt v = user_map0 v) -> uspace_ok s pt.
Proof.
  intros Hwf Hm. split; [done | |].
  - intros v Hv Hal. rewrite Hm, user_map0_kernel in Hal by done. discriminate Hal.
  - intros v v' Hv _ Hal. rewrite Hm, user_map0_kernel in Hal by done. discriminate Hal.
Qed.

(** A user page table: [init_userpt] returns 0 and leaks nothing, when no more
    pages were available than a page table can have, or returns a well-formed private table that maps the kernel's text, data,
    RAM and the UART to themselves, none of it accessible to the user, and in
    which the user's addresses and the stack page are still free, as
    [load_elf] and [uvmfree] require. *)
Theorem init_userpt_correct `{L : Layout} {HL : LayoutOk L} s : kready s ->
  wp init_userpt (fun pt s' => kready s' /\ kframe s s' /\
    (pt = 0 /\ (forall b, avail s' b <-> avail s b) /\ scarce 1026 s \/
     pt <> 0 /\ uspace_ok s' pt /\ (forall v, 0 <= v < U32 -> pte_at (mem s') pt v = user_map0 v) /\
     (forall v, USER_BASE <= v < UART_0 \/ USER_STACK_TOP - PAGE_SIZE <= v < USER_STACK_TOP ->
        valid (pte_at (mem s') pt v) = false) /\
     (forall b, avail s' b <-> avail s b /\ ~ table (mem s') pt b))) s.
Proof.
  intros Hr. apply wp_init_userpt; [done | |].
  { intros s' Hr' Hf' Ht Hsc. split_and!; [done | done |]. left. split_and!; [done | | done].
    intros b. rewrite (tk_avail _ _ _ _ Ht). tauto. }
  intros p s1 s' Ha Hg Hm. split_and!; [apply Hg | etransitivity; [by eapply fresh_frame | apply Hg] |].
  right. split_and!.
  - pose proof (fresh_nonzero _ _ _ Ha) as Hz. zbool. done.
  - apply kernel_only_uspace; [apply Hg | done].
  - done.
  - intros v Hv. assert (Hv' : 0 <= v < U32) by (revert Hv; cbv -[Z.le Z.lt]; lia).
    by rewrite Hm, user_map0_free.
  - intros b. rewrite (pg_avail _ _ _ Hg). pose proof (fresh_avail s s1 p Ha b) as Hb.
    split; [tauto |]. intros [H1 H2]. assert (b <> p) by (intros ->; apply H2; by left). tauto.
Qed.

Lemma init_userpt_correct_witness :
  wp init_userpt (fun pt s' => kready s' /\ kframe two_pages s' /\
    (pt = 0 /\ (forall b, avail s' b <-> avail two_pages b) /\ scarce 1026 two_pages \/
     pt <> 0 /\ uspace_ok s' pt /\ (forall v, 0 <= v < U32 -> pte_at (mem s') pt v = user_map0 v) /\
     (forall v, USER_BASE <= v < UART_0 \/ USER_STACK_TOP - PAGE_SIZE <= v < USER_STACK_TOP ->
        valid (pte_at (mem s') pt v) = false) /\
     (forall b, avail s' b <-> avail two_pages b /\ ~ table (mem s') pt b))) two_pages.
Proof. exact (init_userpt_correct two_pages two_pages_ready). Defined.

(** * Waking processes *)

(** Everything but the process table is as it was, the synchronisation state up
    to its equivalence. *)
Record pframe (s s' : kstate) : Prop := {
  pf_mem : mem s' = mem s;
  pf_bitmap : mem_bitmap s' = mem_bitmap s;
  pf_start : start_page s' = start_page s;
  pf_kpt : kptable s' = kptable s;
  pf_pid : curr_pid s' = curr_pid s;
  pf_ticks : ticks s' = ticks s;
  pf_hang : hang s' = hang s;
  pf_tsrc : tsrc s' = tsrc s;
  pf_tpos : tpos s' = tpos s;
  pf_out : out s' = out s;
  pf_sy : sy s' ≡ sy s
}.

#[global] Instance pframe_preorder : PreOrder pframe.
Proof.
  split; [by split |]. intros a b c [] []. split; first [congruence | etransitivity; eassumption].
Qed.

Lemma get_proc_put s i j p : get_proc (put_proc i p s) j = if decide (j = i) then p else get_proc s j.
Proof.
  unfold get_proc, put_proc. cbn [proctable set_proctable]. rewrite get0_insert.
  destruct (decide (i = j)), (decide (j = i)); congruence.
Qed.

(** What [wakeup(ch)] does to a process. *)
Definition woken (ch : chan) (p : proc) : proc :=
  if bool_decide (p_chan p = ch) && in_state WAITING p then set_state READY p else p.

Lemma wp_wakeup_loop ch k : forall q s,
  (forall j, (q <= j < q + k)%nat -> can_lock (ProcLock j) (sy s)) ->
  wp (wakeup_loop k q ch) (fun _ s' => pframe s s' /\ forall j, get_proc s' j =
    if decide (q <= j < q + k)%nat then woken ch (get_proc s j) else get_proc s j) s.
Proof.
  induction k as [|k IH]; intros q s Hl; cbn [wakeup_loop].
  { apply wp_ret. split; [done |]. intros j. rewrite decide_False by lia. done. }
  apply wp_bind, wp_lock; [apply Hl; lia |]. apply wp_bind, wp_gets.
  set (p := get_proc s q). change (get_proc (set_sy (sync_lock (ProcLock q) (sy s)) s) q) with p.
  apply wp_bind.
  assert (Hnext : forall s1, sy s1 = sync_lock (ProcLock q) (sy s) ->
    (forall y, pframe s (set_sy y s1) <-> y ≡ sy s) ->
    (forall j, get_proc s1 j = if decide (j = q) then woken ch p else get_proc s j) ->
    wp (unlock (ProcLock q);; wakeup_loop k (S q) ch) (fun _ s' => pframe s s' /\ forall j, get_proc s' j =
      if decide (q <= j < q + S k)%nat then woken ch (get_proc s j) else get_proc s j) s1).
  { intros s1 Hs1 Hfr Hp1. apply wp_bind, (wp_unlock _ (sy s)); [apply Hl; lia | by rewrite Hs1 |].
    intros y Hy. eapply wp_mono; [apply IH |].
    - intros j Hj. cbn [sy set_sy]. setoid_rewrite Hy. apply Hl. lia.
    - intros [] s' [Hf Hp]. split; [etransitivity; [by apply Hfr | exact Hf] |].
      intros j. rewrite Hp. change (get_proc (set_sy y s1) j) with (get_proc s1 j). rewrite Hp1.
      repeat case_decide; subst; (done || lia). }
  unfold with_proc. destruct (bool_decide (p_chan p = ch) && in_state WAITING p) eqn:E; cbn [when].
  - apply wp_modify, Hnext; [done | |].
    + intros y. split; [intros Hf; exact (pf_sy _ _ Hf) | intros Hy; by split].
    + intros j. rewrite get_proc_put. unfold woken. rewrite E.
      change (get_proc (set_sy (sync_lock (ProcLock q) (sy s)) s)) with (get_proc s). done.
  - apply wp_ret, Hnext; [done | |].
    + intros y. split; [intros Hf; exact (pf_sy _ _ Hf) | intros Hy; by split].
    + intros j. unfold woken. rewrite E.
      change (get_proc (set_sy (sync_lock (ProcLock q) (sy s)) s) j) with (get_proc s j).
      destruct (decide (j = q)) as [-> |]; done.
Qed.

(** [wakeup] wakes exactly the sleepers on the channel: when every
    process's lock can be taken it returns, every process that was [WAITING]
    on [ch] is [READY], with nothing else of it changed, no other process and
    nothing else of the kernel's state is changed, and no lock is left held. *)
Theorem wakeup_correct ch s : (forall j, (j < NPROC)%nat -> can_lock (ProcLock j) (sy s)) ->
  wp (wakeup ch) (fun _ s' => pframe s s' /\
    forall j, get_proc s' j = if decide (j < NPROC)%nat then woken ch (get_proc s j) else get_proc s j) s.
Proof.
  intros Hl. eapply wp_mono; [apply wp_wakeup_loop; intros; apply Hl; lia |].
  intros [] s' [Hf Hp]. split; [done |]. intros j. rewrite Hp. repeat case_decide; (done || lia).
Qed.

(** Process 3 sleeps on the clock, process 4 on process 1. *)
Definition sleepers : kstate :=
  put_proc 3 (set_chan ChanTicks (set_state WAITING proc0))
    (put_proc 4 (set_chan (ChanProc 1) (set_state WAITING proc0)) lock_demo).

Lemma wakeup_correct_witness :
  wp (wakeup ChanTicks) (fun _ s' => pframe sleepers s' /\
    forall j, get_proc s' j =
      if decide (j < NPROC)%nat then woken ChanTicks (get_proc sleepers j) else get_proc sleepers j) sleepers.
Proof.
  apply (wakeup_correct ChanTicks sleepers). intros j Hj.
  split; [split; vm_compute; intuition congruence |]. done.
Defined.
