(* ===== verification/SleepConc.v ===== *)
(** Sleeping and waking under interleaving: [sleep], [wakeup], [sched] and the
    scheduler of proc.c, access by access.

    One process runs the loop every sleeper of the kernel runs,
    [lock(lk); while (!cond) sleep(chan, lk); unlock(lk)] ([wait] with
    [wait_lock], [sys_sleep] with [tickslock]); another hart runs rounds of
    [lock(lk); ...; wakeup(chan); unlock(lk)], some of which make [cond] true
    ([clockintr], [kexit]). [kexit] calls [wakeup] before it makes the condition
    true, [clockintr] after: a round may do either. A third hart's scheduler
    resumes the process when it is [READY]. A step is one lock operation or one
    access to the shared fields; a step that cannot be taken (a lock that is
    held) leaves the state as it is. *)
From S2P Require Import Prelude Machine Spinlock Proc.

(** Who holds a lock. *)
Inductive who := Sleeper | Waker | Scheduler.
#[global] Instance who_eq_dec : EqDecision who.
Proof. solve_decision. Defined.

(** Where the sleeping process is. *)
Inductive spc :=
  | SLock        (* lock(lk) *)
  | SCheck       (* while (!cond) *)
  | SLockP       (* sleep: lock(&p->lock) *)
  | SUnlockLk    (* sleep: unlock(lk) *)
  | SChan        (* sleep: p->chan = chan *)
  | SWaiting     (* sleep: p->state = WAITING *)
  | SSwtch       (* sched: swtch to the scheduler, p->lock passes to it *)
  | SOff         (* off the hart: the scheduler still holds p->lock *)
  | SAsleep      (* off the hart, p->lock released *)
  | SResumed     (* sleep: back from sched with p->lock, p->chan = NULL *)
  | SUnlockP     (* sleep: unlock(&p->lock) *)
  | SRelock      (* sleep: lock(lk) *)
  | SUnlock      (* unlock(lk) *)
  | SDone.
#[global] Instance spc_eq_dec : EqDecision spc.
Proof. solve_decision. Defined.

(** Where the waking hart is. *)
Inductive wpc :=
  | WLock         (* lock(lk) *)
  | WChoose       (* what this round does *)
  | WSet          (* the condition becomes true, before wakeup *)
  | WLockP        (* wakeup: lock(&q->lock) *)
  | WWake         (* wakeup: if (chan matches && WAITING) state = READY *)
  | WUnlockP      (* wakeup: unlock(&q->lock) *)
  | WSetLate      (* the condition becomes true, after wakeup *)
  | WUnlock       (* unlock(lk) *)
  | WDone.        (* the condition is true and the round is over *)
#[global] Instance wpc_eq_dec : EqDecision wpc.
Proof. solve_decision. Defined.

(** What a round does: nothing, or the condition before or after [wakeup]. *)
Inductive plan := Spurious | SetFirst | SetAfter.
#[global] Instance plan_eq_dec : EqDecision plan.
Proof. solve_decision. Defined.

Record conf := mk_conf {
  c_lk : option who;
  c_plock : option who;
  c_cond : bool;
  c_state : procstate;
  c_chan : bool;        (* p->chan == chan *)
  c_spc : spc;
  c_wpc : wpc;
  c_plan : plan
}.
#[global] Instance conf_eq_dec : EqDecision conf.
Proof. solve_decision. Defined.

Definition conf0 : conf := mk_conf None None false RUNNING false SLock WLock Spurious.

(** [lock]: free locks only. *)
Definition is_free (o : option who) : bool := match o with None => true | Some _ => false end.

Definition sleeper_step (c : conf) : conf :=
  let '(mk_conf lk pl cond st ch s w plan) := c in
  match s with
  | SLock => if is_free lk then mk_conf (Some Sleeper) pl cond st ch SCheck w plan else c
  | SCheck => mk_conf lk pl cond st ch (if cond then SUnlock else SLockP) w plan
  | SLockP => if is_free pl then mk_conf lk (Some Sleeper) cond st ch SUnlockLk w plan else c
  | SUnlockLk => mk_conf None pl cond st ch SChan w plan
  | SChan => mk_conf lk pl cond st true SWaiting w plan
  | SWaiting => mk_conf lk pl cond WAITING ch SSwtch w plan
  | SSwtch => mk_conf lk (Some Scheduler) cond st ch SOff w plan
  | SOff | SAsleep => c
  | SResumed => mk_conf lk pl cond st false SUnlockP w plan
  | SUnlockP => mk_conf lk None cond st ch SRelock w plan
  | SRelock => if is_free lk then mk_conf (Some Sleeper) pl cond st ch SCheck w plan else c
  | SUnlock => mk_conf None pl cond st ch SDone w plan
  | SDone => c
  end.

(** The scheduler: release the lock of the process that has left, and resume
    it once it is [READY]. *)
Definition scheduler_step (c : conf) : conf :=
  let '(mk_conf lk pl cond st ch s w plan) := c in
  match s with
  | SOff => mk_conf lk None cond st ch SAsleep w plan
  | SAsleep =>
      if is_free pl && bool_decide (st = READY)
      then mk_conf lk (Some Sleeper) cond RUNNING ch SResumed w plan else c
  | _ => c
  end.

Definition waker_step (choice : plan) (c : conf) : conf :=
  let '(mk_conf lk pl cond st ch s w plan) := c in
  match w with
  | WLock => if is_free lk then mk_conf (Some Waker) pl cond st ch s WChoose plan else c
  | WChoose => mk_conf lk pl cond st ch s (match choice with SetFirst => WSet | _ => WLockP end) choice
  | WSet => mk_conf lk pl true st ch s WLockP plan
  | WLockP => if is_free pl then mk_conf lk (Some Waker) cond st ch s WWake plan else c
  | WWake =>
      mk_conf lk pl cond (if ch && bool_decide (st = WAITING) then READY else st) ch s WUnlockP plan
  | WUnlockP => mk_conf lk None cond st ch s (match plan with SetAfter => WSetLate | _ => WUnlock end) plan
  | WSetLate => mk_conf lk pl true st ch s WUnlock plan
  | WUnlock => mk_conf None pl cond st ch s (if cond then WDone else WLock) plan
  | WDone => c
  end.

Inductive actor := DoSleeper | DoScheduler | DoWaker (choice : plan).
Definition act (a : actor) (c : conf) : conf :=
  match a with
  | DoSleeper => sleeper_step c
  | DoScheduler => scheduler_step c
  | DoWaker choice => waker_step choice c
  end.

Inductive sreachable : conf -> Prop :=
  | sreach_init : sreachable conf0
  | sreach_step a c : sreachable c -> sreachable (act a c).

(** * The reachable states, listed *)

Definition actors : list actor :=
  [DoSleeper; DoScheduler; DoWaker Spurious; DoWaker SetFirst; DoWaker SetAfter].

Definition add_new (c : conf) (seen new : list conf) : list conf :=
  if decide (c ∈ seen ++ new) then new else c :: new.

(** Breadth first, [fuel] levels. *)
Fixpoint explore (fuel : nat) (seen front : list conf) : list conf :=
  match fuel with
  | O => seen
  | S fuel =>
      let next := foldr (fun c new => foldr (fun a new => add_new (act a c) seen new) new actors) [] front in
      explore fuel (seen ++ next) next
  end.

Definition all_reachable : list conf := Eval vm_compute in explore 60 [conf0] [conf0].

Definition closed_under_steps (cs : list conf) : bool :=
  forallb (fun c => forallb (fun a => bool_decide (act a c ∈ cs)) actors) cs.

Lemma all_reachable_closed : closed_under_steps all_reachable = true.
Proof. vm_compute. reflexivity. Qed.

Lemma act_cases a : a ∈ actors.
Proof. destruct a as [| | []]; set_solver. Qed.

Lemma sreachable_listed c : sreachable c -> c ∈ all_reachable.
Proof.
  induction 1 as [|a c _ IH]; [unfold all_reachable; apply list_elem_of_here |].
  pose proof all_reachable_closed as Hc. unfold closed_under_steps in Hc.
  rewrite forallb_forall in Hc. apply list_elem_of_In in IH. specialize (Hc c IH).
  rewrite forallb_forall in Hc. specialize (Hc a (proj1 (list_elem_of_In _ _) (act_cases a))).
  by apply bool_decide_eq_true in Hc.
Qed.

(** A check of all listed states is a property of the reachable ones. *)
Lemma sreachable_check (f : conf -> bool) c : forallb f all_reachable = true -> sreachable c -> f c = true.
Proof.
  intros Hf Hc. rewrite forallb_forall in Hf. by apply Hf, list_elem_of_In, sreachable_listed.
Qed.

(** * Properties *)

(** Between deciding to sleep and being resumed. *)
Definition going_to_sleep (s : spc) : bool :=
  match s with
  | SLockP | SUnlockLk | SChan | SWaiting | SSwtch => true
  | _ => false
  end.

(** Once the waker is done, the process is not stuck. *)
Definition not_stuck (c : conf) : bool :=
  implb (bool_decide (c_wpc c = WDone))
    (negb (bool_decide (c_state c = WAITING)) && negb (going_to_sleep (c_spc c))).

Lemma all_not_stuck : forallb not_stuck all_reachable = true.
Proof. vm_compute. reflexivity. Qed.

(** C2 (no wakeup is lost): however sleeper, waker and scheduler interleave,
    once the round that made the condition true is over, the process is
    neither asleep in state [WAITING] nor on its way to sleep, whether that
    round called [wakeup] before or after it made the condition true. *)
Theorem no_lost_wakeup c : sreachable c -> c_wpc c = WDone ->
  c_state c <> WAITING /\ going_to_sleep (c_spc c) = false.
Proof.
  intros Hc Hw.
  pose proof (sreachable_check not_stuck c all_not_stuck Hc) as Hf. unfold not_stuck in Hf.
  rewrite bool_decide_true in Hf by done. cbn [implb] in Hf. zbool.
  split; [by apply bool_decide_eq_false in H | done].
Qed.

Definition run_from (acts : list actor) (c : conf) : conf := foldl (fun c a => act a c) c acts.
Definition run (acts : list actor) : conf := run_from acts conf0.

Lemma run_from_reachable acts : forall c, sreachable c -> sreachable (run_from acts c).
Proof. induction acts as [|a acts IH]; intros c Hc; [done |]. cbn. by apply IH, sreach_step. Qed.

Lemma run_reachable acts : sreachable (run acts).
Proof. apply run_from_reachable, sreach_init. Qed.

(** The sleeper goes to sleep first; the waker's round then wakes it. *)
Definition sleep_then_wake : list actor :=
  replicate 7 DoSleeper ++ [DoScheduler] ++ replicate 8 (DoWaker SetFirst).

Lemma no_lost_wakeup_witness :
  c_state (run sleep_then_wake) <> WAITING /\ going_to_sleep (c_spc (run sleep_then_wake)) = false.
Proof. refine (no_lost_wakeup _ (run_reachable sleep_then_wake) _). reflexivity. Defined.

(** ** Every fair schedule lets the sleeper through *)

(** The actors when the waker has something to tell. *)
Definition telling : list actor := [DoSleeper; DoScheduler; DoWaker SetFirst; DoWaker SetAfter].

Definition stutters (a : actor) (c : conf) : bool := bool_decide (act a c = c).

(** The number of effective steps that are left, at most: longest paths, by
    relaxation over the listed states. *)
Definition rank_of (t : list (conf * nat)) (c : conf) : nat :=
  default 0%nat (snd <$> List.find (fun e => bool_decide (fst e = c)) t).
Definition relax (t : list (conf * nat)) : list (conf * nat) :=
  map (fun e => (fst e, foldr Nat.max 0%nat
    (map (fun a => if stutters a (fst e) then 0%nat else S (rank_of t (act a (fst e)))) telling))) t.
Definition rank_table : list (conf * nat) :=
  Eval vm_compute in Nat.iter 40 relax (map (fun c => (c, 0%nat)) all_reachable).
Definition rank (c : conf) : nat := rank_of rank_table c.

Definition finished (c : conf) : bool := bool_decide (c_spc c = SDone) && c_cond c.

(** Every effective step decreases the rank. *)
Definition descends (c : conf) : bool :=
  forallb (fun a => stutters a c || (rank (act a c) <? rank c)%nat) telling.
(** Unless the process is through, some party can take an effective step. *)
Definition enabled (c : conf) : bool :=
  finished c || negb (stutters DoSleeper c) || negb (stutters DoScheduler c)
  || negb (stutters (DoWaker SetFirst) c || stutters (DoWaker SetAfter) c).
(** A process that is through stays so. *)
Definition stays (c : conf) : bool :=
  implb (finished c) (forallb (fun a => finished (act a c)) telling).

Lemma all_descends : forallb descends all_reachable = true.
Proof. vm_compute. reflexivity. Qed.
Lemma all_enabled : forallb enabled all_reachable = true.
Proof. vm_compute. reflexivity. Qed.
Lemma all_stays : forallb stays all_reachable = true.
Proof. vm_compute. reflexivity. Qed.
Lemma all_ranks : forallb (fun c => (rank c <=? 32)%nat && (finished c || (0 <? rank c)%nat)) all_reachable = true.
Proof. vm_compute. reflexivity. Qed.

(** A stretch of a schedule in which every party gets a turn, and the waker's
    rounds make the condition true. *)
Definition fair_block (b : list actor) : Prop :=
  (forall a, a ∈ b -> a ∈ telling) /\ DoSleeper ∈ b /\ DoScheduler ∈ b /\ exists choice, DoWaker choice ∈ b.

Lemma descends_step a c : sreachable c -> a ∈ telling -> act a c = c \/ (rank (act a c) < rank c)%nat.
Proof.
  intros Hc Ha. pose proof (sreachable_check _ c all_descends Hc) as Hf. unfold descends in Hf.
  rewrite forallb_forall in Hf. apply list_elem_of_In in Ha. specialize (Hf a Ha).
  apply orb_prop in Hf as [Hf | Hf]; [left; by apply bool_decide_eq_true in Hf | right; by apply Nat.ltb_lt].
Qed.

Lemma finished_step a c : sreachable c -> a ∈ telling -> finished c = true -> finished (act a c) = true.
Proof.
  intros Hc Ha Hd. pose proof (sreachable_check _ c all_stays Hc) as Hf. unfold stays in Hf.
  rewrite Hd in Hf. cbn [implb] in Hf. rewrite forallb_forall in Hf. by apply Hf, list_elem_of_In.
Qed.

Lemma finished_run acts : forall c, sreachable c -> (forall a, a ∈ acts -> a ∈ telling) ->
  finished c = true -> finished (run_from acts c) = true.
Proof.
  induction acts as [|a acts IH]; intros c Hc Ha Hd; [done |]. cbn.
  apply IH; [by constructor | intros; apply Ha; by right |].
  apply finished_step; [done | apply Ha; by left | done].
Qed.

(** A run of telling steps leaves everything as it was, so that none of its
    steps has an effect, or decreases the rank. *)
Lemma descends_run acts : forall c, sreachable c -> (forall a, a ∈ acts -> a ∈ telling) ->
  run_from acts c = c /\ (forall a, a ∈ acts -> act a c = c) \/ (rank (run_from acts c) < rank c)%nat.
Proof.
  induction acts as [|a acts IH]; intros c Hc Ha; [left; split; [done | set_solver] |].
  change (run_from (a :: acts) c) with (run_from acts (act a c)).
  assert (Ha' : forall b, b ∈ acts -> b ∈ telling) by (intros; apply Ha; by right).
  destruct (IH (act a c) (sreach_step a c Hc) Ha') as [[He Hs] | Hlt];
    destruct (descends_step a c Hc (Ha a (list_elem_of_here _ _))) as [Hac | Hac].
  - left. rewrite Hac in *. split; [done |]. intros b [-> | Hb]%elem_of_cons; [done | by apply Hs].
  - right. by rewrite He.
  - right. by rewrite Hac in *.
  - right. by etransitivity.
Qed.

(** A fair block makes progress. *)
Lemma fair_block_progress b c : sreachable c -> fair_block b ->
  finished (run_from b c) = true \/ (rank (run_from b c) < rank c)%nat.
Proof.
  intros Hc (Ht & Hs & Hsc & ch & Hw). destruct (finished c) eqn:Hd; [left; by apply finished_run |].
  destruct (descends_run b c Hc Ht) as [[_ Hid] | ?]; [| by right]. exfalso.
  pose proof (sreachable_check _ c all_enabled Hc) as Hf. unfold enabled in Hf. rewrite Hd in Hf.
  assert (Hst : forall a, a ∈ b -> stutters a c = true) by (intros; by apply bool_decide_eq_true, Hid).
  rewrite (Hst _ Hs), (Hst _ Hsc) in Hf. cbn [negb orb] in Hf.
  specialize (Ht _ Hw). destruct ch; [set_solver | |]; rewrite (Hst _ Hw), ?orb_true_r in Hf; discriminate Hf.
Qed.

Lemma fair_blocks_finish blocks : forall c, sreachable c -> Forall fair_block blocks ->
  finished (run_from (concat blocks) c) = true \/ (rank (run_from (concat blocks) c) + length blocks <= rank c)%nat.
Proof.
  induction blocks as [|b blocks IH]; intros c Hc Hb; [right; by rewrite Nat.add_0_r |].
  inversion Hb as [|?? Hb1 Hbs]; subst. cbn [concat]. unfold run_from. rewrite foldl_app.
  fold (run_from b c). fold (run_from (concat blocks) (run_from b c)).
  assert (Hr : sreachable (run_from b c)) by (by apply run_from_reachable).
  destruct (fair_block_progress b c Hc Hb1) as [Hd | Hlt].
  - left. apply finished_run; [done | | done]. intros a Ha.
    apply list_elem_of_In, in_concat in Ha as (l & Hl & Hal).
    rewrite list.Forall_forall in Hbs. apply list_elem_of_In in Hal, Hl. by apply (Hbs l).
  - destruct (IH _ Hr Hbs) as [? | ?]; [by left | right; cbn [length]; lia].
Qed.


(** Sleeper, scheduler, waker in turn, thirty-two times. *)
Definition turns : list (list actor) := replicate 32 [DoSleeper; DoScheduler; DoWaker SetAfter].


(** What holds around the switch. *)
Definition guarded (c : conf) : bool :=
  implb (bool_decide (c_spc c = SSwtch)) (bool_decide (c_plock c = Some Sleeper)
    && negb (bool_decide (c_lk c = Some Sleeper)) && bool_decide (c_state c = WAITING))
  && implb (bool_decide (c_spc c = SResumed)) (bool_decide (c_plock c = Some Sleeper)
    && bool_decide (c_state c = RUNNING))
  && implb (bool_decide (c_spc c = SAsleep)) (negb (bool_decide (c_plock c = Some Sleeper))
    && c_chan c).

Lemma all_guarded : forallb guarded all_reachable = true.
Proof. vm_compute. reflexivity. Qed.

(** [sleep] meets the conditions of [sched]: whenever the process is
    about to switch away it holds its own lock and not [lk] and is [WAITING]:
    what [sched] demands before it switches; off the hart it does not hold its
    lock and can be found under its channel; and it resumes [RUNNING] with its
    own lock. *)
Theorem sleep_sched_guards c : sreachable c ->
  (c_spc c = SSwtch -> c_plock c = Some Sleeper /\ c_lk c <> Some Sleeper /\ c_state c = WAITING) /\
  (c_spc c = SResumed -> c_plock c = Some Sleeper /\ c_state c = RUNNING) /\
  (c_spc c = SAsleep -> c_plock c <> Some Sleeper /\ c_chan c = true).
Proof.
  intros Hc.
  pose proof (sreachable_check guarded c all_guarded Hc) as Hf. unfold guarded in Hf.
  apply andb_prop in Hf as [Hf H3]. apply andb_prop in Hf as [H1 H2].
  split_and!; intros He; rewrite bool_decide_true in * by done; cbn [implb] in *; zbool;
    rewrite ?bool_decide_eq_true, ?bool_decide_eq_false in *; done.
Qed.

Lemma sleep_sched_guards_witness :
  let c := run (replicate 6 DoSleeper) in
  c_plock c = Some Sleeper /\ c_lk c <> Some Sleeper /\ c_state c = WAITING.
Proof.
  refine (proj1 (sleep_sched_guards _ (run_reachable (replicate 6 DoSleeper))) _). reflexivity.
Defined.
