(* ===== verification/SchedProofs.v ===== *)
(** Giving up the hart (Proc.v): [sched], [sleep] and [yield] as one hart runs
    them, on both sides of the switch. *)
From S2P Require Import Prelude Machine Csr KPrint Spinlock Printf Mem Vm Exec Proc ProcProofs.

(** * Functions that switch *)

(** [m] reaches a [swtch]; [P] holds of the state there and of the rest of the
    function, which runs once the process is switched back to. *)
Definition switches {A} (m : M A) (P : kstate -> M A -> Prop) (s : kstate) : Prop :=
  match m s with Swtch s' k => P s' k | _ => False end.

Section Switches.
Context {A B : Type}.
Implicit Types (m : M A) (f : A -> M B).

Lemma switches_bind m f P s : switches m (fun s' k => P s' (k ≫= f)) s -> switches (m ≫= f) P s.
Proof. unfold switches, mbind, M_bind. by destruct (m s). Qed.

Lemma switches_wp m f P s : wp m (fun a s' => switches (f a) P s') s -> switches (m ≫= f) P s.
Proof. unfold switches, wp, mbind, M_bind. by destruct (m s). Qed.

Lemma switches_run m P s : switches m P s -> exists s' k, m s = Swtch s' k /\ P s' k.
Proof. unfold switches. destruct (m s); naive_solver. Qed.

Lemma switches_mono m (P Q : kstate -> M A -> Prop) s :
  switches m P s -> (forall s' k, P s' k -> Q s' k) -> switches m Q s.
Proof. unfold switches. destruct (m s); naive_solver. Qed.
End Switches.

(** * Taking and releasing locks out of order *)

Lemma sync_lock_comm l l' y : l <> l' -> sync_lock l (sync_lock l' y) ≡ sync_lock l' (sync_lock l y).
Proof.
  intros Hne. split_and!; [done | | done | done]. intros k. unfold sync_lock.
  destruct (decide (k = l)) as [-> | H1]; [by autorewrite with kern |].
  destruct (decide (k = l')) as [-> | H2]; by autorewrite with kern.
Qed.

#[global] Instance sync_lock_proper l : Proper ((≡) ==> (≡)) (sync_lock l).
Proof.
  intros a b Hab. pose proof (get_cpu_equiv _ _ Hab) as (Hi & Hd & Hp & Hc & Hn).
  pose proof (csr_get_equiv _ _ SSTATUS Hab) as Hs. destruct Hab as (Ht & Hl & Hcs & Hcp).
  split_and!.
  - done.
  - intros k. unfold sync_lock. destruct (decide (l = k)) as [<- |]; autorewrite with kern; [| done].
    by rewrite Ht, Hl.
  - intros h c. cbn. rewrite Hs, Ht. destruct (decide ((tp b, SSTATUS) = (h, c))) as [<- |].
    + by rewrite !get0_insert_eq.
    + by rewrite !get0_insert_ne.
  - intros h. cbn. rewrite Ht. destruct (decide (tp b = h)) as [<- |].
    + rewrite !get0_insert_eq. repeat split; cbn; try congruence.
      intros _. rewrite Hd, Hs. case_match; [done |]. apply Hn. rewrite Hd. lia.
    + by rewrite !get0_insert_ne.
Qed.

(** What holds while the hart is inside one critical section. *)
Lemma in_section l y : hart_ok y -> hart_ok (sync_lock l y).
Proof. intros H. destruct (hart_ok_pushed y H). by split. Qed.

Lemma wp_myproc (Q : option nat -> kstate -> Prop) s : hart_ok (sy s) ->
  (forall y, y ≡ sy s -> Q (cpu_proc (get_cpu (sy s))) (set_sy y s)) -> wp myproc Q s.
Proof.
  intros Hok HQ. unfold myproc. apply wp_bind. unfold wp. rewrite push_off_run.
  apply wp_bind, wp_gets, wp_bind. cbn [sy set_sy]. unfold wp.
  pose proof (hart_ok_pushed _ Hok) as Hok'.
  rewrite pop_off_run; cbn [sy set_sy]; [| by apply sie_pushed; apply Hok |
    rewrite depth_pushed; destruct Hok; lia].
  apply wp_ret. unfold pushed at 1. rewrite get_cpu_set_cpu. cbn [cpu_proc].
  apply HQ. by apply popped_pushed.
Qed.

Lemma wp_holding l y (Q : bool -> kstate -> Prop) s : sy s ≡ sync_lock l y -> Q true s -> wp (holding l) Q s.
Proof.
  intros Hy HQ. unfold wp. rewrite holding_run.
  assert (Hl : lk (sy s) l = mk_spinlock 1 (Some (tp y)) (lk_name (lk y l)))
    by (rewrite (lk_equiv _ _ _ Hy); apply lk_set_lk_eq).
  rewrite bool_decide_true; rewrite Hl; cbn [lk_lock lk_cpu]; [done |]. by rewrite (tp_equiv _ _ Hy).
Qed.

(** * sched *)

(** The hart's state with its interrupt bit set to [b]. *)
Definition set_sie (b : bool) (y : sync) : sync :=
  let x := Z.land (csr_get y SSTATUS) (Z.lnot SSTATUS_SIE) in
  csr_set y SSTATUS (if b then Z.lor x SSTATUS_SIE else x).

Lemma u32_lor a b : u32 (Z.lor a b) = Z.lor (u32 a) (u32 b).
Proof.
  unfold u32. change U32 with (2 ^ 32). rewrite <- !Z.land_ones by easy. apply Z.land_lor_distr_l.
Qed.

Lemma sstatus_set_sie (b : bool) y : 0 <= csr_get y SSTATUS < U32 ->
  csr_get (set_sie b y) SSTATUS =
    (let x := Z.land (csr_get y SSTATUS) (Z.lnot SSTATUS_SIE) in if b then Z.lor x SSTATUS_SIE else x).
Proof.
  intros Hx. unfold set_sie. rewrite csr_get_set_eq. pose proof (clear_SIE_range _ Hx).
  destruct b; [rewrite u32_lor |]; rewrite u32_small by done; done.
Qed.

(** Its bit is [b], the others are those of [y]. *)
Lemma set_sie_bits (b : bool) y : 0 <= csr_get y SSTATUS < U32 ->
  Z.land (csr_get (set_sie b y) SSTATUS) SSTATUS_SIE = (if b then SSTATUS_SIE else 0) /\
  Z.land (csr_get (set_sie b y) SSTATUS) (Z.lnot SSTATUS_SIE) = Z.land (csr_get y SSTATUS) (Z.lnot SSTATUS_SIE).
Proof.
  intros Hx. rewrite sstatus_set_sie by done. cbv zeta. destruct b.
  - rewrite !Z.land_lor_distr_l, land_SIE_cleared, Z.land_diag, Z.land_lnot_diag, Z.lor_0_r,
      <- Z.land_assoc, Z.land_diag. done.
  - by rewrite land_SIE_cleared, <- Z.land_assoc, Z.land_diag.
Qed.

Lemma sie_bit y : Z.land (csr_get y SSTATUS) SSTATUS_SIE = if sie y then SSTATUS_SIE else 0.
Proof.
  unfold sie. destruct (Z.land _ _ =? 0) eqn:E; cbn [negb]; [by zbool | by apply land_SIE_on].
Qed.

Lemma hart_ok_set_sie b y : hart_ok y -> depth (get_cpu y) = 0 -> hart_ok (set_sie b y).
Proof.
  intros [H1 H2 H3] H0. split.
  - exact H1.
  - change (get_cpu (set_sie b y)) with (get_cpu y). lia.
  - unfold set_sie. rewrite csr_get_set_eq. apply u32_range.
Qed.

(** Entering a section only reads the interrupt bit into [intena]. *)
Lemma restore_intena l (b : bool) y z : hart_ok y -> depth (get_cpu y) = 0 -> z ≡ sync_lock l y ->
  let c := get_cpu z in
  set_cpu (mk_cpu (cpu_id c) (depth c) (if b then SSTATUS_SIE else 0) (cpu_proc c) (cpu_context c)) z
  ≡ sync_lock l (set_sie b y).
Proof.
  intros Hok H0 Hz c. pose proof (get_cpu_equiv _ _ Hz) as (Hi & Hd & Hp & Hc & _). fold c in Hi, Hd, Hp, Hc.
  destruct (set_sie_bits b y (ho_sstatus _ Hok)) as [Hb Hnb].
  destruct Hz as (Ht & Hl & Hcs & Hcp). change (get_cpu (sync_lock l y)) with (get_cpu (pushed y)) in *.
  unfold pushed in Hi, Hd, Hp, Hc. rewrite get_cpu_set_cpu in Hi, Hd, Hp, Hc.
  cbn [cpu_id depth cpu_proc cpu_context] in Hi, Hd, Hp, Hc.
  split_and!.
  - done.
  - intros k. etransitivity; [exact (Hl k) | done].
  - intros h k. etransitivity; [exact (Hcs h k) |]. unfold sync_lock, pushed. rewrite Hnb. cbn.
    destruct (decide ((tp y, SSTATUS) = (h, k))) as [<- |].
    + by rewrite !get0_insert_eq.
    + by rewrite !get0_insert_ne.
  - intros h. unfold sync_lock, pushed. rewrite Hb. cbn [cpus set_lk set_cpu].
    change (tp (csr_set (set_sie b y) SSTATUS _)) with (tp y).
    change (get_cpu (set_sie b y)) with (get_cpu y). rewrite H0. cbn [Z.eqb].
    change (tp (sync_lock l y)) with (tp y) in Ht. rewrite Ht.
    destruct (decide (tp y = h)) as [<- | Hne].
    + rewrite !get0_insert_eq. repeat split; cbn; congruence.
    + rewrite !get0_insert_ne by done. rewrite (Hcp h). unfold sync_lock, pushed. cbn [cpus set_lk set_cpu].
      by rewrite get0_insert_ne.
Qed.

(** The rest of a function that process [i] runs after a [swtch] in a section
    of its own lock, entered with interrupts as in [y]: whichever hart the
    scheduler resumes it on, it finds the interrupt state it left. *)
Definition resumes (i : nat) (y : sync) (k : M unit) : Prop :=
  forall y2 s2 (Q : unit -> kstate -> Prop), hart_ok y2 -> depth (get_cpu y2) = 0 ->
  sy s2 ≡ sync_lock (ProcLock i) y2 ->
  (forall y3, y3 ≡ sync_lock (ProcLock i) (set_sie (sie y) y2) -> Q tt (set_sy y3 s2)) -> wp k Q s2.

Lemma switches_sched i y (P : kstate -> M unit -> Prop) s :
  hart_ok y -> depth (get_cpu y) = 0 -> cpu_proc (get_cpu y) = Some i ->
  sy s ≡ sync_lock (ProcLock i) y -> p_state (get_proc s i) <> RUNNING ->
  (forall k, resumes i y k -> P s k) -> switches sched P s.
Proof.
  intros Hok H0 Hc Hy Hst HP. pose proof (get_cpu_equiv _ _ Hy) as (_ & Hd & Hp & _ & Hi).
  change (get_cpu (sync_lock (ProcLock i) y)) with (get_cpu (pushed y)) in *.
  rewrite depth_pushed, H0 in Hd. specialize (Hi ltac:(lia)). rewrite intena_pushed, H0 in Hi.
  cbn [Z.eqb] in Hi. rewrite sie_bit in Hi. unfold pushed in Hp. rewrite get_cpu_set_cpu in Hp.
  cbn [cpu_proc] in Hp. rewrite Hc in Hp.
  unfold sched. apply switches_wp, wp_gets. rewrite Hp. cbn [deref_proc]. apply switches_wp, wp_ret.
  apply switches_wp, (wp_holding _ y); [done |]. cbn [negb]. rewrite Hd. cbn [Z.eqb negb].
  apply switches_wp, wp_gets. unfold in_state. rewrite bool_decide_false by done.
  apply switches_wp. unfold is_interrupt. apply wp_bind. unfold r_sstatus, csrr. apply wp_gets, wp_ret.
  assert (Hs : sie (sy s) = false).
  { unfold sie. rewrite (csr_get_equiv _ _ SSTATUS Hy). exact (sie_pushed y (ho_sstatus _ Hok)). }
  unfold sie in Hs. rewrite Hs. apply switches_bind. unfold switches, swtch. apply HP.
  intros y2 s2 Q Hok2 H02 Hy2 HQ. apply wp_bind, wp_ret, wp_bind, wp_gets, wp_modify. rewrite Hi.
  apply HQ. by apply restore_intena.
Qed.

(** * sleep and yield *)

(** [s'] is [s] with process [i] changed by [f], the synchronisation aside. *)
Definition proc_step (i : nat) (f : proc -> proc) (s s' : kstate) : Prop :=
  pframe s (set_sy (sy s) s') /\
  forall j, get_proc s' j = if decide (j = i) then f (get_proc s i) else get_proc s j.

Lemma proc_step_sy i f s s' y : proc_step i f s s' -> proc_step i f s (set_sy y s').
Proof. intros [[] ?]. split; [by split | done]. Qed.

Lemma proc_step_sy_l i f s s' y : proc_step i f (set_sy y s) s' -> proc_step i f s s'.
Proof. intros [[] ?]. split; [by split | done]. Qed.

Lemma proc_step_put i f s : proc_step i f s (put_proc i (f (get_proc s i)) s).
Proof. split; [by split |]. intros j. apply get_proc_put. Qed.

Lemma proc_step_trans i f g s s1 s2 : proc_step i f s s1 -> proc_step i g s1 s2 ->
  proc_step i (fun p => g (f p)) s s2.
Proof.
  intros [Hf Hp] [Hg Hq]. split.
  - destruct Hf, Hg. cbn in *. split; cbn; first [reflexivity | etransitivity; eassumption].
  - intros j. rewrite Hq, !Hp. by repeat case_decide.
Qed.

Lemma switches_sleep ch lk i y s :
  hart_ok y -> depth (get_cpu y) = 0 -> cpu_proc (get_cpu y) = Some i ->
  lk <> ProcLock i -> lk_free lk y -> lk_free (ProcLock i) y -> sy s ≡ sync_lock lk y ->
  switches (sleep ch lk) (fun s1 k =>
    sy s1 ≡ sync_lock (ProcLock i) y /\
    proc_step i (fun p => set_state WAITING (set_chan ch p)) s s1 /\
    forall y2 s2, hart_ok y2 -> depth (get_cpu y2) = 0 -> lk_free (ProcLock i) y2 -> lk_free lk y2 ->
      sy s2 ≡ sync_lock (ProcLock i) y2 ->
      wp k (fun _ s3 => sy s3 ≡ sync_lock lk (set_sie (sie y) y2) /\ proc_step i (set_chan ChanNull) s2 s3) s2) s.
Proof.
  intros Hok H0 Hc Hne Hfl Hfp Hy. unfold sleep.
  pose proof (in_section lk y Hok) as Hin.
  apply switches_wp, wp_myproc; [by rewrite Hy |]. intros y1 Hy1.
  assert (Hpi : cpu_proc (get_cpu (sy s)) = Some i).
  { pose proof (get_cpu_equiv _ _ Hy) as (_ & _ & -> & _).
    change (get_cpu (sync_lock lk y)) with (get_cpu (pushed y)). unfold pushed. by rewrite get_cpu_set_cpu. }
  rewrite Hpi. cbn [deref_proc]. apply switches_wp, wp_ret. rewrite Hy in Hy1.
  assert (Hcl : can_lock (ProcLock i) y) by done.
  apply switches_wp, wp_lock; [cbn [sy set_sy]; rewrite Hy1; by apply can_lock_other |]. cbn [sy set_sy].
  apply switches_wp, (wp_unlock _ (sync_lock (ProcLock i) y)); [by apply can_lock_other | |].
  { cbn [sy set_sy]. rewrite Hy1. by apply sync_lock_comm. }
  intros y4 Hy4. unfold with_proc. apply switches_wp, wp_modify, switches_wp, wp_modify.
  set (s1 := put_proc i _ _).
  assert (Hs1 : proc_step i (fun p => set_state WAITING (set_chan ch p)) s s1).
  { eapply proc_step_trans; [| apply proc_step_put]. do 3 eapply proc_step_sy_l. apply proc_step_put. }
  apply switches_bind, (switches_sched i y); [done | done | done | done | |].
  { destruct Hs1 as [_ Hp]. rewrite Hp, decide_True by done. done. }
  intros k Hk. split_and!; [done | done |]. intros y2 s2 Hok2 H02 Hfp2 Hfl2 Hy2.
  apply wp_bind, (Hk y2); [done | done | done |]. intros y3 Hy3.
  pose proof (hart_ok_set_sie (sie y) y2 Hok2 H02) as Hok3.
  apply wp_bind, wp_modify, wp_bind, (wp_unlock _ (set_sie (sie y) y2)); [done | done |].
  intros y5 Hy5. apply wp_lock; [cbn [sy set_sy]; rewrite Hy5; done |]. cbn [sy set_sy]. split.
  - cbn [sy set_sy]. by rewrite Hy5.
  - do 2 apply proc_step_sy. eapply proc_step_sy_l. apply proc_step_put.
Qed.

(** C30 (going to sleep and coming back): called in a section of [lk] alone,
    [sleep] switches away, without a panic, exactly when the process is
    [WAITING] on [ch] under its own lock, [lk] is released and nothing else
    has changed; resumed by the scheduler, on whichever hart, it takes itself
    off the channel, drops its own lock and returns in a section of [lk]
    that will restore the interrupt state the caller had on the hart it left. *)
Theorem sleep_correct ch lk i y s :
  hart_ok y -> depth (get_cpu y) = 0 -> cpu_proc (get_cpu y) = Some i ->
  lk <> ProcLock i -> lk_free lk y -> lk_free (ProcLock i) y -> sy s ≡ sync_lock lk y ->
  switches (sleep ch lk) (fun s1 k =>
    sy s1 ≡ sync_lock (ProcLock i) y /\
    proc_step i (fun p => set_state WAITING (set_chan ch p)) s s1 /\
    forall y2 s2, hart_ok y2 -> depth (get_cpu y2) = 0 -> lk_free (ProcLock i) y2 -> lk_free lk y2 ->
      sy s2 ≡ sync_lock (ProcLock i) y2 ->
      wp k (fun _ s3 => sy s3 ≡ sync_lock lk (set_sie (sie y) y2) /\ proc_step i (set_chan ChanNull) s2 s3) s2) s.
Proof. apply switches_sleep. Qed.

(** Process 1 runs on hart 0 and holds the clock's lock. *)
Definition nap_sync : sync := set_cpu (mk_cpu 0 0 0 (Some 1%nat) context0) (sy lock_demo).
Definition nap : kstate := set_sy (sync_lock TicksLock nap_sync) sleepers.

Lemma sleep_correct_witness :
  switches (sleep ChanTicks TicksLock) (fun s1 k =>
    sy s1 ≡ sync_lock (ProcLock 1) nap_sync /\
    proc_step 1 (fun p => set_state WAITING (set_chan ChanTicks p)) nap s1 /\
    forall y2 s2, hart_ok y2 -> depth (get_cpu y2) = 0 -> lk_free (ProcLock 1) y2 -> lk_free TicksLock y2 ->
      sy s2 ≡ sync_lock (ProcLock 1) y2 ->
      wp k (fun _ s3 => sy s3 ≡ sync_lock TicksLock (set_sie (sie nap_sync) y2)
                        /\ proc_step 1 (set_chan ChanNull) s2 s3) s2) nap.
Proof.
  apply (sleep_correct ChanTicks TicksLock 1 nap_sync nap); done.
Defined.
