(* ===== verification/UvmCopy.v ===== *)
(** Copying an address space (Proc.v): [uvmcopy], on which [fork] rests.

    [copied] relates the state before the copy to the state while or after it:
    the addresses of [P] that the parent maps are mapped in the child, to fresh
    pages with the same flags and the same bytes; the parent, and everything
    else in use, is as it was. [uvmcopy] keeps this on every path, so that its
    caller can free what was copied when memory runs out. *)
From S2P Require Import Prelude Machine Csr KPrint Spinlock Printf Mem Vm PageTable KernelMap UserMem UserSpace Exec ExecProofs Proc.

(** * Two address spaces *)

(** An extension of [new] leaves a table it shares no page with alone. *)
Lemma ext_other_tables new D s s' pt : pt_ext new D s s' -> pt_wf s new -> pt_wf s pt ->
  (forall t, table (mem s) pt t -> ~ table (mem s) new t) -> same_tables (mem s) (mem s') pt.
Proof.
  intros Ex Hn Hp Hap t a Ht Ha. apply (ex_page _ _ _ _ t a Ex Hn); [by eapply table_owned | by apply Hap | done].
Qed.

Lemma ext_other_wf new D s s' pt : pt_ext new D s s' -> pt_wf s new -> pt_wf s pt ->
  (forall t, table (mem s) pt t -> ~ table (mem s) new t) -> pt_wf s' pt.
Proof.
  intros Ex Hn Hp Hap. pose proof (ext_other_tables _ _ _ _ _ Ex Hn Hp Hap) as Hst.
  pose proof (ex_owned _ _ _ _ Ex) as Ho. destruct Hp as [W1 W2 W3]. split; [auto | |].
  - intros i Hi. rewrite (same_tables_l1 (mem s)) by done. intros Hv. destruct (W2 i Hi Hv). auto.
  - intros i j Hi Hj. rewrite !(same_tables_l1 (mem s) (mem s')) by done. by apply W3.
Qed.

(** * The copy under construction *)

Lemma PTE_FLAGS_range e : 0 <= PTE_FLAGS e < 1024.
Proof. unfold PTE_FLAGS. change 0x3FF with 1023. rewrite land_1023. zlia. Qed.

Section Copy.
Context (old new : Z) (Q : Z -> Prop) (s0 : kstate).

(** The entry of the parent. *)
Let oe (v : Z) : Z := pte_at (mem s0) old v.

Record copied (P : Z -> Prop) (s : kstate) : Prop := {
  cp_ext : pt_ext new (pages new P s) s0 s;
  cp_kept : forall v, 0 <= v < U32 -> ~ P v \/ valid (oe v) = false ->
    pte_at (mem s) new v = pte_at (mem s0) new v;
  cp_page : forall v, 0 <= v < U32 -> P v -> valid (oe v) = true -> exists p,
    pte_at (mem s) new v = mk_pte p (PTE_FLAGS (oe v)) /\ avail s0 p /\ owned s p /\ ~ table (mem s) new p
    /\ forall j, 0 <= j < PAGE_SIZE -> load8 (mem s) (p + j) = load8 (mem s0) (PTE2PA (oe v) + j);
  cp_inj : forall v v', 0 <= v < U32 -> 0 <= v' < U32 -> P v -> P v' -> valid (oe v) = true ->
    valid (oe v') = true -> PTE2PA (pte_at (mem s) new v) = PTE2PA (pte_at (mem s) new v') -> vpn v = vpn v'
}.

(** The parent's side, and what the child has before. *)
Context (Hr0 : kready s0) (Hold : pt_wf s0 old) (Hnew : pt_wf s0 new).
Context (Hpg : pages_ok old Q s0).
Context (Hap : forall b, table (mem s0) old b \/ pages old Q s0 b -> ~ table (mem s0) new b).
Context (Hun : forall v, 0 <= v < U32 -> Q v -> valid (pte_at (mem s0) new v) = false).

Lemma copied_none (P : Z -> Prop) : (forall v, ~ P v) -> copied P s0.
Proof.
  intros Hn. split; try (intros v; intros; by destruct (Hn v)); [| done].
  eapply pt_ext_trans; [by apply pt_ext_refl | by apply pt_ext_refl |].
  intros b. split; [intros (v & _ & Hv & _); by destruct (Hn v) | tauto].
Qed.

Lemma copied_equiv (P P' : Z -> Prop) s : (forall v, 0 <= v < U32 -> P v <-> P' v) -> copied P s -> copied P' s.
Proof.
  intros HP [Ex K G I]. split.
  - eapply pt_ext_trans; [exact Ex | apply pt_ext_refl; apply Ex |]. intros b.
    split; [intros (v & Hv & H1 & H2 & ->); left | intros [(v & Hv & H1 & H2 & ->) | []]];
      exists v; split_and!; try done; try lia; by apply HP.
  - intros v Hv Hd. apply K; [done |]. rewrite (HP v Hv). done.
  - intros v Hv Hp. apply G; [done | by apply HP].
  - intros v v' Hv Hv' Hp Hp'. apply I; try done; by apply HP.
Qed.

Lemma copied_parent P s : copied P s -> pt_wf s old /\ same_tables (mem s0) (mem s) old.
Proof.
  intros [Ex _ _ _]. split; [eapply ext_other_wf | eapply ext_other_tables]; try done; auto.
Qed.

(** The bytes of the parent's pages are kept. *)
Lemma copied_parent_page P s v j : copied P s -> 0 <= v < U32 -> Q v -> valid (oe v) = true ->
  0 <= j < PAGE_SIZE -> load8 (mem s) (PTE2PA (oe v) + j) = load8 (mem s0) (PTE2PA (oe v) + j).
Proof.
  intros [Ex _ _ _] Hv HQ Hval Hj. destruct (po_owned _ _ _ Hpg v Hv HQ Hval) as [Ho _].
  apply (ex_page _ _ _ _ _ _ Ex Hnew Ho); [| unfold in_page; unfold oe; lia].
  apply Hap. right. by exists v.
Qed.

(** Another page of the parent's is not mapped: nothing to do. *)
Lemma copied_skip P s (n : Z) : copied P s -> (forall v, 0 <= v < U32 -> vpn v = n -> Q v) ->
  (forall v, 0 <= v < U32 -> vpn v = n -> valid (oe v) = false) -> copied (fun v => P v \/ vpn v = n) s.
Proof.
  intros [Ex K G I] HQ Hs.
  assert (Hd : forall v, 0 <= v < U32 -> P v \/ vpn v = n -> valid (oe v) = true -> P v).
  { intros v Hv [? | He] Hval; [done |]. rewrite Hs in Hval by done. discriminate Hval. }
  assert (Hk : forall v, 0 <= v < U32 -> vpn v = n -> valid (pte_at (mem s) new v) = false).
  { intros v Hv He. rewrite K by auto. apply Hun; auto. }
  split; [| intros v Hv [Hn | ?]; apply K; tauto | intros v Hv Hp Hval; apply G; auto | intros; apply I; auto].
  eapply pt_ext_trans; [exact Ex | apply pt_ext_refl; apply Ex |]. intros b.
  split; [intros (v & Hv & [H1 | H1] & H2 & ->) | intros [(v & Hv & H1 & H2 & ->) | []]].
  - left. by exists v.
  - rewrite Hk in H2 by done. discriminate H2.
  - exists v. split_and!; try done; try lia. by left.
Qed.

(** The tables may be extended further. *)
Lemma copied_more P s s' : copied P s -> pt_ext new (fun _ => False) s s' ->
  (forall v, 0 <= v < U32 -> pte_at (mem s') new v = pte_at (mem s) new v) -> copied P s'.
Proof.
  intros [Ex K G I] E2 Hp. split.
  - eapply pt_ext_trans; [exact Ex | exact E2 |]. intros b.
    split; [intros (v & Hv & Hin & Hval & ->); left | intros [(v & Hv & Hin & Hval & ->) | []]];
      exists v; rewrite Hp in * by done; split_and!; (done || lia).
  - intros v Hv Ho. rewrite Hp by done. by apply K.
  - intros v Hv Hin Hval. rewrite Hp by done. destruct (G v Hv Hin Hval) as (p & He & Ha & Ho & Hnt & Hb).
    exists p. split_and!; [done | done | by apply E2 | | ].
    + eapply ex_not_table; [exact E2 | apply Ex | done | done].
    + intros j Hj. rewrite <- Hb by done.
      apply (ex_page _ _ _ _ p _ E2); auto; [apply Ex | unfold in_page; lia].
  - intros v v' Hv Hv' Hin Hin'. rewrite !Hp by done. by apply I.
Qed.

(** One page more. *)
Lemma copied_step P s s' p (va : Z) : copied P s -> 0 <= va < U32 -> (forall v, vpn v = vpn va -> ~ P v) ->
  valid (oe va) = true -> pt_ext new (fun b => b = p) s s' -> avail s p -> owned s' p ->
  ~ table (mem s') new p ->
  (forall j, 0 <= j < PAGE_SIZE -> load8 (mem s') (p + j) = load8 (mem s0) (PTE2PA (oe va) + j)) ->
  (forall v, 0 <= v < U32 -> pte_at (mem s') new v =
     if decide (vpn v = vpn va) then mk_pte p (PTE_FLAGS (oe va)) else pte_at (mem s) new v) ->
  copied (fun v => P v \/ vpn v = vpn va) s'.
Proof.
  intros [Ex K G I] Hva Hfr Hvv E2 Hav Ho2 Hnt2 Hby Hp. set (fl := PTE_FLAGS (oe va)) in *.
  pose proof (PTE_FLAGS_range (oe va)) as Hfl. fold fl in Hfl.
  destruct (mk_pte_ram p fl (avail_ram _ _ Hav) Hfl) as [Hpa Hval].
  assert (Hin : forall v, 0 <= v < U32 -> P v -> pte_at (mem s') new v = pte_at (mem s) new v).
  { intros v Hv HP. rewrite Hp, decide_False by (done || by intros He; apply (Hfr v He)). done. }
  assert (Hat : forall v, 0 <= v < U32 -> vpn v = vpn va ->
    pte_at (mem s') new v = mk_pte p fl /\ oe v = oe va).
  { intros v Hv He. rewrite Hp, decide_True by done. split; [done |]. by apply pte_at_vpn. }
  assert (Hne : forall v, 0 <= v < U32 -> P v -> valid (oe v) = true -> PTE2PA (pte_at (mem s) new v) <> p).
  { intros v Hv HP Hv1 He. destruct (G v Hv HP Hv1) as (q & Hq & Ha & Ho & _). rewrite Hq in He.
    rewrite (proj1 (mk_pte_ram q _ (avail_ram _ _ Ha) (PTE_FLAGS_range _))) in He. subst q.
    by apply (owned_not_avail s p). }
  split.
  - eapply pt_ext_trans; [exact Ex | exact E2 |]. intros b. split.
    + intros (v & Hv & [HP | He] & Hvl & ->).
      * left. rewrite Hin in * by done. by exists v.
      * right. by rewrite (proj1 (Hat v Hv He)).
    + intros [(v & Hv & HP & Hvl & ->) | ->].
      * exists v. rewrite Hin by done. split_and!; try done; try lia. by left.
      * exists va. rewrite (proj1 (Hat va Hva eq_refl)). split_and!; first [done | lia | by right].
  - intros v Hv Hd. destruct (decide (vpn v = vpn va)) as [He |].
    + destruct (Hat v Hv He) as [_ Hoe]. rewrite Hoe in Hd. destruct Hd as [Hd | Hd]; [tauto | congruence].
    + rewrite Hp, decide_False by done. apply K; tauto.
  - intros v Hv Hd Hvl. destruct (decide (vpn v = vpn va)) as [He |].
    + exists p. destruct (Hat v Hv He) as [-> ->]. split_and!; try done. by apply (ex_avail _ _ _ _ Ex) in Hav as [? _].
    + destruct Hd as [HP | ?]; [| done]. rewrite Hin by done.
      destruct (G v Hv HP Hvl) as (q & Hq & Ha & Ho & Hnt & Hb). exists q.
      split_and!; [done | done | by apply E2 | | ].
      * eapply ex_not_table; [exact E2 | apply Ex | done | done].
      * intros j Hj. rewrite <- Hb by done.
        apply (ex_page _ _ _ _ q _ E2); auto; [apply Ex | unfold in_page; lia].
  - intros v v' Hv Hv' Hd Hd' Hvl Hvl' He.
    destruct (decide (vpn v = vpn va)) as [E1 |], (decide (vpn v' = vpn va)) as [E1' |]; [congruence | | |].
    + destruct Hd' as [HP' | ?]; [| done]. rewrite (proj1 (Hat v Hv E1)), Hpa, Hin in He by done.
      by destruct (Hne v' Hv' HP' Hvl').
    + destruct Hd as [HP | ?]; [| done]. rewrite (proj1 (Hat v' Hv' E1')), Hpa, Hin in He by done.
      by destruct (Hne v Hv HP Hvl).
    + destruct Hd as [HP | ?], Hd' as [HP' | ?]; try done. rewrite !Hin in He by done. by apply I.
Qed.

(** * The code *)

Lemma wp_read_pte s pt va (R : Z -> kstate -> Prop) : pt_wf s pt -> R (pte_at (mem s) pt va) s ->
  wp (read_pte pt va) R s.
Proof.
  intros Hwf HR. unfold read_pte. apply wp_bind, wp_find_pte; [done |].
  destruct (valid (l1 (mem s) pt (vpn1 va))) eqn:Hv.
  - pose proof (pte_addr_nonzero s pt va Hwf Hv) as Hnz.
    destruct (pte_addr (mem s) pt va =? 0) eqn:E; zbool; [done |]. unfold ld. apply wp_gets.
    by rewrite <- pte_at_addr.
  - unfold pte_addr. rewrite Hv. cbn [Z.eqb]. apply wp_ret. unfold pte_at in HR. by rewrite Hv in HR.
Qed.

(** Printing an error changes nothing of this. *)
Lemma copied_printed P s s' : copied P s -> printed s s' -> copied P s'.
Proof.
  intros Hc (Hf & Hm & Hb & _). pose proof (cp_ext _ _ Hc) as Ex.
  eapply copied_more; [exact Hc | | by intros; rewrite Hm].
  apply pt_grow_ext, pt_grow_same; try done; apply Ex.
Qed.

Lemma copied_alloc_none P s s' : copied P s -> alloc_none s s' -> copied P s'.
Proof.
  intros Hc Hn. pose proof (cp_ext _ _ Hc) as Ex.
  eapply copied_more; [exact Hc | | by intros; rewrite (an_mem _ _ Hn)].
  apply pt_grow_ext, pt_grow_same; try apply Hn; apply Ex.
Qed.

(** Copying one page: it is mapped, or nothing has changed but that tables
    may have been added. *)
Lemma wp_uvmcopy_page P s va str1 str2 : copied P s -> 0 <= va < U32 -> va mod PAGE_SIZE = 0 ->
  Q va -> (forall v, vpn v = vpn va -> ~ P v) -> valid (oe va) = true ->
  wp (uvmcopy_page new va (oe va) str1 str2) (fun r s' =>
    r = 0 /\ copied (fun v => P v \/ vpn v = vpn va) s' \/ r = -1 /\ copied P s' /\ ran_out new 1 s) s.
Proof.
  intros Hc Hva Hal HQ Hfr Hval. pose proof (cp_ext _ _ Hc) as Ex.
  destruct (po_owned _ _ _ Hpg va Hva HQ Hval) as [Hoo _].
  unfold uvmcopy_page. apply wp_bind, pa_alloc; [apply Ex | |].
  { intros s1 Hs1. cbn [Z.eqb]. pose proof (copied_alloc_none _ _ _ Hc Hs1) as Hc1.
    apply wp_bind, wp_error; [apply (cp_ext _ _ Hc1) |]. intros s2 Hs2. apply wp_ret. right.
    split_and!; [done | by eapply copied_printed |]. exists (fun _ => False), s.
    split_and!; [apply pt_ext_refl; apply Ex | apply few_none; [done | tauto] | apply Hs1]. }
  intros p s1 Hs1. rewrite (fresh_nonzero _ _ _ Hs1). pose proof (as_avail _ _ _ Hs1) as Hav.
  pose proof (avail_ram _ _ Hav) as Hram.
  apply wp_bind, wp_memmove; [by apply ram_page_span | by apply ram_page_span, (owned_ram s0) |].
  intros m2 Hm2. rewrite (as_mem _ _ _ Hs1) in Hm2.
  destruct (alloc_fill_ext s s1 new p m2 (ex_ready _ _ _ _ Ex) (ex_wf _ _ _ _ Ex) Hs1) as (E2 & Hst & Ho2).
  { intros a Ha. rewrite Hm2. unfold in_page in Ha. zcase; [lia | done]. }
  set (s2 := set_mem m2 s1) in *.
  assert (Hp2 : forall v, pte_at (mem s2) new v = pte_at (mem s) new v) by (intros; by apply same_tables_pte).
  assert (Hnt2 : ~ table (mem s2) new p).
  { intros Ht. apply (table_not_avail s new p (ex_wf _ _ _ _ Ex)); [| done].
    by apply (same_tables_table (mem s) (mem s2)). }
  assert (Hb2 : forall j, 0 <= j < PAGE_SIZE -> load8 (mem s2) (p + j) = load8 (mem s0) (PTE2PA (oe va) + j)).
  { intros j Hj. cbn [s2 mem set_mem]. rewrite Hm2. zcase; [| lia].
    replace (PTE2PA (oe va) + (p + j - p)) with (PTE2PA (oe va) + j) by lia.
    by apply (copied_parent_page P). }
  apply wp_bind, wp_mappage; [apply E2 | apply E2 | done | done | apply Hram | | |].
  { rewrite Hp2, (cp_kept _ _ Hc) by (done || left; by apply Hfr). by apply Hun. }
  - (* no memory for a table *)
    intros s3 Hg3 Hm3 Hf3. cbn [Z.eqb]. pose proof (pt_grow_ext _ _ _ Hg3) as E3.
    assert (Ho3 : owned s3 p) by (by apply E3).
    assert (Hnt3 : ~ table (mem s3) new p) by (eapply ex_not_table; [exact E3 | apply E2 | done | done]).
    apply wp_bind, wp_error; [apply E3 |]. intros s4 Hs4. pose proof Hs4 as (Hf4 & Hm4 & Hbm4 & _).
    assert (Hg4 : pt_grow new s3 s4) by (apply pt_grow_same; try done; apply E3).
    assert (E4 : pt_ext new (fun b => b = p) s s4).
    { pose proof (pt_ext_trans _ _ _ (fun b => b = p) _ _ _ E2 E3) as E23.
      eapply pt_ext_trans; [apply E23 | by apply pt_grow_ext |]; intros b; tauto. }
    assert (Ho4 : owned s4 p) by (by apply (pg_owned _ _ _ Hg4)).
    assert (Hnt4 : ~ table (mem s4) new p) by (by rewrite Hm4).
    apply wp_bind, pa_free; [apply E4 | done |]. intros s5 Hs5. apply wp_ret. right.
    split_and!; [done | | by exists (fun b => b = p), s2; split_and!; [exact E2 | apply few_one | exact Hf3]].
    eapply copied_more; [exact Hc | by eapply (pt_ext_return new s s4) |].
    intros v Hv. rewrite (same_tables_pte (mem s4) (mem s5)), Hm4, Hm3, Hp2; [done |].
    by apply (free_same_tables s4 s5 new p); [apply E4 | | |].
  - intros r s3 Hg3 Hr3 Hm3. pose proof (pt_grow_ext _ _ _ Hg3) as E3.
    destruct (r =? 0) eqn:E0; zbool; [done |]. apply wp_ret. left. split; [done |].
    eapply (copied_step P s s3 p); try done.
    + eapply pt_ext_trans; [exact E2 | exact E3 |]. intros b. tauto.
    + by apply E3.
    + eapply ex_not_table; [exact E3 | apply E2 | done | done].
    + intros j Hj. rewrite <- Hb2 by done.
      apply (ex_page _ _ _ _ p _ E3); [apply E2 | done | done | unfold in_page; lia].
    + intros v Hv. rewrite Hm3 by done. by rewrite Hp2.
Qed.
End Copy.

(** * uvmcopy *)

Definition stack_range (v : Z) : Prop := USER_STACK_TOP - PAGE_SIZE <= v < USER_STACK_TOP.

Section Uvmcopy.
Context (old new sz : Z) (s0 : kstate).
Let Q := image_or_stack sz.
Context (Hsz : sz mod PAGE_SIZE = 0 /\ USER_BASE <= sz <= UART_0).
Context (Hr0 : kready s0) (Hold : pt_wf s0 old) (Hnew : pt_wf s0 new).
Context (Hpg : pages_ok old Q s0).
Context (Hap : forall b, table (mem s0) old b \/ pages old Q s0 b -> ~ table (mem s0) new b).
Context (Hun : forall v, 0 <= v < U32 -> Q v -> valid (pte_at (mem s0) new v) = false).

(** Reading the parent's table while the child's is being built. *)
Lemma wp_read_parent P s va (R : Z -> kstate -> Prop) : copied old new s0 P s ->
  R (pte_at (mem s0) old va) s -> wp (read_pte old va) R s.
Proof.
  intros Hc HR. destruct (copied_parent old new Q s0 Hold Hnew Hap P s Hc) as [Hwf Hst].
  apply wp_read_pte; [done |]. by rewrite (same_tables_pte (mem s0)).
Qed.

(** Why a copy fails: there is no stack to copy, or no memory. *)
Definition uncopied : Prop := valid (pte_at (mem s0) old (USER_STACK_TOP - PAGE_SIZE)) = false \/
  ran_out new ((sz - USER_BASE) / PAGE_SIZE + 1) s0.

Lemma uncopied_at va s : copied old new s0 (image_range va) s -> va mod 4096 = 0 -> USER_BASE <= va <= sz ->
  ran_out new 1 s -> uncopied.
Proof.
  intros Hc Hal Hva Hout. right.
  assert (Hd : few ((va - USER_BASE) / PAGE_SIZE) (pages new (image_range va) s)) by (apply few_pages; [done | done | lia]).
  eapply ran_out_mono; [apply (ran_out_ext _ _ _ _ _ _ (cp_ext _ _ _ _ _ Hc) Hd Hout) | unfold PAGE_SIZE; zlia].
Qed.

Lemma wp_uvmcopy_loop fuel : forall s va, copied old new s0 (image_range va) s -> va mod 4096 = 0 ->
  USER_BASE <= va <= sz -> sz - va <= 4096 * Z.of_nat fuel ->
  wp (uvmcopy_loop fuel old new va sz) (fun r s' =>
    r = 0 /\ copied old new s0 (image_range sz) s' \/
    r = -1 /\ uncopied /\ exists hi, USER_BASE <= hi <= sz /\ copied old new s0 (image_range hi) s') s.
Proof.
  assert (Hb : 0 < USER_BASE /\ UART_0 + 4096 < U32) by done.
  induction fuel as [|fuel IH]; intros s va Hc Hal Hva Hf; cbn [uvmcopy_loop];
    destruct (va <? sz) eqn:E; zbool; [lia | | |].
  1, 3: apply wp_ret; left; split; [done |]; by replace sz with va by lia.
  assert (Hle : va + 4096 <= sz) by (unfold PAGE_SIZE in Hsz; zlia).
  assert (Hnext : va +w PAGE_SIZE = va + 4096) by (apply u32_small; unfold PAGE_SIZE; lia).
  assert (HQ : forall v, 0 <= v < U32 -> vpn v = vpn va -> Q v).
  { intros v Hv He. left. unfold vpn in He. zlia. }
  assert (Hr : forall v, 0 <= v < U32 -> image_range va v \/ vpn v = vpn va <-> image_range (va + 4096) v).
  { intros v Hv. unfold image_range, vpn. zlia. }
  apply wp_bind, (wp_read_parent (image_range va)); [done |]. rewrite Hnext.
  destruct (valid (pte_at (mem s0) old va)) eqn:Hv; cbn [negb].
  - apply wp_bind. eapply wp_mono.
    { apply (wp_uvmcopy_page old new Q s0 Hnew Hpg Hap Hun (image_range va)); try done; [lia | |].
      - apply HQ; [lia | done].
      - intros v He. unfold image_range, vpn in *. zlia. }
    intros r s1 [[-> Hc1] | (-> & Hc1 & Hout)].
    + cbn [Z.ltb Z.compare]. apply IH; [| zlia | lia | lia]. eapply copied_equiv; [exact Hr | exact Hc1].
    + change (-1 <? 0) with true. apply wp_ret. right. split_and!; [done | by apply (uncopied_at va s) | by exists va].
  - apply IH; [| zlia | lia | lia]. eapply copied_equiv; [exact Hr |].
    apply (copied_skip old new Q); try done. intros v Hv' He. by rewrite (pte_at_vpn _ _ v va) by (done || lia).
Qed.

(** All of the parent's image and stack, or a part of the image. *)
Lemma wp_uvmcopy s : copied old new s0 (image_range USER_BASE) s ->
  wp (uvmcopy old new sz) (fun r s' =>
    r = 0 /\ copied old new s0 Q s' /\ valid (pte_at (mem s0) old (USER_STACK_TOP - PAGE_SIZE)) = true \/
    r = -1 /\ uncopied /\ exists hi, USER_BASE <= hi <= sz /\ copied old new s0 (image_range hi) s') s.
Proof.
  intros Hc. assert (Hb : 0 < USER_BASE /\ UART_0 + 4096 < U32) by done.
  assert (Hst : 0 <= USER_STACK_TOP - PAGE_SIZE < U32 /\ (USER_STACK_TOP - PAGE_SIZE) mod PAGE_SIZE = 0
    /\ UART_0 < USER_STACK_TOP - PAGE_SIZE /\ USER_STACK_TOP - PAGE_SIZE + 4096 = USER_STACK_TOP) by done.
  destruct Hst as (Hs1 & Hs2 & Hs3 & Hs4). set (sv := USER_STACK_TOP - PAGE_SIZE) in *.
  unfold uvmcopy. apply wp_bind. fold sv.
  eapply wp_mono; [apply wp_uvmcopy_loop; [done | done | lia | unfold PAGE_SIZE; zlia] |].
  intros r s1 [[-> Hc1] | [-> Hf]]; [| by apply wp_ret; right]. cbn [Z.ltb Z.compare].
  apply wp_bind, (wp_read_parent (image_range sz)); [done |].
  destruct (valid (pte_at (mem s0) old sv)) eqn:Hv; cbn [negb].
  - eapply wp_mono.
    { apply (wp_uvmcopy_page old new Q s0 Hnew Hpg Hap Hun (image_range sz)); try done.
      - right. fold sv. lia.
      - intros v He. unfold image_range, vpn in *. unfold PAGE_SIZE in *. zlia. }
    intros r s2 [[-> Hc2] | (-> & Hc2 & Hout)]; [left | right].
    + split_and!; [done | | done]. eapply copied_equiv; [| exact Hc2]. intros v Hv'.
      unfold Q, image_or_stack, image_range, vpn. fold sv. unfold PAGE_SIZE in *. zlia.
    + split_and!; [done | apply (uncopied_at sz s1); [done | exact (proj1 Hsz) | lia | done] |]. exists sz. split; [lia | done].
  - apply wp_bind, wp_error; [apply (cp_ext _ _ _ _ _ Hc1) |]. intros s2 Hs2'. apply wp_ret. right.
    split_and!; [done | by left |]. exists sz. split; [lia |]. by eapply copied_printed.
Qed.
End Uvmcopy.

(** * What the user sees *)

Lemma allows_flags e e' need : 0 <= need < 1024 -> PTE_FLAGS e = PTE_FLAGS e' -> allows e need = allows e' need.
Proof.
  intros Hn He. unfold allows. assert (Hw : want need = Z.land 0x3FF (want need)).
  { assert (0 <= want need < 1024) by (unfold want; apply lor_flags_range; done || lia).
    rewrite Z.land_comm. change 0x3FF with 1023. rewrite land_1023. zlia. }
  rewrite Hw, !Z.land_assoc. fold (PTE_FLAGS e) (PTE_FLAGS e'). by rewrite He.
Qed.

(** Mapping a page with the flags of a valid entry gives the same flags. *)
Lemma copy_flags p e : ram_page p -> valid e = true -> PTE_FLAGS (mk_pte p (PTE_FLAGS e)) = PTE_FLAGS e.
Proof.
  intros [Ha Hp] Hv. pose proof (PTE_FLAGS_range e) as Hf.
  assert (Hp' : 0 <= p < U32) by (unfold MEM_START, MEM_END, U32 in *; lia).
  destruct (mk_pte_facts p (PTE_FLAGS e) Ha Hp' Hf) as (_ & -> & _).
  change PTE_V with 1. rewrite lor_1 by lia. rewrite valid_odd in Hv. unfold PTE_FLAGS in *.
  change 0x3FF with 1023 in *. rewrite land_1023 in *. zbool. zlia.
Qed.

Section Seen.
Context (old new : Z) (P : Z -> Prop) (s0 s : kstate) (Hc : copied old new s0 P s).
Context (Hun : forall v, 0 <= v < U32 -> P v -> valid (pte_at (mem s0) new v) = false).
Context (Hpg : pages_ok old P s0).

(** An address of [P] is accessible in the child as in the parent, and holds
    the same byte, in a page that was free before. *)
Lemma copied_seen v need : 0 <= v < U32 -> P v -> 0 <= need < 1024 ->
  (user_pa (mem s) new need v = 0 <-> user_pa (mem s0) old need v = 0) /\
  (user_pa (mem s0) old need v <> 0 ->
     load8 (mem s) (user_pa (mem s) new need v) = load8 (mem s0) (user_pa (mem s0) old need v) /\
     avail s0 (PTE2PA (pte_at (mem s) new v))).
Proof.
  intros Hv HP Hn. destruct (valid (pte_at (mem s0) old v)) eqn:Hval.
  - destruct (cp_page _ _ _ _ _ Hc v Hv HP Hval) as (p & He & Ha & Ho & Hnt & Hb). cbn beta in He, Hb.
    pose proof (avail_ram _ _ Ha) as Hram. pose proof Hram as [Hal Hr].
    destruct (po_owned _ _ _ Hpg v Hv HP Hval) as [Hoo _]. apply owned_ram in Hoo as [Hal' Hr'].
    assert (Hpa : PTE2PA (mk_pte p (PTE_FLAGS (pte_at (mem s0) old v))) = p)
      by exact (proj1 (mk_pte_ram p _ Hram (PTE_FLAGS_range _))).
    unfold user_pa. rewrite He, Hpa.
    rewrite (allows_flags _ (pte_at (mem s0) old v)) by (done || by apply copy_flags).
    destruct (allows (pte_at (mem s0) old v) need); [| done].
    rewrite !u32_small by (unfold PAGE_SIZE, MEM_START, MEM_END, U32 in *; zlia).
    split; [unfold PAGE_SIZE, MEM_START in *; zlia |]. intros _. split; [| done].
    apply Hb. unfold PAGE_SIZE. zlia.
  - assert (Hno : forall e, valid e = false -> allows e need = false).
    { intros e Hf. apply not_true_iff_false. intros Ht. by rewrite (allows_valid e (allows_user _ _ Ht)) in Hf. }
    unfold user_pa. rewrite (cp_kept _ _ _ _ _ Hc v Hv (or_intror Hval)), !Hno by (done || by apply Hun). done.
Qed.

(** The child's pages can be freed. *)
Lemma copied_pages_ok : pages_ok new P s.
Proof.
  assert (Hval : forall v, 0 <= v < U32 -> P v -> valid (pte_at (mem s) new v) = true ->
    valid (pte_at (mem s0) old v) = true).
  { intros v Hv HP Ht. destruct (valid (pte_at (mem s0) old v)) eqn:Hf; [done |].
    rewrite (cp_kept _ _ _ _ _ Hc v Hv (or_intror Hf)), Hun in Ht by done. discriminate Ht. }
  split.
  - intros v Hv HP Ht. destruct (cp_page _ _ _ _ _ Hc v Hv HP (Hval v Hv HP Ht)) as (p & -> & Ha & Ho & Hnt & _).
    by rewrite (proj1 (mk_pte_ram p _ (avail_ram _ _ Ha) (PTE_FLAGS_range _))).
  - intros v v' Hv Hv' HP HP' Ht Ht'. apply (cp_inj _ _ _ _ _ Hc); auto.
Qed.

(** They were free before the copy. *)
Lemma copied_fresh b : pages new P s b -> avail s0 b.
Proof.
  intros (v & Hv & HP & Ht & ->). destruct (valid (pte_at (mem s0) old v)) eqn:Hf.
  - destruct (cp_page _ _ _ _ _ Hc v Hv HP Hf) as (p & -> & Ha & _).
    by rewrite (proj1 (mk_pte_ram p _ (avail_ram _ _ Ha) (PTE_FLAGS_range _))).
  - rewrite (cp_kept _ _ _ _ _ Hc v Hv (or_intror Hf)), Hun in Ht by done. discriminate Ht.
Qed.
End Seen.

(** What is mapped outside the part that was copied is what was mapped before. *)
Lemma copied_widen old new (P Q : Z -> Prop) s0 s : copied old new s0 P s ->
  (forall v, P v \/ ~ P v) -> (forall v, P v -> Q v) ->
  (forall v, 0 <= v < U32 -> Q v -> valid (pte_at (mem s0) new v) = false) ->
  forall b, pages new Q s b <-> pages new P s b.
Proof.
  intros Hc Hdec HPQ Hun b. split; intros (v & Hv & HQ & Ht & ->); [| exists v; split_and!; auto; lia].
  destruct (Hdec v); [by exists v |]. rewrite (cp_kept _ _ _ _ _ Hc) in Ht by auto.
  rewrite Hun in Ht by done. discriminate Ht.
Qed.

(** What [uvmcopy] leaves, on both paths. *)
Lemma wp_uvmcopy_ext old new sz s : let Q := image_or_stack sz in
  sz mod PAGE_SIZE = 0 -> USER_BASE <= sz <= UART_0 ->
  kready s -> pt_wf s old -> pt_wf s new -> pages_ok old Q s ->
  (forall b, table (mem s) old b \/ pages old Q s b -> ~ table (mem s) new b) ->
  (forall v, 0 <= v < U32 -> Q v -> valid (pte_at (mem s) new v) = false) ->
  wp (uvmcopy old new sz) (fun r s' => pt_ext new (pages new Q s') s s' /\ pages_ok new Q s' /\
    (forall b, pages new Q s' b -> avail s b) /\
    (r = -1 /\ uncopied old new sz s \/ r = 0 /\ copied old new s Q s')) s.
Proof.
  intros Q Hal Hsz Hr Hold Hnew Hpg Hap Hun. eapply wp_mono.
  { apply (wp_uvmcopy old new sz s); try done. apply copied_none; try done. unfold image_range. lia. }
  intros r s' Hres.
  assert (Hc : exists P, copied old new s P s' /\ (forall v, P v \/ ~ P v) /\ (forall v, P v -> Q v)).
  { destruct Hres as [(-> & Hc & _) | (-> & _ & hi & Hhi & Hc)].
    - exists Q. split_and!; try done. intros v. unfold Q, image_or_stack. lia.
    - exists (image_range hi). split_and!; try done.
      + intros v. unfold image_range. lia.
      + intros v Hv. left. unfold image_range in Hv. lia. }
  destruct Hc as (P & Hc & Hdec & HPQ). pose proof (cp_ext _ _ _ _ _ Hc) as Ex.
  assert (HunP : forall v, 0 <= v < U32 -> P v -> valid (pte_at (mem s) new v) = false) by auto.
  pose proof (copied_widen old new P Q s s' Hc Hdec HPQ Hun) as Hw.
  split_and!.
  - eapply pt_ext_trans; [exact Ex | apply pt_ext_refl; apply Ex |]. intros b. rewrite Hw. tauto.
  - pose proof (copied_pages_ok old new P s s' Hc HunP) as [O I].
    assert (Hin : forall v, 0 <= v < U32 -> Q v -> valid (pte_at (mem s') new v) = true -> P v).
    { intros v Hv HQ Ht. destruct (Hdec v); [done |]. rewrite (cp_kept _ _ _ _ _ Hc), Hun in Ht by auto.
      discriminate Ht. }
    split; intros; [apply O | apply I]; auto.
  - intros b Hb. apply Hw in Hb. by apply (copied_fresh old new P s s').
  - destruct Hres as [(-> & Hc' & _) | (-> & Ho & _)]; auto.
Qed.

(** * Properties *)

(** C19 ([uvmcopy] copies an address space): for an address space whose image
    ends at [sz] and an empty one, [uvmcopy] returns without panicking. If it
    returns 0, every address of the image and of the stack is accessible in
    the copy exactly as in the original and holds the same byte, in a page that
    was free before, so that neither sees what the other writes later. If it
    returns -1, the original has no stack or there were no more pages than
    those of the copy and of its page table. On both paths
    the pages the copy took are free before, in its tables or mapped in it once
    (so that freeing the copy returns them all), and no other page in use, the
    original's included, has changed. *)
Theorem uvmcopy_correct old new sz s : sz mod PAGE_SIZE = 0 -> USER_BASE <= sz <= UART_0 ->
  kready s -> pt_wf s old -> pt_wf s new -> pages_ok old (image_or_stack sz) s ->
  (forall b, table (mem s) old b \/ pages old (image_or_stack sz) s b -> ~ table (mem s) new b) ->
  (forall v, 0 <= v < U32 -> image_or_stack sz v -> valid (pte_at (mem s) new v) = false) ->
  wp (uvmcopy old new sz) (fun r s' =>
    kready s' /\ kframe s s' /\ pt_wf s' new /\ pages_ok new (image_or_stack sz) s' /\
    (forall b, avail s' b <-> avail s b /\ ~ table (mem s') new b /\ ~ pages new (image_or_stack sz) s' b) /\
    (forall b, table (mem s') new b -> table (mem s) new b \/ avail s b) /\
    (forall b, pages new (image_or_stack sz) s' b -> avail s b) /\
    (forall b a, owned s b -> ~ table (mem s) new b -> in_page b a -> load8 (mem s') a = load8 (mem s) a) /\
    (r = -1 /\ (valid (pte_at (mem s) old (USER_STACK_TOP - PAGE_SIZE)) = false \/
       scarce ((sz - USER_BASE) / PAGE_SIZE + 1026) s) \/
     r = 0 /\ forall v need, 0 <= v < U32 -> image_or_stack sz v -> 0 <= need < 1024 ->
       (user_pa (mem s') new need v = 0 <-> user_pa (mem s) old need v = 0) /\
       (user_pa (mem s) old need v <> 0 ->
          load8 (mem s') (user_pa (mem s') new need v) = load8 (mem s) (user_pa (mem s) old need v)))) s.
Proof.
  intros Hal Hsz Hr Hold Hnew Hpg Hap Hun. eapply wp_mono; [by apply (wp_uvmcopy_ext old new sz s) |].
  intros r s' (Ex & Hok & Hf & Hres).
  split_and!; [apply Ex | apply Ex | apply Ex | done | apply Ex | apply Ex | done | |].
  - intros b a Hb Hnt Ha. by apply (ex_page _ _ _ _ b a Ex).
  - destruct Hres as [[-> Ho] | (-> & Hc)]; [left | right]; (split; [done |]).
    { destruct Ho as [Ho | Ho%ran_out_scarce]; [by left | right]. by eapply few_mono; [exact Ho | lia |]. }
    intros v need Hv HQ Hn. destruct (copied_seen old new (image_or_stack sz) s s' Hc Hun Hpg v need Hv HQ Hn) as [H1 H2].
    split; [done |]. intros Hnz. by apply H2.
Qed.

(** Copying the demonstration's address space into an empty table in page 8. *)
Lemma uvmcopy_demo_l1 i : 0 <= i < 1024 -> l1 (mem user_demo) 0x80008000 i = 0.
Proof.
  intros Hi. unfold l1, user_demo. cbn [mem set_mem]. rewrite !load32_store32_ne by lia. apply demo_base_0. lia.
Qed.

Lemma uvmcopy_correct_witness :
  wp (uvmcopy demo_pt 0x80008000 0x2000) (fun r s' =>
    kready s' /\ kframe user_demo s' /\ pt_wf s' 0x80008000 /\ pages_ok 0x80008000 (image_or_stack 0x2000) s' /\
    (forall b, avail s' b <-> avail user_demo b /\ ~ table (mem s') 0x80008000 b
       /\ ~ pages 0x80008000 (image_or_stack 0x2000) s' b) /\
    (forall b, table (mem s') 0x80008000 b -> table (mem user_demo) 0x80008000 b \/ avail user_demo b) /\
    (forall b, pages 0x80008000 (image_or_stack 0x2000) s' b -> avail user_demo b) /\
    (forall b a, owned user_demo b -> ~ table (mem user_demo) 0x80008000 b -> in_page b a ->
       load8 (mem s') a = load8 (mem user_demo) a) /\
    (r = -1 /\ (valid (pte_at (mem user_demo) demo_pt (USER_STACK_TOP - PAGE_SIZE)) = false \/
       scarce ((0x2000 - USER_BASE) / PAGE_SIZE + 1026) user_demo) \/
     r = 0 /\ forall v need, 0 <= v < U32 -> image_or_stack 0x2000 v -> 0 <= need < 1024 ->
       (user_pa (mem s') 0x80008000 need v = 0 <-> user_pa (mem user_demo) demo_pt need v = 0) /\
       (user_pa (mem user_demo) demo_pt need v <> 0 ->
          load8 (mem s') (user_pa (mem s') 0x80008000 need v)
          = load8 (mem user_demo) (user_pa (mem user_demo) demo_pt need v)))) user_demo.
Proof.
  assert (Hl : forall i, 0 <= i < 1024 -> valid (l1 (mem user_demo) 0x80008000 i) = false)
    by (intros; by rewrite uvmcopy_demo_l1).
  apply (uvmcopy_correct demo_pt 0x80008000 0x2000 user_demo); [done | done | apply user_demo_ready |
    apply user_demo_ok | | apply user_demo_pages | |].
  - split; [vm_compute; intuition congruence | |]; intros i; intros; rewrite Hl in * by done; discriminate.
  - intros b Hb [-> | (i & Hi & Hv & _)]; [| by rewrite Hl in Hv].
    destruct Hb as [Ht | (v & Hv & _ & Hval & He)].
    + apply user_demo_table in Ht. unfold demo_pt in Ht. lia.
    + destruct (user_demo_valid v Hv Hval) as [_ Hp]. rewrite Hp in He. discriminate He.
  - intros v Hv _. unfold pte_at. rewrite Hl by apply vpn1_range. done.
Defined.
