(* ===== verification/ProcAlloc.v ===== *)
(** Process slots (Proc.v): [releaseproc] and [procalloc].

    What a slot holds is a set of pages, [owns]: its trap frame, its kernel
    stack, its page table and the pages mapped in it. *)
From S2P Require Import Prelude Machine Csr KPrint Spinlock Printf Mem Vm PageTable KernelMap UserMem UserSpace Took Exec ExecProofs Proc ProcProofs SchedProofs.

Lemma oframe_put s i p : oframe s (put_proc i p s).
Proof. by split. Qed.

(** * What a slot holds *)

Definition owns (s : kstate) (p : proc) (b : Z) : Prop :=
  (p_tf p <> 0 /\ b = p_tf p \/ p_pt p <> 0 /\ space s (p_pt p) (p_sz p) b) \/ kstack p <> 0 /\ b = kstack p.

(** Each of the trap frame, the address space and the kernel stack is absent or
    in use by this slot alone. *)
Record holds (s : kstate) (p : proc) : Prop := {
  hd_tf : p_tf p <> 0 -> owned s (p_tf p);
  hd_ks : kstack p <> 0 -> owned s (kstack p) /\ kstack p <> p_tf p;
  hd_pt : p_pt p <> 0 -> pt_wf s (p_pt p) /\ pages_ok (p_pt p) (image_or_stack (p_sz p)) s /\
    p_sz p mod PAGE_SIZE = 0 /\ 0 <= p_sz p < U32 /\
    forall b, space s (p_pt p) (p_sz p) b -> b <> p_tf p /\ b <> kstack p
}.

(** Address spaces whose pages stay in use and whose tables do not change. *)
Lemma space_stay s s' pt size : (forall b, space s pt size b -> owned s b -> owned s' b) ->
  same_tables (mem s) (mem s') pt -> pt_wf s pt -> pages_ok pt (image_or_stack size) s ->
  pt_wf s' pt /\ pages_ok pt (image_or_stack size) s' /\ (forall b, space s' pt size b <-> space s pt size b).
Proof.
  intros Ho Hst Hwf [O I].
  pose proof (fun v => same_tables_pte (mem s) (mem s') pt v Hst) as Hp.
  pose proof (fun t => same_tables_table (mem s) (mem s') pt t Hst) as Ht.
  split_and!.
  - assert (Hto : forall t, table (mem s) pt t -> owned s' t).
    { intros t Htt. apply Ho; [by right | by eapply table_owned]. }
    destruct Hwf as [W1 W2 W3]. split; [apply Hto; by left | |].
    + intros i Hi. rewrite (same_tables_l1 (mem s)) by done. intros Hv. split; [| by apply W2].
      apply Hto. right. eauto.
    + intros i j Hi Hj. rewrite !(same_tables_l1 (mem s) (mem s')) by done. by apply W3.
  - split.
    + intros v Hv HP Hval. rewrite Hp in *. destruct (O v Hv HP Hval) as [Hov Hnt]. rewrite Ht.
      split; [| done]. apply Ho; [| done]. left. by exists v.
    + intros v v' Hv Hv' HP HP'. rewrite !Hp. by apply I.
  - intros b. unfold space, pages. setoid_rewrite Hp. by rewrite Ht.
Qed.

(** Address spaces that share no page with what changed. *)
Lemma space_keep s s' pt size : (forall b, space s pt size b -> owned s b -> owned s' b) ->
  (forall b a, space s pt size b -> owned s b -> in_page b a -> load8 (mem s') a = load8 (mem s) a) ->
  pt_wf s pt -> pages_ok pt (image_or_stack size) s ->
  pt_wf s' pt /\ pages_ok pt (image_or_stack size) s' /\ (forall b, space s' pt size b <-> space s pt size b)
  /\ same_tables (mem s) (mem s') pt.
Proof.
  intros Ho Hm Hwf Hok.
  assert (Hst : same_tables (mem s) (mem s') pt).
  { intros t a Ht Ha. apply (Hm t); [by right | by eapply table_owned | done]. }
  destruct (space_stay s s' pt size) as (? & ? & ?); done.
Qed.

(** [if (p) kfree(p)] *)
Lemma wp_free_opt a (Q : unit -> kstate -> Prop) s : kready s -> (a <> 0 -> owned s a) ->
  (forall s', freed_set (fun b => a <> 0 /\ b = a) s s' -> Q tt s') ->
  wp (when (negb (a =? 0)) (kfree a)) Q s.
Proof.
  intros Hr Ho HQ. destruct (a =? 0) eqn:E; zbool; cbn [negb when].
  - apply wp_ret, HQ. eapply freed_set_equiv; [| by apply freed_set_none]. intros b. tauto.
  - apply pa_free; [done | by apply Ho |]. intros s' Hs'. apply HQ.
    eapply freed_set_equiv; [| by apply freed_set_one; [| apply Ho |]]. intros b. tauto.
Qed.

(** * releaseproc *)

(** The slot afterwards. *)
Definition released (p : proc) : proc :=
  mk_proc 0 UNUSED (<[0%nat := 0]> (p_name p)) 0 0 0 0 0 ChanNull context0 None.

Lemma wp_releaseproc i y (Q : unit -> kstate -> Prop) s : sy s ≡ sync_lock (ProcLock i) y -> kready s ->
  holds s (get_proc s i) ->
  (forall s1, freed_set (owns s (get_proc s i)) s s1 -> Q tt (put_proc i (released (get_proc s i)) s1)) ->
  wp (releaseproc i) Q s.
Proof.
  intros Hy Hr Hh HQ. unfold releaseproc. apply wp_bind, (wp_holding _ y); [done |]. cbn [negb].
  apply wp_bind, wp_gets. set (p := get_proc s i) in *. destruct Hh as [Ht Hk Hp].
  apply wp_bind, wp_free_opt; [done | done |]. intros s1 Hs1.
  assert (Hnext : forall s2, freed_set (fun b => p_tf p <> 0 /\ b = p_tf p \/ p_pt p <> 0 /\ space s (p_pt p) (p_sz p) b) s s2 ->
    wp (when (negb (kstack p =? 0)) (kfree (kstack p));; with_proc i (fun p => released p)) Q s2).
  { intros s2 Hs2. apply wp_bind, wp_free_opt; [apply Hs2 | |].
    - intros Hk0. destruct (Hk Hk0) as [Hko Hkt]. apply (fs_owned _ _ _ Hs2); [done |].
      intros [[_ ?] | [Hp0 Hsp]]; [done |]. destruct (Hp Hp0) as (_ & _ & _ & _ & Hd). by destruct (Hd _ Hsp).
    - intros s3 Hs3. unfold with_proc. apply wp_modify.
      assert (Hpr : get_proc s3 i = p).
      { unfold get_proc. by rewrite (kf_procs _ _ (fs_frame _ _ _ Hs3)), (kf_procs _ _ (fs_frame _ _ _ Hs2)). }
      rewrite Hpr. apply HQ. eapply freed_set_trans; [exact Hs2 | exact Hs3 |]. intros b. unfold owns. tauto. }
  apply wp_bind. destruct (p_pt p =? 0) eqn:E; zbool; cbn [negb when].
  { apply wp_ret, Hnext. eapply freed_set_equiv; [| exact Hs1]. intros b. tauto. }
  destruct (Hp E) as (Hwf & Hok & Hal & Hsz & Hd).
  assert (Hout : forall b, space s (p_pt p) (p_sz p) b -> ~ (p_tf p <> 0 /\ b = p_tf p)).
  { intros b Hb [_ ->]. by destruct (Hd _ Hb). }
  destruct (space_keep s s1 (p_pt p) (p_sz p)) as (Hwf1 & Hok1 & Hsp & _); [| | done | done |].
  { intros b Hb Ho. exact (fs_owned _ _ _ Hs1 b Ho (Hout b Hb)). }
  { intros b a Hb Ho Ha. exact (freed_set_page _ _ _ b a Hs1 Ho (Hout b Hb) Ha). }
  apply wp_uvmfree_set; try done; [apply Hs1 |]. intros s2 Hs2. apply Hnext.
  eapply freed_set_trans; [exact Hs1 | exact Hs2 |]. intros b. rewrite Hsp. tauto.
Qed.

(** Giving a slot up: lock, release, unlock. *)
Lemma wp_unwind {A} n (x : A) D s0 s (Q : A -> kstate -> Prop) : quiet s -> took D s0 s ->
  holds s (get_proc s n) -> (forall b, owns s (get_proc s n) b <-> D b) ->
  (forall s', kept s0 s' -> curr_pid s' = curr_pid s ->
     (forall j, get_proc s' j = if decide (j = n) then released (get_proc s n) else get_proc s j) -> Q x s') ->
  wp (lock (ProcLock n);; releaseproc n;; unlock (ProcLock n);; mret x) Q s.
Proof.
  intros Hq Ht Hh HD HQ. apply wp_bind, wp_lock; [apply Hq |]. set (sl := set_sy _ s).
  apply wp_bind, (wp_releaseproc n (sy s)); [done | by apply ready_locked | |].
  { change (get_proc sl n) with (get_proc s n). destruct Hh as [H1 H2 H3]. split; [done | done |].
    intros Hp. destruct (H3 Hp) as (Hwf & Hok & Hal & Hsz & Hd).
    destruct (space_keep s sl (p_pt (get_proc s n)) (p_sz (get_proc s n))) as (H4 & H5 & _); done. }
  intros s1 Hs1. change (get_proc sl n) with (get_proc s n) in *.
  apply wp_bind, (wp_unlock _ (sy s)); [apply Hq | exact (kf_sy _ _ (fs_frame _ _ _ Hs1)) |].
  intros y Hy. apply wp_ret, HQ.
  - pose proof (freed_set_sy _ s _ s1 y Hq Hs1 Hy) as Hf.
    assert (HD' : forall b, owns sl (get_proc s n) b <-> D b) by exact HD.
    pose proof (took_return _ _ _ _ _ _ Ht Hf (fun b => proj1 (HD' b))) as Hk.
    eapply took_frame; [eapply took_equiv; [| exact Hk] | by split | done | done].
    intros b. cbv beta. rewrite HD'. tauto.
  - exact (kf_pid _ _ (fs_frame _ _ _ Hs1)).
  - intros j. change (get_proc (set_sy y _) j) with (get_proc (put_proc n (released (get_proc s n)) s1) j).
    rewrite get_proc_put. case_decide; [done |]. unfold get_proc.
    by rewrite (kf_procs _ _ (fs_frame _ _ _ Hs1)).
Qed.

(** * procalloc *)

(** A slot that is not in use holds nothing. *)
Definition blank (p : proc) : Prop := p_tf p = 0 /\ p_pt p = 0 /\ kstack p = 0 /\ p_sz p = 0.
Definition blank_slots (s : kstate) : Prop :=
  forall j, (j < NPROC)%nat -> p_state (get_proc s j) = UNUSED -> blank (get_proc s j).

Lemma released_blank p : blank (released p).
Proof. done. Qed.

Lemma wp_claim_slot k (Q : option nat -> kstate -> Prop) : forall i s,
  (forall j, (i <= j < i + k)%nat -> can_lock (ProcLock j) (sy s)) ->
  (forall y, y ≡ sy s -> (forall j, (i <= j < i + k)%nat -> p_state (get_proc s j) <> UNUSED) ->
     Q None (set_sy y s)) ->
  (forall n y, y ≡ sy s -> (i <= n < i + k)%nat -> p_state (get_proc s n) = UNUSED ->
     Q (Some n) (set_sy y (put_proc n (set_state NEW (get_proc s n)) s))) ->
  wp (claim_slot k i) Q s.
Proof.
  induction k as [|k IH]; intros i s Hl HN HS; cbn [claim_slot].
  { apply wp_ret. destruct s as [? ? ? ? ? ? ? ? ? y0 ? ?]. apply (HN y0); [done | lia]. }
  apply wp_bind, wp_lock; [apply Hl; lia |]. apply wp_bind, wp_gets.
  change (get_proc (set_sy _ s) i) with (get_proc s i). unfold in_state.
  destruct (decide (p_state (get_proc s i) = UNUSED)) as [Hu | Hu].
  - rewrite bool_decide_true by done. unfold with_proc. apply wp_bind, wp_modify, wp_bind.
    apply (wp_unlock _ (sy s)); [apply Hl; lia | done |]. intros y Hy. apply wp_ret.
    apply HS; [done | lia | done].
  - rewrite bool_decide_false by done. apply wp_bind, (wp_unlock _ (sy s)); [apply Hl; lia | done |].
    intros y Hy. apply IH; cbn [sy set_sy].
    + intros j Hj. rewrite Hy. apply Hl. lia.
    + intros y' Hy' Hn. apply (HN y'); [by rewrite Hy' |]. intros j Hj.
      destruct (decide (j = i)) as [-> |]; [done |]. apply (Hn j). lia.
    + intros n y' Hy' Hn Hu'. apply (HS n y'); [by rewrite Hy' | lia | done].
Qed.

(** At its maximum the counter has no defined successor. *)
Lemma wp_allocpid (Q : Z -> kstate -> Prop) s : can_lock PidLock (sy s) -> curr_pid s <> 0x7FFFFFFF ->
  (forall y, y ≡ sy s -> Q (curr_pid s) (set_sy y (set_curr_pid (curr_pid s + 1) s))) -> wp allocpid Q s.
Proof.
  intros Hl Hn HQ. unfold allocpid. apply wp_bind, wp_lock; [done |]. apply wp_bind, wp_gets.
  cbn [curr_pid set_sy]. destruct (curr_pid s =? 0x7FFFFFFF) eqn:E; zbool; [done |].
  apply wp_bind, wp_modify, wp_bind, (wp_unlock _ (sy s)); [done | done |].
  intros y Hy. by apply wp_ret, HQ.
Qed.

(** While slot [n] is being set up: pages [D] are taken, the slot is [p] and
    the other slots are as they were. *)
Record setup (n : nat) (p : proc) (D : Z -> Prop) (s s' : kstate) : Prop := {
  su_took : took D s s';
  su_pid : curr_pid s' = curr_pid s + 1;
  su_slot : get_proc s' n = p;
  su_rest : forall j, j <> n -> get_proc s' j = get_proc s j
}.

Lemma setup_quiet n p D s s' : quiet s -> setup n p D s s' -> quiet s'.
Proof. intros Hq [Ht _ _ _]. eapply quiet_frame; [apply Ht | apply Ht | done]. Qed.

Lemma setup_put n p q D s s' : setup n p D s s' -> setup n q D s (put_proc n q s').
Proof.
  intros [Ht Hp _ Hr]. split; [eapply took_frame; [exact Ht | apply oframe_put | done | done] | done | |].
  - by rewrite get_proc_put, decide_True.
  - intros j Hj. rewrite get_proc_put, decide_False by done. auto.
Qed.

(** More pages, in a step that keeps the process table. *)
Lemma setup_took n p D E s s1 s2 : setup n p D s s1 -> took E s1 s2 -> proctable s2 = proctable s1 ->
  curr_pid s2 = curr_pid s1 -> setup n p (fun b => D b \/ E b) s s2.
Proof.
  intros [Ht Hp Hs Hr] He Hpt Hpid. split; [by eapply took_trans | congruence | |].
  - unfold get_proc in *. by rewrite Hpt.
  - intros j Hj. unfold get_proc in *. rewrite Hpt. by apply Hr.
Qed.

Lemma setup_equiv n p (D E : Z -> Prop) s s' : (forall b, D b <-> E b) -> setup n p D s s' -> setup n p E s s'.
Proof. intros H [Ht Hp Hs Hr]. split; try done. by eapply took_equiv. Qed.

(** What [procalloc] leaves when it fails: no page is gone, and a slot that it
    had claimed is free and holds nothing. *)
Record unspawned (s s' : kstate) : Prop := {
  un_kept : kept s s';
  un_pid : curr_pid s <= curr_pid s' <= curr_pid s + 1;
  un_slots : forall j, get_proc s' j = get_proc s j \/
    p_state (get_proc s j) = UNUSED /\ p_state (get_proc s' j) = UNUSED /\ blank (get_proc s' j)
}.

(** Why there can be no new process: every slot is in use, or at most [n] pages
    are available. *)
Definition no_room (n : Z) (s : kstate) : Prop :=
  (forall j, (j < NPROC)%nat -> p_state (get_proc s j) <> UNUSED) \/ scarce n s.

(** Slot [n] as [procalloc] sets it up. *)
Definition new_proc `{KSyms} (q : proc) (id ks tf pt : Z) : proc :=
  mk_proc id NEW (p_name q) pt ks (p_sz q) tf (xstate q) (p_chan q)
    (mk_context (u32 sym_forkret) (ks +w PAGE_SIZE) 0 0 0 0 0 0 0 0 0 0 0 0) (parent q).

Record spawned `{Layout, KSyms} (n : nat) (ks tf pt : Z) (s s' : kstate) : Prop := {
  sp_slot : (n < NPROC)%nat /\ p_state (get_proc s n) = UNUSED;
  sp_setup : setup n (new_proc (get_proc s n) (curr_pid s) ks tf pt)
    (fun b => (b = ks \/ b = tf) \/ table (mem s') pt b) s s';
  sp_apart : ks <> tf /\ ~ table (mem s') pt ks /\ ~ table (mem s') pt tf;
  sp_wf : pt_wf s' pt;
  sp_map : forall v, 0 <= v < U32 -> pte_at (mem s') pt v = user_map0 v;
  sp_zero : forall a, in_page tf a -> load8 (mem s') a = 0
}.

Section Procalloc.
Context `{L : Layout} {HL : LayoutOk L} `{KSyms}.
Context (s : kstate) (Hq : quiet s) (Hb : blank_slots s).

(** The way out of [procalloc] when memory runs out. *)
Lemma wp_procalloc_fail n p D s1 (Q : option nat -> kstate -> Prop) : p_state (get_proc s n) = UNUSED ->
  setup n p D s s1 -> holds s1 p -> (forall b, owns s1 p b <-> D b) ->
  (forall s', unspawned s s' -> Q None s') ->
  wp (lock (ProcLock n);; releaseproc n;; unlock (ProcLock n);; mret None) Q s1.
Proof.
  intros Hu Hs Hh HD HQ. pose proof (setup_quiet _ _ _ _ _ Hq Hs) as Hq1. destruct Hs as [Ht Hpid Hp Hr].
  apply (wp_unwind n None D s); [done | done | by rewrite Hp | by rewrite Hp |].
  intros s' Hk Hpid' Hs'. apply HQ. split; [done | lia |]. intros j. rewrite Hs'.
  destruct (decide (j = n)) as [-> | Hj]; [by right |]. left. by apply Hr.
Qed.

Lemma no_pages_hold s1 p : p_tf p = 0 -> p_pt p = 0 -> kstack p = 0 \/ owned s1 (kstack p) ->
  holds s1 p /\ forall b, owns s1 p b <-> kstack p <> 0 /\ b = kstack p.
Proof.
  intros Ht Hp Hk. split; [split | intros b; unfold owns; tauto].
  - done.
  - intros Hn. split; [tauto | congruence].
  - done.
Qed.

(** [procalloc] once a slot is claimed and the kernel stack is there. *)
Lemma wp_procalloc_stack n ks s1 (Q : option nat -> kstate -> Prop) :
  let q := get_proc s n in (n < NPROC)%nat -> p_state q = UNUSED ->
  setup n (set_kstack ks (set_pid (curr_pid s) (set_state NEW q))) (fun b => b = ks) s s1 ->
  (forall s', unspawned s s' -> no_room 1028 s -> Q None s') ->
  (forall tf pt s', spawned n ks tf pt s s' -> Q (Some n) s') ->
  let fail := lock (ProcLock n);; releaseproc n;; unlock (ProcLock n);; mret None in
  wp (tf ← kalloc;
      with_proc n (set_tf tf);;
      if tf =? 0 then fail else
      memset tf 0 PAGE_SIZE;;
      pt ← init_userpt;
      with_proc n (set_pt pt);;
      if pt =? 0 then fail else
      with_proc n (set_context (mk_context (u32 sym_forkret) (ks +w PAGE_SIZE) 0 0 0 0 0 0 0 0 0 0 0 0));;
      mret (Some n)) Q s1.
Proof.
  intros q Hn Hu Hs1 HF HS fail. pose proof (Hb n Hn Hu) as (B1 & B2 & B3 & B4). fold q in B1, B2, B3, B4.
  pose proof (setup_quiet _ _ _ _ _ Hq Hs1) as Hq1.
  assert (Hks : avail s ks /\ owned s1 ks) by (by apply (tk_new _ _ _ _ (su_took _ _ _ _ _ Hs1))).
  destruct Hks as [Hka Hko]. pose proof (avail_ram _ _ Hka) as [_ Hkr].
  assert (Hk0 : ks <> 0) by (unfold MEM_START in Hkr; lia).
  apply wp_bind, pa_alloc; [by apply quiet_ready | |].
  { (* no page for the trap frame *)
    intros s2 Hs2. unfold with_proc. apply wp_bind, wp_modify. cbn [Z.eqb].
    pose proof (setup_took _ _ _ _ _ _ _ Hs1 (took_alloc_none _ _ (qu_alloc _ Hq1) Hs2)
      (kf_procs _ _ (an_frame _ _ Hs2)) (kf_pid _ _ (an_frame _ _ Hs2))) as Hs2'.
    rewrite (su_slot _ _ _ _ _ Hs2').
    set (p2 := set_tf 0 _). pose proof (setup_put n _ p2 _ _ _ Hs2') as Hs3.
    destruct (no_pages_hold (put_proc n p2 s2) p2) as [Hh Ho]; [done | done | |].
    { right. apply (tk_new _ _ _ _ (su_took _ _ _ _ _ Hs3)). by left. }
    eapply wp_procalloc_fail; [exact Hu | exact Hs3 | exact Hh | | intros; apply HF; [done |]].
    { intros b. rewrite Ho. cbn. tauto. }
    right. eapply few_mono; [apply (scarce_took _ _ 0 1 s s1 (su_took _ _ _ _ _ Hs1) (few_one ks)) | done | done].
    apply few_none; [done | apply Hs2]. }
  intros tf s2 Hs2. rewrite (fresh_nonzero _ _ _ Hs2). unfold with_proc. apply wp_bind, wp_modify.
  assert (Hp2 : get_proc s2 n = set_kstack ks (set_pid (curr_pid s) (set_state NEW q))).
  { unfold get_proc. rewrite (kf_procs _ _ (as_frame _ _ _ Hs2)). exact (su_slot _ _ _ _ _ Hs1). }
  rewrite Hp2. set (p2 := set_tf tf _). apply wp_bind, wp_memset_page. set (s4 := set_mem _ _).
  assert (Ht4 : took (fun b => b = tf) s1 (set_mem (zero_page (mem s2) tf) s2)).
  { apply took_alloc; [apply Hq1 | done |]. intros a Hna. pose proof (fresh_load8 s1 s2 tf Hs2 a) as Hl.
    cbn [mem set_mem] in Hl. rewrite Hl. unfold in_page in Hna. zcase; [lia | done]. }
  assert (Hs4 : setup n p2 (fun b => b = ks \/ b = tf) s s4).
  { pose proof (setup_took _ _ _ _ _ _ _ Hs1 Ht4 (kf_procs _ _ (as_frame _ _ _ Hs2))
      (kf_pid _ _ (as_frame _ _ _ Hs2))) as Hs3. exact (setup_put n _ p2 _ _ _ Hs3). }
  pose proof (setup_quiet _ _ _ _ _ Hq Hs4) as Hq4.
  assert (Ho4 : owned s4 ks /\ owned s4 tf).
  { split; apply (tk_new _ _ _ _ (su_took _ _ _ _ _ Hs4)); auto. }
  assert (Hkt : ks <> tf) by (intros ->; by apply (owned_not_avail s1 tf); [| apply Hs2]).
  assert (Hz4 : forall a, in_page tf a -> load8 (mem s4) a = 0).
  { intros a Ha. pose proof (fresh_load8 s1 s2 tf Hs2 a) as Hl. change (mem s4) with (zero_page (mem s2) tf).
    cbn [mem set_mem] in Hl. rewrite Hl. unfold in_page in Ha. zcase; [done | lia]. }
  assert (Ht0 : tf <> 0) by (pose proof (fresh_nonzero _ _ _ Hs2); zbool; done).
  apply wp_bind, wp_init_userpt; [by apply quiet_ready | |].
  - (* no memory for the page table *)
    intros s5 _ Hf5 Hk5 Hsc. apply wp_bind, wp_modify. cbn [Z.eqb].
    pose proof (setup_took _ _ _ _ _ _ _ Hs4 Hk5 (kf_procs _ _ Hf5) (kf_pid _ _ Hf5)) as Hs5.
    rewrite (su_slot _ _ _ _ _ Hs5). set (p5 := set_pt 0 p2). pose proof (setup_put n _ p5 _ _ _ Hs5) as Hs6.
    eapply wp_procalloc_fail; [exact Hu | exact Hs6 | | | intros; apply HF; [done |]].
    + destruct Ho4 as [Ho1 Ho2]. pose proof (tk_owned _ _ _ _ Hk5) as Hk. split.
      * intros _. exact (Hk tf Ho2).
      * intros _. split; [exact (Hk ks Ho1) | done].
      * done.
    + intros b. unfold owns. cbn. tauto.
    + right. apply (scarce_took _ _ 1026 2 s s4 (su_took _ _ _ _ _ Hs4)); [| exact Hsc].
      apply (few_or 1 1 _ _ _ (few_one ks) (few_one tf)). intros b [Hbk | Hbt] Hne; [exact Hbk | done].
  - intros pt s5a s5 Ha5 Hg5 Hm5. pose proof (took_table s4 pt s5a s5 (qu_alloc _ Hq4) Ha5 Hg5) as Ht5.
    assert (Hf5 : kframe s4 s5) by (etransitivity; [eapply fresh_frame, Ha5 | apply Hg5]).
    pose proof (setup_took _ _ _ _ _ _ _ Hs4 Ht5 (kf_procs _ _ Hf5) (kf_pid _ _ Hf5)) as Hs5.
    apply wp_bind, wp_modify. rewrite (fresh_nonzero _ _ _ Ha5), (su_slot _ _ _ _ _ Hs5).
    pose proof (setup_put n _ (set_pt pt p2) _ _ _ Hs5) as Hs6.
    apply wp_bind, wp_modify, wp_ret. rewrite (su_slot _ _ _ _ _ Hs6).
    set (p7 := set_context _ _). pose proof (setup_put n _ p7 _ _ _ Hs6) as Hs7.
    apply (HS tf pt). destruct Ho4 as [Ho1 Ho2].
    assert (Hnt : forall b, owned s4 b -> ~ table (mem s5) pt b).
    { intros b Hbo Htb. apply (owned_not_avail s4 b Hbo). by apply (tk_new _ _ _ _ Ht5). }
    split.
    + done.
    + exact Hs7.
    + split_and!; auto.
    + destruct (pg_wf _ _ _ Hg5) as [W1 W2 W3]. by split.
    + exact Hm5.
    + intros a Ha. rewrite <- (Hz4 a Ha). exact (took_page _ _ _ tf a Ht5 Ho2 Ha).
Qed.

Lemma wp_procalloc (Q : option nat -> kstate -> Prop) : curr_pid s <> 0x7FFFFFFF ->
  (forall s', unspawned s s' -> no_room 1028 s -> Q None s') ->
  (forall n ks tf pt s', spawned n ks tf pt s s' -> Q (Some n) s') -> wp procalloc Q s.
Proof.
  intros Hpid HF HS. unfold procalloc. apply wp_bind, wp_claim_slot; [intros; apply Hq | |].
  { intros y Hy Hfull. apply wp_ret, HF; [| left; intros; apply Hfull; lia]. split; [| cbn; lia | by left].
    eapply took_frame; [apply took_refl, Hq | by split | done | done]. }
  intros n y Hy Hn Hu. set (q := get_proc s n).
  pose proof (Hb n ltac:(lia) Hu) as (B1 & B2 & B3 & B4). fold q in B1, B2, B3, B4.
  apply wp_bind, wp_allocpid; [cbn [sy set_sy]; rewrite Hy; apply Hq | done |].
  intros y2 Hy2. cbn [sy set_sy curr_pid put_proc set_proctable] in *. rewrite Hy in Hy2.
  unfold with_proc. apply wp_bind, wp_modify.
  change (get_proc (set_sy y2 _) n) with (get_proc (put_proc n (set_state NEW q) s) n).
  rewrite get_proc_put, decide_True by done. set (s1 := put_proc n _ _).
  assert (Hs1 : setup n (set_pid (curr_pid s) (set_state NEW q)) (fun _ => False) s s1).
  { split.
    - eapply took_frame; [apply took_refl, Hq | by split | done | done].
    - done.
    - unfold s1. by rewrite get_proc_put, decide_True.
    - intros j Hj. unfold s1. rewrite get_proc_put, decide_False by done.
      change (get_proc (set_sy y2 _) j) with (get_proc (put_proc n (set_state NEW q) s) j).
      by rewrite get_proc_put, decide_False. }
  pose proof (setup_quiet _ _ _ _ _ Hq Hs1) as Hq1.
  apply wp_bind, pa_alloc; [by apply quiet_ready | |].
  - intros s2 Hs2. cbn [Z.eqb].
    pose proof (setup_took _ _ _ _ _ _ _ Hs1 (took_alloc_none _ _ (qu_alloc _ Hq1) Hs2)
      (kf_procs _ _ (an_frame _ _ Hs2)) (kf_pid _ _ (an_frame _ _ Hs2))) as Hs3.
    destruct (no_pages_hold s2 (set_pid (curr_pid s) (set_state NEW q))) as [Hh Ho]; [done | done | by left |].
    eapply wp_procalloc_fail; [exact Hu | exact Hs3 | exact Hh | | intros; apply HF; [done |]].
    { intros b. rewrite Ho. cbn. tauto. }
    right. apply few_none; [done |]. intros b Hb2. by apply (an_full _ _ Hs2 b).
  - intros ks s2 Hs2. rewrite (fresh_nonzero _ _ _ Hs2). apply wp_bind, wp_modify.
    pose proof (setup_took _ _ _ _ _ _ _ Hs1 (took_alloc_only _ _ _ (qu_alloc _ Hq1) Hs2)
      (kf_procs _ _ (as_frame _ _ _ Hs2)) (kf_pid _ _ (as_frame _ _ _ Hs2))) as Hs3.
    rewrite (su_slot _ _ _ _ _ Hs3). eapply (wp_procalloc_stack n ks); [lia | done | | exact HF | by intros; eapply HS].
    eapply setup_equiv; [| apply (setup_put _ _ _ _ _ _ Hs3)]. intros b. tauto.
Qed.
End Procalloc.

(** * Properties *)

Lemma unspawned_blank s s' : unspawned s s' -> blank_slots s -> blank_slots s'.
Proof.
  intros Hu Hb j Hj Hs. destruct (un_slots _ _ Hu j) as [He | (_ & _ & ?)]; [| done].
  rewrite He in *. by apply Hb.
Qed.

Section Spawned.
Context `{L : Layout} {HL : LayoutOk L} `{KSyms} (n : nat) (ks tf pt : Z) (s s' : kstate).
Context (Hs : spawned n ks tf pt s s').

Lemma spawned_slots : blank_slots s -> blank_slots s'.
Proof.
  intros Hb j Hj Hu. destruct (sp_setup _ _ _ _ _ _ Hs) as [_ _ Hn Hr].
  destruct (decide (j = n)) as [-> | Hne]; [by rewrite Hn in Hu |].
  rewrite Hr in * by done. by apply Hb.
Qed.

(** Nothing is mapped yet for the user. *)
Lemma spawned_unmapped v : USER_BASE <= v < UART_0 \/ USER_STACK_TOP - PAGE_SIZE <= v < USER_STACK_TOP ->
  valid (pte_at (mem s') pt v) = false.
Proof.
  intros Hv. assert (Hv' : 0 <= v < U32) by (revert Hv; cbv -[Z.le Z.lt]; lia).
  by rewrite (sp_map _ _ _ _ _ _ Hs), user_map0_free.
Qed.

Lemma spawned_space size b : size <= UART_0 -> space s' pt size b <-> table (mem s') pt b.
Proof.
  intros Hsz. unfold space. split; [intros [(v & Hv & Hi & Hval & _) | ?] | tauto]; [| done].
  rewrite spawned_unmapped in Hval; [discriminate Hval |]. unfold image_or_stack in Hi. lia.
Qed.

Lemma spawned_page b : b = ks \/ b = tf \/ table (mem s') pt b -> b <> 0 /\ owned s' b.
Proof.
  intros Hb. destruct (tk_new _ _ _ _ (su_took _ _ _ _ _ (sp_setup _ _ _ _ _ _ Hs)) b) as [_ Ho]; [tauto |].
  split; [| done]. destruct (owned_ram _ _ Ho) as [_ Hr]. unfold MEM_START in Hr. lia.
Qed.

Lemma spawned_holds : blank_slots s -> let p := get_proc s' n in
  holds s' p /\ forall b, owns s' p b <-> (b = ks \/ b = tf) \/ table (mem s') pt b.
Proof.
  intros Hb p. destruct (sp_slot _ _ _ _ _ _ Hs) as [Hn Hu]. destruct (Hb n Hn Hu) as (_ & _ & _ & Hz).
  assert (Hp : p = new_proc (get_proc s n) (curr_pid s) ks tf pt) by apply (sp_setup _ _ _ _ _ _ Hs).
  assert (Hsz : p_sz p = 0) by (by rewrite Hp).
  assert (Hf : p_tf p = tf /\ p_pt p = pt /\ kstack p = ks) by (by rewrite Hp).
  destruct Hf as (Ht & Hpt & Hk). destruct (sp_apart _ _ _ _ _ _ Hs) as (H1 & H2 & H3).
  destruct (spawned_page ks) as [Hk0 Hko]; [tauto |]. destruct (spawned_page tf) as [Ht0 Hto]; [tauto |].
  destruct (spawned_page pt) as [Hp0 _]; [right; right; by left |].
  split.
  - split; rewrite ?Ht, ?Hpt, ?Hk, ?Hsz; [done | done |]. intros _.
    split_and!; [apply Hs | | done | done | done |].
    + split; intros v; intros; rewrite spawned_unmapped in *; try discriminate; unfold image_or_stack in *; lia.
    + intros b Hbs. rewrite spawned_space in Hbs by done. split; congruence.
  - intros b. unfold owns. rewrite Ht, Hpt, Hk, Hsz, spawned_space by done. tauto.
Qed.
End Spawned.

(** [releaseproc] gives back all that a slot holds: called without the
    slot's lock it panics. With the lock held, by a slot whose trap frame,
    kernel stack and address space, as far as they exist, are its own, it
    returns: exactly those pages are free again, the slot is [UNUSED] and names
    no page, and neither another slot nor another page in use has changed. *)
Theorem releaseproc_correct i y s :
  (lk_lock (lk (sy s) (ProcLock i)) = 0 -> panics (releaseproc i) "releaseproc: lock not held" s) /\
  (sy s ≡ sync_lock (ProcLock i) y -> kready s -> holds s (get_proc s i) ->
   wp (releaseproc i) (fun _ s' =>
     oframe s s' /\ kready s' /\
     (forall b, avail s' b <-> avail s b \/ owns s (get_proc s i) b) /\
     (forall b, owned s b -> ~ owns s (get_proc s i) b ->
        owned s' b /\ forall a, in_page b a -> load8 (mem s') a = load8 (mem s) a) /\
     p_state (get_proc s' i) = UNUSED /\ pid (get_proc s' i) = 0 /\ parent (get_proc s' i) = None /\
     blank (get_proc s' i) /\
     forall j, j <> i -> get_proc s' j = get_proc s j) s).
Proof.
  split.
  - intros Hl. unfold releaseproc. apply panics_bind. unfold wp. rewrite holding_run, Hl. apply panic_panics.
  - intros Hy Hr Hh. apply (wp_releaseproc i y); try done. intros s1 Hs1.
    rewrite !get_proc_put, !decide_True by done. split_and!; try done.
    + transitivity s1; [apply kframe_oframe, Hs1 | apply oframe_put].
    + destruct (fs_ready _ _ _ Hs1) as [[A1 A2] Hl Hp]. by split.
    + exact (fs_avail _ _ _ Hs1).
    + intros b Hb Hn. split; [exact (fs_owned _ _ _ Hs1 b Hb Hn) |]. intros a Ha.
      exact (freed_set_page _ _ _ b a Hs1 Hb Hn Ha).
    + intros j Hj. rewrite get_proc_put, decide_False by done. unfold get_proc.
      by rewrite (kf_procs _ _ (fs_frame _ _ _ Hs1)).
Qed.

(** [procalloc] is all or nothing: when no lock is held and the unused
    slots hold nothing, [procalloc] returns. If it returns [NULL], no page is
    gone and the only slot that may differ is unused and holds nothing, and it
    was full or there were no more pages than those of a page table and three more. If it
    returns slot [n], that slot was unused, has the next pid and is [NEW]; its
    kernel stack, its trap frame, all zero, and the tables of its page table,
    in which only the kernel is mapped, are the pages that were taken; it is
    the only slot that changed. Both ways unused slots still hold nothing. *)
Theorem procalloc_correct `{L : Layout} {HL : LayoutOk L} `{KSyms} s : quiet s -> blank_slots s ->
  curr_pid s <> 0x7FFFFFFF ->
  wp procalloc (fun o s' => quiet s' /\ blank_slots s' /\
    match o with
    | None => unspawned s s' /\ no_room 1028 s
    | Some n => exists ks tf pt, spawned n ks tf pt s s' /\ holds s' (get_proc s' n) /\
        (forall b, avail s' b <-> avail s b /\ ~ owns s' (get_proc s' n) b)
    end) s.
Proof.
  intros Hq Hb Hp. apply wp_procalloc; try done.
  - intros s' Hu Hn. split_and!; [| by eapply unspawned_blank | done | done].
    eapply quiet_frame; [apply Hu | apply Hu | done].
  - intros n ks tf pt s' Hs. destruct (spawned_holds n ks tf pt s s' Hs Hb) as [Hh Ho]. split_and!.
    + eapply setup_quiet; [exact Hq | apply Hs].
    + by eapply spawned_slots.
    + exists ks, tf, pt. split_and!; try done. intros b. rewrite Ho. apply Hs.
Qed.

Lemma two_pages_quiet : quiet two_pages.
Proof.
  split; [apply two_pages_ready |]. intros l. split; [split; vm_compute; intuition congruence |]. done.
Qed.

Definition demo_syms : KSyms := Build_KSyms 0x80000100 0x80000200 0x80000300 0x80000400.

Lemma procalloc_correct_witness :
  wp (procalloc (H0 := demo_syms)) (fun o s' => quiet s' /\ blank_slots s' /\
    match o with
    | None => unspawned two_pages s' /\ no_room 1028 two_pages
    | Some n => exists ks tf pt, spawned (H0 := demo_syms) n ks tf pt two_pages s' /\ holds s' (get_proc s' n) /\
        (forall b, avail s' b <-> avail two_pages b /\ ~ owns s' (get_proc s' n) b)
    end) two_pages.
Proof. by apply (procalloc_correct (H := demo_syms) two_pages two_pages_quiet). Defined.

(** Slot 1 with its trap frame in page 7, its kernel stack in page 8 and the
    address space of the demonstration, its lock held. *)
Definition one_proc : proc := mk_proc 1 RUNNING (bytes "sh") demo_pt 0x80008000 0x2000 0x80007000 0 ChanNull context0 None.
Definition proc_demo : kstate := put_proc 1 one_proc user_demo.
Definition held_demo : kstate := set_sy (sync_lock (ProcLock 1) hart_demo) proc_demo.

Lemma demo_space b : space user_demo demo_pt 0x2000 b -> b = 0x80002000 \/ b = 0x80004000 \/ b = 0x80006000.
Proof.
  intros [(v & Hv & _ & Hval & ->) | Ht].
  - destruct (user_demo_valid v Hv Hval) as [_ ->]. auto.
  - apply user_demo_table in Ht. unfold demo_pt in Ht. tauto.
Qed.

(** What a slot holds depends on the pages in use only. *)
Lemma holds_keep s s' p : (forall b, owned s b -> owned s' b) ->
  (forall b a, owned s b -> in_page b a -> load8 (mem s') a = load8 (mem s) a) -> holds s p -> holds s' p.
Proof.
  intros Ho Hm [H1 H2 H3]. split; [auto | intros H; destruct (H2 H); auto |]. intros H.
  destruct (H3 H) as (Hwf & Hok & Hal & Hsz & Hd).
  destruct (space_keep s s' (p_pt p) (p_sz p)) as (H4 & H5 & H6 & _); [auto | intros; by apply (Hm b) | done | done |].
  split_and!; try done; try lia; intros b Hbs; apply Hd; by apply H6.
Qed.

Lemma holds_ext s s' p : mem s' = mem s -> mem_bitmap s' = mem_bitmap s -> start_page s' = start_page s ->
  holds s p -> holds s' p.
Proof.
  intros Hm Hb Hst. apply holds_keep; [unfold owned, bit; intros; by rewrite Hb, Hst | intros; by rewrite Hm].
Qed.

Lemma demo_holds : holds user_demo one_proc.
Proof.
  split.
  - intros _. vm_compute. intuition congruence.
  - intros _. split; [vm_compute; intuition congruence | done].
  - intros _. split; [apply user_demo_ok | split; [apply user_demo_pages |]].
    split; [done | split; [done |]]. intros b Hb.
    destruct (demo_space b Hb) as [-> | [-> | ->]]; done.
Qed.

Lemma held_demo_ready : kready held_demo.
Proof.
  assert (H : kready (set_sy (sync_lock (ProcLock 1) (sy two_pages)) two_pages))
    by (by apply ready_locked; [apply two_pages_quiet | |]).
  destruct H as [[A1 A2] Hl Hp]. split; [split; [exact A1 | exact A2] | exact Hl | exact Hp].
Qed.

Lemma releaseproc_correct_witness :
  wp (releaseproc 1) (fun _ s' =>
     oframe held_demo s' /\ kready s' /\
     (forall b, avail s' b <-> avail held_demo b \/ owns held_demo (get_proc held_demo 1) b) /\
     (forall b, owned held_demo b -> ~ owns held_demo (get_proc held_demo 1) b ->
        owned s' b /\ forall a, in_page b a -> load8 (mem s') a = load8 (mem held_demo) a) /\
     p_state (get_proc s' 1) = UNUSED /\ pid (get_proc s' 1) = 0 /\ parent (get_proc s' 1) = None /\
     blank (get_proc s' 1) /\
     forall j, j <> 1%nat -> get_proc s' j = get_proc held_demo j) held_demo.
Proof.
  apply (releaseproc_correct 1 hart_demo held_demo); [done | | by apply (holds_ext user_demo), demo_holds].
  exact held_demo_ready.
Defined.
