(* ===== verification/UserReturn.v ===== *)
(** The way to user mode and back: [utrapret] (trap.c), usertrapret.S, user
    code, usertrap.S.

    [utrapret] works on the kernel's state and the assembly on a hart's
    registers; a hart that executes the assembly in a state of the kernel has
    that state's memory and its hart's control registers. *)
From S2P Require Import Prelude Machine Csr KPrint Spinlock Printf Mem Vm Exec Proc ProcProofs SchedProofs ProcAlloc Asm AsmTrap.

(** * Functions that go to user mode *)

(** [m] ends with [sret] into user code, in a state that [Q] holds of. *)
Definition to_users {A} (m : M A) (Q : kstate -> Prop) (s : kstate) : Prop :=
  match m s with User s' => Q s' | _ => False end.

Section ToUsers.
Context {A B : Type}.
Implicit Types (m : M A) (f : A -> M B).

Lemma to_users_wp m f Q s : wp m (fun a s' => to_users (f a) Q s') s -> to_users (m ≫= f) Q s.
Proof. unfold to_users, wp, mbind, M_bind. by destruct (m s). Qed.

Lemma to_users_mono m (P Q : kstate -> Prop) s : to_users m P s -> (forall s', P s' -> Q s') -> to_users m Q s.
Proof. unfold to_users. destruct (m s); naive_solver. Qed.

Lemma to_users_run m Q s : to_users m Q s -> exists s', m s = User s' /\ Q s'.
Proof. unfold to_users. destruct (m s); naive_solver. Qed.

Lemma to_users_eq m m' Q s s' : m s = m' s' -> to_users m' Q s' -> to_users m Q s.
Proof. unfold to_users. by intros ->. Qed.
End ToUsers.

(** * utrapret *)

(** What user code starts with: [SIE] and [SPP] clear, [SPIE] set. *)
Definition user_status (x : Z) : Z := Z.lor (Z.land (Z.land x (Z.lnot SSTATUS_SIE)) (Z.lnot SSTATUS_SPP)) SSTATUS_SPIE.

Lemma user_status_bits x b : 0 <= b -> Z.testbit (user_status x) b =
  if (b =? 1) || (b =? 8) then false else if b =? 5 then true else Z.testbit x b.
Proof.
  intros Hb. unfold user_status, SSTATUS_SIE, SSTATUS_SPP, SSTATUS_SPIE. rewrite Z.lor_spec, !Z.land_spec, !Z.lnot_spec by done.
  rewrite !Z.shiftl_1_l, !Z.pow2_bits_eqb by done.
  rewrite (Z.eqb_sym 1 b), (Z.eqb_sym 8 b), (Z.eqb_sym 5 b).
  destruct (b =? 1) eqn:E1; [apply Z.eqb_eq in E1; subst b; by rewrite andb_false_r |].
  destruct (b =? 8) eqn:E8; [apply Z.eqb_eq in E8; subst b; by rewrite andb_false_r |].
  destruct (b =? 5); cbn; by rewrite ?orb_true_r, ?orb_false_r, ?andb_true_r.
Qed.

(** The state in which process [i] is sent to user mode from [s]. *)
Record sent `{KSyms} (i : nat) (s s' : kstate) : Prop := {
  sn_mem : let tf := p_tf (get_proc s i) in
    mem s' = store32 (store32 (mem s) (tf + tf_k_sp) (kstack (get_proc s i) +w PAGE_SIZE))
               (tf + tf_k_hartid) (Z.of_nat (tp (sy s)));
  sn_pc : csr_get (sy s') SEPC = load32 (mem s) (p_tf (get_proc s i) + tf_epc);
  sn_space : csr_get (sy s') SATP = u32 (MAKE_SATP (p_pt (get_proc s i)));
  sn_vector : csr_get (sy s') STVEC = u32 (Z.land sym_usertrap (Z.lnot 3));
  sn_scratch : csr_get (sy s') SSCRATCH = u32 (p_tf (get_proc s i));
  sn_status : csr_get (sy s') SSTATUS = u32 (user_status (csr_get (sy s) SSTATUS));
  sn_csrs : forall c, c ∉ [SEPC; SATP; STVEC; SSCRATCH; SSTATUS] -> csr_get (sy s') c = csr_get (sy s) c;
  sn_tp : tp (sy s') = tp (sy s);
  sn_locks : forall l, lk (sy s') l = lk (sy s) l;
  sn_rest : mem_bitmap s' = mem_bitmap s /\ out s' = out s /\ kframe s (set_sy (sy s) s')
}.

(** The control registers after [utrapret]'s writes. *)
Definition sent_sync `{KSyms} (tf epc pt : Z) (y : sync) : sync :=
  let x := Z.land (csr_get y SSTATUS) (Z.lnot SSTATUS_SIE) in
  csr_set (csr_set (csr_set (csr_set (csr_set (csr_set y SSTATUS x) STVEC (Z.land sym_usertrap (Z.lnot 3))) SSCRATCH tf)
    SSTATUS (Z.lor (Z.land x (Z.lnot SSTATUS_SPP)) SSTATUS_SPIE)) SEPC epc) SATP (MAKE_SATP pt).

Lemma to_users_utrapret {A} `{KSyms} i s (Q : kstate -> Prop) : hart_ok (sy s) -> cpu_proc (get_cpu (sy s)) = Some i ->
  (forall s', sent i s s' -> Q s') -> to_users (A := A) utrapret Q s.
Proof.
  intros Hok Hc HQ. unfold utrapret. apply to_users_wp, wp_myproc; [done |]. intros y Hy. rewrite Hc. cbn [deref_proc].
  repeat (apply to_users_wp; unfold interrupt_off, r_sstatus, w_sstatus, w_stvec, w_sscratch, w_sepc, w_satp, csrr, csrw, st, ld,
    r_tp, the_proc; wp_steps). cbv [to_users to_user]. apply HQ. clear HQ.
  change (get_proc (set_sy ?z (set_sy ?w ?t)) i) with (get_proc s i). cbn [sy set_sy set_mem mem].
  set (tf := p_tf (get_proc s i)). set (m := store32 (store32 _ _ _) _ _).
  assert (Hs : csr_get y SSTATUS = csr_get (sy s) SSTATUS) by (by apply csr_get_equiv).
  assert (Hr : 0 <= Z.land (csr_get y SSTATUS) (Z.lnot SSTATUS_SIE) < U32) by (rewrite Hs; apply clear_SIE_range, Hok).
  rewrite (csr_get_set_ne _ SSCRATCH SSTATUS), (csr_get_set_ne _ STVEC SSTATUS), csr_get_set_eq, (u32_small _ Hr) by discriminate.
  assert (He : load32 m (tf + tf_epc) = load32 (mem s) (tf + tf_epc)).
  { unfold m. rewrite !load32_store32_ne by tf_lia. done. }
  fold (sent_sync tf (load32 m (tf + tf_epc)) (p_pt (get_proc s i)) y). rewrite He.
  split; cbn [sy set_sy set_mem mem out mem_bitmap].
  - unfold m. f_equal. f_equal. exact (tp_equiv _ _ Hy).
  - unfold sent_sync. rewrite csr_get_set_ne, csr_get_set_eq by discriminate. apply u32_small, load32_range.
  - apply csr_get_set_eq.
  - unfold sent_sync. by autorewrite with kern.
  - unfold sent_sync. by autorewrite with kern.
  - unfold sent_sync, user_status. rewrite <- Hs. by autorewrite with kern.
  - intros c Hc'. unfold sent_sync. rewrite !csr_get_set_ne by (clear - Hc'; set_solver). by apply csr_get_equiv.
  - cbn. by apply tp_equiv.
  - intros l. exact (lk_equiv _ _ l Hy).
  - split_and!; [done | done | by split].
Qed.

(** * Around the loop *)

(** A hart with registers [rg m] in the kernel's state [s]. *)
Record on_hart (s : kstate) (m : mach) : Prop := {
  oh_mem : mm m = mem s;
  oh_csrs : forall c, csr_of m c = csr_get (sy s) c
}.

(** The words of a trap frame that lead from user code into the kernel. *)
Record kwords := mk_kwords { kw_trap : Z; kw_satp : Z; kw_handler : Z }.

Definition kwords_at (mem : gmap Z Z) (tf : Z) : kwords :=
  mk_kwords (load32 mem (tf + tf_k_trap)) (load32 mem (tf + tf_k_satp)) (load32 mem (tf + tf_u_trap)).

Lemma kwords_ext mem mem' tf : (forall a, tf + tf_k_trap <= a < tf + tf_epc -> load8 mem' a = load8 mem a) ->
  kwords_at mem' tf = kwords_at mem tf.
Proof. intros H. unfold kwords_at. f_equal; apply load32_ext; intros a Ha; apply H; tf_lia. Qed.

(** A trap from user code, as the kernel finds it on its entry. *)
Record arrived (i : nat) (s : kstate) (m2 m3 : mach) : Prop := {
  av_regs : frame_holds (mm m3) (p_tf (get_proc s i)) (rg m2);
  av_pc : load32 (mm m3) (p_tf (get_proc s i) + tf_epc) = u32 (csr_of m2 SEPC);
  av_args : rget (rg m3) A0 = u32 (csr_of m2 SCAUSE) /\ rget (rg m3) A1 = u32 (csr_of m2 SEPC);
  av_stack : rget (rg m3) SP = kstack (get_proc s i) +w PAGE_SIZE;
  av_hart : rget (rg m3) TP = u32 (Z.of_nat (tp (sy s)));
  av_satp : csr_of m3 SATP = kw_satp (kwords_at (mem s) (p_tf (get_proc s i)));
  av_stvec : csr_of m3 STVEC = kw_trap (kwords_at (mem s) (p_tf (get_proc s i)));
  av_words : kwords_at (mm m3) (p_tf (get_proc s i)) = kwords_at (mem s) (p_tf (get_proc s i));
  av_mem : let tf := p_tf (get_proc s i) in
    forall a, ~ (tf + tf_epc <= a < tf + tf_k_hartid) -> load8 (mm m3) a = load8 (mm m2) a
}.

Section Cycle.
Context `{KSyms} (i : nat) (s s' : kstate).
Let tf := p_tf (get_proc s i).
Context (H0 : 0 <= tf) (Hn : tf + sizeof_trapframe <= U32) (Hs : sent i s s').

(** All but the kernel's stack pointer and hart number is as it was. *)
Lemma sent_load o : 0 <= o -> tf_k_trap <= o -> o + 4 <= tf_k_hartid -> load32 (mem s') (tf + o) = load32 (mem s) (tf + o).
Proof using Hs. intros H1 H2 H3. rewrite (sn_mem _ _ _ Hs). fold tf. rewrite !load32_store32_ne by tf_lia. done. Qed.

Lemma sent_stack : load32 (mem s') (tf + tf_k_sp) = kstack (get_proc s i) +w PAGE_SIZE.
Proof using Hs. rewrite (sn_mem _ _ _ Hs). fold tf. rewrite load32_store32_ne, load32_store32_eq by tf_lia. apply u32_idem. Qed.

Lemma sent_hartid : load32 (mem s') (tf + tf_k_hartid) = u32 (Z.of_nat (tp (sy s))).
Proof using Hs. rewrite (sn_mem _ _ _ Hs). fold tf. apply load32_store32_eq. Qed.

(** The frame as user code leaves it leads to the kernel. *)
Lemma sent_arrives m2 : csr_of m2 SSCRATCH = tf -> regs_ok (rg m2) ->
  (forall a, tf <= a < tf + sizeof_trapframe -> load8 (mm m2) a = load8 (mem s') a) ->
  exists m3, run 47 usertrap 0 m2 = Left (Jump (kw_handler (kwords_at (mem s) tf))) 47 m3 /\ arrived i s m2 m3.
Proof.
  intros Hsc Hr Hm. destruct (usertrap_run m2 tf Hsc H0 Hn Hr) as (m3 & Hrun & Hen).
  assert (Hk : forall o, 0 <= o -> o + 4 <= sizeof_trapframe -> load32 (mm m2) (tf + o) = load32 (mem s') (tf + o)).
  { intros o H1 H2. apply load32_ext. intros a Ha. apply Hm. lia. }
  assert (Hw : kwords_at (mm m2) tf = kwords_at (mem s) tf).
  { unfold kwords_at. by rewrite !Hk, !sent_load by tf_lia. }
  exists m3. split; [rewrite Hrun; by rewrite <- Hw |]. destruct Hen. fold tf. split; fold tf.
  - done.
  - done.
  - done.
  - rewrite en_sp, Hk by tf_lia. apply sent_stack.
  - rewrite en_tp, Hk by tf_lia. apply sent_hartid.
  - rewrite en_satp. by rewrite <- Hw.
  - rewrite en_stvec. by rewrite <- Hw.
  - rewrite <- Hw. apply kwords_ext. intros a Ha. apply en_mem. tf_lia.
  - exact en_mem.
Qed.
End Cycle.

(** C15 (to user mode and back): from any state of the kernel in which process
    [i] runs, [utrapret] goes to user mode and nowhere else: the [pc] is the
    one of the frame, in the process's address space, with interrupts enabled
    once there and not before, the trap vector at [usertrap] and no other
    memory written than the two words of the frame; [usertrapret] then gives
    every register the value in the frame. Whatever user code does next, if it
    leaves [sscratch] and the frame alone, the next trap runs [usertrap] to
    its end: it jumps to the handler of the frame with all the user's
    registers and its [pc] saved, the stack pointer at the top of the
    process's kernel stack, [tp] the number of this hart, and the kernel's
    page table and trap vector installed. *)
Theorem user_cycle {A} `{KSyms} i s : hart_ok (sy s) -> cpu_proc (get_cpu (sy s)) = Some i ->
  let tf := p_tf (get_proc s i) in 0 <= tf -> tf + sizeof_trapframe <= U32 ->
  to_users (A := A) utrapret (fun s' => sent i s s' /\
    forall m, on_hart s' m -> rget (rg m) A0 = tf ->
    exists m1, run 33 usertrapret 0 m = Left Sreturned 33 m1 /\ on_hart s' m1 /\
      (forall r, r <> ZERO -> rget (rg m1) r = load32 (mem s) (tf + tf_regs (reg_num r))) /\
      forall m2, csr_of m2 SSCRATCH = csr_of m1 SSCRATCH -> regs_ok (rg m2) ->
        (forall a, tf <= a < tf + sizeof_trapframe -> load8 (mm m2) a = load8 (mm m1) a) ->
        exists m3, run 47 usertrap 0 m2 = Left (Jump (kw_handler (kwords_at (mem s) tf))) 47 m3 /\ arrived i s m2 m3) s.
Proof.
  intros Hok Hc tf H0 Hn. apply (to_users_utrapret i); [done | done |]. intros s' Hs. split; [done |].
  intros m [Hm Hcs] Ha. destruct (usertrapret_run m tf Ha H0 Hn) as (m1 & Hr & Hf & Hmm & Hsc & Hcs1).
  assert (Hsc' : csr_get (sy s') SSCRATCH = tf) by (rewrite (sn_scratch _ _ _ Hs); apply u32_small; tf_lia).
  exists m1. split_and!; [done | split | |].
  - by rewrite Hmm.
  - intros c. destruct (decide (c = SSCRATCH)) as [-> | Hne]; [by rewrite Hsc | by rewrite Hcs1].
  - intros r Hz. rewrite <- (Hf r Hz), Hm. pose proof (reg_num_range r).
    assert (reg_num r <> 0) by (intros E; by apply Hz, reg_num_inj). apply (sent_load i s s' Hs); tf_lia.
  - intros m2 H2 Hr2 Hm2. apply (sent_arrives i s s' H0 Hn Hs m2); [by rewrite H2 | done |].
    intros a Ha2. rewrite Hm2 by done. by rewrite Hmm, Hm.
Qed.

(** Process 1, on the hart on which it napped. *)
Definition return_demo : kstate := set_sy nap_sync proc_demo.

Lemma user_cycle_witness : exists s', @utrapret unit demo_syms return_demo = User s' /\
  load32 (mem s') (0x80007000 + tf_k_sp) = 0x80009000 /\
  forall m, on_hart s' m -> rget (rg m) A0 = 0x80007000 -> exists m1, run 33 usertrapret 0 m = Left Sreturned 33 m1.
Proof.
  assert (Hok : hart_ok (sy return_demo)) by (split; vm_compute; intuition congruence).
  destruct (to_users_run _ _ _ (user_cycle (A := unit) (H := demo_syms) 1 return_demo Hok eq_refl
    ltac:(vm_compute; discriminate) ltac:(vm_compute; discriminate))) as (s' & E & Hs & Hc).
  exists s'. split_and!; [exact E | exact (sent_stack 1 return_demo s' Hs) |].
  intros m Hm Ha. destruct (Hc m Hm Ha) as (m1 & Hr & _). exists m1. exact Hr.
Defined.
