(* ===== verification/ProcTable.v ===== *)
(** The process table as a whole (Proc.v): every slot holds its own pages, no
    page is held by two slots, and an unused slot holds nothing. *)
From S2P Require Import Prelude Machine Csr KPrint Spinlock Printf Mem Vm PageTable KernelMap UserMem UserSpace Took Exec ExecProofs Proc ProcProofs SchedProofs ProcAlloc.

Record procs_ok (s : kstate) : Prop := {
  pk_holds : forall j, (j < NPROC)%nat -> holds s (get_proc s j);
  pk_apart : forall j k b, (j < NPROC)%nat -> (k < NPROC)%nat -> owns s (get_proc s j) b ->
    owns s (get_proc s k) b -> j = k;
  pk_blank : blank_slots s
}.

(** * What a slot holds, as other pages change *)

(** What a slot holds is in use. *)
Lemma owns_owned s p b : holds s p -> owns s p b -> owned s b.
Proof.
  intros [H1 H2 H3] [[[H0 ->] | [H0 Hs]] | [H0 ->]]; [by apply H1 | | by apply H2].
  destruct (H3 H0) as (Hwf & Hok & _). destruct Hs as [(v & Hv & HQ & Hval & ->) | Ht].
  - by apply (po_owned _ _ _ Hok).
  - by eapply table_owned.
Qed.

Lemma owns_page s p q b c a : holds s p -> holds s q -> owns s p b -> owns s q c -> in_page b a -> in_page c a -> b = c.
Proof. intros Hp Hq Hb Hc. apply page_disjoint; eapply owned_ram; [exact (owns_owned s p b Hp Hb) | exact (owns_owned s q c Hq Hc)]. Qed.

(** Only the four fields that name pages count. *)
Definition same_pages (p q : proc) : Prop :=
  p_tf q = p_tf p /\ p_pt q = p_pt p /\ kstack q = kstack p /\ p_sz q = p_sz p.

#[global] Instance same_pages_preorder : PreOrder same_pages.
Proof. split; [done |]. intros a b c (? & ? & ? & ?) (? & ? & ? & ?). split_and!; congruence. Qed.

Lemma same_pages_holds s p q : same_pages p q -> holds s p -> holds s q.
Proof. intros (Ht & Hp & Hk & Hz) [H1 H2 H3]. split; rewrite ?Ht, ?Hp, ?Hk, ?Hz; done. Qed.

Lemma same_pages_owns s p q b : same_pages p q -> owns s q b <-> owns s p b.
Proof. intros (Ht & Hp & Hk & Hz). unfold owns. by rewrite Ht, Hp, Hk, Hz. Qed.

(** The slot's pages stay in use and keep the bytes of its page table. *)
Lemma holds_stay s s' p : (forall b, owns s p b -> owned s b -> owned s' b) ->
  (forall b a, p_pt p <> 0 -> table (mem s) (p_pt p) b -> in_page b a -> load8 (mem s') a = load8 (mem s) a) ->
  holds s p -> holds s' p /\ forall b, owns s' p b <-> owns s p b.
Proof.
  intros Ho Hm [H1 H2 H3].
  destruct (decide (p_pt p = 0)) as [E | E].
  { split; [split; [| | done] |].
    - intros H0. apply Ho; [left; left; done | auto].
    - intros H0. destruct (H2 H0). split; [| done]. apply Ho; [by right | done].
    - intros b. unfold owns. tauto. }
  destruct (H3 E) as (Hwf & Hok & Hal & Hsz & Hd).
  destruct (space_stay s s' (p_pt p) (p_sz p)) as (H4 & H5 & H6); try done.
  { intros b Hb. apply Ho. left. by right. }
  { intros b a Ht. by apply Hm. }
  split.
  - split.
    + intros H0. apply Ho; [left; left; done | auto].
    + intros H0. destruct (H2 H0). split; [| done]. apply Ho; [by right | done].
    + intros _. do 4 (split; [done |]). intros b Hb. by apply Hd, H6.
  - intros b. unfold owns. by rewrite H6.
Qed.

(** * Returning pages, by functions that change the process table *)

Record gave_back (B : Z -> Prop) (s s' : kstate) : Prop := {
  gb_frame : oframe s s';
  gb_pid : curr_pid s' = curr_pid s;
  gb_alloc : alloc_ok s';
  gb_avail : forall b, avail s' b <-> avail s b \/ B b;
  gb_owned : forall b, owned s b -> ~ B b -> owned s' b;
  gb_mem : forall a, (forall b, B b -> ~ in_page b a) -> load8 (mem s') a = load8 (mem s) a
}.

Lemma freed_gave_back B s s' : freed_set B s s' -> gave_back B s s'.
Proof. intros [F [R _ _] A O Mm]. split; try done; [by apply kframe_oframe | apply F]. Qed.

Lemma gave_back_refl s : alloc_ok s -> gave_back (fun _ => False) s s.
Proof. intros Ha. split; try done. intros b. tauto. Qed.

Lemma gave_back_equiv (B C : Z -> Prop) s s' : (forall b, B b <-> C b) -> gave_back B s s' -> gave_back C s s'.
Proof.
  intros H [F P R A O Mm]. split; auto.
  - intros b. by rewrite A, H.
  - intros b Hb Hn. apply O; [done |]. by rewrite H.
  - intros a Ha. apply Mm. intros b. rewrite H. apply Ha.
Qed.

Lemma gave_back_trans B C s s1 s2 : gave_back B s s1 -> gave_back C s1 s2 ->
  gave_back (fun b => B b \/ C b) s s2.
Proof.
  intros [F1 P1 R1 A1 O1 M1] [F2 P2 R2 A2 O2 M2]. split; [by transitivity s1 | congruence | done | | |].
  - intros b. rewrite A2, A1. tauto.
  - intros b Hb Hn. apply O2; [apply O1 |]; tauto.
  - intros a Ha. rewrite M2, M1; auto.
Qed.

(** The pages do not depend on the process table. *)
Lemma gave_back_frame B s s1 s2 : gave_back B s s1 -> pframe s1 s2 -> gave_back B s s2.
Proof.
  intros [F P [R1 R2] A O Mm] Hf. pose proof (pf_mem _ _ Hf) as Hm. pose proof (pf_start _ _ Hf) as Hs.
  assert (Hbit : forall i, bit s2 i = bit s1 i) by (intros; unfold bit; by rewrite (pf_bitmap _ _ Hf)).
  split.
  - transitivity s1; [done | destruct Hf; by split].
  - by rewrite (pf_pid _ _ Hf).
  - split; [by rewrite Hs |]. intros i. rewrite Hbit, Hs. apply R2.
  - intros b. rewrite <- A. unfold avail. by rewrite Hbit.
  - intros b Hb Hn. destruct (O b Hb Hn) as (? & ? & ?). unfold owned. by rewrite Hbit, Hs.
  - intros a Ha. rewrite Hm. auto.
Qed.

Lemma pframe_put s i p : pframe s (put_proc i p s).
Proof. by split. Qed.

Lemma pframe_sy y s s' : pframe s s' -> pframe (set_sy y s) (set_sy y s').
Proof. intros []. by split. Qed.

(** Leaving a critical section. *)
Lemma gave_back_leave B s1 s s2 y : pframe s (set_sy (sy s) s1) -> gave_back B s1 s2 -> y ≡ sy s ->
  gave_back B s (set_sy y s2).
Proof.
  intros Hf [F P [R1 R2] A O Mm] Hy. pose proof (pf_mem _ _ Hf) as Hm. pose proof (pf_start _ _ Hf) as Hs.
  pose proof (pf_bitmap _ _ Hf) as Hb. pose proof (pf_pid _ _ Hf) as Hpid. cbn in Hm, Hs, Hb, Hpid.
  assert (Hbit : forall i, bit s1 i = bit s i) by (intros; unfold bit; by rewrite Hb).
  split.
  - destruct F, Hf. cbn in *. split; cbn; congruence || done.
  - cbn. congruence.
  - by split.
  - intros b. change (avail (set_sy y s2) b) with (avail s2 b). rewrite A. unfold avail. by rewrite Hbit.
  - intros b Hb' Hn. change (owned (set_sy y s2) b) with (owned s2 b). apply O; [| done].
    destruct Hb' as (? & ? & ?). unfold owned. by rewrite Hbit, Hs.
  - intros a Ha. cbn [mem set_sy]. rewrite Mm by done. by rewrite Hm.
Qed.

Lemma gave_back_sy B s s' y : gave_back B s s' -> gave_back B (set_sy y s) (set_sy y s').
Proof. intros Hg. by apply (gave_back_leave _ s). Qed.

Lemma gave_back_page B s s' b a : gave_back B s s' -> owned s b -> ~ B b -> in_page b a ->
  load8 (mem s') a = load8 (mem s) a.
Proof.
  intros Hf Ho Hn Ha. apply (gb_mem _ _ _ Hf). intros c Hc Hin. apply Hn.
  assert (Hra : ram_page c) by (eapply avail_ram, (gb_avail _ _ _ Hf); by right).
  by rewrite (page_disjoint b c a (owned_ram _ _ Ho) Hra Ha Hin).
Qed.

(** A slot none of whose pages were returned. *)
Lemma gave_back_holds B s s' p : gave_back B s s' -> (forall b, owns s p b -> ~ B b) -> holds s p ->
  holds s' p /\ forall b, owns s' p b <-> owns s p b.
Proof.
  intros Hg Hn Hh. apply holds_stay; [| | done].
  - intros b Hb Ho. by apply (gb_owned _ _ _ Hg), Hn.
  - intros b a H0 Ht Ha. assert (Hb : owns s p b) by (left; right; split; [done | by right]).
    apply (gave_back_page _ _ _ b a Hg); [by eapply owns_owned | by apply Hn | done].
Qed.

(** The table as a whole: what each slot holds afterwards it held before. *)
Lemma procs_ok_shrink s s' : procs_ok s ->
  (forall j, (j < NPROC)%nat -> holds s' (get_proc s' j) /\
     (forall b, owns s' (get_proc s' j) b -> owns s (get_proc s j) b) /\
     (p_state (get_proc s' j) = UNUSED -> blank (get_proc s' j))) -> procs_ok s'.
Proof.
  intros [_ Ha _] Hj. split.
  - intros j Hlt. by apply Hj.
  - intros j k b Hlj Hlk Hbj Hbk. apply (Ha j k b); [done | done | |]; by apply Hj.
  - intros j Hlt. by apply Hj.
Qed.

Lemma blank_holds s p : blank p -> holds s p /\ forall b, ~ owns s p b.
Proof.
  intros (H1 & H2 & H3 & H4). split; [split; by intros |]. intros b. unfold owns. tauto.
Qed.
