(* ===== verification/Fork.v ===== *)
(** [fork] (Proc.v): the child is a copy of its parent, or nothing happened. *)
From S2P Require Import Prelude Machine Csr KPrint Spinlock Printf Mem Vm PageTable KernelMap UserMem UserSpace Took Exec ExecProofs Proc ProcProofs SchedProofs UvmCopy ProcAlloc.

(** * What fork needs and gives *)

(** Process [i] can be copied: it has a trap frame and an address space of its
    own, below the devices. *)
Record can_fork (i : nat) (s : kstate) : Prop := {
  cf_used : p_state (get_proc s i) <> UNUSED;
  cf_holds : holds s (get_proc s i);
  cf_tf : p_tf (get_proc s i) <> 0;
  cf_pt : p_pt (get_proc s i) <> 0;
  cf_sz : USER_BASE <= p_sz (get_proc s i) <= UART_0
}.

(** The child's slot. *)
Definition child_of `{KSyms} (i : nat) (p q : proc) (id ks tf pt : Z) : proc :=
  mk_proc id READY (p_name p) pt ks (p_sz p) tf (xstate q) (p_chan q)
    (mk_context (u32 sym_forkret) (ks +w PAGE_SIZE) 0 0 0 0 0 0 0 0 0 0 0 0) (Some i).

Record forked `{KSyms} (i n : nat) (s s' : kstate) : Prop := {
  fk_slot : (n < NPROC)%nat /\ p_state (get_proc s n) = UNUSED;
  fk_proc : exists ks tf pt,
    get_proc s' n = child_of i (get_proc s i) (get_proc s n) (curr_pid s) ks tf pt /\ tf <> 0 /\ pt <> 0 /\ ks <> 0;
  fk_rest : forall j, j <> n -> get_proc s' j = get_proc s j;
  fk_pid : curr_pid s' = curr_pid s + 1;
  fk_holds : holds s' (get_proc s' n);
  fk_took : took (owns s' (get_proc s' n)) s s';
  fk_frame : forall k, 0 <= k < sizeof_trapframe ->
    load8 (mem s') (p_tf (get_proc s' n) + k) =
      if decide (tf_k_sp <= k < tf_k_sp + 4 \/ tf_regs 10 <= k < tf_regs 11) then 0
      else load8 (mem s) (p_tf (get_proc s i) + k);
  fk_memory : forall v need, 0 <= v < U32 -> image_or_stack (p_sz (get_proc s i)) v -> 0 <= need < 1024 ->
    let old := p_pt (get_proc s i) in let new := p_pt (get_proc s' n) in
    (user_pa (mem s') new need v = 0 <-> user_pa (mem s) old need v = 0) /\
    (user_pa (mem s) old need v <> 0 ->
       load8 (mem s') (user_pa (mem s') new need v) = load8 (mem s) (user_pa (mem s) old need v))
}.

(** * The child's pages *)

Section Fork.
Context `{L : Layout} {HL : LayoutOk L} `{KSyms}.
Context (s : kstate) (Hq : quiet s) (Hb : blank_slots s) (i : nat) (Hi : can_fork i s).
Let p := get_proc s i.
Let Q := image_or_stack (p_sz p).

Lemma parent_space : pt_wf s (p_pt p) /\ pages_ok (p_pt p) Q s /\ p_sz p mod PAGE_SIZE = 0 /\
  USER_BASE <= p_sz p <= UART_0 /\ forall b, space s (p_pt p) (p_sz p) b -> owned s b.
Proof.
  destruct Hi as [_ [_ _ H3] _ Hpt Hsz]. fold p in H3, Hpt, Hsz. destruct (H3 Hpt) as (Hwf & Hok & Hal & _ & _).
  split_and!; try done; try lia. intros b [(v & Hv & HQ & Hval & ->) | Ht].
  - by apply (po_owned _ _ _ Hok).
  - by eapply table_owned.
Qed.

(** The parent once the child's slot is set up. *)
Lemma spawned_parent n ks tf pt s1 : spawned n ks tf pt s s1 ->
  get_proc s1 i = p /\ pt_wf s1 (p_pt p) /\ pages_ok (p_pt p) Q s1 /\ same_tables (mem s) (mem s1) (p_pt p) /\
  (forall b, table (mem s1) (p_pt p) b \/ pages (p_pt p) Q s1 b -> ~ table (mem s1) pt b) /\
  (forall v, 0 <= v < U32 -> Q v -> valid (pte_at (mem s1) pt v) = false).
Proof.
  intros Hs. destruct parent_space as (Hwf & Hok & Hal & Hsz & Hown). pose proof (sp_setup _ _ _ _ _ _ Hs) as Hset.
  pose proof (su_took _ _ _ _ _ Hset) as Ht.
  destruct (space_keep s s1 (p_pt p) (p_sz p)) as (Hwf1 & Hok1 & Hsp & Hst); try done.
  { intros b _. apply Ht. }
  { intros b a _ Ho Ha. by apply (took_page _ _ _ b a Ht). }
  split_and!; try done.
  - apply (su_rest _ _ _ _ _ Hset). intros ->. by apply (cf_used _ _ Hi), (sp_slot _ _ _ _ _ _ Hs).
  - intros b Hbb Htb. assert (Hspb : space s1 (p_pt p) (p_sz p) b) by (unfold space; tauto).
    apply Hsp, Hown in Hspb. apply (owned_not_avail s b Hspb). apply (tk_new _ _ _ _ Ht). by right.
  - intros v Hv HQ. apply (spawned_unmapped n ks tf pt s s1 Hs). destruct HQ; [left | right]; lia.
Qed.

(** The child's address space while it is being copied. *)
Section Child.
Context (n : nat) (ks tf pt : Z) (s1 s2 : kstate) (Hs : spawned n ks tf pt s s1).
Context (Ex : pt_ext pt (pages pt Q s2) s1 s2) (Hok : pages_ok pt Q s2).
Context (Hfr : forall b, pages pt Q s2 b -> avail s1 b).

Definition child_pages (b : Z) : Prop := (b = ks \/ b = tf) \/ space s2 pt (p_sz p) b.

Lemma child_took : took child_pages s s2.
Proof.
  pose proof (su_took _ _ _ _ _ (sp_setup _ _ _ _ _ _ Hs)) as Ht.
  eapply took_equiv; [| eapply (took_ext _ _ _ pt s s1 s2); [exact Ht | by right | exact Ex |]].
  - intros b. unfold child_pages, space, Q. pose proof (ex_tables _ _ _ _ Ex b). tauto.
  - intros b Hbp. split; [by apply Hfr |]. destruct Hbp as (v & Hv & HQ & Hval & ->).
    by apply (po_owned _ _ _ Hok).
Qed.

(** The stack and the trap frame are not among its pages. *)
Lemma child_apart b : b = ks \/ b = tf -> ~ space s2 pt (p_sz p) b.
Proof.
  intros Hbk. destruct (spawned_page n ks tf pt s s1 Hs b) as [_ Ho]; [tauto |].
  destruct (sp_apart _ _ _ _ _ _ Hs) as (_ & H2 & H3). intros [Hp | Ht].
  - by apply (owned_not_avail s1 b), Hfr.
  - eapply (ex_not_table _ _ _ _ b Ex); [apply Hs | | done | done]. by destruct Hbk as [-> | ->].
Qed.

Lemma child_holds c : p_tf c = tf -> p_pt c = pt -> kstack c = ks -> p_sz c = p_sz p ->
  holds s2 c /\ forall b, owns s2 c b <-> child_pages b.
Proof.
  intros Ht Hp Hk Hz. destruct parent_space as (_ & _ & Hal & Hsz & _).
  destruct (sp_apart _ _ _ _ _ _ Hs) as (Hkt & _ & _).
  assert (Hn0 : forall b, b = ks \/ b = tf \/ b = pt -> b <> 0 /\ owned s2 b).
  { intros b Hbb. destruct (spawned_page n ks tf pt s s1 Hs b) as [? ?].
    - destruct Hbb as [? | [? | ->]]; [tauto | tauto |]. right. right. by left.
    - split; [done | by apply (ex_owned _ _ _ _ Ex)]. }
  destruct (Hn0 ks) as [Hk0 Hko]; [tauto |]. destruct (Hn0 tf) as [Ht0 Hto]; [tauto |].
  destruct (Hn0 pt) as [Hp0 _]; [tauto |]. split.
  - split; rewrite ?Ht, ?Hp, ?Hk, ?Hz; [done | done |]. intros _.
    split_and!; [apply Ex | done | done | unfold USER_BASE in Hsz; lia | unfold UART_0, U32 in *; lia |].
    intros b Hbs. split; intros ->; (eapply child_apart; [| exact Hbs]); tauto.
  - intros b. unfold owns, child_pages. rewrite Ht, Hp, Hk, Hz. tauto.
Qed.

(** ** The child's trap frame *)

Context (m' : gmap Z Z).
Context (Hm' : forall a, load8 m' a =
  if decide (tf <= a < tf + sizeof_trapframe) then
    if decide (tf_k_sp <= a - tf < tf_k_sp + 4 \/ tf_regs 10 <= a - tf < tf_regs 11) then 0
    else load8 (mem s2) (p_tf p + (a - tf))
  else load8 (mem s2) a).
Context (Hc : copied (p_pt p) pt s1 Q s2).
Context (s' : kstate) (Hmem : mem s' = m') (Hbm : mem_bitmap s' = mem_bitmap s2) (Hof : oframe s2 s').

Lemma frame_outside a : ~ in_page tf a -> load8 (mem s') a = load8 (mem s2) a.
Proof.
  intros Ha. rewrite Hmem, Hm', decide_False; [done |]. unfold in_page, PAGE_SIZE in Ha.
  unfold sizeof_trapframe. lia.
Qed.

Lemma frame_took : took child_pages s s'.
Proof.
  eapply (took_frame _ _ s (set_mem m' s2)); [| | done | done].
  - eapply (took_write _ _ s s2 tf); [apply child_took | unfold child_pages; tauto |].
    intros a _ Ha. rewrite <- Hmem. by apply frame_outside.
  - destruct Hof. by split.
Qed.

Lemma frame_owned b : owned s2 b -> owned s' b.
Proof. unfold owned, bit. by rewrite Hbm, (of_start _ _ Hof). Qed.

Lemma frame_page b a : owned s2 b -> b <> tf -> in_page b a -> load8 (mem s') a = load8 (mem s2) a.
Proof.
  intros Ho Hne Ha. apply frame_outside. intros Hin. apply Hne.
  destruct (spawned_page n ks tf pt s s1 Hs tf) as [_ Hto]; [tauto |].
  exact (page_disjoint b tf a (owned_ram _ _ Ho) (owned_ram _ _ Hto) Ha Hin).
Qed.

Lemma frame_space : pt_wf s' pt /\ pages_ok pt Q s' /\ (forall b, space s' pt (p_sz p) b <-> space s2 pt (p_sz p) b)
  /\ same_tables (mem s2) (mem s') pt.
Proof.
  apply space_keep; [by intros; apply frame_owned | | apply Ex | done].
  intros b a Hsp Ho Ha. apply (frame_page b); [done | | done]. intros ->. eapply child_apart; [| exact Hsp]. tauto.
Qed.

(** The child sees its parent's memory. *)
Lemma frame_memory v need : 0 <= v < U32 -> Q v -> 0 <= need < 1024 ->
  (user_pa (mem s') pt need v = 0 <-> user_pa (mem s) (p_pt p) need v = 0) /\
  (user_pa (mem s) (p_pt p) need v <> 0 ->
     load8 (mem s') (user_pa (mem s') pt need v) = load8 (mem s) (user_pa (mem s) (p_pt p) need v)).
Proof.
  intros Hv HQ Hn. destruct (spawned_parent n ks tf pt s1 Hs) as (_ & _ & Hok1 & Hst & _ & Hun).
  destruct frame_space as (_ & _ & _ & Hst'). destruct parent_space as (Hwf & Hoks & _ & _ & Hown).
  rewrite (same_tables_user_pa (mem s2) (mem s')) by done.
  destruct (copied_seen (p_pt p) pt Q s1 s2 Hc Hun Hok1 v need Hv HQ Hn) as [H1 H2].
  rewrite (same_tables_user_pa (mem s) (mem s1)) in H1, H2 by done. split; [done |].
  intros Hnz. destruct (H2 Hnz) as [Hb2 Hav].
  assert (Hval : forall m x, user_pa m x need v <> 0 -> valid (pte_at m x v) = true).
  { intros m x. unfold user_pa. destruct (allows _ need) eqn:Ha; [| done]. intros _. eauto using allows_valid, allows_user. }
  assert (Hin : forall m x, user_pa m x need v <> 0 -> ram_page (PTE2PA (pte_at m x v)) ->
    in_page (PTE2PA (pte_at m x v)) (user_pa m x need v)).
  { intros m x. unfold user_pa. destruct (allows _ need); [| done]. intros _ [_ Hr].
    rewrite u32_small by (unfold PAGE_SIZE, MEM_START, MEM_END, U32 in *; zlia).
    unfold in_page, PAGE_SIZE. zlia. }
  assert (Hnz2 : user_pa (mem s2) pt need v <> 0) by tauto.
  assert (Ho2 : owned s2 (PTE2PA (pte_at (mem s2) pt v))) by (by apply (po_owned _ _ _ Hok); auto).
  rewrite (frame_page (PTE2PA (pte_at (mem s2) pt v))); [| done | | by apply Hin, owned_ram with s2; try done].
  - rewrite Hb2. apply (took_page _ _ _ (PTE2PA (pte_at (mem s) (p_pt p) v)) _ (su_took _ _ _ _ _ (sp_setup _ _ _ _ _ _ Hs))).
    + apply (po_owned _ _ _ Hoks); auto.
    + apply Hin; [done |]. eapply owned_ram, (po_owned _ _ _ Hoks); auto.
  - intros He. apply (child_apart tf); [tauto |]. left. rewrite <- He. exists v. split_and!; auto; lia.
Qed.

Lemma frame_forked : (forall j, get_proc s' j = if decide (j = n) then
    child_of i p (get_proc s n) (curr_pid s) ks tf pt else get_proc s1 j) ->
  curr_pid s' = curr_pid s1 -> forked i n s s'.
Proof.
  intros Hp Hpid. pose proof (sp_setup _ _ _ _ _ _ Hs) as [Ht1 Hpid1 _ Hrest].
  set (c := child_of i p (get_proc s n) (curr_pid s) ks tf pt).
  assert (Hn : get_proc s' n = c) by (by rewrite Hp, decide_True).
  destruct frame_space as (Hwf & Hok' & Hsp & _).
  destruct (child_holds c) as [[G1 G2 G3] Ho]; try done.
  assert (Hpg : forall b, b = ks \/ b = tf \/ b = pt -> b <> 0).
  { intros b Hbb. apply (spawned_page n ks tf pt s s1 Hs). destruct Hbb as [? | [? | ->]]; try tauto.
    right. right. by left. }
  split.
  - apply Hs.
  - exists ks, tf, pt. rewrite Hn. split_and!; try done; apply Hpg; tauto.
  - intros j Hj. rewrite Hp, decide_False by done. by apply Hrest.
  - congruence.
  - rewrite Hn. split.
    + intros H0. by apply frame_owned, G1.
    + intros H0. destruct (G2 H0). split; [by apply frame_owned | done].
    + intros H0. destruct (G3 H0) as (_ & _ & Hal & Hsz & Hd). do 4 (split; [done |]).
      intros b Hbb. by apply Hd, Hsp.
  - rewrite Hn. eapply took_equiv; [| exact frame_took]. intros b. rewrite <- Ho. unfold owns.
    change (p_pt c) with pt. change (p_sz c) with (p_sz p). by rewrite Hsp.
  - intros k Hk. rewrite Hn. change (p_tf c) with tf. rewrite Hmem, Hm', decide_True by lia.
    replace (tf + k - tf) with k by lia. case_decide; [done |].
    destruct Hi as [_ [Htf _ _] Htf0 _ _]. pose proof (Htf Htf0) as Ho'.
    apply (took_page _ _ _ _ _ child_took Ho'). unfold in_page, PAGE_SIZE. unfold sizeof_trapframe in Hk. fold p. lia.
  - intros v need Hv HQ Hnd. rewrite Hn. by apply frame_memory.
Qed.
End Child.
End Fork.

(** * fork *)

Lemma load8_store32_0 m a b : load8 (store32 m a 0) b = if decide (a <= b < a + 4) then 0 else load8 m b.
Proof.
  case_decide as Hd; [| by apply load8_store32_ne; lia].
  unfold store32. assert (b = a \/ b = a + 1 \/ b = a + 2 \/ b = a + 3) as [-> | [-> | [-> | ->]]] by lia;
    rewrite ?load8_store8_ne by lia; rewrite load8_store8_eq; done.
Qed.

Lemma load32_0 m a : (forall k, 0 <= k < 4 -> load8 m (a + k) = 0) -> load32 m a = 0.
Proof.
  intros Hz. unfold load32. pose proof (Hz 0 ltac:(lia)) as H0. rewrite Z.add_0_r in H0.
  by rewrite H0, !Hz by lia.
Qed.

(** The rest of [fork] once memory is copied: the trap frame, and publishing
    the child. *)
Section Publish.
Context `{L : Layout} {HL : LayoutOk L} `{KSyms} (s : kstate) (Hq : quiet s) (Hb : blank_slots s).
Context (i : nat) (Hi : can_fork i s) (n : nat) (ks tf pt : Z) (s1 s2 : kstate).
Let p := get_proc s i.
Let Q := image_or_stack (p_sz p).
Context (Hs : spawned n ks tf pt s s1) (Ex : pt_ext pt (pages pt Q s2) s1 s2) (Hok : pages_ok pt Q s2).
Context (Hfr : forall b, pages pt Q s2 b -> avail s1 b) (Hc : copied (p_pt p) pt s1 Q s2).

Lemma child_ksp : load32 (mem s2) (tf + tf_k_sp) = 0.
Proof.
  destruct (spawned_page n ks tf pt s s1 Hs tf) as [_ Ho]; [tauto |].
  destruct (sp_apart _ _ _ _ _ _ Hs) as (_ & _ & Hnt). unfold tf_k_sp. rewrite Z.add_0_r.
  apply load32_0. intros k Hk. assert (Hin : in_page tf (tf + k)) by (unfold in_page, PAGE_SIZE; lia).
  rewrite (ex_page _ _ _ _ tf _ Ex (sp_wf _ _ _ _ _ _ Hs) Ho Hnt Hin). by apply (sp_zero _ _ _ _ _ _ Hs).
Qed.

Lemma wp_publish (R : Z -> kstate -> Prop) id : (forall s', forked i n s s' -> R id s') ->
  wp (child_ksp ← ld (tf + tf_k_sp);
      memmove tf (p_tf p) sizeof_trapframe;;
      st (tf + tf_k_sp) child_ksp;;
      st (tf + tf_regs 10) 0;;
      with_proc n (set_name (p_name p));;
      lock WaitLock;;
      lock (ProcLock n);;
      with_proc n (fun q => set_state READY (set_parent (Some i) q));;
      unlock (ProcLock n);;
      unlock WaitLock;;
      mret id) R (put_proc n (set_sz (p_sz p) (get_proc s2 n)) s2).
Proof.
  intros HR. pose proof (sp_setup _ _ _ _ _ _ Hs) as Hset.
  destruct (spawned_page n ks tf pt s s1 Hs tf) as [_ Hto]; [tauto |].
  pose proof (hd_tf _ _ (cf_holds _ _ Hi) (cf_tf _ _ Hi)) as Hpo. fold p in Hpo.
  assert (Hspan : forall x b, owned x b -> span_ok b sizeof_trapframe).
  { intros x b Hxb. apply owned_ram, ram_page_span in Hxb as (? & ? & ?).
    unfold span_ok, sizeof_trapframe, PAGE_SIZE in *. lia. }
  apply wp_bind, wp_gets. change (mem (put_proc _ _ _)) with (mem s2). rewrite child_ksp.
  apply wp_bind, wp_memmove; [by eapply Hspan | by eapply Hspan |]. intros m1 Hm1.
  change (mem (put_proc _ _ _)) with (mem s2) in Hm1.
  unfold st. apply wp_bind, wp_modify, wp_bind, wp_modify. unfold with_proc. apply wp_bind, wp_modify.
  set (m' := store32 _ (tf + tf_regs 10) 0). set (s3 := put_proc n _ (set_mem _ _)).
  assert (Hl : forall l, can_lock l (sy s3)).
  { intros l. change (sy s3) with (sy s2). rewrite (kf_sy _ _ (ex_frame _ _ _ _ Ex)).
    apply (qu_locks _ (setup_quiet _ _ _ _ _ Hq Hset)). }
  apply wp_bind, wp_lock; [apply Hl |]. apply wp_bind, wp_lock; [by apply can_lock_other |].
  apply wp_bind, wp_modify, wp_bind, (wp_unlock _ (sync_lock WaitLock (sy s3))); [by apply can_lock_other | done |].
  intros y1 Hy1. apply wp_bind, (wp_unlock _ (sy s3)); [apply Hl | done |]. intros y2 Hy2. apply wp_ret.
  assert (Hn2 : get_proc s2 n = new_proc (get_proc s n) (curr_pid s) ks tf pt).
  { unfold get_proc. rewrite (kf_procs _ _ (ex_frame _ _ _ _ Ex)). apply Hset. }
  apply HR. apply (frame_forked s i Hi n ks tf pt s1 s2 Hs Ex Hok Hfr m'); try done.
  - intros a. unfold m'. cbn [mem set_mem]. rewrite !load8_store32_0, Hm1.
    unfold sizeof_trapframe, tf_regs, tf_k_sp. repeat case_decide; try lia; try done; zcase; (done || lia).
  - intros j. change (get_proc (set_sy _ (set_sy _ ?x)) j) with (get_proc x j). rewrite get_proc_put.
    destruct (decide (j = n)) as [-> | Hj].
    + change (get_proc (set_sy _ (set_sy _ s3)) n) with (get_proc s3 n). unfold s3.
      rewrite get_proc_put, decide_True by done.
      change (get_proc (set_mem _ (set_mem _ (set_mem _ ?x))) n) with (get_proc x n).
      rewrite get_proc_put, decide_True by done. by rewrite Hn2.
    + change (get_proc (set_sy _ (set_sy _ s3)) j) with (get_proc s3 j). unfold s3.
      rewrite get_proc_put, decide_False by done.
      change (get_proc (set_mem _ (set_mem _ (set_mem _ ?x))) j) with (get_proc x j).
      rewrite get_proc_put, decide_False by done. unfold get_proc. by rewrite (kf_procs _ _ (ex_frame _ _ _ _ Ex)).
  - exact (kf_pid _ _ (ex_frame _ _ _ _ Ex)).
Qed.
End Publish.

(** Why [fork] fails: every slot is in use, the caller has no stack to copy, or
    at most the pages of the copy, of a page table and two more are left. *)
Definition unforked (i : nat) (s : kstate) : Prop :=
  let p := get_proc s i in no_room ((p_sz p - USER_BASE) / PAGE_SIZE + 1028) s \/
  valid (pte_at (mem s) (p_pt p) (USER_STACK_TOP - PAGE_SIZE)) = false.

Lemma uncopied_unforked `{L : Layout} {HL : LayoutOk L} `{KSyms} s i : can_fork i s -> forall n ks tf pt s1,
  spawned n ks tf pt s s1 -> uncopied (p_pt (get_proc s i)) pt (p_sz (get_proc s i)) s1 -> unforked i s.
Proof.
  intros Hi n ks tf pt s1 Hs [Hv | Hout].
  - right. destruct (spawned_parent s i Hi n ks tf pt s1 Hs) as (_ & _ & _ & Hst & _).
    by rewrite <- (same_tables_pte (mem s) (mem s1)).
  - left. right. eapply few_mono; [eapply (scarce_new_table _ (fun b => b = ks \/ b = tf) 2); [apply Hs | | done | done | exact Hout] | lia | done].
    apply (few_or 1 1 _ _ _ (few_one ks) (few_one tf)). intros b [Hb | Hb] Hn; [exact Hb | done].
Qed.

(** [fork] after [myproc]. *)
Lemma wp_fork_body `{L : Layout} {HL : LayoutOk L} `{KSyms} s i (R : Z -> kstate -> Prop) : quiet s ->
  blank_slots s -> curr_pid s <> 0x7FFFFFFF -> can_fork i s ->
  (forall s', unspawned s s' -> unforked i s -> R (-1) s') -> (forall n s', forked i n s s' -> R (curr_pid s) s') ->
  wp (np ← procalloc;
      match np with
      | None => error "sys_fork: procalloc fail";; mret (-1)
      | Some n =>
          p ← the_proc i;
          q ← the_proc n;
          r ← uvmcopy (p_pt p) (p_pt q) (p_sz p);
          with_proc n (set_sz (p_sz p));;
          if r <? 0 then
            lock (ProcLock n);; releaseproc n;; unlock (ProcLock n);; mret (-1)
          else
            child_ksp ← ld (p_tf q + tf_k_sp);
            memmove (p_tf q) (p_tf p) sizeof_trapframe;;
            st (p_tf q + tf_k_sp) child_ksp;;
            st (p_tf q + tf_regs 10) 0;;
            with_proc n (set_name (p_name p));;
            lock WaitLock;;
            lock (ProcLock n);;
            with_proc n (fun q => set_state READY (set_parent (Some i) q));;
            unlock (ProcLock n);;
            unlock WaitLock;;
            mret (pid q)
      end) R s.
Proof.
  intros Hq Hb Hpid Hi HF HS. apply wp_bind, wp_procalloc; [done | done | done | |].
  { intros s1 [Hk Hp Hsl] Hnr.
    assert (Hq1 : quiet s1) by (eapply quiet_frame; [apply Hk | apply Hk | done]).
    apply wp_bind, wp_error; [right; apply Hq1 |]. intros s2 (Hf2 & Hm2 & Hb2 & _).
    pose proof (cf_sz _ _ Hi) as Hsz. apply wp_ret, HF; [split |].
    - eapply took_frame; [exact Hk | by apply kframe_oframe | done | done].
    - by rewrite (kf_pid _ _ Hf2).
    - intros j. unfold get_proc in *. rewrite (kf_procs _ _ Hf2). apply Hsl.
    - left. destruct Hnr as [Hn | Hn]; [by left | right]. eapply few_mono; [exact Hn | unfold PAGE_SIZE; zlia | done]. }
  intros n ks tf pt s1 Hs. destruct (spawned_parent s i Hi n ks tf pt s1 Hs) as (Hp1 & Hwf1 & Hok1 & _ & Hap & Hun).
  destruct (parent_space s i Hi) as (_ & _ & Hal & Hsz & _).
  pose proof (sp_setup _ _ _ _ _ _ Hs) as Hset. pose proof (setup_quiet _ _ _ _ _ Hq Hset) as Hq1.
  apply wp_bind, wp_gets, wp_bind, wp_gets. rewrite Hp1, (su_slot _ _ _ _ _ Hset).
  set (p := get_proc s i) in *. set (q := new_proc _ _ _ _ _).
  change (p_pt q) with pt. change (p_tf q) with tf. change (pid q) with (curr_pid s).
  apply wp_bind. eapply wp_mono.
  { apply (wp_uvmcopy_ext (p_pt p) pt (p_sz p) s1); try done; [by apply quiet_ready | apply Hs]. }
  intros r s2 (Ex & Hok & Hfr & Hres). unfold with_proc at 1. apply wp_bind, wp_modify.
  destruct Hres as [[-> Hno] | [-> Hc]]; cbn [Z.ltb Z.compare].
  - assert (Hn2 : get_proc s2 n = q).
    { unfold get_proc. rewrite (kf_procs _ _ (ex_frame _ _ _ _ Ex)). apply Hset. }
    rewrite Hn2. set (c := set_sz (p_sz p) q). set (s3 := put_proc n c s2).
    assert (Hn3 : get_proc s3 n = c) by (unfold s3; by rewrite get_proc_put, decide_True).
    destruct (child_holds s i Hi n ks tf pt s1 s2 Hs Ex Hok Hfr c) as [Hh Ho]; try done.
    pose proof (child_took s i n ks tf pt s1 s2 Hs Ex Hok Hfr) as Ht.
    apply (wp_unwind n (-1) (child_pages s i ks tf pt s2) s); [| | | |].
    + split; [destruct (tk_alloc _ _ _ _ Ht); by split |]. intros l. change (sy s3) with (sy s2).
      rewrite (kf_sy _ _ (ex_frame _ _ _ _ Ex)). apply Hq1.
    + eapply took_frame; [exact Ht | apply oframe_put | done | done].
    + rewrite Hn3. by apply (holds_ext s2).
    + rewrite Hn3. exact Ho.
    + intros s' Hk Hpid' Hs'. apply HF; [split; [done | |] | by apply (uncopied_unforked s i Hi n ks tf pt s1)].
      * rewrite Hpid'. change (curr_pid s3) with (curr_pid s2).
        rewrite (kf_pid _ _ (ex_frame _ _ _ _ Ex)), (su_pid _ _ _ _ _ Hset). lia.
      * intros j. rewrite Hs'. destruct (decide (j = n)) as [-> | Hj].
        -- right. split; [apply Hs | done].
        -- left. unfold s3. rewrite get_proc_put, decide_False by done.
           rewrite <- (su_rest _ _ _ _ _ Hset j Hj). unfold get_proc. by rewrite (kf_procs _ _ (ex_frame _ _ _ _ Ex)).
  - by eapply (wp_publish s Hq i Hi n ks tf pt s1 s2); eauto.
Qed.

Lemma unspawned_sy y s s' : y ≡ sy s -> unspawned (set_sy y s) s' -> unspawned s s'.
Proof. intros Hy [Hk Hp Hs]. split; [by eapply took_sy | done | done]. Qed.

Lemma forked_sy `{KSyms} i n y s s' : y ≡ sy s -> forked i n (set_sy y s) s' -> forked i n s s'.
Proof. intros Hy [H1 H2 H3 H4 H5 H6 H7 H8]. split; try done. by eapply took_sy. Qed.

Lemma wp_fork `{L : Layout} {HL : LayoutOk L} `{KSyms} s i (R : Z -> kstate -> Prop) : quiet s -> blank_slots s ->
  curr_pid s <> 0x7FFFFFFF -> cpu_proc (get_cpu (sy s)) = Some i -> can_fork i s ->
  (forall s', unspawned s s' -> unforked i s -> R (-1) s') -> (forall n s', forked i n s s' -> R (curr_pid s) s') ->
  wp fork R s.
Proof.
  intros Hq Hb Hpid Hcpu [C1 C2 C3 C4 C5] HF HS. unfold fork.
  apply wp_bind, wp_myproc; [apply (qu_locks _ Hq MemLock) |].
  intros y Hy. rewrite Hcpu. cbn [deref_proc]. apply wp_bind, wp_ret.
  apply wp_fork_body; [| done | done | | |].
  - destruct Hq as [[A1 A2] Hl]. split; [by split |]. intros l. cbn [sy set_sy]. rewrite Hy. apply Hl.
  - split; try done. by apply (holds_ext s).
  - intros s' Hu Hn. apply HF; [by eapply unspawned_sy | exact Hn].
  - intros n s' Hf. eapply HS. by eapply forked_sy.
Qed.

(** * Properties *)

Lemma forked_blank `{KSyms} i n s s' : forked i n s s' -> blank_slots s -> blank_slots s'.
Proof.
  intros Hf Hb j Hj Hu. destruct (decide (j = n)) as [-> | Hne].
  - destruct (fk_proc _ _ _ _ Hf) as (ks & tf & pt & He & _). by rewrite He in Hu.
  - rewrite (fk_rest _ _ _ _ Hf) in * by done. by apply Hb.
Qed.

(** C7 ([fork]): called by a process that has a trap frame and an address space
    of its own, with no lock held and nothing held by the unused slots, [fork]
    returns without panicking. Either it returns -1, no page is gone, no
    process has changed and a slot that had been claimed is unused and holds
    nothing, also when memory ran out halfway through the copy, and this only if
    every slot is in use, the caller has no stack page or no more pages are
    available than the child needs at most; or it returns
    the new pid, and one slot that was unused is a [READY] child of the caller
    with its name and size, its own kernel stack, a trap frame equal to the
    caller's but for the kernel stack pointer, still to be set, and a 0 in
    [a0], and a memory in which every address of the image and the stack can
    be accessed as in the caller's and holds the same byte; the pages that were
    taken are exactly those the child holds. Neither way is any other slot or
    any page that was in use changed. *)
Theorem fork_correct `{L : Layout} {HL : LayoutOk L} `{KSyms} s i : quiet s -> blank_slots s ->
  curr_pid s <> 0x7FFFFFFF -> cpu_proc (get_cpu (sy s)) = Some i -> can_fork i s ->
  wp fork (fun r s' => quiet s' /\ blank_slots s' /\
    (forall b a, owned s b -> in_page b a -> load8 (mem s') a = load8 (mem s) a) /\
    (r = -1 /\ unspawned s s' /\ unforked i s \/ r = curr_pid s /\ exists n, forked i n s s')) s.
Proof.
  intros Hq Hb Hpid Hcpu Hi. apply (wp_fork s i); try done.
  - intros s' Hu Hn. pose proof (un_kept _ _ Hu) as Hk.
    split_and!; [| by eapply unspawned_blank | by intros; eapply took_page | by left].
    eapply quiet_frame; [apply Hk | apply Hk | done].
  - intros n s' Hf. pose proof (fk_took _ _ _ _ Hf) as Ht.
    split_and!; [| by eapply forked_blank | by intros; eapply took_page | right; eauto].
    eapply quiet_frame; [apply Ht | apply Ht | done].
Qed.

(** Process 1 on hart 0, whose table demonstrates a small address space. *)
Definition fork_demo : kstate := set_sy nap_sync proc_demo.

Lemma fork_demo_quiet : quiet fork_demo.
Proof.
  split; [| intros l; split; [split; vm_compute; intuition congruence | done]].
  destruct (qu_alloc _ two_pages_quiet) as [A1 A2]. by split.
Qed.

Lemma fork_correct_witness :
  wp (fork (H0 := demo_syms)) (fun r s' => quiet s' /\ blank_slots s' /\
    (forall b a, owned fork_demo b -> in_page b a -> load8 (mem s') a = load8 (mem fork_demo) a) /\
    (r = -1 /\ unspawned fork_demo s' /\ unforked 1 fork_demo \/
     r = curr_pid fork_demo /\ exists n, forked (H := demo_syms) 1 n fork_demo s')) fork_demo.
Proof.
  apply (fork_correct (H := demo_syms) fork_demo 1 fork_demo_quiet); try done.
  - intros j Hj. unfold fork_demo. change (get_proc (set_sy _ ?x) j) with (get_proc x j).
    unfold proc_demo. rewrite get_proc_put. case_decide; [intros Hu; discriminate Hu | done].
  - split; try done. by apply (holds_ext user_demo), demo_holds.
Defined.
