(* ===== verification/Exit.v ===== *)
(** [kexit] (Proc.v): the address space is freed, the children find another
    parent, and the process stays a zombie that its own parent is told of. *)
From S2P Require Import Prelude Machine Csr KPrint Spinlock Printf Mem Vm PageTable KernelMap UserMem UserSpace Took Exec ExecProofs Proc ProcProofs SchedProofs ProcAlloc ProcTable Fork.

(** * Handing the children over *)

Definition zombie_child (i : nat) (c : proc) : bool := bool_decide (parent c = Some i) && in_state ZOMBIE c.

(** What becomes of slot [c] when [i] exits and its children go to [reaper]. *)
Definition heir (i : nat) (reaper : option nat) (c : proc) : proc :=
  if bool_decide (parent c = Some i) then
    match reaper with
    | None => if in_state ZOMBIE c then released c else set_parent None c
    | Some _ => set_parent reaper c
    end
  else c.

(** The pages of the zombies that are left with nobody to reap them. *)
Definition unclaimed (i : nat) (reaper : option nat) (R : nat -> Prop) (s : kstate) (b : Z) : Prop :=
  reaper = None /\ exists j, R j /\ zombie_child i (get_proc s j) = true /\ owns s (get_proc s j) b.

Definition is_some {A} (o : option A) : bool := match o with Some _ => true | None => false end.

Section Reparent.
Context (i : nat) (reaper : option nat).

(** What the loop needs from slot [q] on. *)
Record heirs_ok (q k : nat) (s : kstate) : Prop := {
  hk_alloc : alloc_ok s;
  hk_locks : forall l, l <> WaitLock -> can_lock l (sy s);
  hk_holds : forall j, (q <= j < q + k)%nat -> holds s (get_proc s j);
  hk_apart : forall j j' b, (q <= j < q + k)%nat -> (q <= j' < q + k)%nat -> owns s (get_proc s j) b ->
    owns s (get_proc s j') b -> j = j'
}.

Definition handed_over (q k : nat) (gave : bool) (Q : bool -> kstate -> Prop) (s : kstate) : Prop :=
  forall s', gave_back (unclaimed i reaper (fun j => (q <= j < q + k)%nat) s) s s' ->
    (forall j, get_proc s' j = if decide (q <= j < q + k)%nat then heir i reaper (get_proc s j) else get_proc s j) ->
    Q (gave || (is_some reaper && existsb (fun j => zombie_child i (get_proc s j)) (seq q k))) s'.

(** Slot [q] is done. *)
Section Step.
Context (q k : nat) (s s1 : kstate) (Hok : heirs_ok q (S k) s).
Context (Hgb : gave_back (unclaimed i reaper (fun j => j = q) s) s s1).
Context (Hp1 : forall j, get_proc s1 j = if decide (j = q) then heir i reaper (get_proc s j) else get_proc s j).

(** The later slots hold what they held. *)
Lemma heirs_keep j : (S q <= j < S q + k)%nat ->
  get_proc s1 j = get_proc s j /\ holds s1 (get_proc s j) /\ forall b, owns s1 (get_proc s j) b <-> owns s (get_proc s j) b.
Proof.
  intros Hj. split; [by rewrite Hp1, decide_False by lia |].
  apply (gave_back_holds _ _ _ _ Hgb); [| apply (hk_holds _ _ _ Hok); lia].
  intros b Hb (_ & j' & -> & _ & Hb'). enough (q = j) by lia. apply (hk_apart _ _ _ Hok q j b); [lia | lia | done | done].
Qed.

Lemma heirs_ok_next : heirs_ok (S q) k s1.
Proof.
  destruct Hok as [Ha Hl Hh Hap]. split.
  - apply Hgb.
  - intros l Hne. rewrite (of_sy _ _ (gb_frame _ _ _ Hgb)). by apply Hl.
  - intros j Hj. destruct (heirs_keep j Hj) as (-> & Hk & _). done.
  - intros j j' b Hj Hj'. destruct (heirs_keep j Hj) as (-> & _ & ->). destruct (heirs_keep j' Hj') as (-> & _ & ->).
    apply Hap; lia.
Qed.

Lemma handed_next gave (Q : bool -> kstate -> Prop) : handed_over q (S k) gave Q s ->
  handed_over (S q) k (gave || (is_some reaper && zombie_child i (get_proc s q))) Q s1.
Proof.
  intros HQ s' Hg Hp'. specialize (HQ s').
  assert (Hseq : existsb (fun j => zombie_child i (get_proc s1 j)) (seq (S q) k) =
                 existsb (fun j => zombie_child i (get_proc s j)) (seq (S q) k)).
  { apply eq_true_iff_eq. rewrite !existsb_exists. split; intros (j & Hin & Hz); exists j; (split; [done |]);
      apply in_seq in Hin; destruct (heirs_keep j) as (E & _); try lia; congruence. }
  rewrite Hseq, <- orb_assoc, <- andb_orb_distrib_r. apply HQ.
  - eapply gave_back_equiv; [| eapply gave_back_trans; [exact Hgb | exact Hg]].
    intros b. unfold unclaimed. split.
    + intros [(Hr & j & -> & Hz & Hb) | (Hr & j & Hj & Hz & Hb)]; (split; [done |]).
      { exists q. split; [lia | done]. }
      exists j. destruct (heirs_keep j Hj) as (E & _ & Ho). rewrite E in Hz, Hb. rewrite Ho in Hb. split; [lia | done].
    + intros (Hr & j & Hj & Hz & Hb). destruct (decide (j = q)) as [-> | Hne]; [left; eauto |]. right.
      split; [done |]. exists j. destruct (heirs_keep j) as (E & _ & Ho); [lia |]. rewrite E, Ho. split_and!; (done || lia).
  - intros j. rewrite Hp', Hp1. repeat case_decide; subst; (done || lia).
Qed.
End Step.

(** A child, whose lock the loop takes. *)
Lemma wp_hand_child q k gave s (Q : bool -> kstate -> Prop) (cont : bool -> M bool) :
  heirs_ok q (S k) s -> parent (get_proc s q) = Some i ->
  (forall s1, gave_back (unclaimed i reaper (fun j => j = q) s) s s1 ->
     (forall j, get_proc s1 j = if decide (j = q) then heir i reaper (get_proc s j) else get_proc s j) ->
     wp (cont (gave || (is_some reaper && zombie_child i (get_proc s q)))) Q s1) ->
  wp (lock (ProcLock q);;
      with_proc q (set_parent reaper);;
      c ← the_proc q;
      gave ← (if in_state ZOMBIE c then
                match reaper with
                | None => releaseproc q;; mret gave
                | Some _ => mret true
                end
              else mret gave);
      unlock (ProcLock q);;
      cont gave) Q s.
Proof.
  intros Hok Hc HQ. pose proof (hk_locks _ _ _ Hok (ProcLock q) ltac:(done)) as Hl. set (c := get_proc s q) in *.
  apply wp_bind, wp_lock; [done |]. unfold with_proc. apply wp_bind, wp_modify, wp_bind, wp_gets.
  set (s1 := put_proc _ _ _). change (get_proc (set_sy _ s) q) with c in s1.
  assert (Hp1 : forall j, get_proc s1 j = if decide (j = q) then set_parent reaper c else get_proc s j).
  { intros j. unfold s1. by rewrite get_proc_put. }
  rewrite Hp1, decide_True by done. change (in_state ZOMBIE (set_parent reaper c)) with (in_state ZOMBIE c).
  assert (Hz : zombie_child i c = in_state ZOMBIE c) by (unfold zombie_child; by rewrite bool_decide_true).
  rewrite Hz in HQ.
  assert (Hend : forall s2 g, gave_back (unclaimed i reaper (fun j => j = q) s) s1 s2 ->
    (forall j, get_proc s2 j = if decide (j = q) then heir i reaper (get_proc s j) else get_proc s j) ->
    g = gave || (is_some reaper && in_state ZOMBIE c) -> wp (unlock (ProcLock q);; cont g) Q s2).
  { intros s2 g Hg Hp ->. apply wp_bind, (wp_unlock _ (sy s)); [done | exact (of_sy _ _ (gb_frame _ _ _ Hg)) |].
    intros y Hy. apply HQ; [| done]. by apply (gave_back_leave _ s1). }
  assert (Hsame : gave_back (fun _ => False) s1 s1).
  { apply gave_back_refl. destruct (hk_alloc _ _ _ Hok). by split. }
  assert (Hno : reaper <> None \/ in_state ZOMBIE c = false ->
    gave_back (unclaimed i reaper (fun j => j = q) s) s1 s1 /\
    forall j, get_proc s1 j = if decide (j = q) then heir i reaper (get_proc s j) else get_proc s j).
  { intros Hno. split.
    - eapply gave_back_equiv; [| exact Hsame]. intros b. split; [done |]. intros (? & j & -> & Hzc & _).
      fold c in Hzc. rewrite Hz in Hzc. destruct Hno; congruence.
    - intros j. rewrite Hp1. case_decide as Hj; [subst j | done]. unfold heir. fold c. rewrite bool_decide_true by done.
      destruct reaper; [done |]. destruct Hno as [? | ->]; done. }
  apply wp_bind. destruct (in_state ZOMBIE c) eqn:Ez.
  - destruct reaper as [r |].
    + destruct Hno as [H1 H2]; [by left |]. apply wp_ret, Hend; [done | done |]. by rewrite orb_true_r.
    + apply wp_bind, (wp_releaseproc q (sy s)); [done | | |].
      * destruct (hk_alloc _ _ _ Hok) as [A1 A2]. pose proof (hk_locks _ _ _ Hok) as Hls.
        split; [by split | | right]; cbn [sy s1 put_proc set_proctable set_sy]; by apply can_lock_other, Hls.
      * rewrite Hp1, decide_True by done. apply (same_pages_holds _ c); [done |]. apply (holds_ext s); try done.
        apply (hk_holds _ _ _ Hok). lia.
      * intros s2 Hs2. rewrite Hp1, decide_True in * by done. apply wp_ret, Hend; [| | by rewrite orb_false_r].
        -- eapply gave_back_frame; [apply freed_gave_back | apply pframe_put].
           eapply freed_set_equiv; [| exact Hs2]. intros b. unfold unclaimed. split.
           ++ intros Hb. split; [done |]. exists q. fold c. by rewrite Hz.
           ++ intros (_ & j & -> & _ & Hb). exact Hb.
        -- intros j. rewrite get_proc_put. case_decide as Hj; [subst j; unfold heir; fold c; by rewrite bool_decide_true, Ez |].
           transitivity (get_proc s1 j); [| by rewrite Hp1, decide_False].
           unfold get_proc. by rewrite (kf_procs _ _ (fs_frame _ _ _ Hs2)).
  - destruct Hno as [H1 H2]; [by right |]. apply wp_ret, Hend; [done | done |]. by rewrite andb_false_r, orb_false_r.
Qed.

Lemma wp_reparent k (Q : bool -> kstate -> Prop) : forall q gave s, heirs_ok q k s ->
  handed_over q k gave Q s -> wp (reparent k q i reaper gave) Q s.
Proof.
  induction k as [|k IH]; intros q gave s Hok HQ; cbn [reparent].
  { apply wp_ret. specialize (HQ s). cbn in HQ. rewrite andb_false_r, orb_false_r in HQ. apply HQ.
    - eapply gave_back_equiv; [| apply gave_back_refl, Hok]. intros b. split; [done |].
      intros (_ & j & Hj & _). lia.
    - intros j. rewrite decide_False by lia. done. }
  apply wp_bind, wp_gets. set (c := get_proc s q). unfold zombie_child.
  assert (Hnone : forall s1 (g : bool), gave_back (fun _ => False) s s1 ->
    (reaper = None -> zombie_child i c = false) ->
    (forall j, get_proc s1 j = if decide (j = q) then heir i reaper (get_proc s j) else get_proc s j) ->
    g = gave || (is_some reaper && zombie_child i c) -> wp (reparent k (S q) i reaper g) Q s1).
  { intros s1 g Hg Hz Hp ->.
    assert (Hg' : gave_back (unclaimed i reaper (fun j => j = q) s) s s1).
    { eapply gave_back_equiv; [| exact Hg]. intros b. split; [done |]. intros (Hr & j & -> & Hzc & _).
      fold c in Hzc. rewrite Hz in Hzc by done. discriminate Hzc. }
    apply IH; [by eapply heirs_ok_next | by eapply handed_next]. }
  case_bool_decide as Hc.
  2:{ apply Hnone; [apply gave_back_refl, Hok | | |].
      - intros _. unfold zombie_child. by rewrite bool_decide_false.
      - intros j. case_decide as Hj; [subst j | done]. unfold heir. fold c. by rewrite bool_decide_false.
      - unfold zombie_child. rewrite bool_decide_false by done. by rewrite andb_false_r, orb_false_r. }
  apply (wp_hand_child q k gave s Q (reparent k (S q) i reaper)); [done | done |].
  intros s1 Hg Hp. apply IH; [by eapply heirs_ok_next | by eapply handed_next].
Qed.
End Reparent.

(** * Telling a parent *)

Definition told (o : option nat) (p : proc) : proc :=
  match o with Some r => woken (ChanProc r) p | None => p end.

Lemma told_same o p : same_pages p (told o p) /\ parent (told o p) = parent p /\
  (p_state p <> WAITING -> told o p = p) /\ (p_state (told o p) = UNUSED -> p_state p = UNUSED).
Proof.
  unfold told, woken, in_state. destruct o as [r |]; [| done].
  destruct (bool_decide (p_chan p = ChanProc r)); [| done]. cbn [andb]. by case_bool_decide.
Qed.

Lemma wp_tell o (Q : unit -> kstate -> Prop) s : (forall j, (j < NPROC)%nat -> can_lock (ProcLock j) (sy s)) ->
  (forall s', pframe s s' -> (forall j, get_proc s' j =
     if decide (j < NPROC)%nat then told o (get_proc s j) else get_proc s j) -> Q tt s') ->
  wp (match o with Some r => wakeup (ChanProc r) | None => mret tt end) Q s.
Proof.
  intros Hl HQ. destruct o as [r |]; cbn [told] in HQ.
  - eapply wp_mono; [apply wp_wakeup_loop; intros; apply Hl; lia |]. intros [] s' [Hf Hp]. apply HQ; [done |].
    intros j. rewrite Hp. repeat case_decide; (done || lia).
  - apply wp_ret, HQ; [done |]. intros j. by case_decide.
Qed.

(** * kexit *)

Lemma find_reaper_ext i s s' k : (forall j, pid (get_proc s' j) = pid (get_proc s j) /\
    p_state (get_proc s' j) = p_state (get_proc s j)) -> forall q, find_reaper k q i s' = find_reaper k q i s.
Proof.
  intros Hj. induction k as [|k IH]; intros q; cbn [find_reaper]; [done |]. unfold in_state.
  destruct (Hj q) as [-> ->]. by rewrite IH.
Qed.

Lemma find_reaper_some i s k r : forall q, find_reaper k q i s = Some r ->
  (q <= r < q + k)%nat /\ r <> i /\ pid (get_proc s r) = 1 /\ p_state (get_proc s r) <> ZOMBIE.
Proof.
  induction k as [|k IH]; intros q; cbn [find_reaper]; [done |].
  destruct (_ && _) eqn:E; [intros [= <-] | intros Hr; destruct (IH _ Hr) as (? & ?); split; [lia | done]].
  unfold in_state in E. rewrite !andb_true_iff, !negb_true_iff, bool_decide_eq_false, Z.eqb_eq, Nat.eqb_neq in E.
  split_and!; (lia || tauto).
Qed.

(** Process [i] has exited: its slot, the other slots and the pages. *)
Section Exited.
Context (i : nat) (status : Z) (s : kstate).
Let p := get_proc s i.
Let reaper := find_reaper NPROC 0 i s.

(** Whether the reaper was given a child that is already a zombie. *)
Definition gave_zombie : bool := is_some reaper && existsb (fun j => zombie_child i (get_proc s j)) (seq 0 NPROC).

(** What the others see: the children go to the reaper, which is told of
    zombies, and the parent is told of the exit. *)
Definition bereaved (c : proc) : proc :=
  told (parent p) (told (if gave_zombie then reaper else None) (heir i reaper c)).

Record exited (s' : kstate) : Prop := {
  xt_self : get_proc s' i = set_state ZOMBIE (set_xstate status (set_pt 0 p));
  xt_rest : forall j, (j < NPROC)%nat -> j <> i -> get_proc s' j = bereaved (get_proc s j);
  xt_freed : gave_back (fun b => space s (p_pt p) (p_sz p) b \/
    unclaimed i reaper (fun j => (j < NPROC)%nat /\ j <> i) s b) s (set_sy (sy s) s')
}.
End Exited.

(** What [kexit] needs of its caller. *)
Record can_exit (i : nat) (s : kstate) : Prop := {
  cx_slot : (i < NPROC)%nat;
  cx_run : p_state (get_proc s i) = RUNNING;
  cx_pt : p_pt (get_proc s i) <> 0;
  cx_parent : parent (get_proc s i) <> Some i
}.

Section Kexit.
Context (i : nat) (s : kstate) (Hq : quiet s) (Hok : procs_ok s) (Hi : can_exit i s).
Let p := get_proc s i.
Let reaper := find_reaper NPROC 0 i s.

(** Once the address space is gone and the wait lock is taken. *)
Section Freed.
Context (y : sync) (s1 : kstate) (Hy : y ≡ sy s) (Hs1 : freed_set (space s (p_pt p) (p_sz p)) (set_sy y s) s1).
Let s3 := set_sy (sync_lock WaitLock (sy s1)) (put_proc i (set_pt 0 p) s1).

Lemma freed_slot j : get_proc s3 j = if decide (j = i) then set_pt 0 p else get_proc s j.
Proof.
  change (get_proc s3 j) with (get_proc (put_proc i (set_pt 0 p) s1) j). rewrite get_proc_put.
  case_decide; [done |]. unfold get_proc. by rewrite (kf_procs _ _ (fs_frame _ _ _ Hs1)).
Qed.

Lemma freed_reaper : find_reaper NPROC 0 i s3 = reaper.
Proof. apply find_reaper_ext. intros j. rewrite freed_slot. case_decide as Hj; [by subst j | done]. Qed.

Lemma freed_gave : gave_back (space s (p_pt p) (p_sz p)) s (set_sy (sy s) s3).
Proof.
  change (set_sy (sy s) s3) with (set_sy (sy s) (put_proc i (set_pt 0 p) s1)).
  apply (gave_back_leave _ (set_sy y s)); [by split | | done].
  eapply gave_back_frame; [by apply freed_gave_back | apply pframe_put].
Qed.

Lemma freed_other j : (j < NPROC)%nat -> j <> i ->
  holds s3 (get_proc s j) /\ forall b, owns s3 (get_proc s j) b <-> owns s (get_proc s j) b.
Proof.
  intros Hj Hji. destruct (gave_back_holds _ _ _ (get_proc s j) freed_gave) as [Hh Ho].
  - intros b Hb Hsp. apply Hji. apply (pk_apart _ Hok j i b); [done | apply Hi | done |].
    left. right. split; [apply Hi | done].
  - by apply (pk_holds _ Hok).
  - split; [by apply (holds_ext (set_sy (sy s) s3)) | exact Ho].
Qed.

(** Every slot still holds what it held, but for the address space. *)
Lemma freed_holds j : (j < NPROC)%nat -> holds s3 (get_proc s3 j) /\
  forall b, owns s3 (get_proc s3 j) b -> owns s (get_proc s j) b.
Proof.
  intros Hj. rewrite freed_slot. pose proof freed_gave as Hg. case_decide as Hji.
  - subst j. destruct (pk_holds _ Hok i Hj) as [H1 H2 H3]. fold p in H1, H2, H3.
    destruct (H3 (cx_pt _ _ Hi)) as (_ & _ & _ & _ & Hd).
    destruct (gave_back_holds _ _ _ (set_pt 0 p) Hg) as [Hh Ho].
    + intros b [[[_ ->] | [? _]] | [_ ->]] Hb; [by destruct (Hd _ Hb) | done | by destruct (Hd _ Hb)].
    + by split.
    + split; [by apply (holds_ext (set_sy (sy s) s3)) |]. intros b Hb. apply Ho in Hb. unfold owns in *. cbn in Hb. tauto.
  - destruct (freed_other j Hj Hji) as [Hh Ho]. split; [done |]. intros b. apply Ho.
Qed.

Lemma freed_heirs : heirs_ok 0 NPROC s3.
Proof.
  split.
  - destruct (gb_alloc _ _ _ freed_gave) as [A1 A2]. by split.
  - intros l Hl. change (sy s3) with (sync_lock WaitLock (sy s1)). apply can_lock_other; [done |].
    rewrite (kf_sy _ _ (fs_frame _ _ _ Hs1)). cbn [sy set_sy]. rewrite Hy. apply Hq.
  - intros j Hj. apply freed_holds. lia.
  - intros j j' b Hj Hj' Hb Hb'. apply (pk_apart _ Hok j j' b); [lia | lia | |]; apply freed_holds; (done || lia).
Qed.

(** What is returned in all. *)
Lemma freed_unclaimed b : unclaimed i reaper (fun j => (0 <= j < 0 + NPROC)%nat) s3 b <->
  unclaimed i reaper (fun j => (j < NPROC)%nat /\ j <> i) s b.
Proof.
  unfold unclaimed. split; intros (Hr & j & Hj & Hz & Hb); (split; [done |]); exists j.
  - rewrite freed_slot in Hz, Hb. case_decide as Hji.
    + exfalso. unfold zombie_child in Hz. rewrite bool_decide_false in Hz; [discriminate Hz |]. apply Hi.
    + split_and!; [lia | done | done |]. apply freed_other; (done || lia).
  - destruct Hj as [Hj Hji]. rewrite freed_slot, decide_False by done. split_and!; [lia | lia | done |].
    by apply freed_other.
Qed.

Lemma freed_zombies : existsb (fun j => zombie_child i (get_proc s3 j)) (seq 0 NPROC) =
  existsb (fun j => zombie_child i (get_proc s j)) (seq 0 NPROC).
Proof.
  apply eq_true_iff_eq. rewrite !existsb_exists.
  split; intros (j & Hin & Hz); exists j; (split; [done |]); rewrite freed_slot in *; by case_decide as E; [rewrite E in * |].
Qed.

(** The last state of [kexit], from the one after the children were handed
    over. *)
Lemma freed_exited status s4 s' : gave_back (unclaimed i reaper (fun j => (0 <= j < 0 + NPROC)%nat) s3) s3 s4 ->
  pframe (set_sy (sy s) s4) (set_sy (sy s) s') ->
  get_proc s' i = set_state ZOMBIE (set_xstate status (set_pt 0 p)) ->
  (forall j, (j < NPROC)%nat -> j <> i -> get_proc s' j = bereaved i s (get_proc s j)) -> exited i status s s'.
Proof.
  intros Hg Hf Hs Hr. split; [done | done |]. eapply gave_back_frame; [| exact Hf].
  eapply gave_back_equiv; [| eapply gave_back_trans; [exact freed_gave | apply gave_back_sy, Hg]].
  intros b. cbv beta. by rewrite freed_unclaimed.
Qed.
End Freed.

(** From the children on: tell the reaper and the parent, and switch away. *)
Lemma switches_die {A} status (P : kstate -> M A -> Prop) s4 :
  cpu_proc (get_cpu (sy s)) = Some i -> depth (get_cpu (sy s)) = 0 -> sy s4 ≡ sync_lock WaitLock (sy s) ->
  get_proc s4 i = set_pt 0 p ->
  (forall j, (j < NPROC)%nat -> j <> i -> get_proc s4 j = heir i reaper (get_proc s j)) ->
  (forall s' k, sy s' ≡ sync_lock (ProcLock i) (sy s) -> pframe (set_sy (sy s) s4) (set_sy (sy s) s') ->
     get_proc s' i = set_state ZOMBIE (set_xstate status (set_pt 0 p)) ->
     (forall j, (j < NPROC)%nat -> j <> i -> get_proc s' j = bereaved i s (get_proc s j)) ->
     resumes i (sy s) k -> P s' (k ≫= fun _ => panic "kexit: zombie returned")) ->
  switches ((match reaper with Some r => when (gave_zombie i s) (wakeup (ChanProc r)) | None => mret tt end);;
    p ← the_proc i;
    (match parent p with Some pp => wakeup (ChanProc pp) | None => mret tt end);;
    lock (ProcLock i);;
    with_proc i (set_xstate status);;
    with_proc i (set_state ZOMBIE);;
    unlock WaitLock;;
    sched;;
    panic "kexit: zombie returned") P s4.
Proof.
  intros Hcpu Hdep Hy4 Hi4 Hr4 HP. pose proof (qu_locks _ Hq) as Hl.
  assert (Hls : forall x, sy x ≡ sync_lock WaitLock (sy s) -> forall j, can_lock (ProcLock j) (sy x)).
  { intros x Hx j. rewrite Hx. by apply can_lock_other. }
  set (o := if gave_zombie i s then reaper else None).
  assert (Ho : match reaper with Some r => when (gave_zombie i s) (wakeup (ChanProc r)) | None => mret tt end =
               match o with Some r => wakeup (ChanProc r) | None => mret tt end).
  { unfold o. by destruct reaper, (gave_zombie i s). }
  rewrite Ho. apply switches_wp, wp_tell; [by auto |]. intros s5 Hf5 Hp5.
  assert (Hi5 : get_proc s5 i = set_pt 0 p).
  { rewrite Hp5, Hi4, decide_True by apply Hi. apply told_same. change (p_state p <> WAITING).
    unfold p. by rewrite (cx_run _ _ Hi). }
  apply switches_wp, wp_gets. rewrite Hi5. change (parent (set_pt 0 p)) with (parent p).
  assert (Hy5 : sy s5 ≡ sync_lock WaitLock (sy s)) by (by rewrite (pf_sy _ _ Hf5)).
  apply switches_wp, wp_tell; [by auto |]. intros s6 Hf6 Hp6.
  assert (Hi6 : get_proc s6 i = set_pt 0 p).
  { rewrite Hp6, Hi5, decide_True by apply Hi. apply told_same. change (p_state p <> WAITING).
    unfold p. by rewrite (cx_run _ _ Hi). }
  assert (Hy6 : sy s6 ≡ sync_lock WaitLock (sy s)) by (by rewrite (pf_sy _ _ Hf6)).
  apply switches_wp, wp_lock; [by auto |]. unfold with_proc. apply switches_wp, wp_modify, switches_wp, wp_modify.
  apply switches_wp, (wp_unlock _ (sync_lock (ProcLock i) (sy s))); [by apply can_lock_other | |].
  { cbn [sy set_sy put_proc set_proctable]. rewrite Hy6. by apply sync_lock_comm. }
  intros y7 Hy7. change (get_proc (set_sy _ s6) i) with (get_proc s6 i). rewrite Hi6, get_proc_put, decide_True by done.
  set (s7 := set_sy y7 _).
  assert (Hp7 : forall j, get_proc s7 j = if decide (j = i) then set_state ZOMBIE (set_xstate status (set_pt 0 p)) else get_proc s6 j).
  { intros j. change (get_proc s7 j) with (get_proc (put_proc i (set_state ZOMBIE (set_xstate status (set_pt 0 p)))
      (put_proc i (set_xstate status (set_pt 0 p)) s6)) j). rewrite !get_proc_put. by repeat case_decide. }
  assert (Hi7 : get_proc s7 i = set_state ZOMBIE (set_xstate status (set_pt 0 p))) by (by rewrite Hp7, decide_True).
  apply switches_bind, (switches_sched i (sy s)); [apply (Hl MemLock) | done | done | done | by rewrite Hi7 |].
  intros k Hk. apply HP; [done | | done | | done].
  - transitivity (set_sy (sy s) s6); [apply pframe_sy; by transitivity s5 | by split].
  - intros j Hj Hji. rewrite Hp7, decide_False, Hp6, decide_True, Hp5, decide_True, Hr4 by done. done.
Qed.

Lemma switches_kexit {A} status (P : kstate -> M A -> Prop) :
  cpu_proc (get_cpu (sy s)) = Some i -> depth (get_cpu (sy s)) = 0 ->
  (forall s' k, sy s' ≡ sync_lock (ProcLock i) (sy s) -> exited i status s s' -> resumes i (sy s) k ->
     P s' (k ≫= fun _ => panic "kexit: zombie returned")) -> switches (kexit status) P s.
Proof.
  intros Hcpu Hdep HP. pose proof (qu_locks _ Hq) as Hl. pose proof (proj1 (Hl MemLock)) as Hho. unfold kexit.
  apply switches_wp, wp_myproc; [done |]. intros y Hy. rewrite Hcpu. cbn [deref_proc].
  apply switches_wp, wp_ret, switches_wp, wp_gets. change (get_proc (set_sy y s) i) with p.
  destruct (hd_pt _ _ (pk_holds _ Hok i (cx_slot _ _ Hi)) (cx_pt _ _ Hi)) as (Hwf & Hpok & Hal & Hsz & _).
  apply switches_wp, wp_uvmfree_set; [| by destruct Hwf; split | done | done | by destruct Hpok; split |].
  { apply quiet_ready. destruct Hq as [[A1 A2] _]. split; [by split |]. intros l. cbn [sy set_sy]. by rewrite Hy. }
  intros s1 Hs1. unfold with_proc. apply switches_wp, wp_modify.
  assert (Hp1 : get_proc s1 i = p) by (unfold get_proc; by rewrite (kf_procs _ _ (fs_frame _ _ _ Hs1))).
  rewrite Hp1. assert (Hy1 : sy s1 ≡ sy s) by (rewrite (kf_sy _ _ (fs_frame _ _ _ Hs1)); exact Hy).
  apply switches_wp, wp_lock; [change (can_lock WaitLock (sy s1)); by rewrite Hy1 |].
  apply switches_wp, wp_gets. change (sy (put_proc _ _ s1)) with (sy s1).
  change (set_sy (sync_lock WaitLock _) _) with (set_sy (sync_lock WaitLock (sy s1)) (put_proc i (set_pt 0 p) s1)).
  rewrite (freed_reaper y s1) by done. set (s3 := set_sy (sync_lock WaitLock _) _).
  apply switches_wp, wp_reparent; [by apply (freed_heirs y s1) |]. intros s4 Hg4 Hp4.
  pose proof (freed_zombies y s1 Hs1) as Hz. fold s3 in Hg4, Hz. rewrite Hz. change (false || ?x) with x.
  apply (switches_die status P s4); [done | done | | | |].
  - rewrite (of_sy _ _ (gb_frame _ _ _ Hg4)). change (sy s3) with (sync_lock WaitLock (sy s1)). by rewrite Hy1.
  - rewrite Hp4, decide_True by (pose proof (cx_slot _ _ Hi); lia). unfold s3. rewrite (freed_slot y s1 Hs1), decide_True by done.
    unfold heir. rewrite bool_decide_false; [done |]. apply Hi.
  - intros j Hj Hji. rewrite Hp4, decide_True by lia. unfold s3. by rewrite (freed_slot y s1 Hs1), decide_False.
  - intros s' k Hy' Hf Hs Hr Hk. apply HP; [done | | done]. by apply (freed_exited y s1 Hs1 status s4).
Qed.
End Kexit.

(** * Properties *)

Section ExitedOk.
Context (i : nat) (status : Z) (s s' : kstate) (Hok : procs_ok s) (Hi : can_exit i s) (Hx : exited i status s s').
Let reaper := find_reaper NPROC 0 i s.

(** A slot that is not released keeps its pages. *)
Lemma exited_keeps c : (forall b, owns s c b ->
    ~ (space s (p_pt (get_proc s i)) (p_sz (get_proc s i)) b \/
       unclaimed i reaper (fun j => (j < NPROC)%nat /\ j <> i) s b)) -> holds s c ->
  holds s' c /\ forall b, owns s' c b -> owns s c b.
Proof.
  intros Hn Hh. destruct (gave_back_holds _ _ _ c (xt_freed _ _ _ _ Hx) Hn Hh) as [H1 H2].
  split; [by apply (holds_ext (set_sy (sy s) s')) |]. intros b. apply H2.
Qed.

Lemma heir_cases c : heir i reaper c = released c /\ zombie_child i c = true /\ reaper = None \/
  same_pages c (heir i reaper c) /\ p_state (heir i reaper c) = p_state c /\ ~ (zombie_child i c = true /\ reaper = None).
Proof.
  unfold heir, zombie_child. case_bool_decide; cbn [andb]; [| right; split_and!; [done | done | naive_solver]].
  destruct reaper; [right; split_and!; [done | done | naive_solver] |].
  destruct (in_state ZOMBIE c); [by left | right; split_and!; [done | done | naive_solver]].
Qed.

Lemma exited_other j : (j < NPROC)%nat -> j <> i -> holds s' (get_proc s' j) /\
  (forall b, owns s' (get_proc s' j) b -> owns s (get_proc s j) b) /\
  (p_state (get_proc s' j) = UNUSED -> blank (get_proc s' j)).
Proof.
  intros Hj Hji. rewrite (xt_rest _ _ _ _ Hx j Hj Hji). unfold bereaved. fold reaper. set (c := get_proc s j).
  set (o1 := if gave_zombie i s then reaper else None). set (o2 := parent (get_proc s i)).
  destruct (told_same o1 (heir i reaper c)) as (S1 & _ & _ & U1).
  destruct (told_same o2 (told o1 (heir i reaper c))) as (S2 & _ & _ & U2).
  assert (Hs : same_pages (heir i reaper c) (told o2 (told o1 (heir i reaper c)))) by (by etransitivity).
  destruct (heir_cases c) as [(He & _) | (Hsp & Hst & Hnz)].
  - rewrite He in *. assert (Hb : blank (told o2 (told o1 (released c)))).
    { destruct Hs as (H1 & H2 & H3 & H4). split_and!; [rewrite H1 | rewrite H2 | rewrite H3 | rewrite H4]; done. }
    destruct (blank_holds s' _ Hb) as [Hh Ho]. split_and!; [done | | done]. intros b Hbo. by destruct (Ho b).
  - assert (Hsc : same_pages c (told o2 (told o1 (heir i reaper c)))) by (by etransitivity).
    destruct (exited_keeps c) as [Hh Ho]; [| by apply (pk_holds _ Hok) |].
    + intros b Hb [Hsp' | (Hr & j' & [Hj' Hji'] & Hz & Hb')].
      * apply Hji, (pk_apart _ Hok j i b); [done | apply Hi | done |]. left. right. split; [apply Hi | done].
      * apply Hnz. split; [| done]. unfold c. by rewrite (pk_apart _ Hok j j' b).
    + split_and!.
      * by apply (same_pages_holds _ c).
      * intros b Hb. apply Ho. by apply (same_pages_owns _ _ _ b Hsc).
      * intros Hu. apply U2, U1 in Hu. rewrite Hst in Hu. destruct (pk_blank _ Hok j Hj Hu) as (B1 & B2 & B3 & B4).
        fold c in B1, B2, B3, B4. destruct Hsc as (H1 & H2 & H3 & H4). split_and!; congruence.
Qed.

Lemma exited_ok : procs_ok s'.
Proof.
  apply (procs_ok_shrink s); [done |]. intros j Hj. destruct (decide (j = i)) as [-> | Hji]; [| by apply exited_other].
  rewrite (xt_self _ _ _ _ Hx). set (p := get_proc s i). destruct (pk_holds _ Hok i Hj) as [H1 H2 H3].
  fold p in H1, H2, H3. destruct (H3 (cx_pt _ _ Hi)) as (_ & _ & _ & _ & Hd).
  assert (Hap : forall b, owns s (set_pt 0 p) b -> owns s p b) by (intros b; unfold owns; cbn; tauto).
  destruct (exited_keeps (set_pt 0 p)) as [Hh Ho]; [| by split |].
  - intros b Hb [Hsp | (_ & j' & [Hj' Hji'] & _ & Hb')].
    + destruct Hb as [[[_ ->] | [? _]] | [_ ->]]; [by destruct (Hd _ Hsp) | done | by destruct (Hd _ Hsp)].
    + apply Hji', (pk_apart _ Hok j' i b); [done | apply Hi | done | by apply Hap].
  - split_and!; [by apply (same_pages_holds _ (set_pt 0 p)) | | done].
    intros b Hb. apply Hap, Ho. exact Hb.
Qed.

(** Nobody's parent is the process that is gone. *)
Lemma exited_orphans j : (j < NPROC)%nat -> parent (get_proc s' j) <> Some i.
Proof.
  intros Hj. destruct (decide (j = i)) as [-> | Hji]; [rewrite (xt_self _ _ _ _ Hx); apply Hi |].
  rewrite (xt_rest _ _ _ _ Hx j Hj Hji). unfold bereaved.
  rewrite (proj1 (proj2 (told_same _ _))), (proj1 (proj2 (told_same _ _))). unfold heir. case_bool_decide; [| done].
  destruct (find_reaper NPROC 0 i s) as [r |] eqn:Er.
  - cbn. intros [= ->]. by destruct (find_reaper_some _ _ _ _ _ Er) as (_ & ? & _).
  - by destruct (in_state ZOMBIE _).
Qed.
End ExitedOk.

(** C13 ([kexit]): called by a running process, with no lock held and a table
    in which every slot holds its own pages, [kexit] does not panic and switches
    away holding the process's own lock and no other. By then the process is a
    [ZOMBIE] with its exit status and without an address space, whose pages are
    free again; its children belong to the reaper, the first other slot with
    pid 1 that is no zombie, which is woken if one of them is a zombie already;
    without a reaper such zombies are released, with all their pages, and the
    others have no parent; the parent, if it sleeps on itself, is [READY]; no
    other slot, no other page and nothing else has changed. Every slot still
    holds its own pages, no slot's parent is the process that exited, and if it
    were ever switched back to, [kexit] would panic. *)
Theorem kexit_correct {A} i status s : quiet s -> procs_ok s -> can_exit i s ->
  cpu_proc (get_cpu (sy s)) = Some i -> depth (get_cpu (sy s)) = 0 ->
  switches (@kexit A status) (fun s' k =>
    sy s' ≡ sync_lock (ProcLock i) (sy s) /\ exited i status s s' /\ procs_ok s' /\
    (forall j, (j < NPROC)%nat -> parent (get_proc s' j) <> Some i) /\
    forall y2 s2, hart_ok y2 -> depth (get_cpu y2) = 0 -> sy s2 ≡ sync_lock (ProcLock i) y2 ->
      panics k "kexit: zombie returned" s2) s.
Proof.
  intros Hq Hok Hi Hcpu Hd. apply (switches_kexit i s Hq Hok Hi); [done | done |]. intros s' k Hy Hx Hk.
  split_and!; [done | done | by eapply exited_ok | by intros; eapply exited_orphans |].
  intros y2 s2 Hok2 H2 Hy2. apply panics_bind, (Hk y2); [done | done | done |]. intros y3 _. apply panic_panics.
Qed.

(** Init sleeps in slot 0; its child in slot 1 exits and leaves it a zombie. *)
Definition exit_demo : kstate :=
  put_proc 0 (mk_proc 1 WAITING (bytes "init") 0 0 0 0 0 (ChanProc 0) context0 None)
    (put_proc 1 (set_pid 2 (set_parent (Some 0%nat) one_proc))
      (put_proc 2 (mk_proc 3 ZOMBIE (bytes "sh") 0 0 0 0 7 ChanNull context0 (Some 1%nat)) fork_demo)).

Lemma exit_demo_slot j : (j < NPROC)%nat -> j <> 1%nat -> blank (get_proc exit_demo j).
Proof.
  intros Hj Hne. unfold exit_demo. rewrite !get_proc_put. repeat (case_decide; [done |]).
  change (get_proc fork_demo j) with (get_proc (put_proc 1 one_proc user_demo) j).
  rewrite get_proc_put, decide_False by done. done.
Qed.

Lemma exit_demo_ok : procs_ok exit_demo.
Proof.
  assert (H1 : holds exit_demo (get_proc exit_demo 1)).
  { apply (same_pages_holds _ one_proc); [done |]. by apply (holds_ext user_demo), demo_holds. }
  split.
  - intros j Hj. destruct (decide (j = 1%nat)) as [-> | Hne]; [done |]. by apply blank_holds, exit_demo_slot.
  - intros j k b Hj Hk Hbj Hbk. destruct (decide (j = 1%nat)) as [-> | Hne], (decide (k = 1%nat)) as [-> | Hne']; try done.
    + by destruct (proj2 (blank_holds exit_demo _ (exit_demo_slot k Hk Hne')) b).
    + by destruct (proj2 (blank_holds exit_demo _ (exit_demo_slot j Hj Hne)) b).
    + by destruct (proj2 (blank_holds exit_demo _ (exit_demo_slot j Hj Hne)) b).
  - intros j Hj Hu. apply exit_demo_slot; [done |]. intros ->. discriminate Hu.
Qed.

Lemma exit_demo_quiet : quiet exit_demo.
Proof. destruct fork_demo_quiet as [[A1 A2] Hl]. by split; [split |]. Qed.

Lemma kexit_correct_witness :
  switches (@kexit unit 5) (fun s' k =>
    sy s' ≡ sync_lock (ProcLock 1) (sy exit_demo) /\ exited 1 5 exit_demo s' /\ procs_ok s' /\
    (forall j, (j < NPROC)%nat -> parent (get_proc s' j) <> Some 1%nat) /\
    forall y2 s2, hart_ok y2 -> depth (get_cpu y2) = 0 -> sy s2 ≡ sync_lock (ProcLock 1) y2 ->
      panics k "kexit: zombie returned" s2) exit_demo.
Proof.
  apply (kexit_correct 1 5 exit_demo exit_demo_quiet exit_demo_ok); [| done | done].
  split; [unfold NPROC; lia | done | done | done].
Defined.
