(* ===== verification/Scheduler.v ===== *)
(** The scheduler's round over the table (Proc.v): which process it switches
    to, and what it does when the process comes back. *)
From S2P Require Import Prelude Machine Csr KPrint Spinlock Printf Mem Vm PageTable KernelMap UserMem UserSpace Took Exec ExecProofs Proc ProcProofs SchedProofs ProcAlloc ProcTable Fork Exit.

(** * The hart's current process *)

Definition set_curproc (o : option nat) (y : sync) : sync :=
  let c := get_cpu y in set_cpu (mk_cpu (cpu_id c) (depth c) (intena c) o (cpu_context c)) y.

Lemma get_cpu_curproc o y : get_cpu (set_curproc o y) =
  mk_cpu (cpu_id (get_cpu y)) (depth (get_cpu y)) (intena (get_cpu y)) o (cpu_context (get_cpu y)).
Proof. apply get_cpu_set_cpu. Qed.

#[global] Instance set_curproc_proper o : Proper ((≡) ==> (≡)) (set_curproc o).
Proof.
  intros a b Hab. pose proof (get_cpu_equiv _ _ Hab) as (Hi & Hd & Hp & Hc & Hn). destruct Hab as (Ht & Hl & Hcs & Hcp).
  split_and!; [done | done | done |]. intros h. unfold set_curproc, set_cpu. cbn [cpus]. rewrite Ht.
  destruct (decide (tp b = h)) as [<- |].
  - rewrite !get0_insert_eq. repeat split; cbn; try congruence. exact Hn.
  - by rewrite !get0_insert_ne.
Qed.

(** It is not part of what a critical section saves. *)
Lemma curproc_lock o l y : set_curproc o (sync_lock l y) ≡ sync_lock l (set_curproc o y).
Proof.
  pose proof (get_cpu_curproc o y) as Hc. split_and!.
  - done.
  - intros k. reflexivity.
  - intros h c. done.
  - intros h. unfold sync_lock, pushed, set_curproc, set_cpu. cbn [cpus set_lk set_cpu tp csr_set get_cpu].
    destruct (decide (tp y = h)) as [<- |].
    + unfold get_cpu. cbn [cpus set_lk set_cpu tp csr_set]. rewrite !get0_insert_eq. done.
    + by rewrite !get0_insert_ne.
Qed.

Lemma can_lock_curproc o l y : can_lock l y -> can_lock l (set_curproc o y).
Proof.
  intros [[H1 H2 H3] Hf]. split; [| done]. split; rewrite ?get_cpu_curproc; [exact H1 | exact H2 | exact H3].
Qed.

Lemma wp_set_cpu_proc o (Q : unit -> kstate -> Prop) s : Q tt (set_sy (set_curproc o (sy s)) s) -> wp (set_cpu_proc o) Q s.
Proof. intros HQ. unfold set_cpu_proc. apply wp_bind, wp_gets, wp_modify. exact HQ. Qed.

(** * The round *)

(** The first [READY] slot from [q] on. *)
Fixpoint first_ready (k q : nat) (s : kstate) : option nat :=
  match k with
  | O => None
  | S k => if in_state READY (get_proc s q) then Some q else first_ready k (S q) s
  end.

Lemma first_ready_sy k s y : forall q, first_ready k q (set_sy y s) = first_ready k q s.
Proof. induction k as [|k IH]; intros q; cbn [first_ready]; [done |]. by rewrite IH. Qed.

Definition orphan_zombie (p : proc) : bool := in_state ZOMBIE p && bool_decide (parent p = None).

(** What the scheduler does with slot [z] when it is switched back to. *)
Record taken_back (z : nat) (s s' : kstate) : Prop := {
  tb_slots : forall j, get_proc s' j =
    if decide (j = z) then (if orphan_zombie (get_proc s z) then released (get_proc s z) else get_proc s z) else get_proc s j;
  tb_freed : gave_back (fun b => orphan_zombie (get_proc s z) = true /\ owns s (get_proc s z) b) s (set_sy (sy s) s')
}.

(** The rest of the round, once process [z] has given the hart back. *)
Definition goes_on (z k : nat) (c : M bool) : Prop :=
  forall y s, can_lock (ProcLock z) y -> can_lock MemLock y -> can_lock PrintLock y -> alloc_ok s ->
  sy s ≡ sync_lock (ProcLock z) y -> (orphan_zombie (get_proc s z) = true -> holds s (get_proc s z)) ->
  exists s', sy s' ≡ set_curproc None y /\ taken_back z s s' /\ c s = sched_round k (S z) true s'.

Lemma wp_take_back z y s (Q : unit -> kstate -> Prop) : can_lock (ProcLock z) y -> can_lock MemLock y ->
  can_lock PrintLock y -> alloc_ok s -> sy s ≡ sync_lock (ProcLock z) y ->
  (orphan_zombie (get_proc s z) = true -> holds s (get_proc s z)) ->
  (forall s', sy s' ≡ set_curproc None y -> taken_back z s s' -> Q tt s') ->
  wp (set_cpu_proc None;; q ← the_proc z;
      when (in_state ZOMBIE q && bool_decide (parent q = None)) (releaseproc z);;
      unlock (ProcLock z)) Q s.
Proof.
  intros Hl Hm Hp Ha Hy Hh HQ. apply wp_bind, wp_set_cpu_proc, wp_bind, wp_gets. set (s1 := set_sy _ s).
  change (get_proc s1 z) with (get_proc s z). fold (orphan_zombie (get_proc s z)). set (c := get_proc s z) in *.
  assert (Hy1 : sy s1 ≡ sync_lock (ProcLock z) (set_curproc None y)).
  { cbn [s1 sy set_sy]. rewrite Hy. apply curproc_lock. }
  assert (Hend : forall s2, gave_back (fun b => orphan_zombie c = true /\ owns s c b) s1 s2 ->
    (forall j, get_proc s2 j = if decide (j = z) then (if orphan_zombie c then released c else c) else get_proc s j) ->
    wp (unlock (ProcLock z)) Q s2).
  { intros s2 Hg Hs. apply (wp_unlock _ (set_curproc None y)); [by apply can_lock_curproc | |].
    { by rewrite (of_sy _ _ (gb_frame _ _ _ Hg)). }
    intros y3 Hy3. apply HQ; [done |]. split; [done |].
    change (set_sy (sy s) (set_sy y3 s2)) with (set_sy (sy s) s2). by apply (gave_back_leave _ s1). }
  apply wp_bind. destruct (orphan_zombie c) eqn:Ez; cbn [when].
  - apply (wp_releaseproc z (set_curproc None y)); [done | | by apply (holds_ext s); try done; apply Hh |].
    + destruct Ha as [A1 A2]. split; [by split | | right]; rewrite Hy1; by apply can_lock_other, can_lock_curproc.
    + intros s2 Hs2. apply Hend.
      * eapply gave_back_frame; [apply freed_gave_back | apply pframe_put].
        eapply freed_set_equiv; [| exact Hs2]. intros b. change (owns s1 (get_proc s1 z) b) with (owns s c b). tauto.
      * intros j. rewrite get_proc_put. case_decide; [done |]. unfold get_proc. by rewrite (kf_procs _ _ (fs_frame _ _ _ Hs2)).
  - apply wp_ret, Hend.
    + eapply gave_back_equiv; [| apply gave_back_refl; destruct Ha; by split]. intros b. naive_solver.
    + intros j. case_decide as E; [by subst j | done].
Qed.

Lemma switches_round k : forall q run s (P : kstate -> M bool -> Prop), (forall j, can_lock (ProcLock j) (sy s)) ->
  match first_ready k q s with
  | None => True
  | Some z => forall s1 c, sy s1 ≡ sync_lock (ProcLock z) (set_curproc (Some z) (sy s)) ->
      proc_step z (set_state RUNNING) s s1 -> goes_on z (q + k - S z) c -> P s1 c
  end -> first_ready k q s <> None -> switches (sched_round k q run) P s.
Proof.
  induction k as [|k IH]; intros q run s P Hl HP Hne; cbn [first_ready sched_round] in *; [done |].
  apply switches_wp, wp_lock; [done |]. apply switches_wp, wp_gets.
  change (get_proc (set_sy _ s) q) with (get_proc s q). destruct (in_state READY (get_proc s q)).
  - apply switches_bind. unfold with_proc. apply switches_wp, wp_modify, switches_wp, wp_set_cpu_proc, switches_bind.
    unfold switches at 1, swtch. apply HP.
    + cbn [sy set_sy put_proc set_proctable]. apply curproc_lock.
    + apply proc_step_sy. eapply proc_step_sy_l, proc_step_put.
    + intros y s2 H1 H2 H3 H4 H5 H6.
      assert (Hw : wp (set_cpu_proc None;; q0 ← the_proc q;
        when (in_state ZOMBIE q0 && bool_decide (parent q0 = None)) (releaseproc q);; unlock (ProcLock q))
        (fun _ s' => sy s' ≡ set_curproc None y /\ taken_back q s2 s') s2) by (by apply (wp_take_back q y)).
      unfold wp, mbind, M_bind, mret, M_ret in Hw |- *. replace (q + S k - S q)%nat with k by lia. unfold mbind, M_bind in Hw |- *.
      cbn [res_bind] in Hw |- *.
      destruct (set_cpu_proc None s2) as [[] s3 | | | | | |]; try done. cbn [res_bind] in Hw |- *.
      destruct (the_proc q s3) as [p3 s4 | | | | | |]; try done. cbn [res_bind] in Hw |- *.
      destruct (when (in_state ZOMBIE p3 && bool_decide (parent p3 = None)) (releaseproc q) s4) as [[] s5 | | | | | |]; try done.
      cbn [res_bind] in Hw |- *.
      destruct (unlock (ProcLock q) s5) as [[] s6 | | | | | |]; try done. exists s6. tauto.
  - apply switches_wp, wp_ret, switches_wp, (wp_unlock _ (sy s)); [done | done |]. intros y Hy.
    apply IH; cbn [sy set_sy]; rewrite ?first_ready_sy; [intros j; by rewrite Hy | | done].
    destruct (first_ready k (S q) s) as [z |]; [| done]. intros s1 c H1 H2 H3. apply HP.
    + rewrite H1. by rewrite Hy.
    + by do 2 eapply proc_step_sy_l.
    + by replace (q + S k - S z)%nat with (S q + k - S z)%nat by lia.
Qed.

Lemma wp_round_idle k : forall q run s (Q : bool -> kstate -> Prop), (forall j, can_lock (ProcLock j) (sy s)) ->
  first_ready k q s = None -> (forall y, y ≡ sy s -> Q run (set_sy y s)) -> wp (sched_round k q run) Q s.
Proof.
  induction k as [|k IH]; intros q run s Q Hl Hn HQ; cbn [first_ready sched_round] in *.
  { apply wp_ret. specialize (HQ (sy s) ltac:(done)). by rewrite set_sy_id in HQ. }
  apply wp_bind, wp_lock; [done |]. apply wp_bind, wp_gets.
  change (get_proc (set_sy _ s) q) with (get_proc s q). destruct (in_state READY (get_proc s q)); [done |].
  apply wp_bind, wp_ret, wp_bind, (wp_unlock _ (sy s)); [done | done |]. intros y Hy.
  apply IH; cbn [sy set_sy]; rewrite ?first_ready_sy; [intros j; by rewrite Hy | done |].
  intros y' Hy'. apply (HQ y'). by rewrite Hy'.
Qed.

(** * Properties *)

(** C29 (a round of the scheduler): from slot [q] on, with the processes' locks
    free. If no slot is [READY] the round ends with what it had, nothing
    changed. Otherwise it switches away exactly when the first [READY] slot,
    and no other, has become [RUNNING] and the hart's current process, with the
    slot's lock held and no other. When that process gives the hart back in a
    section of its own lock, which is how [sched] leaves, the hart has no
    current process any more; if the process is then a [ZOMBIE] with no parent
    its slot is free and its pages, and only those, are available again,
    otherwise nothing of the table or of memory changes; its lock is released,
    and the round goes on with the next slot, as one in which something ran. *)
Theorem sched_round_correct k q run s : (forall j, can_lock (ProcLock j) (sy s)) ->
  match first_ready k q s with
  | None => wp (sched_round k q run) (fun r s' => r = run /\ exists y, y ≡ sy s /\ s' = set_sy y s) s
  | Some z => switches (sched_round k q run) (fun s1 c =>
      sy s1 ≡ sync_lock (ProcLock z) (set_curproc (Some z) (sy s)) /\ proc_step z (set_state RUNNING) s s1 /\
      forall y s2, can_lock (ProcLock z) y -> can_lock MemLock y -> can_lock PrintLock y -> alloc_ok s2 ->
        sy s2 ≡ sync_lock (ProcLock z) y -> (orphan_zombie (get_proc s2 z) = true -> holds s2 (get_proc s2 z)) ->
        exists s3, sy s3 ≡ set_curproc None y /\ taken_back z s2 s3 /\ c s2 = sched_round (q + k - S z) (S z) true s3) s
  end.
Proof.
  intros Hl. destruct (first_ready k q s) as [z |] eqn:E.
  - apply switches_round; rewrite ?E; [done | | done]. intros s1 c H1 H2 H3. done.
  - apply wp_round_idle; [done | done |]. intros y Hy. split; [done |]. by exists y.
Qed.

(** Init, in slot 0, is ready to run again. *)
Definition round_demo : kstate := put_proc 0 (set_state READY (get_proc exit_demo 0)) exit_demo.

Lemma sched_round_correct_witness :
  first_ready NPROC 0 round_demo = Some 0%nat /\
  switches (sched_round NPROC 0 false) (fun s1 c =>
      sy s1 ≡ sync_lock (ProcLock 0) (set_curproc (Some 0%nat) (sy round_demo)) /\
      proc_step 0 (set_state RUNNING) round_demo s1 /\
      forall y s2, can_lock (ProcLock 0) y -> can_lock MemLock y -> can_lock PrintLock y -> alloc_ok s2 ->
        sy s2 ≡ sync_lock (ProcLock 0) y -> (orphan_zombie (get_proc s2 0) = true -> holds s2 (get_proc s2 0)) ->
        exists s3, sy s3 ≡ set_curproc None y /\ taken_back 0 s2 s3 /\ c s2 = sched_round (0 + NPROC - 1) 1 true s3)
    round_demo.
Proof.
  assert (Hz : first_ready NPROC 0 round_demo = Some 0%nat) by done. split; [exact Hz |].
  pose proof (sched_round_correct NPROC 0 false round_demo (fun j => qu_locks _ exit_demo_quiet (ProcLock j))) as X.
  rewrite Hz in X. exact X.
Defined.
