(* ===== verification/Wait.v ===== *)
(** [wait] (Proc.v): it reaps one zombie child, fails without children, and
    sleeps otherwise. *)
From S2P Require Import Prelude Machine Csr KPrint Spinlock Printf Mem Vm PageTable KernelMap UserMem UserSpace Took Exec ExecProofs Proc ProcProofs SchedProofs ProcAlloc ProcTable Fork Exit.

(** * The caller *)

(** Only the image and the stack can be accessed by the user. *)
Definition user_only (s : kstate) (p : proc) : Prop :=
  forall v, 0 <= v < U32 -> allows (pte_at (mem s) (p_pt p) v) 0 = true -> image_or_stack (p_sz p) v.

Record can_wait `{Frames} (i : nat) (s : kstate) : Prop := {
  cw_slot : (i < NPROC)%nat;
  cw_run : p_state (get_proc s i) = RUNNING;
  cw_pt : p_pt (get_proc s i) <> 0;
  cw_ks : kstack (get_proc s i) <> 0;
  cw_user : user_only s (get_proc s i);
  cw_frame : 0 <= fr_xstate /\ fr_xstate + 4 <= PAGE_SIZE
}.

(** The word [x] as bytes, little-endian. *)
Definition word_byte (x j : Z) : Z := u8 (x / 2 ^ (8 * j)).

Lemma load8_store32_byte m a x j : 0 <= j < 4 -> load8 (store32 m a x) (a + j) = word_byte x j.
Proof.
  intros Hj. unfold store32, word_byte.
  assert (j = 0 \/ j = 1 \/ j = 2 \/ j = 3) as [-> | [-> | [-> | ->]]] by lia;
    rewrite ?load8_store8_ne by lia; rewrite ?Z.add_0_r, load8_store8_eq, ?Z.div_1_r; done.
Qed.

(** The first [k] bytes of [x] are at user address [addr] of the space [pt];
    apart from them only the local word at [fr] may have changed. *)
Record status_given (m m' : gmap Z Z) (pt fr addr x k : Z) : Prop := {
  sg_bytes : forall j, 0 <= j < k -> user_pa m pt PTE_W (addr + j) <> 0 /\
    load8 m' (user_pa m pt PTE_W (addr + j)) = word_byte x j;
  sg_frame : forall a, ~ (fr <= a < fr + 4) -> (forall j, 0 <= j < k -> a <> user_pa m pt PTE_W (addr + j)) ->
    load8 m' a = load8 m a
}.

Section GiveStatus.
Context (s : kstate) (p : proc) (Hh : holds s p) (Hpt : p_pt p <> 0) (Hks : kstack p <> 0) (Hu : user_only s p).
Context (off : Z) (Hoff : 0 <= off /\ off + 4 <= PAGE_SIZE).
Let fr := kstack p + off.

Lemma caller_user_page v : 0 <= v < U32 -> allows (pte_at (mem s) (p_pt p) v) 0 = true ->
  space s (p_pt p) (p_sz p) (PTE2PA (pte_at (mem s) (p_pt p) v)).
Proof using Hu.
  intros Hv Ha. left. exists v. split; [exact Hv |]. split; [by apply Hu |]. split; [by apply allows_valid | reflexivity].
Qed.

Lemma caller_uspace : uspace_ok s (p_pt p).
Proof.
  destruct (hd_pt _ _ Hh Hpt) as (Hwf & [O I] & _). split; [done | |].
  - intros v Hv Ha. apply O; [done | by apply Hu | by apply allows_valid].
  - intros v v' Hv Hv' Ha Ha'. apply I; try done; try (by apply Hu); by apply allows_valid.
Qed.

(** The local is no page of the user's. *)
Lemma local_apart b x : fr <= x < fr + 4 -> space s (p_pt p) (p_sz p) b -> ~ in_page b x.
Proof.
  intros Hx Hb Hin. destruct (hd_ks _ _ Hh Hks) as [Hko _]. destruct (hd_pt _ _ Hh Hpt) as (_ & _ & _ & _ & Hd).
  assert (Ho : owned s b) by (eapply owns_owned; [exact Hh | left; by right]).
  destruct (Hd b Hb) as [_ Hne]. apply Hne. apply (page_disjoint b (kstack p) x); [by eapply owned_ram | by eapply owned_ram | done |].
  unfold in_page. unfold fr in Hx. lia.
Qed.

Lemma local_kbuf : kbuf s (p_pt p) fr 4.
Proof.
  destruct (hd_ks _ _ Hh Hks) as [Hko _]. apply owned_ram in Hko as [_ Hr]. split.
  - unfold span_ok, fr, MEM_START, MEM_END, PAGE_SIZE, U32 in *. lia.
  - intros x t Hx Ht. apply local_apart; [done | by right].
  - intros x v Hx Hv Ha. apply local_apart; [done | by apply caller_user_page].
Qed.

Lemma local_tables x : same_tables (mem s) (store32 (mem s) fr x) (p_pt p).
Proof.
  intros t a Ht Ha. apply load8_store32_ne.
  destruct (decide (fr <= a < fr + 4)) as [Hd | Hd]; [| lia]. exfalso. by apply (local_apart t a); [| right |].
Qed.

(** The last page of the address space is not the user's. *)
Lemma caller_top need v : U32 - PAGE_SIZE <= v < U32 -> user_pa (mem s) (p_pt p) need v = 0.
Proof using Hh Hpt Hu.
  clear fr Hoff off. intros Hv. unfold user_pa. destruct (allows _ need) eqn:E; [| done]. exfalso.
  assert (Ha : allows (pte_at (mem s) (p_pt p) v) 0 = true) by (by eapply allows_user).
  destruct (hd_pt _ _ Hh Hpt) as (_ & _ & Hal & Hsz & _).
  destruct (Hu v ltac:(unfold PAGE_SIZE, U32 in *; lia) Ha) as [Hi | Hi].
  - apply Z.mod_divide in Hal as [q Hq]; [| done]. unfold PAGE_SIZE, U32 in *. lia.
  - revert Hi Hv. cbv -[Z.le Z.lt]. lia.
Qed.

Lemma wp_give_status addr x (Q : Z -> kstate -> Prop) : 0 <= addr < U32 ->
  (forall m' r k, stops (mem s) (p_pt p) PTE_W addr 4 r k -> addr + k <= U32 ->
     status_given (mem s) m' (p_pt p) fr addr x k -> Q r (set_mem m' s)) ->
  wp (st fr x;; copyout (p_pt p) addr fr 4) Q s.
Proof.
  intros Haddr HQ. unfold st. apply wp_bind, wp_modify. set (m1 := store32 (mem s) fr x).
  pose proof (local_tables x) as Hst. fold m1 in Hst.
  assert (Hpa : forall v, user_pa m1 (p_pt p) PTE_W v = user_pa (mem s) (p_pt p) PTE_W v)
    by (intros; by apply same_tables_user_pa).
  destruct (decide (addr + 4 <= U32)) as [Hend | Hend].
  - unfold copyout. rewrite <- (u32_small addr) at 1 by lia.
    eapply wp_mono; [apply wp_copyout_loop; try done; try lia |].
    + by apply same_tables_uspace, caller_uspace.
    + apply same_tables_kbuf, local_kbuf. done.
    + intros r s' (m' & k & -> & [Hk Hr] & [WU WF]). cbn [mem set_mem] in *. setoid_rewrite Hpa in WU.
      setoid_rewrite Hpa in WF. rewrite Hpa in Hr. apply (HQ m' r k); [by split | lia |]. split.
      * intros j Hj. destruct (WU j Hj) as [Hn ->]. split; [done |]. apply load8_store32_byte. lia.
      * intros a Ha Hn. rewrite WF by done. apply load8_store32_ne. lia.
  - assert (Hz : user_pa (mem s) (p_pt p) PTE_W addr = 0) by (apply caller_top; unfold PAGE_SIZE; lia).
    unfold copyout. change (Z.to_nat 4) with 4%nat. cbn [copyout_loop]. change (4 <=? 0) with false. cbn iota.
    apply wp_bind, wp_find_user_pa; [apply same_tables_wf; [done | apply (hd_pt _ _ Hh Hpt)] |].
    cbn [mem set_mem]. rewrite Hpa, Hz. cbn [Z.eqb].
    apply wp_ret, (HQ m1 (-1) 0); [by apply stops_refused | lia |]. split; [lia |].
    intros a Ha _. apply load8_store32_ne. lia.
Qed.

(** A byte that may have changed is in a page of the caller's that is neither
    a table nor the trap frame. *)
Lemma status_page addr k a : 0 <= addr -> addr + k <= U32 ->
  fr <= a < fr + 4 \/ (exists j, 0 <= j < k /\ a = user_pa (mem s) (p_pt p) PTE_W (addr + j) /\ a <> 0) ->
  exists b, owns s p b /\ ~ table (mem s) (p_pt p) b /\ b <> p_tf p /\ in_page b a.
Proof.
  intros H0 Hend [Hl | (j & Hj & -> & Hn)].
  - exists (kstack p). assert (Hin : in_page (kstack p) a) by (unfold in_page; unfold fr in Hl; lia).
    split_and!; [by right | | by apply Hh | done]. intros Ht. by apply (local_apart (kstack p) a Hl); [right |].
  - destruct (user_pa_page s (p_pt p) caller_uspace PTE_W (addr + j)) as (Ha & _ & _ & Hin); [lia | done |].
    apply allows_user in Ha. exists (PTE2PA (pte_at (mem s) (p_pt p) (addr + j))).
    assert (Hsp : space s (p_pt p) (p_sz p) (PTE2PA (pte_at (mem s) (p_pt p) (addr + j)))) by (apply caller_user_page; [lia | done]).
    split_and!; [left; by right | | | done].
    + apply (us_page _ _ caller_uspace); [lia | done].
    + destruct (hd_pt _ _ Hh Hpt) as (_ & _ & _ & _ & Hd). by apply Hd.
Qed.
End GiveStatus.

(** * Giving the status away keeps the process table *)

Section Given.
Context (i : nat) (s : kstate) (Hok : procs_ok s) (Hi : (i < NPROC)%nat).
Let p := get_proc s i.
Context (Hpt : p_pt p <> 0) (Hks : kstack p <> 0) (Hu : user_only s p) (off : Z) (Hoff : 0 <= off /\ off + 4 <= PAGE_SIZE).
Context (addr x k : Z) (m1 : gmap Z Z) (H0 : 0 <= addr) (Hend : addr + k <= U32).
Context (Hg : status_given (mem s) m1 (p_pt p) (kstack p + off) addr x k).

Lemma given_byte a : (forall b, owns s p b -> ~ table (mem s) (p_pt p) b -> b <> p_tf p -> ~ in_page b a) -> load8 m1 a = load8 (mem s) a.
Proof.
  intros Ha. pose proof (status_page s p (pk_holds _ Hok i Hi) Hpt Hks Hu off Hoff addr k a H0 Hend) as Hpage.
  apply (sg_frame _ _ _ _ _ _ _ Hg).
  - intros Hl. destruct Hpage as (b & Hb & Hnt & Hne & Hin); [by left | by apply (Ha b)].
  - intros j Hj ->. destruct Hpage as (b & Hb & Hnt & Hne & Hin); [right | by apply (Ha b)].
    exists j. split; [done | split; [done |]]. by apply (sg_bytes _ _ _ _ _ _ _ Hg).
Qed.

Lemma given_holds j : (j < NPROC)%nat ->
  holds (set_mem m1 s) (get_proc s j) /\ forall b, owns (set_mem m1 s) (get_proc s j) b <-> owns s (get_proc s j) b.
Proof.
  intros Hj. pose proof (pk_holds _ Hok j Hj) as Hh. apply holds_stay; [done | | done].
  intros t a Hp0 Ht Ha. assert (Hto : owns s (get_proc s j) t) by (left; right; split; [done | by right]).
  apply given_byte. intros b Hb Hnt _ Hin.
  assert (t = b) as -> by (exact (owns_page _ _ _ t b a Hh (pk_holds _ Hok i Hi) Hto Hb Ha Hin)).
  apply Hnt. assert (j = i) as -> by (by apply (pk_apart _ Hok j i b)). done.
Qed.

(** No trap frame is written to. *)
Lemma given_frame j a : (j < NPROC)%nat -> p_tf (get_proc s j) <> 0 -> in_page (p_tf (get_proc s j)) a ->
  load8 m1 a = load8 (mem s) a.
Proof.
  intros Hj Htf Ha. assert (Hto : owns s (get_proc s j) (p_tf (get_proc s j))) by (by left; left).
  apply given_byte. intros b Hb _ Hne Hin.
  assert (E : p_tf (get_proc s j) = b) by (exact (owns_page _ _ _ _ b a (pk_holds _ Hok j Hj) (pk_holds _ Hok i Hi) Hto Hb Ha Hin)).
  rewrite E in Hto. assert (j = i) as -> by (by apply (pk_apart _ Hok j i b)). by apply Hne.
Qed.

Lemma given_ok : procs_ok (set_mem m1 s).
Proof.
  apply (procs_ok_shrink s); [done |]. intros j Hj. change (get_proc (set_mem m1 s) j) with (get_proc s j).
  destruct (given_holds j Hj) as [Hh Ho]. split_and!; [done | intros b; apply Ho | by apply (pk_blank _ Hok)].
Qed.

Lemma given_tables : same_tables (mem s) m1 (p_pt p).
Proof.
  intros t a Ht Ha. apply given_byte. intros b Hb Hnt _ Hin. pose proof (pk_holds _ Hok i Hi) as Hh.
  apply Hnt. rewrite <- (owns_page _ _ _ t b a Hh Hh); try done. left. right. split; [done | by right].
Qed.
End Given.

(** * The scan *)

(** The first zombie child from slot [q] on, and whether there is a child. *)
Fixpoint first_zombie (k q i : nat) (s : kstate) : option nat :=
  match k with
  | O => None
  | S k => if zombie_child i (get_proc s q) then Some q else first_zombie k (S q) i s
  end.

Definition has_child (i : nat) (s : kstate) (l : list nat) : bool :=
  existsb (fun j => bool_decide (parent (get_proc s j) = Some i)) l.

Lemma first_zombie_some k i s z : forall q, first_zombie k q i s = Some z ->
  (q <= z < q + k)%nat /\ zombie_child i (get_proc s z) = true.
Proof.
  induction k as [|k IH]; intros q; cbn [first_zombie]; [done |].
  destruct (zombie_child i (get_proc s q)) eqn:E; [intros [= <-]; split; [lia | done] |].
  intros Hz. destruct (IH _ Hz). split; [lia | done].
Qed.

Lemma first_zombie_sy k i s y : forall q, first_zombie k q i (set_sy y s) = first_zombie k q i s.
Proof. induction k as [|k IH]; intros q; cbn [first_zombie]; [done |]. by rewrite IH. Qed.

(** What [wait] does with zombie [c] in slot [q], whose lock it holds. *)
Definition reap `{Frames} (q i : nat) (addr : Z) (c : proc) : M (Z + bool) :=
  p ← the_proc i;
  r ← (if addr =? 0 then mret 0
       else
         st (kstack p + fr_xstate) (xstate c);;
         copyout (p_pt p) addr (kstack p + fr_xstate) 4);
  if r <? 0 then
    unlock (ProcLock q);; unlock WaitLock;; mret (inl (-1))
  else
    releaseproc q;;
    unlock (ProcLock q);;
    unlock WaitLock;;
    mret (inl (pid c)).

Lemma wp_wait_scan `{Frames} i addr k (Q : Z + bool -> kstate -> Prop) : forall q have s,
  (forall j, (q <= j < q + k)%nat -> can_lock (ProcLock j) (sy s)) ->
  (forall y, y ≡ sy s ->
     match first_zombie k q i s with
     | Some z => wp (reap z i addr (get_proc s z)) Q (set_sy (sync_lock (ProcLock z) y) s)
     | None => Q (inr (have || has_child i s (seq q k))) (set_sy y s)
     end) -> wp (wait_scan k q i addr have) Q s.
Proof.
  induction k as [|k IH]; intros q have s Hl HQ; cbn [wait_scan].
  { apply wp_ret. specialize (HQ (sy s) ltac:(done)). cbn in HQ. by rewrite orb_false_r, set_sy_id in HQ. }
  apply wp_bind, wp_gets. cbn [first_zombie] in HQ. unfold zombie_child in HQ.
  change (has_child i s (seq q (S k))) with (bool_decide (parent (get_proc s q) = Some i) || has_child i s (seq (S q) k)) in HQ.
  case_bool_decide as Hc; cbn [negb andb orb] in *.
  - apply wp_bind, wp_lock; [apply Hl; lia |]. apply wp_bind, wp_gets.
    change (get_proc (set_sy _ s) q) with (get_proc s q). destruct (in_state ZOMBIE (get_proc s q)).
    { by apply HQ. }
    apply wp_bind, (wp_unlock _ (sy s)); [apply Hl; lia | done |]. intros y Hy. apply IH; cbn [sy set_sy].
    + intros j Hj. rewrite Hy. apply Hl. lia.
    + intros y' Hy'. rewrite orb_true_r in HQ. rewrite !first_zombie_sy. specialize (HQ y' ltac:(by rewrite Hy')). exact HQ.
  - apply IH; [intros j Hj; apply Hl; lia | exact HQ].
Qed.

(** * The outcomes *)

Section Outcomes.
Context `{Frames} (i z : nat) (addr : Z) (s : kstate).
Let p := get_proc s i.
Let c := get_proc s z.

(** The status of [c] has been copied to the caller, if it asked for it. *)
Definition status_out (m1 : gmap Z Z) : Prop :=
  if addr =? 0 then m1 = mem s
  else status_given (mem s) m1 (p_pt p) (kstack p + fr_xstate) addr (xstate c) 4.

Record reaped (s' : kstate) : Prop := {
  re_slots : forall j, get_proc s' j = if decide (j = z) then released c else get_proc s j;
  re_freed : exists m1, status_out m1 /\ gave_back (owns s c) (set_mem m1 s) s';
  re_addr : addr <> 0 -> addr + 4 <= U32;
  re_status : addr <> 0 -> forall j, 0 <= j < 4 -> user_pa (mem s') (p_pt p) PTE_W (addr + j) <> 0 /\
    load8 (mem s') (user_pa (mem s') (p_pt p) PTE_W (addr + j)) = word_byte (xstate c) j
}.

(** The address was bad: the child is still there. *)
Record refused (s' : kstate) : Prop := {
  rf_slots : forall j, get_proc s' j = get_proc s j;
  rf_fault : addr <> 0 /\ exists k, 0 <= k < 4 /\ addr + k <= U32 /\ user_pa (mem s) (p_pt p) PTE_W (addr + k) = 0 /\
    status_given (mem s) (mem s') (p_pt p) (kstack p + fr_xstate) addr (xstate c) k;
  rf_frame : pframe (set_mem (mem s') s) s'
}.
End Outcomes.

Section Reap.
Context `{Frames} (i z : nat) (addr : Z) (s : kstate) (Hq : quiet s) (Hok : procs_ok s) (Hi : can_wait i s).
Context (Hz : (z < NPROC)%nat) (Hzc : zombie_child i (get_proc s z) = true) (Haddr : 0 <= addr < U32).
Let p := get_proc s i.
Let c := get_proc s z.

Lemma zombie_not_caller : z <> i.
Proof.
  intros ->. unfold zombie_child, in_state in Hzc. rewrite (cw_run _ _ Hi), (bool_decide_false (RUNNING = ZOMBIE)) in Hzc by done.
  by rewrite andb_false_r in Hzc.
Qed.

(** Once the status is copied, every slot holds what it held. *)
Lemma status_out_ok m1 : status_out i z addr s m1 -> (addr <> 0 -> addr + 4 <= U32) -> procs_ok (set_mem m1 s) /\
  same_tables (mem s) m1 (p_pt p) /\
  forall j, (j < NPROC)%nat -> forall b, owns (set_mem m1 s) (get_proc s j) b <-> owns s (get_proc s j) b.
Proof.
  unfold status_out. destruct (addr =? 0) eqn:E; zbool.
  - intros -> _. split_and!; [| done | done]. apply (procs_ok_shrink s); [done |]. intros j Hj.
    split_and!; [by apply (holds_ext s), (pk_holds _ Hok) | done | by apply (pk_blank _ Hok)].
  - intros Hg Hend. destruct Hi as [I1 I2 I3 I4 I5 I6]. specialize (Hend E). split_and!.
    + by eapply (given_ok i s Hok I1 I3 I4 I5 fr_xstate I6 addr _ 4 m1); [lia | |].
    + by eapply (given_tables i s Hok I1 I3 I4 I5 fr_xstate I6 addr _ 4 m1); [lia | |].
    + intros j Hj. by eapply (given_holds i s Hok I1 I3 I4 I5 fr_xstate I6 addr _ 4 m1); [lia | | |].
Qed.

(** The status survives the release of the child. *)
Lemma status_survives m1 s' : status_out i z addr s m1 -> (addr <> 0 -> addr + 4 <= U32) ->
  gave_back (owns s c) (set_mem m1 s) s' -> addr <> 0 -> forall j, 0 <= j < 4 ->
  user_pa (mem s') (p_pt p) PTE_W (addr + j) <> 0 /\
  load8 (mem s') (user_pa (mem s') (p_pt p) PTE_W (addr + j)) = word_byte (xstate c) j.
Proof.
  intros Hso Hend Hgb Hne j Hj. destruct (status_out_ok m1 Hso Hend) as (Hok1 & Hst & Hown).
  pose proof (cw_slot _ _ Hi) as Hil. specialize (Hend Hne).
  assert (Hkeep : forall b a, owns s p b -> in_page b a -> load8 (mem s') a = load8 m1 a).
  { intros b a Hb Ha. rewrite (gave_back_page _ _ _ b a Hgb); [done | | | done].
    - eapply owns_owned; [exact (pk_holds _ Hok1 i Hil) |]. by apply Hown.
    - intros Hbc. apply zombie_not_caller. by apply (pk_apart _ Hok z i b). }
  assert (Hpt : p_pt p <> 0) by apply Hi.
  assert (Hst' : same_tables (mem s) (mem s') (p_pt p)).
  { intros t a Ht Ha. rewrite (Hkeep t a); [exact (Hst t a Ht Ha) | | done]. left. right. split; [done | by right]. }
  rewrite (same_tables_user_pa (mem s)) by done.
  unfold status_out in Hso. destruct (addr =? 0) eqn:E; zbool; [done |].
  destruct (sg_bytes _ _ _ _ _ _ _ Hso j Hj) as [Hn Hb]. split; [done |].
  pose proof (caller_uspace s p (pk_holds _ Hok i Hil) Hpt (cw_user _ _ Hi)) as Hus.
  destruct (user_pa_page s (p_pt p) Hus PTE_W (addr + j)) as (Ha & _ & _ & Hin); [lia | done |].
  rewrite (Hkeep (PTE2PA (pte_at (mem s) (p_pt p) (addr + j)))); [done | | done].
  left. right. split; [done |]. apply caller_user_page; [exact (cw_user _ _ Hi) | lia | by eapply allows_user].
Qed.

Let yl (y : sync) : sync := sync_lock (ProcLock z) y.

(** The zombie is released and both locks are dropped. *)
Lemma wp_reap_release y m1 (Q : Z + bool -> kstate -> Prop) : y ≡ sync_lock WaitLock (sy s) ->
  status_out i z addr s m1 -> (addr <> 0 -> addr + 4 <= U32) ->
  (forall s', oframe s s' -> reaped i z addr s s' -> Q (inl (pid c)) s') ->
  wp (releaseproc z;; unlock (ProcLock z);; unlock WaitLock;; mret (inl (pid c))) Q (set_mem m1 (set_sy (yl y) s)).
Proof.
  intros Hy Hso Hend HQ. destruct (status_out_ok m1 Hso Hend) as (Hok1 & _ & Hown). pose proof (qu_locks _ Hq) as Hl.
  set (s1 := set_mem m1 _). assert (Hy1 : sy s1 ≡ yl (sync_lock WaitLock (sy s))) by (cbn; unfold yl; by rewrite Hy).
  apply wp_bind, (wp_releaseproc z (sync_lock WaitLock (sy s))); [done | | |].
  - destruct (qu_alloc _ Hq) as [A1 A2]. split; [by split | | right]; rewrite Hy1; unfold yl; by repeat (apply can_lock_other; [done |]).
  - apply (holds_ext (set_mem m1 s)); [done.. |]. by apply (pk_holds _ Hok1 z).
  - intros s2 Hs2. change (get_proc s1 z) with c in *.
    apply wp_bind, (wp_unlock _ (sync_lock WaitLock (sy s))); [by apply can_lock_other | |].
    { change (sy (put_proc _ _ s2)) with (sy s2). by rewrite (kf_sy _ _ (fs_frame _ _ _ Hs2)). }
    intros y2 Hy2. apply wp_bind, (wp_unlock _ (sy s)); [done | done |]. intros y3 Hy3. apply wp_ret.
    assert (Hgb : gave_back (owns s c) (set_mem m1 s) (set_sy y3 (put_proc z (released c) s2))).
    { apply (gave_back_leave _ s1); [by split | | done]. eapply gave_back_frame; [| apply pframe_put].
      apply freed_gave_back. eapply freed_set_equiv; [| exact Hs2]. intros b. exact (Hown z Hz b). }
    apply HQ.
    + destruct (gb_frame _ _ _ Hgb). by split.
    + split.
      * intros j. change (get_proc (set_sy _ _) j) with (get_proc (put_proc z (released c) s2) j). rewrite get_proc_put.
        case_decide; [done |]. unfold get_proc. by rewrite (kf_procs _ _ (fs_frame _ _ _ Hs2)).
      * by exists m1.
      * done.
      * by apply (status_survives m1).
Qed.

Lemma wp_reap y (Q : Z + bool -> kstate -> Prop) : y ≡ sync_lock WaitLock (sy s) ->
  (forall s', oframe s s' -> reaped i z addr s s' -> Q (inl (pid c)) s') ->
  (forall s', refused i z addr s s' -> Q (inl (-1)) s') ->
  wp (reap z i addr c) Q (set_sy (yl y) s).
Proof.
  intros Hy HR HF. unfold reap. apply wp_bind, wp_gets. change (get_proc (set_sy _ s) i) with p. apply wp_bind.
  destruct (addr =? 0) eqn:E; zbool.
  { apply wp_ret. change (0 <? 0) with false. cbn iota.
    assert (Hm : set_sy (yl y) s = set_mem (mem s) (set_sy (yl y) s)) by (by destruct s). rewrite Hm.
    apply wp_reap_release; [done | | done | done]. unfold status_out. by rewrite E. }
  pose proof (qu_locks _ Hq) as Hl. destruct Hi as [I1 I2 I3 I4 I5 I6].
  apply (wp_give_status (set_sy (yl y) s) p); try done.
  { by apply (holds_ext s), (pk_holds _ Hok). }
  intros m1 r k [Hk Hr] Hend Hg. destruct Hr as [[-> ->] | (-> & Hlt & Hf)].
  - change (0 <? 0) with false. cbn iota. apply wp_reap_release; [done | | done | done].
    unfold status_out. apply Z.eqb_neq in E. by rewrite E.
  - change (-1 <? 0) with true. cbn iota.
    apply wp_bind, (wp_unlock _ (sync_lock WaitLock (sy s))); [by apply can_lock_other | cbn; unfold yl; by rewrite Hy |].
    intros y2 Hy2. apply wp_bind, (wp_unlock _ (sy s)); [done | done |]. intros y3 Hy3. apply wp_ret, HF. split.
    + done.
    + split; [done |]. exists k. split; [lia |]. done.
    + by split.
Qed.
End Reap.

(** * The process table afterwards *)

Section After.
Context `{Frames} (i z : nat) (addr : Z) (s s' : kstate) (Hq : quiet s) (Hok : procs_ok s) (Hi : can_wait i s).
Context (Haddr : 0 <= addr < U32).

Lemma reaped_ok : (z < NPROC)%nat -> reaped i z addr s s' -> procs_ok s'.
Proof.
  intros Hz [Hs (m1 & Hso & Hgb) Hend _]. destruct (status_out_ok i z addr s Hok Hi Hz Haddr m1) as (Hok1 & _ & Hown); [done.. |].
  apply (procs_ok_shrink s); [done |]. intros j Hj. rewrite Hs. case_decide as E.
  - destruct (blank_holds s' _ (released_blank (get_proc s z))) as [Hh Ho]. split_and!; [done | | done].
    intros b Hb. by destruct (Ho b).
  - destruct (gave_back_holds _ _ _ (get_proc s j) Hgb) as [Hh Ho]; [| exact (pk_holds _ Hok1 j Hj) |].
    + intros b Hb Hbz. apply E, (pk_apart _ Hok j z b); [done | done | by apply Hown | done].
    + split_and!; [done | | by apply (pk_blank _ Hok)]. intros b Hb. by apply (Hown j Hj), Ho.
Qed.

Lemma refused_ok : refused i z addr s s' -> procs_ok s'.
Proof.
  intros [Hs (_ & k & Hk & Hend & _ & Hg) Hf]. destruct Hi as [I1 I2 I3 I4 I5 I6].
  pose proof (given_holds i s Hok I1 I3 I4 I5 fr_xstate I6 addr _ k (mem s') ltac:(lia) Hend Hg) as Hgiven.
  apply (procs_ok_shrink s); [done |]. intros j Hj. rewrite Hs. destruct (Hgiven j Hj) as [Hh Ho].
  assert (Hh' : holds s' (get_proc s j)) by (apply (holds_ext (set_mem (mem s') s)); [done | apply Hf | apply Hf | done]).
  split_and!; [done | | by apply (pk_blank _ Hok)]. intros b. apply Ho.
Qed.

Lemma refused_quiet : refused i z addr s s' -> quiet s'.
Proof.
  intros [_ _ Hf]. apply (quiet_frame s); [destruct Hf; by split | | done].
  destruct (qu_alloc _ Hq) as [A1 A2]. pose proof (pf_start _ _ Hf) as Hst. pose proof (pf_bitmap _ _ Hf) as Hb. cbn in Hst, Hb.
  split; rewrite Hst; [done |]. unfold bit. by rewrite Hb.
Qed.

Lemma reaped_quiet : oframe s s' -> reaped i z addr s s' -> quiet s'.
Proof. intros Hf [_ (m1 & _ & Hgb) _ _]. apply (quiet_frame s); [done | apply Hgb | done]. Qed.
End After.

(** * wait *)

Section Turn.
Context `{Frames} (i : nat) (addr : Z) (s : kstate) (Hq : quiet s) (Hok : procs_ok s) (Hi : can_wait i s).
Context (Haddr : 0 <= addr < U32) (y : sync) (Hy : y ≡ sync_lock WaitLock (sy s)).

Lemma wait_locks j : can_lock (ProcLock j) (sy (set_sy y s)).
Proof. cbn [sy set_sy]. rewrite Hy. apply can_lock_other; [done | apply Hq]. Qed.

(** There is a zombie. *)
Lemma wp_wait_zombie fuel z (Q : Z -> kstate -> Prop) : first_zombie NPROC 0 i s = Some z ->
  (forall s', oframe s s' -> reaped i z addr s s' -> Q (pid (get_proc s z)) s') ->
  (forall s', refused i z addr s s' -> Q (-1) s') ->
  wp (wait_loop (S fuel) i addr) Q (set_sy y s).
Proof.
  intros Hz HR HF. destruct (first_zombie_some _ _ _ _ _ Hz) as [Hlt Hzc]. cbn [wait_loop].
  apply wp_bind, wp_wait_scan; [intros; apply wait_locks |]. intros y1 Hy1. cbn [sy set_sy] in Hy1.
  rewrite first_zombie_sy, Hz. apply (wp_reap i z addr s Hq Hok Hi ltac:(lia) Hzc Haddr y1); [by rewrite Hy1 | |].
  - intros s' Hf Hr. apply wp_ret. by apply HR.
  - intros s' Hr. apply wp_ret. by apply HF.
Qed.

(** There is no child. *)
Lemma wp_wait_childless fuel (Q : Z -> kstate -> Prop) : first_zombie NPROC 0 i s = None ->
  has_child i s (seq 0 NPROC) = false -> (forall y', y' ≡ sy s -> Q (-1) (set_sy y' s)) ->
  wp (wait_loop (S fuel) i addr) Q (set_sy y s).
Proof.
  intros Hz Hc HQ. cbn [wait_loop]. apply wp_bind, wp_wait_scan; [intros; apply wait_locks |].
  intros y1 Hy1. cbn [sy set_sy] in Hy1. rewrite first_zombie_sy, Hz.
  change (has_child i (set_sy y s) (seq 0 NPROC)) with (has_child i s (seq 0 NPROC)). rewrite Hc. cbn [orb].
  apply wp_bind, (wp_unlock _ (sy s)); [apply Hq | cbn; by rewrite Hy1 |]. intros y2 Hy2. by apply wp_ret, HQ.
Qed.

(** Every child is alive. *)
Lemma switches_wait fuel (P : kstate -> M Z -> Prop) : first_zombie NPROC 0 i s = None ->
  has_child i s (seq 0 NPROC) = true -> cpu_proc (get_cpu (sy s)) = Some i -> depth (get_cpu (sy s)) = 0 ->
  (forall s1 k, sy s1 ≡ sync_lock (ProcLock i) (sy s) ->
     proc_step i (fun p => set_state WAITING (set_chan (ChanProc i) p)) s s1 ->
     (forall y2 s2, hart_ok y2 -> depth (get_cpu y2) = 0 -> lk_free (ProcLock i) y2 -> lk_free WaitLock y2 ->
        sy s2 ≡ sync_lock (ProcLock i) y2 ->
        exists s3, sy s3 ≡ sync_lock WaitLock (set_sie (sie (sy s)) y2) /\ proc_step i (set_chan ChanNull) s2 s3 /\
          k s2 = wait_loop fuel i addr s3) -> P s1 k) ->
  switches (wait_loop (S fuel) i addr) P (set_sy y s).
Proof.
  intros Hz Hc Hcpu Hd HP. cbn [wait_loop]. apply switches_wp, wp_wait_scan; [intros; apply wait_locks |].
  intros y1 Hy1. cbn [sy set_sy] in Hy1. rewrite first_zombie_sy, Hz.
  change (has_child i (set_sy y s) (seq 0 NPROC)) with (has_child i s (seq 0 NPROC)). rewrite Hc. cbn [orb].
  pose proof (qu_locks _ Hq) as Hl. apply switches_bind.
  eapply switches_mono; [apply (switches_sleep (ChanProc i) WaitLock i (sy s)); try done; [apply (Hl MemLock) | apply Hl | apply Hl | cbn; by rewrite Hy1] |].
  intros s1 k (Hs1 & Hstep & Hk). apply HP; [done | by do 2 eapply proc_step_sy_l |].
  intros y2 s2 H1 H2 H3 H4 H5. specialize (Hk y2 s2 H1 H2 H3 H4 H5). unfold wp in Hk.
  unfold mbind, M_bind. destruct (k s2) as [[] s3 | | | | | |] eqn:Ek; try done. exists s3. split_and!; tauto.
Qed.
End Turn.


Lemma wait_outcome `{Frames} i fuel addr s : quiet s -> procs_ok s -> can_wait i s ->
  cpu_proc (get_cpu (sy s)) = Some i -> depth (get_cpu (sy s)) = 0 -> 0 <= addr < U32 ->
  match first_zombie NPROC 0 i s with
  | Some z => wp (wait (S fuel) addr) (fun r s' => quiet s' /\ procs_ok s' /\
      (r = pid (get_proc s z) /\ reaped i z addr s s' \/ r = -1 /\ refused i z addr s s')) s
  | None =>
      if has_child i s (seq 0 NPROC) then
        switches (wait (S fuel) addr) (fun s1 k =>
          sy s1 ≡ sync_lock (ProcLock i) (sy s) /\
          proc_step i (fun p => set_state WAITING (set_chan (ChanProc i) p)) s s1 /\
          forall y2 s2, hart_ok y2 -> depth (get_cpu y2) = 0 -> lk_free (ProcLock i) y2 -> lk_free WaitLock y2 ->
            sy s2 ≡ sync_lock (ProcLock i) y2 ->
            exists s3, sy s3 ≡ sync_lock WaitLock (set_sie (sie (sy s)) y2) /\
              proc_step i (set_chan ChanNull) s2 s3 /\ k s2 = wait_loop fuel i addr s3) s
      else wp (wait (S fuel) addr) (fun r s' => r = -1 /\ exists y, y ≡ sy s /\ s' = set_sy y s) s
  end.
Proof.
  intros Hq Hok Hi Hcpu Hd Haddr. pose proof (qu_locks _ Hq) as Hl. pose proof (proj1 (Hl MemLock)) as Hho.
  assert (Hen : forall y, y ≡ sy s -> can_lock WaitLock (sy (set_sy y s)) /\ sync_lock WaitLock y ≡ sync_lock WaitLock (sy s)).
  { intros y Hy. cbn [sy set_sy]. by rewrite Hy. }
  destruct (first_zombie NPROC 0 i s) as [z |] eqn:Hz; [| destruct (has_child i s (seq 0 NPROC)) eqn:Hc]; unfold wait.
  - apply wp_bind, wp_myproc; [done |]. intros y Hy. rewrite Hcpu. cbn [deref_proc]. destruct (Hen y Hy).
    apply wp_bind, wp_ret, wp_bind, wp_lock; [done |].
    destruct (first_zombie_some _ _ _ _ _ Hz) as [Hlt Hzc].
    apply (wp_wait_zombie i addr s Hq Hok Hi Haddr (sync_lock WaitLock y) ltac:(done) fuel z); [done | |].
    + intros s' Hf Hr. split_and!; [by eapply reaped_quiet | eapply (reaped_ok i z addr s s'); (done || lia) | by left].
    + intros s' Hr. split_and!; [by eapply refused_quiet | by eapply refused_ok | by right].
  - apply switches_wp, wp_myproc; [done |]. intros y Hy. rewrite Hcpu. cbn [deref_proc]. destruct (Hen y Hy).
    apply switches_wp, wp_ret, switches_wp, wp_lock; [done |].
    apply (switches_wait i addr s Hq Haddr (sync_lock WaitLock y) ltac:(done) fuel); done.
  - apply wp_bind, wp_myproc; [done |]. intros y Hy. rewrite Hcpu. cbn [deref_proc]. destruct (Hen y Hy).
    apply wp_bind, wp_ret, wp_bind, wp_lock; [done |].
    apply (wp_wait_childless i addr s Hq (sync_lock WaitLock y) ltac:(done) fuel); try done.
    intros y' Hy'. split; [done |]. by exists y'.
Qed.

(** * Properties *)

(** C14 ([wait]): called by a running process, with no lock held and a table in
    which every slot holds its own pages. If a child is a zombie, [wait] takes
    the first one in the table and returns: its pid, and the slot is free, its
    pages are available, and the exit status is in the caller's memory if an
    address was given; or -1, because the address cannot be written by the
    caller, and the child is still a zombie with its status. If there is no
    child it returns -1 and changes nothing. If every child is alive it switches
    away, sleeping on itself with only its own lock held, and when it is
    switched back to, on whichever hart, it looks again under the wait lock.
    Where it returns no lock is left held and every slot holds its own pages. *)
Theorem wait_correct `{Frames} i fuel addr s : quiet s -> procs_ok s -> can_wait i s ->
  cpu_proc (get_cpu (sy s)) = Some i -> depth (get_cpu (sy s)) = 0 -> 0 <= addr < U32 ->
  match first_zombie NPROC 0 i s with
  | Some z => wp (wait (S fuel) addr) (fun r s' => quiet s' /\ procs_ok s' /\
      (r = pid (get_proc s z) /\ reaped i z addr s s' \/ r = -1 /\ refused i z addr s s')) s
  | None =>
      if has_child i s (seq 0 NPROC) then
        switches (wait (S fuel) addr) (fun s1 k =>
          sy s1 ≡ sync_lock (ProcLock i) (sy s) /\
          proc_step i (fun p => set_state WAITING (set_chan (ChanProc i) p)) s s1 /\
          forall y2 s2, hart_ok y2 -> depth (get_cpu y2) = 0 -> lk_free (ProcLock i) y2 -> lk_free WaitLock y2 ->
            sy s2 ≡ sync_lock (ProcLock i) y2 ->
            exists s3, sy s3 ≡ sync_lock WaitLock (set_sie (sie (sy s)) y2) /\
              proc_step i (set_chan ChanNull) s2 s3 /\ k s2 = wait_loop fuel i addr s3) s
      else wp (wait (S fuel) addr) (fun r s' => r = -1 /\ exists y, y ≡ sy s /\ s' = set_sy y s) s
  end.
Proof. apply wait_outcome. Qed.

Definition demo_frames : Frames := Build_Frames 0x100.

(** Slot 1 reaps its zombie child in slot 2. *)
Lemma wait_correct_witness :
  first_zombie NPROC 0 1 exit_demo = Some 2%nat /\
  wp (wait (H := demo_frames) 1 0x1000) (fun r s' => quiet s' /\ procs_ok s' /\
      (r = pid (get_proc exit_demo 2) /\ reaped (H := demo_frames) 1 2 0x1000 exit_demo s' \/
       r = -1 /\ refused (H := demo_frames) 1 2 0x1000 exit_demo s')) exit_demo.
Proof.
  assert (Hz : first_zombie NPROC 0 1 exit_demo = Some 2%nat) by done. split; [done |].
  assert (Hw : can_wait (H := demo_frames) 1 exit_demo).
  { split; [unfold NPROC; lia | done | done | done | | done].
    intros v Hv Ha. destruct (user_demo_valid v Hv) as [Hp _]; [by apply allows_valid |].
    left. change (0x1000 <= v < 0x2000). unfold vpn in Hp.
    pose proof (Z_div_mod_eq_full v 4096). pose proof (Z.mod_pos_bound v 4096 ltac:(done)). lia. }
  assert (Hr : 0 <= 0x1000 < U32) by done.
  pose proof (wait_correct (H := demo_frames) 1 0 0x1000 exit_demo exit_demo_quiet exit_demo_ok Hw eq_refl eq_refl Hr) as X.
  rewrite Hz in X. exact X.
Defined.
