(* ===== verification/Syscall.v ===== *)
(** System calls: [kexec] of exec.c, and syscall.c.

    C locals whose address is taken ([path], [uarg], [ustack], [kbuf]) lie in
    the page of the caller's kernel stack, at offsets that are parameters; the
    array [argv] of [sys_exec], which is only indexed, is the list of its
    entries. A call that may sleep takes the number of wakeups it is followed
    for. *)
From S2P Require Import Prelude Machine Csr KPrint Spinlock Printf Mem Vm Exec Proc.

(** Offsets of locals into the page of the kernel stack. *)
Class CallFrames := {
  fr_path : Z;      (* sys_exec: path *)
  fr_uarg : Z;      (* sys_exec: uarg *)
  fr_ustack : Z;    (* kexec: ustack *)
  fr_kbuf : Z       (* sys_write: kbuf *)
}.

Definition MAXPATH : Z := 32.
Definition MAXARG : Z := 16.

(** The string at [a], for strings shorter than [fuel]. *)
Definition load_str (fuel : nat) (a : Z) : M (list Z) :=
  str ← gets (fun s => cstr_at fuel (mem s) a);
  if (fuel <=? length str)%nat then nofuel else mret str.

(** * exec.c: kexec *)

(** [x &= ~0xF] *)
Definition align16 (x : Z) : Z := Z.land x (Z.lnot 0xF).

(** The loop over [argv]: [sp] and [argc] after it, [None] for [goto bad]. *)
Fixpoint push_args (argv : list Z) (pt ustack stackbase sp argc : Z) : M (option (Z * Z)) :=
  match argv with
  | [] => mret (Some (sp, argc))
  | a :: argv =>
      if MAXARG <=? argc then mret None
      else
        str ← load_str (Z.to_nat PAGE_SIZE) a;
        let n := strlen str + 1 in
        let sp := align16 (sp -w n) in
        if sp <? stackbase then mret None
        else
          r ← copyout pt sp a n;
          if r <? 0 then mret None
          else st (ustack + 4 * argc) sp;; push_args argv pt ustack stackbase sp (argc + 1)
  end.

(** [strncpy]-like copy of the new name into [p->name]. *)
Definition new_name (path name : list Z) : list Z :=
  let n := take 15 path in n ++ [0] ++ drop (S (length n)) name.

(** The new stack with its arguments: [sp] and [argc], [None] for [goto bad]. *)
Definition build_stack (pt ustack : Z) (argv : list Z) : M (option (Z * Z)) :=
  stack ← kalloc;
  if stack =? 0 then mret None
  else
    memset stack 0 PAGE_SIZE;;
    m ← mappage pt (USER_STACK_TOP - PAGE_SIZE) stack (Z.lor (Z.lor PTE_R PTE_W) PTE_U);
    if m =? 0 then kfree stack;; mret None
    else
      let stackbase := USER_STACK_TOP - PAGE_SIZE in
      o ← push_args argv pt ustack stackbase USER_STACK_TOP 0;
      match o with
      | None => mret None
      | Some (sp, argc) =>
          st (ustack + 4 * argc) 0;;
          let sp := align16 (sp -w (argc + 1) * 4) in
          if sp <? stackbase then mret None
          else
            r ← copyout pt sp ustack ((argc + 1) * 4);
            if r <? 0 then mret None else mret (Some (sp, argc))
      end.

Definition kexec `{Layout, Initcode, CallFrames} (path : Z) (argv : list Z) : M Z :=
  o ← myproc; i ← deref_proc o;
  p ← the_proc i;
  name ← load_str (Z.to_nat MAXPATH) path;
  match find_program name with
  | None => mret (-1)
  | Some (img, len) =>
      pt ← init_userpt;
      if pt =? 0 then mret (-1)
      else
        '(r, entry, sz) ← load_elf pt img len 0;
        let bad := uvmfree pt sz;; mret (-1) in
        if r =? -1 then bad
        else
          b ← build_stack pt (kstack p + fr_ustack) argv;
          match b with
          | None => bad
          | Some (sp, argc) =>
              with_proc i (fun p => set_sz sz (set_pt pt p));;
              st (p_tf p + tf_epc) entry;;
              st (p_tf p + tf_regs 2) sp;;
              st (p_tf p + tf_regs 11) sp;;
              with_proc i (fun p => set_name (new_name name (p_name p)) p);;
              uvmfree (p_pt p) (p_sz p);;
              mret argc
          end
  end.

(** * syscall.c *)

Definition argraw (n : Z) : M Z :=
  o ← myproc; i ← deref_proc o;
  p ← the_proc i;
  if (0 <=? n) && (n <=? 5) then ld (p_tf p + tf_regs (10 + n))
  else error "argraw";; mret (u32 (-1)).

Definition argaddr (n : Z) : M Z := argraw n.
Definition argint (n : Z) : M Z := x ← argraw n; mret (s32 x).

Definition sys_exit {A} : M A := status ← argint 0; kexit status.
Definition sys_open : M Z := mret (u32 (-1)).
Definition sys_wait `{Frames} (fuel : nat) : M Z :=
  addr ← argaddr 0; r ← wait fuel addr; mret (u32 r).

(** The loop over the user's argument list, which ends after [MAXARG + 1]
    passes: the kernel addresses of the strings, [None] for [goto out]. *)
Fixpoint exec_args (fuel : nat) (pt uarg_a uargv buf used i : Z) (argv : list Z) : M (option (list Z)) :=
  match fuel with
  | O => nofuel
  | S fuel =>
      r ← copyin pt uarg_a (uargv +w 4 * i) 4;
      if r <? 0 then mret None
      else
        uarg ← ld uarg_a;
        if uarg =? 0 then mret (Some argv)
        else if i =? MAXARG then mret None
        else
          let a := buf + used in
          r ← copyinstr pt a uarg (PAGE_SIZE - used);
          if r <? 0 then mret None
          else
            str ← load_str (Z.to_nat PAGE_SIZE) a;
            exec_args fuel pt uarg_a uargv buf (used + (strlen str + 1)) (i + 1) (argv ++ [a])
  end.

Definition sys_exec `{Layout, Initcode, CallFrames} : M Z :=
  o ← myproc; i ← deref_proc o;
  p ← the_proc i;
  let path := kstack p + fr_path in
  upath ← argaddr 0;
  r ← copyinstr (p_pt p) path upath MAXPATH;
  if r <? 0 then mret (u32 (-1))
  else
    uargv ← argaddr 1;
    buf ← kalloc;
    if buf =? 0 then mret (u32 (-1))
    else
      args ← (if uargv =? 0 then mret (Some [])
              else exec_args (S (Z.to_nat MAXARG)) (p_pt p) (kstack p + fr_uarg) uargv buf 0 0 []);
      ret ← (match args with None => mret (-1) | Some argv => kexec path argv end);
      kfree buf;;
      mret (u32 ret).

Definition sys_fork `{Layout, KSyms} : M Z := r ← fork; mret (u32 r).
Definition sys_read : M Z := mret (u32 (-1)).

(** Each pass writes at least one byte. *)
Fixpoint sys_write_loop `{CallFrames} (fuel : nat) (p_buf n wrote : Z) : M Z :=
  if wrote <? n then
    match fuel with
    | O => nofuel
    | S fuel =>
        let chunk := n - wrote in
        let chunk := if 127 <? chunk then 127 else chunk in
        o ← myproc; i ← deref_proc o;
        p ← the_proc i;
        let kbuf := kstack p + fr_kbuf in
        r ← copyin (p_pt p) kbuf (p_buf +w wrote) chunk;
        if r =? -1 then
          printf ("sys_write: fault at %p" +:+ nl) [AInt (p_buf +w wrote)];; mret (u32 (-1))
        else
          modify (fun s => set_mem (store8 (mem s) (kbuf + chunk) 0) s);;
          str ← gets (fun s => cstr_at 128 (mem s) kbuf);
          printf "%s" [AStr str];;
          sys_write_loop fuel p_buf n (wrote + chunk)
    end
  else mret (u32 n).

Definition sys_write `{CallFrames} : M Z :=
  fd ← argint 0;
  p_buf ← argaddr 1;
  n ← argint 2;
  if negb (fd =? 1) then mret (u32 (-1))
  else if (n <? 0) || (1024 <? n) then mret (u32 (-1))
  else sys_write_loop (Z.to_nat n) p_buf n 0.

Definition sys_brk : M Z := mret (u32 (-1)).
Definition sys_kill : M Z := mret (u32 (-1)).

(** [fuel] bounds the number of sleeps. *)
Fixpoint sys_sleep_loop (fuel : nat) (start n : Z) : M unit :=
  t ← gets ticks;
  if (t -w start) <? n then
    match fuel with
    | O => nofuel
    | S fuel => sleep ChanTicks TicksLock;; sys_sleep_loop fuel start n
    end
  else mret tt.

Definition sys_sleep (fuel : nat) : M Z :=
  n ← argint 0;
  if n <? 0 then mret (u32 (-1))
  else
    lock TicksLock;;
    start ← gets ticks;
    sys_sleep_loop fuel start n;;
    unlock TicksLock;;
    mret 0.

Definition sys_getpid : M Z :=
  o ← myproc; i ← deref_proc o; p ← the_proc i; mret (u32 (pid p)).

(** * Dispatch (sysnum.h) *)

Definition SYS_EXIT : Z := 1.
Definition SYS_OPEN : Z := 2.
Definition SYS_WAIT : Z := 3.
Definition SYS_EXEC : Z := 4.
Definition SYS_FORK : Z := 5.
Definition SYS_READ : Z := 6.
Definition SYS_WRITE : Z := 7.
Definition SYS_BRK : Z := 8.
Definition SYS_KILL : Z := 9.
Definition SYS_GETPID : Z := 10.
Definition SYS_SLEEP : Z := 11.
Definition NSYSCALLS : Z := 12.

(** The table; entries that are not set are 0. *)
Definition syscalls `{Layout, Initcode, KSyms, Frames, CallFrames} (fuel : nat) : list (Z * M Z) :=
  [ (SYS_EXIT, sys_exit); (SYS_OPEN, sys_open); (SYS_WAIT, sys_wait fuel); (SYS_EXEC, sys_exec);
    (SYS_FORK, sys_fork); (SYS_READ, sys_read); (SYS_WRITE, sys_write); (SYS_BRK, sys_brk);
    (SYS_KILL, sys_kill); (SYS_GETPID, sys_getpid); (SYS_SLEEP, sys_sleep fuel) ].

Definition syscall `{Layout, Initcode, KSyms, Frames, CallFrames} (fuel : nat) : M unit :=
  o ← myproc; i ← deref_proc o;
  p ← the_proc i;
  x ← ld (p_tf p + tf_regs 17);
  let syscall_num := s32 x in
  let bad := printf ("Error: Invalid syscall %d" +:+ nl) [AInt syscall_num];;
             st (p_tf p + tf_regs 10) (u32 (-1)) in
  if (syscall_num <=? 0) || (NSYSCALLS <=? syscall_num) then bad
  else
    match List.find (fun e => fst e =? syscall_num) (syscalls fuel) with
    | None => bad
    | Some (_, handler) => r ← handler; st (p_tf p + tf_regs 10) r
    end.
