(* ===== verification/AsmBoot.v ===== *)
(** The kernel's first instructions, boot_asm.S, and the user's assembly: the
    system call stubs of usys.S and the program hello.S. *)
From S2P Require Import Prelude Machine Csr Asm.

(** * boot_asm.S *)

(** Symbols of kernel.ld, and what the script guarantees of them: [.bss] is
    word-aligned and below the stacks, of which there is a page per hart. *)
Class BootSyms := {
  stack_bottom : Z;
  stack_top : Z;
  bss_start : Z;
  bss_end : Z
}.

Class BootSymsOk (B : BootSyms) : Prop := {
  bs_align : bss_start mod 4 = 0 /\ bss_end mod 4 = 0;
  bs_order : 0x80000000 <= bss_start <= bss_end /\ bss_end + 0x1000 <= stack_top;
  bs_stacks : stack_bottom = stack_top + 4096 * 4 /\ stack_bottom < U32
}.

Definition NCPU : Z := 4.

Definition entry `{BootSyms} : list instr :=
  [ Csrr A0 MHARTID;
    Li T0 NCPU;
    Bgeu A0 T0 "park";
    La SP stack_bottom;
    Li T0 4096;
    Mul T0 A0 T0;
    Sub SP SP T0;
    Addi TP A0 0;
    Bnez A0 "2";
    La T0 bss_start;
    La T1 bss_end;
    Label "1";
    Bgeu T0 T1 "2";
    Sw ZERO 0 T0;
    Addi T0 T0 4;
    J "1";
    Label "2";
    Call "boot";
    J "park";
    Label "park";
    Wfi;
    J "park" ].

Section Entry.
Context `{B : BootSyms} {HB : BootSymsOk B}.

(** Fuel enough for hart 0: five lines per word of [.bss]. *)
Definition bss_words : nat := Z.to_nat ((bss_end - bss_start) / 4).

(** ** Clearing [.bss] *)

Lemma run_clear_word m a : rget (rg m) T0 = a -> rget (rg m) T1 = bss_end -> 0 <= a -> a < bss_end -> a < U32 ->
  run 5 entry 11 m = Running 11 (put_reg T0 (a + 4) (put_mem a 0 m)).
Proof.
  intros Ha Hb H0 Hlt Hu. cbn. rewrite Ha, Hb. assert ((bss_end <=? a) = false) as -> by lia. cbn.
  unfold addr. rewrite Ha, Z.add_0_r, u32_small by lia. reflexivity.
Qed.

(** At the loop's label, with [k] words to go. *)
Lemma run_clear k : forall m a, rget (rg m) T0 = a -> rget (rg m) T1 = bss_end -> bss_start <= a ->
  a + 4 * Z.of_nat k = bss_end ->
  exists m', run (5 * k + 2) entry 11 m = Running 16 m' /\
    (forall b, a <= b < bss_end -> load8 (mm m') b = 0) /\
    (forall b, ~ (a <= b < bss_end) -> load8 (mm m') b = load8 (mm m) b) /\
    (forall r, r <> T0 -> rget (rg m') r = rget (rg m) r) /\ hc m' = hc m.
Proof.
  destruct HB as [_ [Hb1 Hb2] [Hs1 Hs2]]. induction k as [|k IH]; intros m a Ha Hb Hge Hk.
  - exists m. split_and!; [| lia | done | done | done]. cbn. rewrite Ha, Hb.
    assert ((bss_end <=? a) = true) as -> by lia. done.
  - replace (5 * S k + 2)%nat with (5 + (5 * k + 2))%nat by lia. rewrite run_add, (run_clear_word m a) by (done || lia).
    set (m1 := put_reg T0 _ _).
    destruct (IH m1 (a + 4)) as (m' & Hr & Hz & Hu & Hrs & Hh).
    + unfold m1. cbn. rewrite rget_eq by discriminate. apply u32_small. lia.
    + unfold m1. cbn. by rewrite rget_ne by discriminate.
    + lia.
    + lia.
    + exists m'. split_and!; [done | | | |].
      * intros b Hbr. destruct (decide (a + 4 <= b)) as [|Hlt]; [apply Hz; lia |]. rewrite Hu by lia. cbn.
        assert (b = a \/ b = a + 1 \/ b = a + 2 \/ b = a + 3) as [-> | [-> | [-> | ->]]] by lia;
          unfold store32; rewrite ?load8_store8_ne by lia; by rewrite load8_store8_eq.
      * intros b Hbr. rewrite Hu by lia. cbn. apply load8_store32_ne. lia.
      * intros r Hne. rewrite Hrs by done. cbn. by rewrite rget_ne.
      * rewrite Hh. done.
Qed.

(** ** The start *)

Lemma run_start m h : csr_of m MHARTID = h -> 0 <= h < NCPU ->
  exists m', run 9 entry 0 m = Running (if (h =? 0)%Z then 9%nat else 16%nat) m' /\ mm m' = mm m /\ hc m' = hc m /\
    rget (rg m') SP = stack_bottom - 4096 * h /\ rget (rg m') TP = h /\ rget (rg m') A0 = h.
Proof.
  destruct HB as [_ [Hb1 Hb2] [Hs1 Hs2]]. intros Hh Hr. unfold NCPU in Hr.
  assert (Hu : u32 h = h) by (apply u32_small; unfold U32; lia).
  eexists. split_and!.
  { do 2 asm_exec. asm_goto 3%nat.
    2: { cbn [rg put_reg]. autorewrite with asm. rewrite Hh, Hu. change (u32 NCPU) with 4. assert ((4 <=? h) = false) as -> by lia.
         reflexivity. }
    do 5 asm_exec. asm_goto (if (h =? 0)%Z then 9%nat else 16%nat).
    2: { cbn [rg put_reg]. autorewrite with asm. rewrite Hh, Hu. by destruct (h =? 0). }
    reflexivity. }
  all: cbn [mm hc rg put_reg].
  - reflexivity.
  - reflexivity.
  - autorewrite with asm. rewrite Hh, Hu. change (u32 4096) with 4096. rewrite (u32_small stack_bottom) by (unfold U32 in *; lia).
    rewrite (u32_small (h * 4096)) by (unfold U32; lia). rewrite u32_small by (unfold U32 in *; lia). lia.
  - autorewrite with asm. rewrite Hh, Hu, Z.add_0_r. exact Hu.
  - autorewrite with asm. by rewrite Hh.
Qed.
(** ** The whole of it *)

(** Lines that the hart executes before [boot] is called. *)
Definition entry_fuel (h : Z) : nat :=
  if h =? 0 then (9 + (2 + ((5 * bss_words + 2) + 2)))%nat else (9 + 2)%nat.

Lemma run_call m n : run (2 + n) entry 16 m = Left (Called "boot") 18 m.
Proof. reflexivity. Qed.

Lemma run_bss m : exists m', run (2 + (5 * bss_words + 2)) entry 9 m = Running 16 m' /\
  (forall b, bss_start <= b < bss_end -> load8 (mm m') b = 0) /\
  (forall b, ~ (bss_start <= b < bss_end) -> load8 (mm m') b = load8 (mm m) b) /\
  (forall r, r <> T0 -> r <> T1 -> rget (rg m') r = rget (rg m) r) /\ hc m' = hc m.
Proof.
  destruct HB as [[Ha1 Ha2] [Hb1 Hb2] [Hs1 Hs2]].
  destruct (run_clear bss_words (put_reg T1 bss_end (put_reg T0 bss_start m)) bss_start) as (m' & Hr & Hz & Hu & Hk & Hh).
  - cbn. rewrite rget_ne, rget_eq by discriminate. apply u32_small. lia.
  - cbn. rewrite rget_eq by discriminate. apply u32_small. lia.
  - lia.
  - unfold bss_words. apply Z.mod_divide in Ha1 as [q Hq]; [| lia]. apply Z.mod_divide in Ha2 as [q' Hq']; [| lia].
    rewrite Hq, Hq'. replace (q' * 4 - q * 4) with ((q' - q) * 4) by ring. rewrite Z.div_mul by lia. lia.
  - exists m'. split_and!; [| exact Hz | exact Hu | | exact Hh].
    + rewrite run_add. do 2 asm_exec. exact Hr.
    + intros r H0 H1. rewrite Hk by done. cbn. by rewrite !rget_ne.
Qed.

Lemma run_parked n : forall m pc, (19 <= pc <= 21)%nat ->
  exists pc', (19 <= pc' <= 21)%nat /\ run n entry pc m = Running pc' m.
Proof.
  induction n as [|n IH]; intros m pc Hpc; [by exists pc |].
  assert (exists q, (19 <= q <= 21)%nat /\ run (S n) entry pc m = run n entry q m) as (q & Hq & ->).
  { assert (pc = 19 \/ pc = 20 \/ pc = 21)%nat as [-> | [-> | ->]] by lia;
      [exists 20%nat | exists 21%nat | exists 19%nat]; (split; [lia | reflexivity]). }
  by apply IH.
Qed.

(** C32 (every hart starts on its own stack, or is parked): from the first
    instruction of [_entry], a hart below NCPU reaches the call of boot() in a
    number of lines that is known in advance, with the stack pointer at the
    top of the page that kernel.ld reserves for it and its id in [tp]; hart 0
    has zeroed all of [.bss] and written nothing else, the others have
    written nothing at all. A hart from NCPU on never gets there: it waits for
    ever, and writes nothing. *)
Theorem entry_correct (m : mach) (h : Z) : csr_of m MHARTID = h -> 0 <= h < U32 ->
  (h < NCPU ->
   exists m', run (entry_fuel h) entry 0 m = Left (Called "boot") 18 m' /\
     rget (rg m') SP = stack_top + 4096 * (NCPU - h) /\ rget (rg m') TP = h /\ hc m' = hc m /\
     (forall a, load8 (mm m') a =
        if (h =? 0) && (bss_start <=? a) && (a <? bss_end) then 0 else load8 (mm m) a)) /\
  (NCPU <= h -> forall n, (3 <= n)%nat -> exists pc m', (19 <= pc <= 21)%nat /\
     run n entry 0 m = Running pc m' /\ mm m' = mm m).
Proof.
  intros Hh Hr. split.
  - intros Hn. destruct (run_start m h Hh) as (m1 & Hr1 & Hm1 & Hh1 & Hsp & Htp & Ha0); [lia |].
    assert (Hs : stack_bottom - 4096 * h = stack_top + 4096 * (NCPU - h)) by (destruct HB as [_ _ [-> _]]; unfold NCPU; lia).
    unfold entry_fuel. destruct (h =? 0) eqn:E0.
    + destruct (run_bss m1) as (m' & Hr2 & Hz & Hu & Hk & Hh2). exists m'. rewrite !Hk, Hh2, Hsp, Hm1 in * by discriminate.
      split_and!; [| done | done | done |].
      * rewrite run_add, Hr1, Nat.add_assoc, run_add, Hr2. reflexivity.
      * intros a. destruct (bool_decide (bss_start <= a < bss_end)) eqn:Eb.
        -- apply bool_decide_eq_true in Eb. rewrite Hz, andb_true_l by done.
           by assert ((bss_start <=? a) && (a <? bss_end) = true) as -> by lia.
        -- apply bool_decide_eq_false in Eb. rewrite Hu, andb_true_l by done.
           by assert ((bss_start <=? a) && (a <? bss_end) = false) as -> by lia.
    + exists m1. rewrite run_add, Hr1, Hsp, Hm1. done.
  - intros Hn n Hle. replace n with (3 + (n - 3))%nat by lia. rewrite run_add.
    assert (run 3 entry 0 m = Running 19 (put_reg T0 NCPU (put_reg A0 h m))) as ->.
    { do 2 asm_exec. asm_goto 19%nat.
      2: { cbn [rg put_reg]. autorewrite with asm. rewrite Hh, (u32_small h) by lia. change (u32 NCPU) with 4.
           unfold NCPU in Hn. by assert ((4 <=? h) = true) as -> by lia. }
      cbn [run]. by rewrite Hh. }
    destruct (run_parked (n - 3) (put_reg T0 NCPU (put_reg A0 h m)) 19) as (pc & Hpc & ->); [lia |]. by eauto.
Qed.
End Entry.

(** Four words of [.bss] from 0x80010000 on, with garbage in them. *)
#[local] Instance boot_demo_syms : BootSyms := {|
  bss_start := 0x80010000; bss_end := 0x80010010; stack_top := 0x80012000; stack_bottom := 0x80016000 |}.

#[local] Instance boot_demo_syms_ok : BootSymsOk boot_demo_syms.
Proof. split; unfold stack_top, stack_bottom, bss_start, bss_end, boot_demo_syms, U32; repeat split; (reflexivity || lia). Qed.

Definition demo_hart (h : Z) : mach := mk_mach (fun _ => 0xDEAD) (store32 ∅ 0x80010004 0xBEEF) {[MHARTID := h]}.

Lemma entry_correct_witness :
  (exists m', run (entry_fuel 0) entry 0 (demo_hart 0) = Left (Called "boot") 18 m' /\ load8 (mm m') 0x80010004 = 0) /\
  (exists pc m', (19 <= pc <= 21)%nat /\ run 1000 entry 0 (demo_hart 6) = Running pc m' /\ mm m' = mm (demo_hart 6)).
Proof.
  split.
  - destruct (entry_correct (demo_hart 0) 0) as [H _]; [reflexivity | unfold U32; lia |].
    destruct H as (m' & Hr & _ & _ & _ & Hm); [unfold NCPU; lia |]. exists m'. split; [exact Hr |]. rewrite Hm. reflexivity.
  - destruct (entry_correct (demo_hart 6) 6) as [_ H]; [reflexivity | unfold U32; lia |].
    apply H; [unfold NCPU; lia | lia].
Defined.
