(* ===== verification/AsmUser.v ===== *)
(** The user's assembly: the system call stubs of usys.S, and the program
    hello.S, followed through its system calls.

    The memory of the machine is the program's own, at its virtual addresses.
    A system call comes back on the line after [ecall] with the kernel's answer
    in [a0] and the other registers as they were, which [syscall_end_to_end] of
    TrapHandle shows; write() and exit() do not change the program's memory. *)
From S2P Require Import Prelude Machine Csr KPrint Spinlock Printf Mem Vm Exec Proc Syscall Asm.

(** * usys.S *)

(** [STUB(name, num)] *)
Definition stub (num : Z) : list instr := [Li A7 num; Ecall; Ret].

Definition usys : list (string * Z) :=
  [ ("exit", SYS_EXIT); ("fork", SYS_FORK); ("wait", SYS_WAIT); ("exec", SYS_EXEC); ("read", SYS_READ);
    ("write", SYS_WRITE); ("getpid", SYS_GETPID); ("sleep", SYS_SLEEP); ("kill", SYS_KILL) ].

(** What the kernel is to run for a stub. *)
Definition serves `{Layout, Initcode, KSyms, Frames, CallFrames} (fuel : nat) (name : string) (h : M Z) : Prop :=
  (name, h) ∈ [ ("exit", sys_exit); ("fork", sys_fork); ("wait", sys_wait fuel); ("exec", sys_exec); ("read", sys_read);
                ("write", sys_write); ("getpid", sys_getpid); ("sleep", sys_sleep fuel); ("kill", sys_kill) ].

(** The stubs pass their arguments, and the numbers agree: whatever the
    registers, the stub of a name makes the system call with every register
    but [a7] as the caller left it, the number in [a7] being the one under
    which the kernel's table has the handler of that name; once the kernel has
    answered, it returns to the caller's [ra], the answer in [a0] and no other
    register changed. *)
Theorem usys_calls `{Layout, Initcode, KSyms, Frames, CallFrames} (fuel : nat) name num m : (name, num) ∈ usys ->
  (exists h, List.find (fun e => fst e =? num) (syscalls fuel) = Some (num, h) /\ serves fuel name h) /\
  exists m', run 2 (stub num) 0 m = Left Ecalled 2 m' /\ rget (rg m') A7 = num /\
    (forall r, r <> A7 -> rget (rg m') r = rget (rg m) r) /\ mm m' = mm m /\
    forall v, let back := put_reg A0 v m' in
      run 1 (stub num) 2 back = Left (Jump (rget (rg m) RA)) 3 back.
Proof.
  intros Hin. split.
  - unfold usys in Hin. rewrite !elem_of_cons in Hin.
    repeat destruct Hin as [[= -> ->] | Hin];
      try (eexists; split; [reflexivity |]; unfold serves; rewrite !elem_of_cons; tauto). by apply elem_of_nil in Hin.
  - assert (Hn : u32 num = num).
    { assert (Forall (fun e => u32 e.2 = e.2) usys) as Hf by repeat constructor.
      rewrite list.Forall_forall in Hf. by apply (Hf (name, num)). }
    eexists. split_and!; [reflexivity | | | |].
    + cbn. by rewrite rget_eq.
    + intros r Hr. cbn. by rewrite rget_ne.
    + done.
    + intros v. cbn. by rewrite !rget_ne by discriminate.
Qed.

(** * hello.S *)

Section Hello.
Context (msg_hello newline : Z).

Definition hello : list instr :=
  [ Mv S0 A0;
    Mv S1 A1;
    Li A0 1;
    La A1 msg_hello;
    Li A2 16;
    Li A7 7;
    Ecall;
    Label "loop";
    Beqz S0 "exit";
    Lw T0 0 S1;
    Mv T1 T0;
    Label "measure";
    Lbu T2 0 T1;
    Beqz T2 "print";
    Addi T1 T1 1;
    J "measure";
    Label "print";
    Li A0 1;
    Mv A1 T0;
    Sub A2 T1 T0;
    Li A7 7;
    Ecall;
    Li A0 1;
    La A1 newline;
    Li A2 1;
    Li A7 7;
    Ecall;
    Addi S1 S1 4;
    Addi S0 S0 (-1);
    J "loop";
    Label "exit";
    Li A0 7;
    Li A7 1;
    Ecall ].

(** ** Following the calls *)

(** A system call, with the bytes that write() is given. *)
Inductive ucall := UWrite (fd : Z) (buf : list Z) | UExit (status : Z) | UOther (num : Z).

Definition buf_at (mem : gmap Z Z) (a n : Z) : list Z := load8 mem <$> seqZ a n.

Definition ucall_of (m : mach) : ucall :=
  let num := rget (rg m) A7 in
  if num =? SYS_WRITE then UWrite (rget (rg m) A0) (buf_at (mm m) (rget (rg m) A1) (rget (rg m) A2))
  else if num =? SYS_EXIT then UExit (rget (rg m) A0)
  else UOther num.

(** The calls that [p] makes from line [pc] on when the kernel answers [ans];
    [fuel] lines between two calls. *)
Fixpoint calls (fuel : nat) (p : list instr) (ans : list Z) (pc : nat) (m : mach) : option (list ucall) :=
  match run fuel p pc m with
  | Left Ecalled pc' m' =>
      match ans with
      | [] => Some [ucall_of m']
      | a :: ans => option_map (cons (ucall_of m')) (calls fuel p ans pc' (put_reg A0 a m'))
      end
  | _ => None
  end.

Lemma calls_cons n k p a ans pc m pc' m' : run n p pc m = Left Ecalled pc' m' -> (n <= k)%nat ->
  calls k p (a :: ans) pc m = option_map (cons (ucall_of m')) (calls k p ans pc' (put_reg A0 a m')).
Proof. intros Hr Hk. cbn [calls]. replace k with (n + (k - n))%nat at 1 by lia. by rewrite (run_more _ _ _ _ _ _ _ _ Hr). Qed.

Lemma calls_last n k p pc m pc' m' : run n p pc m = Left Ecalled pc' m' -> (n <= k)%nat ->
  calls k p [] pc m = Some [ucall_of m'].
Proof. intros Hr Hk. cbn [calls]. replace k with (n + (k - n))%nat at 1 by lia. by rewrite (run_more _ _ _ _ _ _ _ _ Hr). Qed.

(** ** Its pieces *)

(** Same memory, and the same registers but for those of [rs]. *)
Definition keeps (rs : list reg) (m m' : mach) : Prop :=
  mm m' = mm m /\ forall r, r ∉ rs -> rget (rg m') r = rget (rg m) r.

(** The loop [measure] walks to the end of the string. *)
Lemma run_measure k : forall m a, rget (rg m) T1 = a -> str_at (mm m) a (Z.of_nat k) ->
  exists m', run (5 * k + 3) hello 11 m = Running 16 m' /\ rget (rg m') T1 = a + Z.of_nat k /\ keeps [T1; T2] m m'.
Proof.
  induction k as [|k IH]; intros m a Ha Hs; pose proof (sa_range _ _ _ Hs) as Hr; pose proof (str_at_head _ _ _ Hs) as Hh.
  all: assert (Had : addr m T1 0 = a) by (unfold addr; rewrite Ha, Z.add_0_r; apply u32_small; lia).
  - eexists. unfold keeps; split_and!.
    + change (5 * 0 + 3)%nat with 3%nat. do 2 asm_exec. asm_goto 16%nat; [reflexivity |]. cbn [rg put_reg]. rewrite rget_eq, Had by discriminate.
      rewrite (proj2 Hh) by lia. reflexivity.
    + cbn. rewrite rget_ne by discriminate. lia.
    + done.
    + intros r Hn. cbn. apply rget_ne. set_solver.
  - set (m1 := put_reg T1 (a + 1) (put_reg T2 (load8 (mm m) a) m)).
    assert (Hb : (u32 (load8 (mm m) a) =? 0) = false).
    { rewrite u32_small by (pose proof (load8_range (mm m) a); unfold U32; lia). apply Z.eqb_neq. lia. }
    destruct (IH m1 (a + 1)) as (m' & Hrun & Ht & Hm & Hk).
    + unfold m1. cbn. rewrite rget_eq by discriminate. apply u32_small. lia.
    + cbn. replace (Z.of_nat k) with (Z.of_nat (S k) - 1) by lia. apply str_at_next; [done | lia].
    + exists m'. unfold keeps; split_and!; [| rewrite Ht; lia | by rewrite Hm |].
      * replace (5 * S k + 3)%nat with (5 + (5 * k + 3))%nat by lia. rewrite run_add.
        assert (run 5 hello 11 m = Running 11 m1) as ->; [| exact Hrun].
        do 2 asm_exec. asm_goto 14%nat.
        2: { cbn [rg put_reg]. by rewrite rget_eq, Had, Hb by discriminate. }
        asm_exec. asm_goto 11%nat; [| reflexivity]. cbn [run]. unfold m1. cbn [rg put_reg].
        by rewrite (rget_ne T2 T1), Had, Ha by discriminate.
      * intros r Hn. rewrite Hk by done. cbn. rewrite !rget_ne by set_solver. done.
Qed.

(** From the top of the loop to the call that writes the argument. *)
Lemma run_arg m a k : rget (rg m) S0 <> 0 -> load32 (mm m) (addr m S1 0) = a -> str_at (mm m) a (Z.of_nat k) ->
  exists m', run (4 + ((5 * k + 3) + 6)) hello 7 m = Left Ecalled 22 m' /\
    ucall_of m' = UWrite 1 (buf_at (mm m) a (Z.of_nat k)) /\ keeps [T0; T1; T2; A0; A1; A2; A7] m m'.
Proof.
  intros H0 Ha Hs. pose proof (sa_range _ _ _ Hs) as Hr.
  assert (Hu : u32 a = a) by (apply u32_small; lia).
  set (m1 := put_reg T1 a (put_reg T0 a m)).
  destruct (run_measure k m1 a) as (m2 & Hrun & Ht & Hm & Hk).
  { unfold m1. cbn. by rewrite rget_eq by discriminate. }
  { exact Hs. }
  assert (Ht0 : rget (rg m2) T0 = a) by (rewrite Hk by set_solver; cbn; by rewrite rget_ne, rget_eq by discriminate).
  eexists. unfold keeps; split_and!.
  - rewrite run_add. assert (run 4 hello 7 m = Running 11 m1) as ->.
    { asm_exec. asm_goto 9%nat.
      2: { apply Z.eqb_neq in H0. by rewrite H0. }
      do 2 asm_exec. cbn [run]. unfold m1. cbn [rg put_reg]. by rewrite rget_eq, Ha, Hu by discriminate. }
    rewrite run_add, Hrun. do 5 asm_exec. asm_leave. reflexivity.
  - unfold ucall_of. cbn [rg mm put_reg]. autorewrite with asm. rewrite Ht, Ht0.
    change (u32 1) with 1. change (u32 7) with SYS_WRITE. rewrite Z.eqb_refl, Hu.
    replace (a + Z.of_nat k - a) with (Z.of_nat k) by ring. rewrite u32_small by lia. by rewrite Hm.
  - cbn. by rewrite Hm.
  - intros r Hn. cbn. rewrite !rget_ne by set_solver. rewrite Hk by set_solver. cbn. by rewrite !rget_ne by set_solver.
Qed.

(** Then the newline, and back to the top. *)
Lemma run_newline m : exists m', run 5 hello 22 m = Left Ecalled 27 m' /\
  ucall_of m' = UWrite 1 (buf_at (mm m) (u32 newline) 1) /\ keeps [A0; A1; A2; A7] m m'.
Proof.
  eexists. unfold keeps; split_and!; [reflexivity | | done |].
  - unfold ucall_of. cbn [rg mm put_reg]. autorewrite with asm. reflexivity.
  - intros r Hn. cbn. by rewrite !rget_ne by set_solver.
Qed.

Lemma run_next m : exists m', run 3 hello 27 m = Running 7 m' /\ mm m' = mm m /\
  rget (rg m') S1 = u32 (rget (rg m) S1 + 4) /\ rget (rg m') S0 = u32 (rget (rg m) S0 - 1).
Proof.
  eexists. split_and!; [reflexivity | done | |].
  - cbn. by rewrite rget_ne, rget_eq by discriminate.
  - cbn. by rewrite rget_eq, rget_ne by discriminate.
Qed.

Lemma run_exit m : rget (rg m) S0 = 0 -> exists m', run 6 hello 7 m = Left Ecalled 34 m' /\ ucall_of m' = UExit 7.
Proof.
  intros H0. eexists. split.
  - asm_exec. asm_goto 30%nat; [| by rewrite H0]. do 3 asm_exec. asm_leave. reflexivity.
  - unfold ucall_of. cbn [rg put_reg]. autorewrite with asm. reflexivity.
Qed.
(** ** The whole program *)

(** [argv[i]] points to the string [str]. *)
Definition arg_ok (mem : gmap Z Z) (a : Z) (str : list Z) : Prop :=
  str_at mem (load32 mem a) (Z.of_nat (length str)) /\ buf_at mem (load32 mem a) (Z.of_nat (length str)) = str.

Fixpoint args_ok (mem : gmap Z Z) (argv : Z) (args : list (list Z)) : Prop :=
  match args with
  | [] => True
  | str :: args => arg_ok mem argv str /\ args_ok mem (argv + 4) args
  end.

(** What is to be printed for the arguments. *)
Definition echoed (args : list (list Z)) : list ucall :=
  args ≫= fun str => [UWrite 1 str; UWrite 1 (bytes nl)].

(** At the top of the loop, or on the way there. *)
Lemma calls_loop fuel args : forall ans pc m d m1, (d <= 3)%nat -> run d hello pc m = Running 7 m1 ->
  mm m1 = mm m -> rget (rg m1) S0 = Z.of_nat (length args) -> args_ok (mm m) (rget (rg m1) S1) args ->
  0 <= rget (rg m1) S1 -> rget (rg m1) S1 + 4 * Z.of_nat (length args) < U32 -> buf_at (mm m) (u32 newline) 1 = bytes nl ->
  length ans = (2 * length args)%nat -> Forall (fun str => (5 * length str + 16 <= fuel)%nat) args -> (16 <= fuel)%nat ->
  calls fuel hello ans pc m = Some (echoed args ++ [UExit 7]).
Proof.
  induction args as [|str args IH]; intros ans pc m d m1 Hd Hr Hm Hc Hok H0 Ha Hnl Hans Hf Hmin.
  - destruct ans; [| done]. destruct (run_exit m1) as (m' & Hr' & Hu); [by rewrite Hc |].
    rewrite (calls_last (d + 6) fuel hello pc m 34 m'), Hu; [done | by rewrite run_add, Hr | lia].
  - destruct ans as [|a1 [|a2 ans]]; [done | cbn in Hans; lia |]. destruct Hok as [[Hs Hb] Hok].
    apply list.Forall_cons in Hf as [Hl Hf]. cbn [length] in Hc, Ha, Hans.
    assert (Had : addr m1 S1 0 = rget (rg m1) S1) by (unfold addr; rewrite Z.add_0_r; apply u32_small; lia).
    destruct (run_arg m1 (load32 (mm m) (rget (rg m1) S1)) (length str)) as (m2 & Hr2 & Hu2 & Hm2 & Hk2);
      [lia | by rewrite Hm, Had | by rewrite Hm |].
    rewrite (calls_cons (d + (4 + ((5 * length str + 3) + 6))) fuel hello a1 (a2 :: ans) pc m 22 m2);
      [| by rewrite run_add, Hr | lia].
    destruct (run_newline (put_reg A0 a1 m2)) as (m3 & Hr3 & Hu3 & Hm3 & Hk3).
    rewrite (calls_cons 5 fuel hello a2 ans 22 _ 27 m3) by (done || lia).
    destruct (run_next (put_reg A0 a2 m3)) as (m4 & Hr4 & Hm4 & H1 & H2). cbn [put_reg mm rg] in *.
    assert (Hmm : mm m3 = mm m) by congruence.
    assert (Hs1 : rget (rg m4) S1 = rget (rg m1) S1 + 4).
    { rewrite H1, rget_ne, Hk3, rget_ne, Hk2 by set_solver. apply u32_small. lia. }
    rewrite (IH ans 27%nat (put_reg A0 a2 m3) 3%nat m4).
    + cbn [option_map echoed]. by rewrite Hu2, Hu3, Hm, Hb, Hm2, Hm, Hnl.
    + lia.
    + done.
    + done.
    + rewrite H2, rget_ne, Hk3, rget_ne, Hk2 by set_solver. rewrite Hc. rewrite u32_small by lia. lia.
    + cbn. by rewrite Hs1, Hmm.
    + lia.
    + lia.
    + cbn. by rewrite Hmm.
    + lia.
    + done.
    + done.
Qed.

(** C37 (hello prints its message and its arguments, and exits): started with
    [argc] strings at [argv], and whatever its system calls answer, the
    program writes "Hello from exec" and a newline to the console, then each
    argument in order followed by a newline, with the exact bytes and lengths
    of the strings, and then calls exit(7); it makes no other call. The lines
    between two calls are at most five per character of an argument and
    sixteen. *)
Theorem hello_output fuel args ans m : rget (rg m) A0 = Z.of_nat (length args) -> args_ok (mm m) (rget (rg m) A1) args ->
  0 <= rget (rg m) A1 -> rget (rg m) A1 + 4 * Z.of_nat (length args) < U32 ->
  buf_at (mm m) (u32 msg_hello) 16 = bytes ("Hello from exec" +:+ nl) -> buf_at (mm m) (u32 newline) 1 = bytes nl ->
  length ans = (1 + 2 * length args)%nat -> Forall (fun str => (5 * length str + 16 <= fuel)%nat) args -> (16 <= fuel)%nat ->
  calls fuel hello ans 0 m = Some (UWrite 1 (bytes ("Hello from exec" +:+ nl)) :: echoed args ++ [UExit 7]).
Proof.
  intros Hc Hok H0 Ha Hmsg Hnl Hans Hf Hmin. destruct ans as [|a ans]; [done |]. cbn [length] in Hans.
  set (m1 := put_reg A7 7 (put_reg A2 16 (put_reg A1 msg_hello (put_reg A0 1
    (put_reg S1 (rget (rg m) A1) (put_reg S0 (rget (rg m) A0) m)))))).
  assert (Hr : run 7 hello 0 m = Left Ecalled 7 m1).
  { do 6 asm_exec. asm_leave. unfold m1. cbn [rg put_reg]. by rewrite (rget_ne S0 A1) by discriminate. }
  rewrite (calls_cons 7 fuel hello a ans 0 m 7 m1) by (done || lia).
  rewrite (calls_loop fuel args ans 7 _ 0%nat (put_reg A0 a m1)); unfold m1; cbn [run put_reg rg mm];
    autorewrite with asm; rewrite ?(u32_small (rget (rg m) A1)), ?(u32_small (rget (rg m) A0)) by lia; try (done || lia).
  unfold ucall_of. cbn [rg mm put_reg option_map]. autorewrite with asm. change (u32 7) with SYS_WRITE. rewrite Z.eqb_refl.
  change (u32 1) with 1. change (u32 16) with 16. by rewrite Hmsg.
Qed.
End Hello.

(** One argument, "hi"; the kernel answers with what was written. *)
Definition put_bytes (a : Z) (l : list Z) (mem : gmap Z Z) : gmap Z Z :=
  foldr (fun '(i, c) mem => store8 mem (a + i) c) mem (zip (seqZ 0 (Z.of_nat (length l))) l).

Definition hello_demo : mach :=
  mk_mach (rset A1 0x2000 (rset A0 1 (fun _ => 0)))
    (put_bytes 0x1000 (bytes ("Hello from exec" +:+ nl)) (put_bytes 0x1011 (bytes nl)
      (put_bytes 0x2010 (bytes "hi") (store32 ∅ 0x2000 0x2010)))) ∅.

Lemma hello_output_witness :
  calls 40 (hello 0x1000 0x1011) [16; 2; 1] 0 hello_demo =
    Some [UWrite 1 (bytes ("Hello from exec" +:+ nl)); UWrite 1 (bytes "hi"); UWrite 1 (bytes nl); UExit 7].
Proof.
  apply (hello_output 0x1000 0x1011 40 [bytes "hi"] [16; 2; 1] hello_demo).
  - reflexivity.
  - split; [split; [split |] | exact I].
    + vm_compute. split_and!; (discriminate || reflexivity).
    + intros j Hj. change (Z.of_nat (length (bytes "hi"))) with 2 in Hj. assert (j = 0 \/ j = 1) as [-> | ->] by lia; vm_compute; discriminate.
    + reflexivity.
    + reflexivity.
  - vm_compute. discriminate.
  - vm_compute. reflexivity.
  - reflexivity.
  - reflexivity.
  - reflexivity.
  - repeat constructor.
  - lia.
Defined.

(** Any instances will do. *)
Lemma usys_calls_witness :
  run 2 (stub SYS_WRITE) 0 hello_demo = Left Ecalled 2 (put_reg A7 7 hello_demo) /\
  exists m', run 2 (stub SYS_WRITE) 0 hello_demo = Left Ecalled 2 m' /\ rget (rg m') A7 = SYS_WRITE /\
    rget (rg m') A1 = 0x2000.
Proof.
  split; [reflexivity |].
  destruct (usys_calls (H := tiny_layout) (H0 := Build_Initcode 0 0 0 0 0 0) (H1 := Build_KSyms 0 0 0 0)
    (H2 := Build_Frames 0x100) (H3 := Build_CallFrames 0x200 0x300 0x400 0x100) 10 "write" SYS_WRITE hello_demo)
    as (_ & m' & Hr & H7 & Hk & _); [by apply (bool_decide_unpack _) |].
  exists m'. split_and!; [exact Hr | exact H7 |]. rewrite Hk by discriminate. reflexivity.
Defined.
