(* ===== verification/AsmTypes.v ===== *)
(** Type soundness of the assembly: every file is well formed, and code that is
    well formed stays inside itself and keeps every register at its width,
    whatever it is started with. *)
From S2P Require Import Prelude Machine Csr KPrint Spinlock Printf Mem Vm Exec Proc Syscall Asm AsmTrap AsmBoot AsmUser.

(** * Well-formed code *)

(** The next line may be executed after this one. *)
Definition falls (i : instr) : bool :=
  match i with J _ | Jr _ | Ret | Call _ | Ecall | Sret => false | _ => true end.

Definition target (i : instr) : option string :=
  match i with Beqz _ l | Bnez _ l | Bgeu _ _ l | J l => Some l | _ => None end.

(** There is a next line where one is needed, and every label that is jumped to
    is one of the file. *)
Definition line_ok (p : list instr) (pc : nat) (i : instr) : bool :=
  (negb (falls i) || (S pc <? length p)%nat) &&
  match target i with
  | None => true
  | Some l => match line_of l p 0 with Some k => (k <? length p)%nat | None => false end
  end.

Definition well_formed (p : list instr) : bool := forallb id (imap (line_ok p) p).

Lemma well_formed_line p pc i : well_formed p = true -> p !! pc = Some i -> line_ok p pc i = true.
Proof.
  unfold well_formed. rewrite forallb_forall. intros Hf Hp. apply (Hf (line_ok p pc i)).
  apply list_elem_of_In, list_elem_of_lookup. exists pc. by rewrite list_lookup_imap, Hp.
Qed.

(** The files. *)
Inductive shipped : list instr -> Prop :=
  | shipped_usertrap : shipped usertrap
  | shipped_usertrapret : shipped usertrapret
  | shipped_kerneltrap : shipped kerneltrap
  | shipped_swtch : shipped swtch_S
  | shipped_entry (B : BootSyms) : shipped entry
  | shipped_stub name num : (name, num) ∈ usys -> shipped (stub num)
  | shipped_hello msg_hello newline : shipped (hello msg_hello newline).

Lemma shipped_well_formed p : shipped p -> well_formed p = true.
Proof. by intros []. Qed.

(** * Types *)

(** Registers and control registers are 32 bits wide. *)
Record mach_ok (m : mach) : Prop := {
  mo_regs : regs_ok (rg m);
  mo_csrs : forall c, 0 <= csr_of m c < U32
}.

Lemma put_reg_ok r v m : mach_ok m -> mach_ok (put_reg r v m).
Proof.
  intros [Hr Hc]. split; [| exact Hc]. intros x. cbn. destruct (decide (x = ZERO)) as [-> | Hz]; [by split |].
  destruct (decide (x = r)) as [-> | Hne]; [rewrite rget_eq by done; apply u32_range | rewrite rget_ne by done; apply Hr].
Qed.

Lemma put_mem_ok a v m : mach_ok m -> mach_ok (put_mem a v m).
Proof. intros [Hr Hc]. by split. Qed.

Lemma put_csr_ok c v m : mach_ok m -> mach_ok (put_csr c v m).
Proof.
  intros [Hr Hc]. split; [exact Hr |]. intros d. destruct (decide (c = d)) as [<- | Hne];
    [rewrite csr_put_eq; apply u32_range | rewrite csr_put_ne by done; apply Hc].
Qed.

Create HintDb asm_types.
#[export] Hint Resolve put_reg_ok put_mem_ok put_csr_ok : asm_types.

Lemma exec_ok i m m' : mach_ok m -> exec i m = Some m' -> mach_ok m'.
Proof. intros Hm. destruct i; cbn; intros [= <-]; eauto with asm_types. Qed.

(** A place in [p], or a way out of it. *)
Definition place_ok (p : list instr) (x : nat + event) : Prop :=
  match x with
  | inl pc => (pc < length p)%nat
  | inr (Jump a) => 0 <= a < U32
  | inr _ => True
  end.

Lemma control_ok p pc i m : well_formed p = true -> p !! pc = Some i -> mach_ok m -> exec i m = None ->
  exists x, control p pc i m = Some x /\ place_ok p x.
Proof.
  intros Hw Hp Hm He. pose proof (well_formed_line p pc i Hw Hp) as Hl. unfold line_ok in Hl. apply andb_true_iff in Hl as [Hf Ht].
  assert (Hbr : forall l b, target i = Some l -> falls i = true \/ b = true -> exists x, branch p l b pc = Some x /\ place_ok p x).
  { intros l b El Hb. rewrite El in Ht. destruct (line_of l p 0) as [k |] eqn:Ek; [| done]. apply Nat.ltb_lt in Ht. unfold branch.
    rewrite Ek. destruct b; [by exists (inl k) |]. exists (inl (S pc)). split; [done |]. destruct Hb as [Hb | ?]; [| done].
    rewrite Hb in Hf. by apply Nat.ltb_lt in Hf. }
  destruct i; try discriminate He; cbn [control];
    first [apply Hbr; [reflexivity | by left] | apply Hbr; [reflexivity | by right] |
           eexists; split; [reflexivity |]; first [exact I | apply Hm]].
Qed.


