(* ===== verification/ExecStack.v ===== *)
(** The new program's stack (Syscall.v): [push_args] and [build_stack] of
    [kexec].

    The stack is one page, [p], mapped below [USER_STACK_TOP]; [stk m v] is the
    byte at its user address [v]. [fr] is where [kexec]'s array [ustack] lies. *)
From S2P Require Import Prelude Machine Csr KPrint Spinlock Printf Mem Vm PageTable KernelMap UserMem UserSpace Took Exec ExecProofs Proc Syscall.

Definition stackbase : Z := USER_STACK_TOP - PAGE_SIZE.
Definition rwu : Z := Z.lor (Z.lor PTE_R PTE_W) PTE_U.

Lemma stack_consts : stackbase mod 4096 = 0 /\ 8192 < stackbase /\ stackbase + 4096 = USER_STACK_TOP
  /\ USER_STACK_TOP < U32 /\ UART_0 < stackbase.
Proof. done. Qed.

Section Stack.
Context (s : kstate) (pt p fr : Z) (Hus : uspace_ok s pt).
Context (Hmap : forall v, stackbase <= v < USER_STACK_TOP -> pte_at (mem s) pt v = mk_pte p rwu).
Context (Hp : ram_page p).

(** [ustack[MAXARG + 1]] *)
Definition frame_at (a : Z) : Prop := fr <= a < fr + 68.
Context (Hfr : kbuf s pt fr 68).

Definition stk (m : gmap Z Z) (v : Z) : Z := load8 m (p + (v - stackbase)).

Lemma stack_user_pa need v : need = 0 \/ need = PTE_R \/ need = PTE_W -> stackbase <= v < USER_STACK_TOP ->
  user_pa (mem s) pt need v = p + (v - stackbase).
Proof.
  intros Hn Hv. destruct stack_consts as (H1 & H2 & H3 & H4 & _). unfold user_pa. rewrite Hmap by done.
  pose proof Hp as [Hal Hr]. destruct (mk_pte_facts p rwu Hal) as (Hpa & Hfl & _); [unfold MEM_START, MEM_END, U32 in *; lia | done |].
  assert (Ha : allows (mk_pte p rwu) need = true).
  { unfold allows. assert (Hl : Z.land (mk_pte p rwu) (want need) = Z.land (PTE_FLAGS (mk_pte p rwu)) (want need)).
    { unfold PTE_FLAGS. rewrite <- Z.land_assoc. f_equal. by destruct Hn as [-> | [-> | ->]]. }
    rewrite Hl, Hfl. by destruct Hn as [-> | [-> | ->]]. }
  rewrite Ha, Hpa, u32_small; unfold PAGE_SIZE, MEM_START, MEM_END, U32, USER_STACK_TOP, stackbase in *; zlia.
Qed.

(** Memories that differ only in the stack page and the array. *)
Definition argmem (m m' : gmap Z Z) : Prop := forall a, ~ in_page p a -> ~ frame_at a -> load8 m' a = load8 m a.

Lemma argmem_trans m1 m2 m3 : argmem m1 m2 -> argmem m2 m3 -> argmem m1 m3.
Proof. intros H1 H2 a Ha Hf. by rewrite H2, H1. Qed.

Lemma stack_allowed : allows (pte_at (mem s) pt stackbase) 0 = true /\ PTE2PA (pte_at (mem s) pt stackbase) = p.
Proof.
  destruct stack_consts as (H1 & H2 & H3 & H4 & _). pose proof Hp as [Hal Hr].
  rewrite Hmap by lia. destruct (mk_pte_facts p rwu Hal) as (Hpa & _); [unfold MEM_START, MEM_END, U32 in *; lia | done |].
  split; [| done]. pose proof (stack_user_pa 0 stackbase ltac:(auto) ltac:(lia)) as Hu.
  unfold user_pa in Hu. rewrite Hmap in Hu by lia. destruct (allows (mk_pte p rwu) 0); [done |].
  unfold MEM_START in Hr. lia.
Qed.

Lemma argmem_tables m' : argmem (mem s) m' -> same_tables (mem s) m' pt.
Proof.
  intros Hm t a Ht Ha. destruct stack_consts as (H1 & H2 & H3 & H4 & _). destruct stack_allowed as [Hal Hpa].
  apply Hm.
  - destruct (us_page _ _ Hus stackbase ltac:(unfold U32 in *; lia) Hal) as [Ho Hnt]. rewrite Hpa in Ho, Hnt.
    intros Hin. apply Hnt. rewrite <- (page_disjoint t p a); try done. eapply owned_ram, table_owned; [apply Hus | done].
  - intros Hf. by apply (kb_tables _ _ _ _ Hfr a t).
Qed.

(** The array is not in the stack page, and neither are buffers. *)
Lemma kbuf_stack a n x : kbuf s pt a n -> a <= x < a + n -> ~ in_page p x.
Proof.
  intros Hb Hx. destruct stack_consts as (H1 & H2 & H3 & H4 & _). destruct stack_allowed as [Hal Hpa].
  rewrite <- Hpa. apply (kb_user _ _ _ _ Hb); [done | lia | done].
Qed.

Lemma stk_in_page v : stackbase <= v < USER_STACK_TOP -> in_page p (p + (v - stackbase)).
Proof. destruct stack_consts as (H1 & H2 & H3 & H4 & _). unfold in_page, PAGE_SIZE. lia. Qed.

(** Copying to the stack. *)
Lemma wp_copyout_stack m sp src n (Q : Z -> kstate -> Prop) : argmem (mem s) m -> stackbase <= sp -> 0 < n ->
  sp + n <= USER_STACK_TOP -> kbuf s pt src n ->
  (forall m', (forall v, sp <= v < sp + n -> stk m' v = load8 m (src + (v - sp))) ->
     (forall a, ~ (p + (sp - stackbase) <= a < p + (sp - stackbase) + n) -> load8 m' a = load8 m a) ->
     Q 0 (set_mem m' s)) -> wp (copyout pt sp src n) Q (set_mem m s).
Proof.
  intros Hm Hsp Hn Htop Hb HQ. destruct stack_consts as (H1 & H2 & H3 & H4 & _).
  pose proof (argmem_tables m Hm) as Hst.
  pose proof (same_tables_uspace s m pt Hst Hus) as Hus'. pose proof (same_tables_kbuf s m pt src n Hst Hb) as Hb'.
  assert (Hu : forall v, sp <= v < sp + n -> user_pa m pt PTE_W v = p + (v - stackbase)).
  { intros v Hv. rewrite (same_tables_user_pa (mem s)) by done. apply stack_user_pa; [auto | lia]. }
  unfold copyout. rewrite <- (u32_small sp) at 1 by lia.
  eapply wp_mono; [apply wp_copyout_loop; try done; lia |].
  intros r s' (m' & k & -> & [Hk Hr] & [WU WF]). cbn [mem set_mem] in *.
  assert (Hrk : r = 0 /\ k = n).
  { destruct Hr as [? | (_ & Hlt & Hz)]; [done |]. rewrite Hu in Hz by lia.
    destruct Hp as [_ Hpr]. unfold MEM_START in Hpr. lia. }
  destruct Hrk as [-> ->]. apply HQ.
  - intros v Hv. unfold stk. destruct (WU (v - sp) ltac:(lia)) as [_ Hw].
    rewrite Hu in Hw by lia. by replace (sp + (v - sp)) with v in Hw by lia.
  - intros a Ha. apply WF. intros j Hj. rewrite Hu by lia. lia.
Qed.

(** ** The arguments *)

(** A kernel string of [n] bytes that the copying does not touch. *)
Record arg_at (a n : Z) : Prop := {
  ag_str : str_at (mem s) a n;
  ag_len : n < PAGE_SIZE;
  ag_buf : kbuf s pt a (n + 1);
  ag_frame : forall j, 0 <= j <= n -> ~ frame_at (a + j)
}.

Lemma arg_same m a n j : argmem (mem s) m -> arg_at a n -> 0 <= j <= n -> load8 m (a + j) = load8 (mem s) (a + j).
Proof.
  intros Hm Ha Hj. apply Hm; [| by apply (ag_frame _ _ Ha)]. apply (kbuf_stack a (n + 1)); [apply Ha | lia].
Qed.

(** From [sp], [argc] and [m] on the strings [argv] were pushed. *)
Record args_on (m : gmap Z Z) (sp argc : Z) (argv : list Z) (m' : gmap Z Z) (sp' argc' : Z) : Prop := {
  ao_argc : argc' = argc + Z.of_nat (length argv) /\ argc' <= MAXARG;
  ao_sp : stackbase <= sp' <= sp /\ sp' mod 16 = 0;
  ao_above : forall v, sp <= v < USER_STACK_TOP -> stk m' v = stk m v;
  ao_below : forall x, fr <= x < fr + 4 * argc -> load8 m' x = load8 m x;
  ao_args : forall k a n, argv !! k = Some a -> arg_at a n ->
    let u := load32 m' (fr + 4 * (argc + Z.of_nat k)) in
    sp' <= u /\ u + n + 1 <= sp /\ forall j, 0 <= j <= n -> stk m' (u + j) = load8 (mem s) (a + j)
}.

Lemma align16_spec x : align16 x = x - x mod 16.
Proof. unfold align16. change 0xF with 15. apply land_lnot_15. Qed.

(** The room that strings of the lengths [lens] take: each starts at a multiple of 16. *)
Definition up16 (x : Z) : Z := 16 * ((x + 15) / 16).

Fixpoint args_room (lens : list Z) : Z :=
  match lens with [] => 0 | n :: lens => up16 (n + 1) + args_room lens end.

Lemma args_room_nonneg lens m argv : Forall2 (str_at m) argv lens -> 0 <= args_room lens.
Proof.
  induction 1 as [| a n argv lens Hs _ IH]; [done |]. pose proof (sa_range _ _ _ Hs) as (_ & Hn & _).
  cbn [args_room]. unfold up16. zlia.
Qed.

Lemma down16 sp n : sp mod 16 = 0 -> sp - n - (sp - n) mod 16 = sp - up16 n.
Proof. unfold up16. intros. zlia. Qed.

(** One string. *)
Lemma wp_push_one m sp argc a n argv (Q : option (Z * Z) -> kstate -> Prop) : argmem (mem s) m ->
  stackbase <= sp <= USER_STACK_TOP -> 0 <= argc -> arg_at a n ->
  (MAXARG <= argc \/ sp - (n + 1) - (sp - (n + 1)) mod 16 < stackbase -> Q None (set_mem m s)) ->
  (forall m', argmem (mem s) m' -> let sp' := sp - (n + 1) - (sp - (n + 1)) mod 16 in
     stackbase <= sp' -> argc < MAXARG ->
     (forall v, sp <= v < USER_STACK_TOP -> stk m' v = stk m v) ->
     (forall x, fr <= x < fr + 4 * argc -> load8 m' x = load8 m x) ->
     load32 m' (fr + 4 * argc) = sp' ->
     (forall j, 0 <= j <= n -> stk m' (sp' + j) = load8 (mem s) (a + j)) ->
     wp (push_args argv pt fr stackbase sp' (argc + 1)) Q (set_mem m' s)) ->
  wp (push_args (a :: argv) pt fr stackbase sp argc) Q (set_mem m s).
Proof.
  intros Hm Hsp Hc Ha HN HS. destruct stack_consts as (H1 & H2 & H3 & H4 & _). cbn [push_args].
  destruct (MAXARG <=? argc) eqn:Ec; zbool; [by apply wp_ret, HN; left |].
  pose proof (ag_len _ _ Ha) as Hn. unfold PAGE_SIZE in Hn.
  assert (Hs : str_at m a n) by (eapply str_at_ext; [| apply Ha]; intros; by apply (arg_same m a n)).
  pose proof (sa_range _ _ _ Hs) as (_ & Hn0 & _).
  unfold load_str. apply wp_bind, wp_bind, wp_gets. change (Z.to_nat PAGE_SIZE) with 4096%nat. cbn [mem set_mem].
  pose proof (cstr_at_length m 4096 a n Hs ltac:(lia)) as Hl.
  assert ((4096 <=? length (cstr_at 4096 m a))%nat = false) as -> by (apply Nat.leb_gt; lia).
  apply wp_ret. unfold strlen. rewrite strlen_loop_spec; [| apply cstr_at_bytes | lia | rewrite Hl; unfold U32; lia].
  rewrite Hl, Z.add_0_l, u32_small, align16_spec by lia. set (sp' := _ - _ mod 16) in *.
  destruct (sp' <? stackbase) eqn:Eb; zbool; [by apply wp_ret, HN; right |].
  assert (Hsp' : sp' + (n + 1) <= sp /\ sp' < U32) by (unfold sp'; zlia).
  apply wp_bind, wp_copyout_stack; [done | done | lia | lia | apply Ha |]. intros m1 Hw Hk. cbn [Z.ltb Z.compare].
  unfold st. apply wp_bind, wp_modify. cbn [mem set_mem].
  assert (Hst : forall v, stackbase <= v < USER_STACK_TOP -> stk (store32 m1 (fr + 4 * argc) sp') v = stk m1 v).
  { intros v Hv. unfold stk. apply load8_store32_ne.
    assert (Hnf : ~ frame_at (p + (v - stackbase)))
      by (intros Hf; by apply (kbuf_stack fr 68 _ Hfr Hf), stk_in_page).
    unfold frame_at, MAXARG in *. lia. }
  assert (Hout : forall x, frame_at x -> load8 m1 x = load8 m x).
  { intros x Hx. apply Hk. intros Hin. apply (kbuf_stack fr 68 x Hfr Hx). unfold in_page, PAGE_SIZE. lia. }
  apply HS; [| lia | lia | | | |].
  - intros x Hx Hf. rewrite load8_store32_ne, Hk; [by apply Hm | |].
    + unfold in_page, PAGE_SIZE in Hx. lia.
    + unfold frame_at, MAXARG in *. lia.
  - intros v Hv. rewrite Hst by lia. unfold stk. apply Hk. lia.
  - intros x Hx. unfold MAXARG in *. rewrite load8_store32_ne by lia. apply Hout. unfold frame_at. lia.
  - rewrite load32_store32_eq. apply u32_small. lia.
  - intros j Hj. rewrite Hst, Hw by lia. replace (sp' + j - sp') with j by lia. by apply (arg_same m a n).
Qed.

Lemma wp_push_args argv : forall m sp argc, argmem (mem s) m -> stackbase <= sp <= USER_STACK_TOP ->
  sp mod 16 = 0 -> 0 <= argc <= MAXARG -> Forall (fun a => exists n, arg_at a n) argv ->
  wp (push_args argv pt fr stackbase sp argc) (fun o s' => exists m', s' = set_mem m' s /\ argmem (mem s) m' /\
    match o with
    | None => forall lens, Forall2 (str_at (mem s)) argv lens -> argc + Z.of_nat (length argv) <= MAXARG ->
        sp - args_room lens < stackbase
    | Some (sp', argc') => args_on m sp argc argv m' sp' argc' /\
        forall lens, Forall2 (str_at (mem s)) argv lens -> sp' = sp - args_room lens
    end) (set_mem m s).
Proof.
  induction argv as [|a argv IH]; intros m sp argc Hm Hsp Hal Hc Hargs.
  { apply wp_ret. exists m. split_and!; [done | done | |].
    - split; try done; [cbn; lia | lia].
    - intros lens Hl. inversion Hl. cbn [args_room]. lia. }
  inversion Hargs as [|? ? (n & Ha) Hargs']; subst. pose proof (sa_range _ _ _ (ag_str _ _ Ha)) as (_ & Hn0 & _).
  assert (Hlens : forall lens, Forall2 (str_at (mem s)) (a :: argv) lens ->
    exists lens', lens = n :: lens' /\ Forall2 (str_at (mem s)) argv lens' /\ 0 <= args_room lens').
  { intros lens Hl. inversion Hl as [| ? n' ? lens' Hn' Hl']; subst. exists lens'.
    assert (n' = n) as -> by (eapply str_at_unique; [exact Hn' | apply Ha]). split_and!; [done | done |].
    by eapply args_room_nonneg. }
  apply (wp_push_one m sp argc a n); [done | done | lia | done | |].
  { intros Hfull. exists m. split_and!; [done | done |]. intros lens Hl Hmax.
    destruct (Hlens lens Hl) as (lens' & -> & Hl' & Hr). cbn [length args_room] in *. rewrite down16 in Hfull by done. lia. }
  intros m1 Hm1 sp1 Hb1 Hc1 Hab Hbe Hw Hstr.
  assert (Hsp1 : sp1 + n + 1 <= sp /\ sp1 mod 16 = 0) by (unfold sp1; zlia).
  eapply wp_mono; [apply (IH m1 sp1 (argc + 1)); try done; lia |].
  intros o s' (m' & -> & Hm' & Ho). exists m'. split_and!; [done | done |].
  assert (Hsp1' : sp1 = sp - up16 (n + 1)) by (by apply down16).
  destruct o as [[sp' argc'] |].
  2: { intros lens Hl Hmax. destruct (Hlens lens Hl) as (lens' & -> & Hl' & _). cbn [length args_room] in *.
       pose proof (Ho lens' Hl' ltac:(lia)). lia. }
  destruct Ho as [[O1 O2 O3 O4 O5] Hroom]. split.
  2: { intros lens Hl. destruct (Hlens lens Hl) as (lens' & -> & Hl' & _). cbn [args_room].
       pose proof (Hroom lens' Hl'). lia. }
  split.
  - cbn [length]. lia.
  - lia.
  - intros v Hv. rewrite O3, Hab by lia. done.
  - intros x Hx. rewrite O4, Hbe by lia. done.
  - intros [|k] b nb Hk Hbb u.
    + injection Hk as ->. assert (nb = n) as -> by (eapply str_at_unique; [apply Hbb | apply Ha]).
      assert (Hu : u = sp1).
      { unfold u. cbn [Z.of_nat]. rewrite Z.add_0_r, <- Hw. apply load32_ext. intros x Hx. apply O4. lia. }
      rewrite Hu. split_and!; [lia | lia |]. intros j Hj. rewrite O3 by lia. by apply Hstr.
    + destruct (O5 k b nb Hk Hbb) as (G1 & G2 & G3). unfold u.
      replace (argc + Z.of_nat (S k)) with (argc + 1 + Z.of_nat k) by lia.
      split_and!; [done | lia | done].
Qed.

(** ** The argument vector *)

Lemma load32_copy m m' a b : (forall i, 0 <= i < 4 -> load8 m' (a + i) = load8 m (b + i)) -> load32 m' a = load32 m b.
Proof.
  intros H. unfold load32. pose proof (H 0 ltac:(lia)) as H0. rewrite !Z.add_0_r in H0.
  by rewrite H0, !H by lia.
Qed.

(** The word at user address [v] of the stack. *)
Definition stkw (m : gmap Z Z) (v : Z) : Z := load32 m (p + (v - stackbase)).

(** The stack as the program finds it: at [sp] the addresses of its argument
    strings, and a 0. *)
Record stack_args (m : gmap Z Z) (argv : list Z) (sp argc : Z) : Prop := {
  sg_argc : argc = Z.of_nat (length argv) /\ argc <= MAXARG;
  sg_sp : stackbase <= sp /\ sp + 4 * (argc + 1) <= USER_STACK_TOP /\ sp mod 16 = 0;
  sg_args : forall k a n, argv !! k = Some a -> arg_at a n ->
    let u := stkw m (sp + 4 * Z.of_nat k) in
    sp < u /\ u + n + 1 <= USER_STACK_TOP /\ forall j, 0 <= j <= n -> stk m (u + j) = load8 (mem s) (a + j);
  sg_null : stkw m (sp + 4 * argc) = 0
}.

(** The arguments and the vector of their addresses fit into the stack page. *)
Definition args_fit (m : gmap Z Z) (argv : list Z) : Prop :=
  Z.of_nat (length argv) <= MAXARG /\ exists lens, Forall2 (str_at m) argv lens /\
    args_room lens + up16 (4 * (Z.of_nat (length argv) + 1)) <= PAGE_SIZE.

Lemma wp_stack_args argv m (Q : option (Z * Z) -> kstate -> Prop) : argmem (mem s) m ->
  Forall (fun a => exists n, arg_at a n) argv ->
  (forall m', argmem (mem s) m' -> ~ args_fit (mem s) argv -> Q None (set_mem m' s)) ->
  (forall m' sp argc, argmem (mem s) m' -> stack_args m' argv sp argc -> Q (Some (sp, argc)) (set_mem m' s)) ->
  wp (o ← push_args argv pt fr stackbase USER_STACK_TOP 0;
      match o with
      | None => mret None
      | Some (sp, argc) =>
          st (fr + 4 * argc) 0;;
          let sp := align16 (sp -w (argc + 1) * 4) in
          if sp <? stackbase then mret None
          else
            r ← copyout pt sp fr ((argc + 1) * 4);
            if r <? 0 then mret None else mret (Some (sp, argc))
      end) Q (set_mem m s).
Proof.
  intros Hm Hargs HN HS. destruct stack_consts as (H1 & H2 & H3 & H4 & _). apply wp_bind.
  eapply wp_mono; [apply (wp_push_args argv m USER_STACK_TOP 0); try done |].
  intros o s' (m1 & -> & Hm1 & Ho). destruct o as [[sp1 argc] |].
  2: { apply wp_ret, HN; [done |]. intros (Hmax & lens & Hl & Hfit). pose proof (Ho lens Hl Hmax) as Hlt.
       unfold up16, stackbase, PAGE_SIZE in *. zlia. }
  destruct Ho as [[[-> O1] [O2 O2'] _ _ O5] Hroom]. cbn [Z.add] in *. set (argc := Z.of_nat (length argv)) in *.
  unfold MAXARG in O1. unfold st. apply wp_bind, wp_modify. cbn [mem set_mem].
  set (m2 := store32 m1 (fr + 4 * argc) 0).
  assert (Hin2 : forall x, ~ frame_at x -> load8 m2 x = load8 m1 x).
  { intros x Hx. apply load8_store32_ne. unfold frame_at in Hx. lia. }
  assert (Hm2 : argmem (mem s) m2) by (intros x Hx Hf; rewrite Hin2 by done; by apply Hm1).
  rewrite u32_small, align16_spec by (unfold U32 in *; lia). set (sp := _ - _ mod 16).
  destruct (sp <? stackbase) eqn:Eb; zbool.
  { apply wp_ret, HN; [done |]. intros (Hmax & lens & Hl & Hfit). pose proof (Hroom lens Hl) as Hrm.
    assert (Hsp : sp = sp1 - up16 ((argc + 1) * 4)) by (by apply down16).
    rewrite (Z.mul_comm (argc + 1) 4) in Hsp. unfold stackbase, argc in *. lia. }
  assert (Hsp : sp + (argc + 1) * 4 <= sp1 /\ sp mod 16 = 0) by (unfold sp; zlia).
  assert (Hfb : kbuf s pt fr ((argc + 1) * 4)).
  { pose proof (kbuf_sub s pt fr 68 0 ((argc + 1) * 4) Hfr) as Hk. rewrite Z.add_0_r in Hk. apply Hk; lia. }
  apply wp_bind, wp_copyout_stack; [done | done | lia | lia | done |]. intros m3 Hw Hk. cbn [Z.ltb Z.compare].
  apply wp_ret.
  assert (Hpage : forall v, stackbase <= v < USER_STACK_TOP -> ~ frame_at (p + (v - stackbase))).
  { intros v Hv Hf. by apply (kbuf_stack fr 68 _ Hfr Hf), stk_in_page. }
  assert (Hword : forall k, 0 <= k <= argc -> stkw m3 (sp + 4 * k) = load32 m2 (fr + 4 * k)).
  { intros k Hkk. apply load32_copy. intros i Hi. pose proof (Hw (sp + 4 * k + i) ltac:(lia)) as Hwi.
    unfold stk in Hwi. replace (p + (sp + 4 * k - stackbase) + i) with (p + (sp + 4 * k + i - stackbase)) by lia.
    rewrite Hwi. f_equal. lia. }
  apply HS.
  - intros x Hx Hf. rewrite Hk; [by apply Hm2 |]. unfold in_page, PAGE_SIZE in Hx. lia.
  - split; [done | lia | |].
    + intros k a n Hka Ha u. pose proof (lookup_lt_Some _ _ _ Hka) as Hlt.
      destruct (O5 k a n Hka Ha) as (G1 & G2 & G3). pose proof (sa_range _ _ _ (ag_str _ _ Ha)) as (_ & Hn0 & _).
      assert (Hu : u = load32 m1 (fr + 4 * Z.of_nat k)).
      { unfold u. rewrite Hword by lia. unfold m2. apply load32_store32_ne. lia. }
      rewrite Z.add_0_l in *. rewrite Hu. split_and!; [lia | lia |]. intros j Hj. rewrite <- G3 by done.
      unfold stk. rewrite Hk by lia. apply Hin2, Hpage. lia.
    + rewrite Hword by lia. unfold m2. rewrite load32_store32_eq. done.
Qed.
End Stack.
