(* ===== verification/Kexec.v ===== *)
(** [kexec] (Syscall.v): a new program takes the caller's place, or nothing
    happened.

    [building] relates the state in which [kexec] was called to the states
    while the new address space is built on the side: the pages taken are
    exactly those of the new space, and of what was in use only the array
    [ustack] on the caller's kernel stack has been written. It holds at every
    [goto bad], where freeing the new space undoes everything. *)
From S2P Require Import Prelude Machine Csr KPrint Spinlock Printf Mem Vm PageTable KernelMap UserMem UserSpace Took Exec ExecProofs Proc ProcProofs SchedProofs UvmCopy ProcAlloc Syscall ExecStack.

(** * The new address space under construction *)

Section Building.
Context (fr pt sz : Z) (s0 : kstate).

Record building (s : kstate) : Prop := {
  bd_took : tookx (frame_at fr) (space s pt sz) s0 s;
  bd_ready : kready s;
  bd_us : uspace_ok s pt;
  bd_pages : pages_ok pt (image_or_stack sz) s;
  bd_user : forall v, 0 <= v < U32 -> allows (pte_at (mem s) pt v) 0 = true -> image_or_stack sz v;
  bd_procs : proctable s = proctable s0 /\ curr_pid s = curr_pid s0
}.

(** The pages of the new space were free, so that nothing in use at the start
    is among them. *)
Lemma building_fresh s b : building s -> space s pt sz b -> avail s0 b.
Proof. intros Hb. apply (tk_new _ _ _ _ (bd_took _ Hb)). Qed.

Lemma building_old s b : building s -> owned s0 b -> ~ space s pt sz b.
Proof. intros Hb Ho Hs. apply (owned_not_avail s0 b Ho). by eapply building_fresh. Qed.

Lemma building_user_page s v : building s -> 0 <= v < U32 -> allows (pte_at (mem s) pt v) 0 = true ->
  space s pt sz (PTE2PA (pte_at (mem s) pt v)).
Proof.
  intros Hb Hv Ha. left. exists v. split_and!; try done; try lia; [by apply (bd_user _ Hb) | by apply allows_valid].
Qed.

(** A buffer in a page that was in use. *)
Lemma building_kbuf s b a n : building s -> owned s0 b -> b <= a -> 0 <= n -> a + n <= b + PAGE_SIZE -> kbuf s pt a n.
Proof.
  intros Hb Ho Ha Hn He. pose proof (owned_ram _ _ Ho) as Hram. pose proof (building_old s b Hb Ho) as Hns.
  assert (Hout : forall x t, a <= x < a + n -> space s pt sz t -> ~ in_page t x).
  { intros x t Hx Ht Hin. apply Hns. rewrite (page_disjoint b t x); try done.
    - by eapply avail_ram, building_fresh.
    - unfold in_page. lia. }
  split.
  - destruct Hram as [_ Hr]. unfold span_ok, MEM_START, MEM_END, PAGE_SIZE, U32 in *. lia.
  - intros x t Hx Ht. apply Hout; [done | by right].
  - intros x v Hx Hv Hal. apply Hout; [done | by apply building_user_page].
Qed.

(** A step that keeps the tables. *)
Lemma building_same s s' : building s -> tookx (frame_at fr) (space s pt sz) s0 s' -> kready s' -> kframe s s' ->
  (forall b, owned s b -> owned s' b) -> same_tables (mem s) (mem s') pt -> building s'.
Proof.
  intros [Ht Hr [W P I] [O J] U [Hp1 Hp2]] Ht' Hr' Hf Ho Hst.
  pose proof (fun v => same_tables_pte (mem s) (mem s') pt v Hst) as Hp.
  pose proof (fun t => same_tables_table (mem s) (mem s') pt t Hst) as Htb.
  assert (Hsp : forall b, space s pt sz b <-> space s' pt sz b).
  { intros b. unfold space, pages. setoid_rewrite Hp. by rewrite Htb. }
  split.
  - eapply took_equiv; [exact Hsp | done].
  - done.
  - split.
    + destruct W as [W1 W2 W3]. split; [auto | |].
      * intros i Hi. rewrite (same_tables_l1 (mem s)) by done. intros Hv. destruct (W2 i Hi Hv). auto.
      * intros i j Hi Hj. rewrite !(same_tables_l1 (mem s) (mem s')) by done. by apply W3.
    + intros v Hv. rewrite Hp, Htb. intros Ha. destruct (P v Hv Ha). auto.
    + intros v v' Hv Hv'. rewrite !Hp. by apply I.
  - split.
    + intros v Hv HQ. rewrite Hp, Htb. intros Ha. destruct (O v Hv HQ Ha). auto.
    + intros v v' Hv Hv' HQ HQ'. rewrite !Hp. by apply J.
  - intros v Hv. rewrite Hp. by apply U.
  - rewrite (kf_procs _ _ Hf), (kf_pid _ _ Hf). done.
Qed.

(** [goto bad] *)
Lemma wp_bad s (Q : Z -> kstate -> Prop) : building s -> sz mod PAGE_SIZE = 0 -> 0 <= sz < U32 ->
  (forall s', tookx (frame_at fr) (fun _ => False) s0 s' -> kready s' ->
     proctable s' = proctable s0 /\ curr_pid s' = curr_pid s0 -> Q (-1) s') ->
  wp (uvmfree pt sz;; mret (-1)) Q s.
Proof.
  intros Hb Hal Hsz HQ. apply wp_bind, wp_uvmfree_set; [apply Hb | apply (bd_us _ Hb) | done | done | apply Hb |].
  intros s' Hs'. apply wp_ret, HQ.
  - eapply took_equiv; [| eapply took_return; [apply Hb | exact Hs' | done]]. intros b. tauto.
  - apply Hs'.
  - destruct (bd_procs _ Hb). rewrite (kf_procs _ _ (fs_frame _ _ _ Hs')), (kf_pid _ _ (fs_frame _ _ _ Hs')). done.
Qed.

(** ** Its start: a page table and a loaded file *)

Lemma building_start `{L : Layout} {HL : LayoutOk L} s1a s1 s2 : alloc_ok s0 -> alloc_some s0 pt s1a ->
  pt_grow pt (set_mem (zero_page (mem s1a) pt) s1a) s1 ->
  (forall v, 0 <= v < U32 -> pte_at (mem s1) pt v = user_map0 v) ->
  image pt sz s1 s2 -> USER_BASE <= sz <= UART_0 ->
  building s2 /\ forall v, stackbase <= v < USER_STACK_TOP -> valid (pte_at (mem s2) pt v) = false.
Proof.
  intros Hr Ha Hg Hm Him Hsz. pose proof (took_table s0 pt s1a s1 Hr Ha Hg) as Ht.
  assert (Hus1 : uspace_ok s1 pt) by (apply kernel_only_uspace; [apply Hg | done]).
  assert (Hst1 : forall v, USER_STACK_TOP - PAGE_SIZE <= v < USER_STACK_TOP -> valid (pte_at (mem s1) pt v) = false).
  { intros v Hv. rewrite Hm, user_map0_free by (revert Hv; cbv -[Z.le Z.lt]; lia). done. }
  destruct (image_no_stack pt sz s1 s2 Him Hsz Hst1) as (Hst2 & Hpg & Hok).
  pose proof (im_ext _ _ _ _ Him) as Ex. split; [| done]. split.
  - eapply took_equiv; [| eapply (took_ext _ _ _ pt s0 s1 s2); [apply took_widen, Ht | done | exact Ex |]].
    + intros b. unfold space. rewrite Hpg. pose proof (ex_tables _ _ _ _ Ex b). tauto.
    + intros b Hb. split; [by apply (image_pages _ _ _ _ Him) |]. destruct Hb as (v & Hv & Hin & _ & ->).
      by apply (image_page _ _ _ _ Him).
  - apply Ex.
  - by apply (image_uspace _ _ _ _ Him).
  - done.
  - intros v Hv Hal. destruct (decide (USER_BASE <= v < sz)) as [Hi | Hi]; [by left |]. exfalso.
    assert (He : pte_at (mem s2) pt v = pte_at (mem s1) pt v).
    { apply same_entry_valid; [| by apply allows_valid]. apply (im_kept _ _ _ _ Him); [done | lia]. }
    rewrite He, Hm, user_map0_kernel in Hal by done. discriminate Hal.
  - assert (Hf : kframe s0 s2).
    { etransitivity; [| apply Ex]. etransitivity; [by eapply fresh_frame | apply Hg]. }
    split; apply Hf.
Qed.

(** ** The stack page *)

Section Page.
Context (s s1a s3 : kstate) (p : Z) (Hb : building s) (Ha : alloc_some s p s1a).
Let s2 := set_mem (zero_page (mem s1a) p) s1a.
Context (Hg : pt_grow pt s2 s3).

Lemma stack_ext : pt_ext pt (fun b => b = p) s s3 /\ owned s3 p /\ ~ table (mem s3) pt p /\
  ~ space s pt sz p /\ same_tables (mem s) (mem s2) pt.
Proof.
  destruct (alloc_zero_ext s s1a pt p (bd_ready _ Hb) (us_wf _ _ (bd_us _ Hb)) Ha) as (E2 & Hst & Ho2). fold s2 in E2, Hst, Ho2.
  pose proof (pt_grow_ext _ _ _ Hg) as E3. pose proof (as_avail _ _ _ Ha) as Hav.
  assert (Hns : ~ space s pt sz p).
  { intros Hs. by apply (owned_not_avail s p); [apply (tk_new _ _ _ _ (bd_took _ Hb)) |]. }
  assert (Hnt2 : ~ table (mem s2) pt p).
  { rewrite (same_tables_table (mem s) (mem s2)) by done. intros Ht. apply Hns. by right. }
  split_and!; try done.
  - eapply pt_ext_trans; [exact E2 | exact E3 |]. intros b. tauto.
  - by apply E3.
  - eapply ex_not_table; [exact E3 | apply E2 | done | done].
Qed.

Lemma stack_took : tookx (frame_at fr) (fun b => space s pt sz b \/ table (mem s3) pt b \/ b = p) s0 s3.
Proof.
  destruct stack_ext as (Ex & Ho & _ & _ & _).
  eapply (took_ext _ _ _ pt s0 s s3); [apply Hb | by right | exact Ex |].
  intros b ->. split; [apply Ha | done].
Qed.

(** No memory for a table: the page is given back. *)
Lemma building_unmapped s4 : mem s3 = mem s2 -> freed s3 p s4 -> building s4.
Proof.
  intros Hm Hf. destruct stack_ext as (Ex & Ho & Hnt & Hns & Hst). pose proof stack_took as Ht.
  assert (Hst3 : same_tables (mem s) (mem s3) pt) by (by rewrite Hm).
  pose proof (free_same_tables s3 s4 pt p (ex_wf _ _ _ _ Ex) Ho Hnt Hf) as Hst4.
  assert (Hfs : freed_set (fun b => b = p) s3 s4) by (by apply freed_set_one; [apply Ex | |]).
  apply (building_same s); [done | | apply Hfs | | |].
  - eapply took_equiv; [| eapply took_return; [exact Ht | exact Hfs |]]; [| by intros b ->; right; right].
    intros b. cbv beta. rewrite (same_tables_table (mem s) (mem s3)) by done.
    assert (Hne : space s pt sz b -> b <> p) by (intros Hs ->; exact (Hns Hs)).
    assert (Htb : table (mem s) pt b -> space s pt sz b) by (by right). tauto.
  - transitivity s3; [apply Ex | apply Hf].
  - intros b Hbo. apply (fs_owned _ _ _ Hfs); [by apply Ex |]. intros ->. by apply (owned_not_avail s p), Ha.
  - intros t a Htt Hin. rewrite (Hst4 t a); [by apply (Hst3 t) | | done].
    by apply (same_tables_table (mem s) (mem s3)).
Qed.

(** The page is mapped as the stack. *)
Context (Hun : forall v, stackbase <= v < USER_STACK_TOP -> valid (pte_at (mem s) pt v) = false).
Context (Hpte : forall v, 0 <= v < U32 -> pte_at (mem s3) pt v =
  if decide (vpn v = vpn stackbase) then mk_pte p rwu else pte_at (mem s2) pt v).

Lemma stack_vpn v : vpn v = vpn stackbase <-> stackbase <= v < USER_STACK_TOP.
Proof. destruct stack_consts as (H1 & _ & H3 & _). unfold vpn. zlia. Qed.

Lemma mapped_pte v : 0 <= v < U32 -> pte_at (mem s3) pt v =
  if decide (stackbase <= v < USER_STACK_TOP) then mk_pte p rwu else pte_at (mem s) pt v.
Proof.
  intros Hv. rewrite Hpte by done. destruct stack_ext as (_ & _ & _ & _ & Hst).
  rewrite (same_tables_pte (mem s)) by done.
  destruct (decide (vpn v = vpn stackbase)) as [He | He]; rewrite stack_vpn in He; by case_decide.
Qed.

Lemma mapped_facts : PTE2PA (mk_pte p rwu) = p /\ valid (mk_pte p rwu) = true.
Proof. apply mk_pte_ram; [apply (avail_ram s), Ha | done]. Qed.

(** Entries that were valid are kept, and are not the new one. *)
Lemma mapped_old v : 0 <= v < U32 -> valid (pte_at (mem s) pt v) = true ->
  pte_at (mem s3) pt v = pte_at (mem s) pt v /\ ~ stackbase <= v < USER_STACK_TOP.
Proof.
  intros Hv Hval. assert (Hn : ~ stackbase <= v < USER_STACK_TOP)
    by (intros Hs; rewrite Hun in Hval by done; discriminate Hval).
  rewrite mapped_pte, decide_False by done. done.
Qed.

Lemma mapped_split v : 0 <= v < U32 -> valid (pte_at (mem s3) pt v) = true ->
  stackbase <= v < USER_STACK_TOP /\ PTE2PA (pte_at (mem s3) pt v) = p \/
  pte_at (mem s3) pt v = pte_at (mem s) pt v /\ valid (pte_at (mem s) pt v) = true.
Proof.
  intros Hv. rewrite mapped_pte by done. destruct mapped_facts as [Hpa Hval]. case_decide; [by left | by right].
Qed.

Lemma mapped_space b : space s3 pt sz b <-> space s pt sz b \/ table (mem s3) pt b \/ b = p.
Proof.
  destruct stack_ext as (Ex & _). destruct mapped_facts as [Hpa Hval]. destruct stack_consts as (H1 & H2 & H3 & H4 & _).
  unfold space. split.
  - intros [(v & Hv & HQ & Hvl & ->) | Ht]; [| tauto].
    destruct (mapped_split v Hv Hvl) as [[_ ?] | [-> Hvs]]; [tauto |]. left. left. by exists v.
  - intros [[(v & Hv & HQ & Hvl & ->) | Ht] | [Ht | ->]]; [| | tauto |].
    + left. exists v. destruct (mapped_old v Hv Hvl) as [-> _]. done.
    + right. by apply Ex.
    + left. exists stackbase. rewrite mapped_pte, decide_True by lia. split_and!; try done; try lia. right. fold stackbase. lia.
Qed.

Lemma building_mapped : building s3.
Proof.
  destruct stack_ext as (Ex & Ho & Hnt & Hns & Hst). destruct mapped_facts as [Hpa Hval].
  pose proof (bd_us _ Hb) as [Hwf P I]. destruct (bd_pages _ Hb) as [O J].
  assert (Hold : forall v, 0 <= v < U32 -> valid (pte_at (mem s) pt v) = true ->
    owned s (PTE2PA (pte_at (mem s) pt v)) -> ~ table (mem s) pt (PTE2PA (pte_at (mem s) pt v)) ->
    owned s3 (PTE2PA (pte_at (mem s) pt v)) /\ ~ table (mem s3) pt (PTE2PA (pte_at (mem s) pt v))
    /\ PTE2PA (pte_at (mem s) pt v) <> p).
  { intros v Hv Hvl Hov Hnv. split_and!;
      [exact (ex_owned _ _ _ _ Ex _ Hov) | exact (ex_not_table _ _ _ _ _ Ex Hwf Hnv Hov) |].
    intros He. rewrite He in Hov. by apply (owned_not_avail s p Hov), Ha. }
  assert (Hinj : forall v v', 0 <= v < U32 -> 0 <= v' < U32 -> valid (pte_at (mem s3) pt v) = true ->
    valid (pte_at (mem s3) pt v') = true ->
    (forall x, x = v \/ x = v' -> valid (pte_at (mem s) pt x) = true -> pte_at (mem s3) pt x = pte_at (mem s) pt x ->
       owned s (PTE2PA (pte_at (mem s) pt x))) ->
    (valid (pte_at (mem s) pt v) = true -> valid (pte_at (mem s) pt v') = true ->
       pte_at (mem s3) pt v = pte_at (mem s) pt v -> pte_at (mem s3) pt v' = pte_at (mem s) pt v' ->
       PTE2PA (pte_at (mem s) pt v) = PTE2PA (pte_at (mem s) pt v') -> vpn v = vpn v') ->
    PTE2PA (pte_at (mem s3) pt v) = PTE2PA (pte_at (mem s3) pt v') -> vpn v = vpn v').
  { intros v v' Hv Hv' Hvl Hvl' Hoo Hij.
    destruct (mapped_split v Hv Hvl) as [[Hs ->] | [He Hvs]], (mapped_split v' Hv' Hvl') as [[Hs' ->] | [He' Hvs']].
    - intros _. apply stack_vpn in Hs, Hs'. congruence.
    - rewrite He'. intros Heq. exfalso. apply (owned_not_avail s p); [| apply Ha]. rewrite Heq. by apply Hoo; auto.
    - rewrite He. intros Heq. exfalso. apply (owned_not_avail s p); [| apply Ha]. rewrite <- Heq. by apply Hoo; auto.
    - rewrite He, He'. by apply Hij. }
  split.
  - eapply took_equiv; [intros b; symmetry; apply mapped_space |]. apply stack_took.
  - apply Ex.
  - split; [apply Ex | |].
    + intros v Hv Hal. destruct (mapped_split v Hv (allows_valid _ Hal)) as [[_ ->] | [He Hvs]]; [done |].
      rewrite He in Hal |- *. destruct (P v Hv Hal) as [G1 G2]. by destruct (Hold v Hv Hvs G1 G2) as (? & ? & _).
    + intros v v' Hv Hv' Hal Hal'. apply Hinj; try done; [by apply allows_valid.. | |].
      * intros x Hx Hvx Hex. destruct Hx as [-> | ->]; apply P; try done; by rewrite <- Hex.
      * intros Hvs Hvs' He He'. apply I; try done; congruence.
  - split.
    + intros v Hv HQ Hvl. destruct (mapped_split v Hv Hvl) as [[_ ->] | [He Hvs]]; [done |].
      rewrite He. destruct (O v Hv HQ Hvs) as [G1 G2]. by destruct (Hold v Hv Hvs G1 G2) as (? & ? & _).
    + intros v v' Hv Hv' HQ HQ' Hvl Hvl'. apply Hinj; try done.
      * intros x [-> | ->] Hvx Hex; by apply O.
      * intros Hvs Hvs' He He'. by apply J.
  - intros v Hv Hal. destruct (mapped_split v Hv (allows_valid _ Hal)) as [[Hs _] | [He Hvs]]; [by right |].
    rewrite He in Hal. by apply (bd_user _ Hb).
  - destruct (bd_procs _ Hb). rewrite (kf_procs _ _ (ex_frame _ _ _ _ Ex)), (kf_pid _ _ (ex_frame _ _ _ _ Ex)). done.
Qed.
End Page.

(** ** The arguments *)

(** A string of [n] bytes in one page in use, not in the array. *)
Record karg_at (a n : Z) : Prop := {
  ka_str : str_at (mem s0) a n;
  ka_page : exists b, owned s0 b /\ b <= a /\ a + n + 1 <= b + PAGE_SIZE;
  ka_frame : forall j, 0 <= j <= n -> ~ frame_at fr (a + j)
}.

(** The array lies in a page in use. *)
Context (kb : Z) (Hkb : owned s0 kb) (Hfr : kb <= fr /\ fr + 68 <= kb + PAGE_SIZE).

Lemma building_frame s : building s -> kbuf s pt fr 68.
Proof. intros Hb. apply (building_kbuf s kb fr 68 Hb Hkb); lia. Qed.

Lemma building_byte s b x : building s -> owned s0 b -> in_page b x -> ~ frame_at fr x ->
  load8 (mem s) x = load8 (mem s0) x.
Proof.
  intros Hb Ho Hx Hf. apply (tk_memx _ _ _ _ (bd_took _ Hb)); [done |]. intros c Hc Hin.
  apply (owned_not_avail s0 b Ho).
  by rewrite (page_disjoint b c x (owned_ram _ _ Ho) (avail_ram _ _ Hc) Hx Hin).
Qed.

Lemma building_arg s a n : building s -> karg_at a n -> arg_at s pt fr a n.
Proof.
  intros Hb [Hs (b & Ho & H1 & H2) Hf]. pose proof (sa_range _ _ _ Hs) as (R1 & R2 & R3). split.
  - eapply str_at_ext; [| exact Hs]. intros j Hj. apply (building_byte s b); [done | done | | by apply Hf].
    unfold in_page. lia.
  - lia.
  - apply (building_kbuf s b); try done; lia.
  - done.
Qed.

(** Writing the stack page and the array. *)
Lemma building_write s p m' : building s -> ram_page p ->
  (forall v, stackbase <= v < USER_STACK_TOP -> pte_at (mem s) pt v = mk_pte p rwu) ->
  argmem p fr (mem s) m' -> building (set_mem m' s) /\ same_tables (mem s) m' pt.
Proof.
  intros Hb Hp Hmap Hm. destruct stack_consts as (H1 & H2 & H3 & H4 & _).
  pose proof (argmem_tables s pt p fr (bd_us _ Hb) Hmap Hp (building_frame s Hb) m' Hm) as Hst.
  split; [| done]. destruct (bd_ready _ Hb) as [[A1 A2] Hl Hpr].
  apply (building_same s); [done | | by split | by split | done | exact Hst].
  destruct (stack_allowed s pt p Hmap Hp) as [Hal Hpa].
  apply (took_write _ _ s0 s p); [apply Hb | |].
  - rewrite <- Hpa. apply building_user_page; [done | lia | done].
  - intros a Hn Hin. by apply Hm.
Qed.
End Building.

(** ** What the program finds *)

(** The word at user address [v]. *)
Definition uword (m : gmap Z Z) (pt v : Z) : Z :=
  ubyte m pt v + 256 * ubyte m pt (v + 1) + 65536 * ubyte m pt (v + 2) + 16777216 * ubyte m pt (v + 3).

(** [sp] is in the stack page and aligned; at [sp] is [argv], [argc] addresses of
    strings further up in the stack and a 0; the strings are those at the
    addresses [args] in [m0]. *)
Record args_passed (m0 m : gmap Z Z) (pt : Z) (args : list Z) (sp argc : Z) : Prop := {
  ap_argc : argc = Z.of_nat (length args) /\ argc <= MAXARG;
  ap_sp : stackbase <= sp /\ sp + 4 * (argc + 1) <= USER_STACK_TOP /\ sp mod 16 = 0;
  ap_args : forall k a n, args !! k = Some a -> str_at m0 a n ->
    let u := uword m pt (sp + 4 * Z.of_nat k) in
    sp < u /\ u + n + 1 <= USER_STACK_TOP /\ forall j, 0 <= j <= n -> ubyte m pt (u + j) = load8 m0 (a + j);
  ap_null : uword m pt (sp + 4 * argc) = 0;
  ap_stack : forall v, stackbase <= v < USER_STACK_TOP ->
    allows (pte_at m pt v) PTE_R = true /\ allows (pte_at m pt v) PTE_W = true
}.

Lemma args_passed_ext m0 m m' pt args sp argc : args_passed m0 m pt args sp argc ->
  (forall v, stackbase <= v < USER_STACK_TOP -> pte_at m' pt v = pte_at m pt v /\ ubyte m' pt v = ubyte m pt v) ->
  args_passed m0 m' pt args sp argc.
Proof.
  intros [[A1 A1'] (A2 & A2' & A2'') A3 A4 A5] Hpe.
  assert (He : forall v, stackbase <= v < USER_STACK_TOP -> ubyte m' pt v = ubyte m pt v) by (intros; by apply Hpe).
  assert (Hw : forall k, 0 <= k <= argc -> uword m' pt (sp + 4 * k) = uword m pt (sp + 4 * k)).
  { intros k Hk. unfold uword. rewrite !He by lia. done. }
  split; [done | done | | |].
  - intros k a n Hk Hs u. pose proof (lookup_lt_Some _ _ _ Hk) as Hlt. pose proof (sa_range _ _ _ Hs) as (_ & R & _).
    destruct (A3 k a n Hk Hs) as (B1 & B2 & B3). unfold u. rewrite Hw by lia.
    split_and!; [done | done |]. intros j Hj. rewrite He by lia. by apply B3.
  - rewrite Hw by lia. done.
  - intros v Hv. destruct (Hpe v Hv) as [-> _]. by apply A5.
Qed.

(** * build_stack *)

Section BuildStack.
Context (fr pt sz : Z) (s0 : kstate) (kb : Z) (Hkb : owned s0 kb) (Hfr : kb <= fr /\ fr + 68 <= kb + PAGE_SIZE).
Context (args : list Z) (Hargs : Forall (fun a => exists n, karg_at fr s0 a n) args).

(** The argument strings are still there. *)
Lemma building_strs s lens : building fr pt sz s0 s -> Forall2 (str_at (mem s0)) args lens ->
  Forall2 (str_at (mem s)) args lens.
Proof.
  intros Hb Hl. apply Forall2_same_length_lookup. split; [by eapply Forall2_length |].
  intros k a n Ha Hn. pose proof (Forall2_lookup_lr _ _ _ _ _ _ Hl Ha Hn) as Hs.
  destruct (Forall_lookup_1 _ _ _ _ Hargs Ha) as (n' & Hk).
  assert (n = n') as -> by (eapply str_at_unique; [exact Hs | apply Hk]).
  apply (building_arg fr pt sz s0 s a n' Hb Hk).
Qed.

(** The stack page is there: the arguments. *)
Lemma wp_build_args s p (Q : option (Z * Z) -> kstate -> Prop) : building fr pt sz s0 s -> ram_page p ->
  (forall v, stackbase <= v < USER_STACK_TOP -> pte_at (mem s) pt v = mk_pte p rwu) ->
  (forall s', building fr pt sz s0 s' -> ~ args_fit (mem s0) args -> Q None s') ->
  (forall m' sp argc, building fr pt sz s0 (set_mem m' s) -> args_passed (mem s0) m' pt args sp argc ->
     same_tables (mem s) m' pt -> (forall a, ~ in_page p a -> ~ frame_at fr a -> load8 m' a = load8 (mem s) a) ->
     Q (Some (sp, argc)) (set_mem m' s)) ->
  wp (o ← push_args args pt fr stackbase USER_STACK_TOP 0;
      match o with
      | None => mret None
      | Some (sp, argc) =>
          st (fr + 4 * argc) 0;;
          let sp := align16 (sp -w (argc + 1) * 4) in
          if sp <? stackbase then mret None
          else
            r ← copyout pt sp fr ((argc + 1) * 4);
            if r <? 0 then mret None else mret (Some (sp, argc))
      end) Q s.
Proof.
  intros Hb Hp Hmap HN HS. destruct stack_consts as (H1 & H2 & H3 & H4 & _).
  assert (Hs : set_mem (mem s) s = s) by (by destruct s). rewrite <- Hs at 1.
  pose proof (building_write fr pt sz s0 kb Hkb Hfr s p) as Hw.
  apply (wp_stack_args s pt p fr (bd_us _ _ _ _ _ Hb) Hmap Hp (building_frame fr pt sz s0 kb Hkb Hfr s Hb) args (mem s)).
  - done.
  - eapply Forall_impl; [| exact Hargs]. intros a (n & Ha). exists n. by apply (building_arg fr pt sz s0).
  - intros m' Hm' Hno. apply HN; [by apply Hw |]. intros (Hmax & lens & Hl & Hfit). apply Hno.
    split; [done |]. exists lens. split; [| done]. by apply (building_strs s).
  - intros m' sp argc Hm' [G1 G2 G3 G4]. destruct (Hw m' Hb Hp Hmap Hm') as [Hb' Hst]. apply HS; [done | | done | done].
    assert (Hub : forall v, stackbase <= v < USER_STACK_TOP -> ubyte m' pt v = stk p m' v).
    { intros v Hv. unfold ubyte, stk. rewrite (same_tables_user_pa (mem s)) by done.
      rewrite (stack_user_pa s pt p Hmap Hp 0 v) by auto. done. }
    assert (Huw : forall v, stackbase <= v -> v + 4 <= USER_STACK_TOP -> uword m' pt v = stkw p m' v).
    { intros v Hv Hv'. unfold uword. rewrite !Hub by lia. unfold stk, stkw, load32.
      rewrite <- !Z.add_assoc. do 3 f_equal; f_equal; f_equal; lia. }
    split; [done | done | | |].
    + intros k a n Hk Hsa. pose proof (lookup_lt_Some _ _ _ Hk) as Hlt.
      destruct (Forall_lookup_1 _ _ _ _ Hargs Hk) as (n' & Ha).
      pose proof (building_arg fr pt sz s0 s a n' Hb Ha) as Haa.
      assert (n = n') as -> by (eapply str_at_unique; [exact Hsa | apply Ha]).
      cbv zeta. rewrite Huw by lia. destruct (G3 k a n' Hk Haa) as (B1 & B2 & B3). cbv zeta in B1, B2, B3.
      pose proof (sa_range _ _ _ Hsa) as (_ & R & _).
      split_and!; [done | done |]. intros j Hj. rewrite Hub, B3 by lia.
      destruct (ka_page _ _ _ _ Ha) as (b & Ho & Q1 & Q2).
      apply (building_byte fr pt sz s0 s b); [done | done | unfold in_page; lia | by apply (ka_frame _ _ _ _ Ha)].
    + rewrite Huw by lia. done.
    + intros v Hv. rewrite (same_tables_pte (mem s)) by done.
      pose proof (stack_user_pa s pt p Hmap Hp PTE_R v ltac:(auto) Hv) as HuR.
      pose proof (stack_user_pa s pt p Hmap Hp PTE_W v ltac:(auto) Hv) as HuW.
      destruct Hp as [_ Hpr]. unfold user_pa, MEM_START in *.
      destruct (allows _ PTE_R); [| lia]. destruct (allows _ PTE_W); [done | lia].
Qed.

(** A user byte whose page is not written. *)
Lemma ubyte_kept s s' v : building fr pt sz s0 s -> 0 <= v < U32 -> allows (pte_at (mem s) pt v) 0 = true ->
  pte_at (mem s') pt v = pte_at (mem s) pt v ->
  (forall a, in_page (PTE2PA (pte_at (mem s) pt v)) a -> load8 (mem s') a = load8 (mem s) a) ->
  ubyte (mem s') pt v = ubyte (mem s) pt v.
Proof.
  intros Hb Hv Hal He Hm. unfold ubyte. assert (Hu : user_pa (mem s') pt 0 v = user_pa (mem s) pt 0 v)
    by (unfold user_pa; by rewrite He). rewrite Hu. apply Hm.
  destruct (us_page _ _ (bd_us _ _ _ _ _ Hb) v Hv Hal) as [([_ Hr] & _) _].
  unfold user_pa. rewrite Hal. rewrite u32_small by (unfold PAGE_SIZE, MEM_START, MEM_END, U32 in *; zlia).
  unfold in_page, PAGE_SIZE. zlia.
Qed.

Lemma building_alloc_none s s1 : building fr pt sz s0 s -> alloc_none s s1 -> building fr pt sz s0 s1.
Proof.
  intros Hb Hs1. pose proof (an_frame _ _ Hs1) as Hf. pose proof (bd_took _ _ _ _ _ Hb) as Ht.
  assert (Ht1 : tookx (frame_at fr) (space s pt sz) s0 s1)
    by (eapply took_frame; [exact Ht | by apply kframe_oframe | apply Hs1 | apply Hs1]).
  apply (building_same fr pt sz s0 s); [done | done | | done | |].
  - eapply kready_frame; [exact Hf | apply Hb | apply Ht1].
  - intros b. unfold owned, bit. by rewrite (an_bitmap _ _ Hs1), (kf_start _ _ Hf).
  - intros t a _ _. by rewrite (an_mem _ _ Hs1).
Qed.

Lemma wp_build_stack s (Q : option (Z * Z) -> kstate -> Prop) : building fr pt sz s0 s ->
  (forall v, stackbase <= v < USER_STACK_TOP -> valid (pte_at (mem s) pt v) = false) ->
  (forall s', building fr pt sz s0 s' -> (args_fit (mem s0) args -> ran_out pt 1 s) -> Q None s') ->
  (forall s' sp argc, building fr pt sz s0 s' -> args_passed (mem s0) (mem s') pt args sp argc ->
     (forall v, 0 <= v < U32 -> allows (pte_at (mem s) pt v) 0 = true ->
        pte_at (mem s') pt v = pte_at (mem s) pt v /\ ubyte (mem s') pt v = ubyte (mem s) pt v) ->
     Q (Some (sp, argc)) s') ->
  wp (build_stack pt fr args) Q s.
Proof.
  intros Hb Hun HN HS. destruct stack_consts as (H1 & H2 & H3 & H4 & _).
  unfold build_stack. fold stackbase. change (Z.lor (Z.lor PTE_R PTE_W) PTE_U) with rwu.
  apply wp_bind, pa_alloc; [apply Hb | |].
  { intros s1 Hs1. cbn [Z.eqb]. apply wp_ret, HN; [by eapply building_alloc_none |]. intros _.
    exists (fun _ => False), s. split_and!; [apply pt_ext_refl; apply Hb | apply few_none; [done | tauto] | apply Hs1]. }
  intros p s1 Hs1. rewrite (fresh_nonzero _ _ _ Hs1). apply wp_bind, wp_memset_page.
  pose proof (as_avail _ _ _ Hs1) as Hav. pose proof (avail_ram _ _ Hav) as Hram.
  destruct (alloc_zero_ext s s1 pt p (bd_ready _ _ _ _ _ Hb) (us_wf _ _ (bd_us _ _ _ _ _ Hb)) Hs1) as (E2 & Hst2 & Ho2).
  apply wp_bind, wp_mappage; [apply E2 | apply E2 | done | lia | apply Hram | | |].
  { rewrite (same_tables_pte (mem s)) by done. apply Hun. lia. }
  - intros s3 Hg Hm Hfull. cbn [Z.eqb]. destruct (stack_ext fr pt sz s0 s s1 s3 p Hb Hs1 Hg) as (Ex & Ho & _).
    apply wp_bind, pa_free; [apply Ex | done |]. intros s4 Hs4. apply wp_ret, HN.
    { by apply (building_unmapped fr pt sz s0 s s1 s3 p). }
    intros _. exists (fun b => b = p), (set_mem (zero_page (mem s1) p) s1). split_and!; [exact E2 | apply few_one | exact Hfull].
  - intros r s3 Hg Hr Hpte. assert ((r =? 0) = false) as -> by lia.
    destruct (stack_ext fr pt sz s0 s s1 s3 p Hb Hs1 Hg) as (Ex & Ho & _).
    pose proof (building_mapped fr pt sz s0 s s1 s3 p Hb Hs1 Hg Hun Hpte) as Hb3.
    pose proof (mapped_pte fr pt sz s0 s s1 s3 p Hb Hs1 Hg Hpte) as Hmp.
    apply (wp_build_args s3 p); [done | done | | by intros s' Hb' Hno; apply HN |].
    { intros v Hv. rewrite Hmp, decide_True by lia. done. }
    intros m' sp argc Hb' Hargs' Hst Hm'. apply HS; [done | done |]. intros v Hv Hal. cbn [mem set_mem].
    destruct (mapped_old fr pt sz s0 s s1 s3 p Hb Hs1 Hg Hun Hpte v Hv (allows_valid _ Hal)) as [He _].
    assert (He' : pte_at m' pt v = pte_at (mem s) pt v) by (by rewrite (same_tables_pte (mem s3))).
    split; [done |]. apply (ubyte_kept s (set_mem m' s3) v); [done | done | done | done |].
    intros a Ha. destruct (us_page _ _ (bd_us _ _ _ _ _ Hb) v Hv Hal) as [Hov Hnt].
    set (P := PTE2PA (pte_at (mem s) pt v)) in *. pose proof (owned_ram _ _ Hov) as HPr.
    cbn [mem set_mem]. rewrite Hm'.
    + exact (ex_page _ _ _ _ P a Ex (us_wf _ _ (bd_us _ _ _ _ _ Hb)) Hov Hnt Ha).
    + intros Hin. apply (owned_not_avail s P Hov). by rewrite (page_disjoint P p a HPr Hram Ha Hin).
    + intros Hf. apply (owned_not_avail s0 kb Hkb).
      assert (Hin : in_page kb a) by (unfold in_page; unfold frame_at in Hf; lia).
      rewrite (page_disjoint kb P a (owned_ram _ _ Hkb) HPr Hin Ha).
      apply (building_fresh fr pt sz s0 s); [done |]. by apply building_user_page with fr s0.
Qed.
End BuildStack.

(** * kexec *)

(** The words of the trap frame that [kexec] writes. *)
Definition tf_word (tf a : Z) : Prop :=
  tf + tf_epc <= a < tf + tf_epc + 4 \/ tf + tf_regs 2 <= a < tf + tf_regs 2 + 4
  \/ tf + tf_regs 11 <= a < tf + tf_regs 11 + 4.

(** An embedded file: in the kernel's image, with its header table inside it. *)
Definition image_file (s : kstate) (pr : program) : Prop :=
  0 <= pr_img pr /\ 0 <= pr_len pr < 0x80000000 /\
  pr_img pr + Z.max (pr_len pr) sizeof_elf_hdr <= start_page s /\
  e_phoff (read_elf_hdr (mem s) (pr_img pr)) <= pr_len pr.

(** What [kexec(path, args)] needs of its caller, process [i]. *)
Record exec_ready `{Initcode, CallFrames} (i : nat) (path : Z) (args : list Z) (s : kstate) : Prop := {
  er_holds : holds s (get_proc s i);
  er_parts : p_tf (get_proc s i) <> 0 /\ p_pt (get_proc s i) <> 0 /\ kstack (get_proc s i) <> 0;
  er_frame : 0 <= fr_ustack /\ fr_ustack + 68 <= PAGE_SIZE;
  er_path : exists n, str_at (mem s) path n /\ n < MAXPATH;
  er_args : Forall (fun a => exists n, karg_at (kstack (get_proc s i) + fr_ustack) s a n) args;
  er_images : Forall (image_file s) programs
}.

(** The program of file [img] has taken the place of process [i]'s: its new
    space is [pt] of size [sz]. *)
Record execed `{CallFrames} (i : nat) (name args : list Z) (img : Z) (s : kstate) (pt sz sp argc : Z) (s' : kstate) : Prop := {
  xd_frame : oframe s s';
  xd_proc : get_proc s' i =
    set_name (new_name name (p_name (get_proc s i))) (set_sz sz (set_pt pt (get_proc s i)));
  xd_rest : forall j, j <> i -> get_proc s' j = get_proc s j;
  xd_holds : holds s' (get_proc s' i);
  xd_avail : forall b, avail s' b <->
    avail s b /\ ~ space s' pt sz b \/ space s (p_pt (get_proc s i)) (p_sz (get_proc s i)) b;
  xd_fresh : forall b, space s' pt sz b -> avail s b;
  xd_mem : forall b a, owned s b -> ~ space s (p_pt (get_proc s i)) (p_sz (get_proc s i)) b -> in_page b a ->
    ~ frame_at (kstack (get_proc s i) + fr_ustack) a -> ~ tf_word (p_tf (get_proc s i)) a ->
    load8 (mem s') a = load8 (mem s) a;
  xd_regs : let tf := p_tf (get_proc s i) in
    load32 (mem s') (tf + tf_epc) = e_entry (read_elf_hdr (mem s) img) /\
    load32 (mem s') (tf + tf_regs 2) = sp /\ load32 (mem s') (tf + tf_regs 11) = sp;
  xd_args : args_passed (mem s) (mem s') pt args sp argc;
  xd_image : let elf := read_elf_hdr (mem s) img in bad_elf_hdr elf = false /\
    forall j, 0 <= j < e_phnum elf -> let prg := hdr img s (e_phoff elf) j in
      img + e_phoff elf + (j + 1) * sizeof_prg_hdr <= start_page s /\
      (loadable prg -> p_va prg + p_memsz prg <= sz /\ img + p_offset prg + p_filesz prg <= start_page s /\
         seg_loaded (mem s) (mem s') pt img prg);
  xd_ready : kready s';
  xd_user : forall v, 0 <= v < U32 -> allows (pte_at (mem s') pt v) 0 = true -> image_or_stack sz v;
  xd_pt : pt <> 0 /\ sz mod PAGE_SIZE = 0 /\ 0 <= sz < U32
}.

Section Commit.
Context `{CallFrames} (i : nat) (s : kstate) (Hq : quiet s) (Hh : holds s (get_proc s i)).
Let p := get_proc s i.
Context (Hparts : p_tf p <> 0 /\ p_pt p <> 0 /\ kstack p <> 0).
Context (Hfr : 0 <= fr_ustack /\ fr_ustack + 68 <= PAGE_SIZE).
Let fr := kstack p + fr_ustack.

(** The old space, the trap frame and the kernel stack are in use and apart. *)
Lemma old_parts : owned s (p_tf p) /\ owned s (kstack p) /\ kstack p <> p_tf p /\ pt_wf s (p_pt p) /\
  pages_ok (p_pt p) (image_or_stack (p_sz p)) s /\ p_sz p mod PAGE_SIZE = 0 /\ 0 <= p_sz p < U32 /\
  (forall b, space s (p_pt p) (p_sz p) b -> owned s b /\ b <> p_tf p /\ b <> kstack p).
Proof.
  destruct Hparts as (P1 & P2 & P3). destruct Hh as [G1 G2 G3]. fold p in G1, G2, G3.
  destruct (G2 P3) as [K1 K2]. destruct (G3 P2) as (Hwf & Hok & Hal & Hsz & Hd).
  split; [by apply G1 |]. do 6 (split; [done |]). intros b Hb. split; [| by apply Hd].
  destruct Hb as [(v & Hv & HQ & Hval & ->) | Ht]; [by apply (po_owned _ _ _ Hok) | by eapply table_owned].
Qed.

(** Before the old space is freed: the slot and the trap frame are written. *)
Section Written.
Context (name args : list Z) (img pt sz sp argc entry : Z) (s3 s4 : kstate).
Context (Hb : building fr pt sz s s3).
Let tf := p_tf p.
Context (Hm4 : mem s4 = store32 (store32 (store32 (mem s3) (tf + tf_epc) entry) (tf + tf_regs 2) sp) (tf + tf_regs 11) sp).
Context (Hb4 : mem_bitmap s4 = mem_bitmap s3) (Ho4 : oframe s3 s4) (Hr4 : kready s4).

Lemma written_out a : ~ tf_word tf a -> load8 (mem s4) a = load8 (mem s3) a.
Proof.
  intros Ha. rewrite Hm4. unfold tf_word, tf_epc, tf_regs in *. by rewrite !load8_store32_ne by lia.
Qed.

Lemma tf_word_page a : tf_word tf a -> in_page tf a.
Proof. unfold tf_word, tf_epc, tf_regs, in_page, PAGE_SIZE. lia. Qed.

Lemma kstack_frame_page a : frame_at fr a -> in_page (kstack p) a.
Proof. unfold frame_at, fr, in_page. lia. Qed.

Lemma written_owned b : owned s3 b -> owned s4 b.
Proof. unfold owned, bit. by rewrite Hb4, (of_start _ _ Ho4). Qed.

Lemma written_old b : owned s b -> owned s4 b.
Proof. intros Ho. by apply written_owned, (tk_owned _ _ _ _ (bd_took _ _ _ _ _ Hb)). Qed.

(** Pages of the old state, apart from the frame and the trap frame's words. *)
Lemma written_byte b a : owned s b -> in_page b a -> ~ frame_at fr a -> ~ tf_word tf a ->
  load8 (mem s4) a = load8 (mem s) a.
Proof. intros Ho Ha Hf Hw. rewrite written_out by done. by apply (building_byte fr pt sz s s3 b). Qed.

Lemma written_space : pt_wf s4 (p_pt p) /\ pages_ok (p_pt p) (image_or_stack (p_sz p)) s4 /\
  forall b, space s4 (p_pt p) (p_sz p) b <-> space s (p_pt p) (p_sz p) b.
Proof.
  destruct old_parts as (Htf & Hks & Hne & Hwf & Hok & Hoal & Hosz & Hold).
  destruct (space_keep s s4 (p_pt p) (p_sz p)) as (G1 & G2 & G3 & _); [| | done | done | done].
  - intros b _ Ho. by apply written_old.
  - intros b a Hsp Ho Ha. destruct (Hold b Hsp) as (_ & N1 & N2). pose proof (owned_ram _ _ Ho) as Hr.
    apply (written_byte b); [done | done | |].
    + intros Hf. apply N2. exact (page_disjoint b (kstack p) a Hr (owned_ram _ _ Hks) Ha (kstack_frame_page a Hf)).
    + intros Hw. apply N1. exact (page_disjoint b tf a Hr (owned_ram _ _ Htf) Ha (tf_word_page a Hw)).
Qed.

Context (s5 : kstate) (H5 : freed_set (space s (p_pt p) (p_sz p)) s4 s5).

(** What the new space holds is not in the old one. *)
Lemma new_not_old b : space s3 pt sz b -> ~ space s (p_pt p) (p_sz p) b /\ ~ owned s b.
Proof.
  intros Hn. pose proof (building_fresh fr pt sz s s3 b Hb Hn) as Hav.
  destruct old_parts as (_ & _ & _ & _ & _ & _ & _ & Hold).
  assert (Hno : ~ owned s b) by (intros Ho; by apply (owned_not_avail s b)).
  split; [| done]. intros Ho. by apply Hno, Hold.
Qed.

Lemma freed_new : pt_wf s5 pt /\ pages_ok pt (image_or_stack sz) s5 /\
  (forall b, space s5 pt sz b <-> space s3 pt sz b) /\ same_tables (mem s3) (mem s5) pt /\
  (forall b a, space s3 pt sz b -> in_page b a -> load8 (mem s5) a = load8 (mem s3) a).
Proof.
  destruct old_parts as (Htf & _).
  assert (Hbyte : forall b a, space s3 pt sz b -> in_page b a -> load8 (mem s5) a = load8 (mem s3) a).
  { intros b a Hn Ha. destruct (new_not_old b Hn) as [N1 N2].
    assert (Ho3 : owned s3 b) by (by apply (tk_new _ _ _ _ (bd_took _ _ _ _ _ Hb))).
    rewrite (freed_set_page _ _ _ b a H5 (written_owned b Ho3) N1 Ha). apply written_out.
    intros Hw. apply N2. by rewrite (page_disjoint b tf a (owned_ram _ _ Ho3) (owned_ram _ _ Htf) Ha (tf_word_page a Hw)). }
  destruct (space_keep s3 s5 pt sz) as (G1 & G2 & G3 & G4).
  - intros b Hn Ho. apply (fs_owned _ _ _ H5); [by apply written_owned | by apply new_not_old].
  - intros b a Hn _ Ha. by apply (Hbyte b).
  - apply (bd_us _ _ _ _ _ Hb).
  - apply Hb.
  - done.
Qed.

(** The program's bytes. *)
Lemma freed_ubyte v : 0 <= v < U32 -> allows (pte_at (mem s3) pt v) 0 = true ->
  pte_at (mem s5) pt v = pte_at (mem s3) pt v /\ ubyte (mem s5) pt v = ubyte (mem s3) pt v.
Proof.
  intros Hv Hal. destruct freed_new as (_ & _ & _ & Hst & Hby).
  assert (He : pte_at (mem s5) pt v = pte_at (mem s3) pt v) by (by apply same_tables_pte). split; [done |].
  apply (ubyte_kept fr pt sz s s3 s5 v); try done. intros a Ha. eapply Hby; [| exact Ha].
  by apply (building_user_page fr pt sz s).
Qed.

Context (Hpr : forall j, get_proc s4 j = if decide (j = i) then
  set_name (new_name name (p_name p)) (set_sz sz (set_pt pt p)) else get_proc s j).
Context (Hal : sz mod PAGE_SIZE = 0) (Hsz : 0 <= sz < U32) (Hsp : 0 <= sp < U32) (Hpt0 : pt <> 0).
Context (Hent : entry = e_entry (read_elf_hdr (mem s) img)).
Context (Hargs : args_passed (mem s) (mem s3) pt args sp argc).
Context (Himg : let elf := read_elf_hdr (mem s) img in bad_elf_hdr elf = false /\
  forall j, 0 <= j < e_phnum elf -> let prg := hdr img s (e_phoff elf) j in
    img + e_phoff elf + (j + 1) * sizeof_prg_hdr <= start_page s /\
    (loadable prg -> p_va prg + p_memsz prg <= sz /\ img + p_offset prg + p_filesz prg <= start_page s /\
       seg_loaded (mem s) (mem s3) pt img prg)).

Lemma written_procs j : get_proc s5 j = get_proc s4 j.
Proof. unfold get_proc. by rewrite (kf_procs _ _ (fs_frame _ _ _ H5)). Qed.

Lemma written_regs : load32 (mem s5) (tf + tf_epc) = entry /\
  load32 (mem s5) (tf + tf_regs 2) = sp /\ load32 (mem s5) (tf + tf_regs 11) = sp.
Proof.
  destruct old_parts as (Htf & _ & _ & _ & _ & _ & _ & Hold).
  assert (Hns : ~ space s (p_pt p) (p_sz p) tf) by (intros Hs; by destruct (Hold _ Hs) as (_ & ? & _)).
  assert (Hw : forall o, 0 <= o -> o + 4 <= PAGE_SIZE -> load32 (mem s5) (tf + o) = load32 (mem s4) (tf + o)).
  { intros o Ho Hoe. apply load32_ext. intros a Ha.
    apply (freed_set_page _ _ _ tf a H5 (written_old _ Htf) Hns). unfold in_page. lia. }
  rewrite !Hw, Hm4 by done. unfold tf_epc, tf_regs. rewrite load32_store32_eq.
  rewrite !load32_store32_ne by lia. rewrite load32_store32_eq.
  rewrite load32_store32_ne by lia. rewrite load32_store32_eq.
  assert (0 <= entry < U32) by (rewrite Hent; apply load32_range). rewrite !u32_small by done. done.
Qed.

Lemma written_holds : holds s5 (get_proc s5 i).
Proof.
  destruct old_parts as (Htf & Hks & Hne & _ & _ & _ & _ & Hold). destruct freed_new as (G1 & G2 & G3 & _).
  rewrite written_procs, Hpr, decide_True by done.
  assert (Hkeep : forall b, b = tf \/ b = kstack p -> owned s b -> owned s5 b).
  { intros b Hbb Ho. apply (fs_owned _ _ _ H5); [by apply written_old |]. intros Hs.
    destruct (Hold _ Hs) as (_ & ? & ?). by destruct Hbb as [-> | ->]. }
  split.
  - intros _. apply Hkeep; [by left | done].
  - intros _. split; [apply Hkeep; [by right | done] | done].
  - intros _. do 4 (split; [done |]). intros b Hsb. apply G3 in Hsb. destruct (new_not_old b Hsb) as [_ Hno].
    split; intros ->; by apply Hno.
Qed.

Lemma written_execed : execed i name args img s pt sz sp argc s5.
Proof.
  destruct old_parts as (Htf & Hks & Hne & Hwf & Hok & Hoal & Hosz & Hold).
  destruct freed_new as (G1 & G2 & G3 & _). destruct stack_consts as (_ & C1 & _ & C2 & _). split.
  - transitivity s3; [apply Hb |]. transitivity s4; [done | apply kframe_oframe, H5].
  - by rewrite written_procs, Hpr, decide_True.
  - intros j Hj. by rewrite written_procs, Hpr, decide_False.
  - apply written_holds.
  - intros b. rewrite (fs_avail _ _ _ H5), G3. assert (Hav : avail s4 b <-> avail s3 b) by (unfold avail, bit; by rewrite Hb4).
    by rewrite Hav, (tk_avail _ _ _ _ (bd_took _ _ _ _ _ Hb)).
  - intros b Hn. by apply (building_fresh fr pt sz s s3 b Hb), G3.
  - intros b a Ho Hns Ha Hf Hw. rewrite (freed_set_page _ _ _ b a H5 (written_old b Ho) Hns Ha).
    by apply (written_byte b).
  - cbv zeta. rewrite <- Hent. apply written_regs.
  - eapply args_passed_ext; [exact Hargs |]. intros v Hv. apply freed_ubyte; [lia |].
    destruct (ap_stack _ _ _ _ _ _ Hargs v Hv) as [HR _]. by eapply allows_user.
  - cbv zeta in Himg |- *. destruct Himg as [He Hj]. split; [done |]. intros j Hjr.
    destruct (Hj j Hjr) as [Hin Hlo]. split; [done |]. intros Hld. destruct (Hlo Hld) as (Hend & Hfile & Hseg). do 2 (split; [done |]).
    eapply seg_loaded_ext; [| exact Hseg]. intros v Hv.
    pose proof (hdr_range img s (e_phoff (read_elf_hdr (mem s) img)) j) as (Rv & _ & _ & _).
    destruct (Hseg (v - p_va (hdr img s (e_phoff (read_elf_hdr (mem s) img)) j)) ltac:(lia)) as (Ha & _).
    rewrite Z.add_comm, Z.sub_add in Ha. apply freed_ubyte; [lia | done].
  - apply H5.
  - intros v Hv. destruct freed_new as (_ & _ & _ & Hst & _). rewrite (same_tables_pte (mem s3)) by done.
    by apply (bd_user _ _ _ _ _ Hb).
  - done.
Qed.
End Written.

(** The last steps: nothing can fail any more. *)
Lemma wp_commit name args img pt sz sp argc entry s3 (Q : Z -> kstate -> Prop) :
  building fr pt sz s s3 -> sz mod PAGE_SIZE = 0 -> 0 <= sz < U32 -> 0 <= sp < U32 -> pt <> 0 ->
  entry = e_entry (read_elf_hdr (mem s) img) ->
  args_passed (mem s) (mem s3) pt args sp argc ->
  (let elf := read_elf_hdr (mem s) img in bad_elf_hdr elf = false /\
    forall j, 0 <= j < e_phnum elf -> let prg := hdr img s (e_phoff elf) j in
      img + e_phoff elf + (j + 1) * sizeof_prg_hdr <= start_page s /\
      (loadable prg -> p_va prg + p_memsz prg <= sz /\ img + p_offset prg + p_filesz prg <= start_page s /\
         seg_loaded (mem s) (mem s3) pt img prg)) ->
  (forall s', execed i name args img s pt sz sp argc s' -> Q argc s') ->
  wp (with_proc i (fun p => set_sz sz (set_pt pt p));;
      st (p_tf p + tf_epc) entry;;
      st (p_tf p + tf_regs 2) sp;;
      st (p_tf p + tf_regs 11) sp;;
      with_proc i (fun p => set_name (new_name name (p_name p)) p);;
      uvmfree (p_pt p) (p_sz p);;
      mret argc) Q s3.
Proof.
  intros Hb Hal Hsz Hsp Hpt0 Hent Hargs Himg HQ.
  destruct old_parts as (Htf & Hks & Hne & Hwf & Hok & Hoal & Hosz & Hold).
  set (tf := p_tf p) in *. pose proof (bd_took _ _ _ _ _ Hb) as Htk.
  assert (Hg3 : forall j, get_proc s3 j = get_proc s j) by (intros j; unfold get_proc; by rewrite (proj1 (bd_procs _ _ _ _ _ Hb))).
  unfold with_proc, st. do 2 (apply wp_bind, wp_modify). do 3 (apply wp_bind, wp_modify).
  set (s4 := put_proc i _ _).
  assert (Hm4 : mem s4 = store32 (store32 (store32 (mem s3) (tf + tf_epc) entry) (tf + tf_regs 2) sp) (tf + tf_regs 11) sp) by done.
  assert (Hb4 : mem_bitmap s4 = mem_bitmap s3) by done.
  assert (Hp4 : forall j, get_proc s4 j = if decide (j = i) then
    set_name (new_name name (p_name p)) (set_sz sz (set_pt pt p)) else get_proc s j).
  { intros j. unfold s4. rewrite get_proc_put.
    change (get_proc (set_mem _ (set_mem _ (set_mem _ ?x))) ?k) with (get_proc x k).
    rewrite !get_proc_put, Hg3. case_decide; [| by rewrite Hg3]. by rewrite decide_True. }
  assert (Ho4 : oframe s3 s4) by (by split).
  assert (Hr4 : kready s4) by (destruct (bd_ready _ _ _ _ _ Hb) as [[A1 A2] Hl Hpr]; by split).
  clearbody s4. destruct (written_space pt sz sp entry s3 s4 Hb Hm4 Hb4 Ho4) as (W1 & W2 & W3).
  apply wp_bind, wp_uvmfree_set; try done. intros s5 H5. apply wp_ret, HQ.
  apply (written_execed name args img pt sz sp argc entry s3 s4); try done.
  eapply freed_set_equiv; [exact W3 | exact H5].
Qed.
End Commit.

(** ** The file is read from the kernel's image, which nothing changes *)

Section Low.
Context (s s1 : kstate) (img len : Z).
Context (Hlow : forall x, 0 <= x < start_page s -> load8 (mem s1) x = load8 (mem s) x).
Context (Himg : 0 <= img) (Hend : img + Z.max len sizeof_elf_hdr <= start_page s).

Lemma low_elf_hdr : read_elf_hdr (mem s1) img = read_elf_hdr (mem s) img.
Proof.
  unfold read_elf_hdr, sizeof_elf_hdr in *. f_equal;
    first [apply load32_ext; intros; apply Hlow; lia | unfold load16; rewrite !Hlow by lia; done | apply Hlow; lia].
Qed.

Lemma low_hdr phoff j : 0 <= phoff -> 0 <= j -> phoff + (j + 1) * sizeof_prg_hdr <= len ->
  hdr img s1 phoff j = hdr img s phoff j.
Proof.
  intros Hp Hj Hl. unfold hdr, read_prg_hdr, sizeof_prg_hdr in *.
  f_equal; apply load32_ext; intros; apply Hlow; lia.
Qed.

Lemma low_executable top : executable s img len top -> executable s1 img len top.
Proof.
  intros [X1 X2 [G1 G2 G3 G4]]. set (ph := e_phoff (read_elf_hdr (mem s) img)) in *. set (n := e_phnum (read_elf_hdr (mem s) img)) in *.
  assert (Hp : 0 <= ph) by apply load32_range.
  assert (Hh : forall j, 0 <= j < n -> hdr img s1 ph j = hdr img s ph j) by (intros j Hj; apply low_hdr; [done | lia | by apply G1]).
  split; [done | by rewrite low_elf_hdr |]. rewrite low_elf_hdr. fold ph n. split; [done | | | done].
  - intros j Hj. rewrite Hh by done. by apply G2.
  - intros a b Ha Hb. rewrite !Hh by lia. by apply G3.
Qed.

Lemma low_seg m pt phoff j : p_offset (hdr img s phoff j) + p_filesz (hdr img s phoff j) <= len ->
  seg_loaded (mem s1) m pt img (hdr img s phoff j) -> seg_loaded (mem s) m pt img (hdr img s phoff j).
Proof.
  intros Hl Hs k Hk v. destruct (Hs k Hk) as (G1 & G2 & G3). split_and!; [done | done |].
  etransitivity; [exact G3 |]. pose proof (hdr_range img s phoff j) as (_ & Ro & _ & _).
  destruct (k <? _) eqn:E; zbool; [| done]. apply Hlow. lia.
Qed.
End Low.

Lemma find_loop_in name ps img len : find_loop name ps = Some (img, len) ->
  exists pr, pr ∈ ps /\ img = pr_img pr /\ len = pr_len pr.
Proof.
  induction ps as [|pr ps IH]; cbn [find_loop]; [done |]. destruct (_ =? 0).
  - intros [= <- <-]. exists pr. split_and!; [by left | done | done].
  - intros Hf. destruct (IH Hf) as (q & Hq & ? & ?). exists q. split_and!; [by right | done | done].
Qed.

(** [kexec] after [myproc]. *)
Section Body.
Context `{L : Layout} {HL : LayoutOk L} `{Initcode, CallFrames} (i : nat) (path : Z) (args : list Z) (s : kstate).
Context (Hq : quiet s) (Her : exec_ready i path args s).
Let p := get_proc s i.
Let fr := kstack p + fr_ustack.

(** No program took the caller's place. *)
Definition unexeced (s' : kstate) : Prop :=
  tookx (frame_at fr) (fun _ => False) s s' /\ kready s' /\ proctable s' = proctable s /\ curr_pid s' = curr_pid s.

(** Why: if the path names a well-formed executable and the arguments fit into
    the stack page, no more pages were left than those of the image, of the
    stack and of a page table. *)
Definition exec_refused : Prop :=
  forall img len top, find_program (cstr_at 32 (mem s) path) = Some (img, len) -> executable s img len top ->
    args_fit (mem s) args -> scarce (pages_below top + 1026) s.

Lemma wp_kexec_body (Q : Z -> kstate -> Prop) :
  (forall s', unexeced s' -> exec_refused -> Q (-1) s') ->
  (forall name img len pt sz sp argc s', name = cstr_at 32 (mem s) path -> find_program name = Some (img, len) ->
     execed i name args img s pt sz sp argc s' -> Q argc s') ->
  wp (p ← the_proc i;
      name ← load_str (Z.to_nat MAXPATH) path;
      match find_program name with
      | None => mret (-1)
      | Some (img, len) =>
          pt ← init_userpt;
          if pt =? 0 then mret (-1)
          else
            '(r, entry, sz) ← load_elf pt img len 0;
            let bad := uvmfree pt sz;; mret (-1) in
            if r =? -1 then bad
            else
              b ← build_stack pt (kstack p + fr_ustack) args;
              match b with
              | None => bad
              | Some (sp, argc) =>
                  with_proc i (fun p => set_sz sz (set_pt pt p));;
                  st (p_tf p + tf_epc) entry;;
                  st (p_tf p + tf_regs 2) sp;;
                  st (p_tf p + tf_regs 11) sp;;
                  with_proc i (fun p => set_name (new_name name (p_name p)) p);;
                  uvmfree (p_pt p) (p_sz p);;
                  mret argc
              end
      end) Q s.
Proof.
  intros HF HS. destruct Her as [Hh Hparts Hframe (n & Hpath & Hn) Hargs Himgs].
  pose proof (quiet_ready s Hq) as Hr. destruct (old_parts i s Hh Hparts) as (_ & Hks & _).
  apply wp_bind, wp_gets. fold p. unfold load_str. apply wp_bind, wp_bind, wp_gets.
  change (Z.to_nat MAXPATH) with 32%nat. set (name := cstr_at 32 (mem s) path).
  pose proof (cstr_at_length (mem s) 32 path n Hpath ltac:(unfold MAXPATH in Hn; lia)) as Hl. fold name in Hl.
  unfold MAXPATH in Hn. assert ((32 <=? length name)%nat = false) as -> by (apply Nat.leb_gt; lia). apply wp_ret.
  destruct (find_program name) as [[img len] |] eqn:Ef.
  2: { apply wp_ret, HF; [split_and!; try done; apply took_widen, took_refl, Hq |].
       intros img len top Hfn. fold name in Hfn. congruence. }
  destruct (find_loop_in _ _ _ _ Ef) as (pr & Hpr & -> & ->).
  destruct (proj1 (list.Forall_forall _ _) Himgs pr Hpr) as (I1 & I2 & I3 & I4).
  set (img := pr_img pr) in *. set (len := pr_len pr) in *.
  apply wp_bind, wp_init_userpt; [done | |].
  { intros s1 Hr1 Hf1 Hk1 Hsc. cbn [Z.eqb]. apply wp_ret, HF; [split_and!; try done; [by apply took_widen | apply Hf1..] |].
    intros img' len' top _ Hx _. pose proof (pages_below_nonneg _ _ _ _ Hx). by eapply few_mono; [exact Hsc | lia |]. }
  intros pt s1a s1 Ha Hg Hm. rewrite (fresh_nonzero _ _ _ Ha).
  pose proof (took_table s pt s1a s1 (kr_alloc _ Hr) Ha Hg) as Ht1.
  assert (Hus1 : uspace_ok s1 pt) by (apply kernel_only_uspace; [apply Hg | done]).
  assert (Hst1 : start_page s1 = start_page s) by apply (of_start _ _ (tk_frame _ _ _ _ Ht1)).
  assert (Hlow : forall x, 0 <= x < start_page s -> load8 (mem s1) x = load8 (mem s) x).
  { intros x Hx. apply (tk_mem _ _ _ Ht1). intros b Hb. pose proof (avail_start s b Hr Hb). unfold in_page. lia. }
  pose proof (low_elf_hdr s s1 img len Hlow I1 I3) as Helf.
  apply wp_bind. eapply wp_mono.
  { apply (wp_load_elf pt img len 0 s1); [apply Hg | done | done | done | lia | |].
    - intros v Hv. assert (Hv' : 0 <= v < U32) by (unfold USER_BASE, UART_0, U32 in *; lia).
      rewrite Hm, user_map0_free by (done || lia). done.
    - by rewrite Helf. }
  intros [[r entry] sz] s2 (Him & Hsz & Hal & Hres). rewrite Helf in Hres.
  destruct (building_start fr pt sz s s1a s1 s2 (kr_alloc _ Hr) Ha Hg Hm Him Hsz) as [Hb2 Hun2].
  assert (Hsz' : 0 <= sz < U32) by (unfold USER_BASE, UART_0, U32 in *; lia).
  assert (Hbad : forall s', building fr pt sz s s' ->
    (forall top, executable s1 img len top -> args_fit (mem s) args -> ran_out pt (pages_below top + 1) s1) ->
    wp (uvmfree pt sz;; mret (-1)) Q s').
  { intros s' Hb' Hout. apply (wp_bad fr pt sz s); try done. intros s6 Ht6 Hr6 Hp6. apply HF; [done |].
    intros img' len' top Hfn Hx Hfit. fold name in Hfn. rewrite Ef in Hfn. injection Hfn as <- <-.
    pose proof (Hout top (low_executable s s1 img len Hlow I1 I3 top Hx) Hfit) as Ho.
    eapply few_mono; [eapply (scarce_new_table _ (fun _ => False) 0); [| apply few_none; [done | tauto] | done | done | exact Ho] | lia | done].
    eapply took_equiv; [| exact Ht1]. intros b. tauto. }
  destruct Hres as [(-> & -> & Hout) | (-> & -> & Htop & Hok & Hsegs)]; cbn [Z.eqb].
  { apply Hbad; [done |]. intros top Hx _. eapply ran_out_mono; [by apply Hout | lia]. }
  apply wp_bind, (wp_build_stack fr pt sz s (kstack p) Hks); [unfold fr; lia | done | done | done | |].
  { intros s3 Hb3 Hno. apply Hbad; [done |]. intros top Hx Hfit. specialize (Htop top Hx).
    assert (Hd : few ((sz - USER_BASE) / PAGE_SIZE) (pages pt (image_range sz) s2)) by (apply few_pages; [done | done | lia]).
    eapply ran_out_mono; [apply (ran_out_ext _ _ _ _ _ _ (im_ext _ _ _ _ Him) Hd (Hno Hfit)) |].
    unfold pages_below, PAGE_SIZE. zlia. }
  intros s3 sp argc Hb3 Hargs3 Hkeep. destruct stack_consts as (C0 & C1 & C2 & C3 & _).
  pose proof (ap_sp _ _ _ _ _ _ Hargs3) as (S1 & S2 & _). pose proof (ap_argc _ _ _ _ _ _ Hargs3) as [S3 _].
  apply (wp_commit i s Hh Hparts Hframe name args img pt sz sp argc); try done.
  - lia.
  - pose proof (fresh_nonzero _ _ _ Ha) as Hz. by apply Z.eqb_neq.
  - cbv zeta. split; [done |]. intros j Hj. destruct (Hsegs j Hj) as [Hin Hld].
    assert (Hphoff : 0 <= e_phoff (read_elf_hdr (mem s) img)) by apply load32_range. split; [lia |].
    rewrite (low_hdr s s1 img len Hlow I1 I3) in Hld by (done || lia).
    intros Hlo. destruct (Hld Hlo) as (E1 & E2 & E3). split; [done |]. split; [lia |].
    eapply seg_loaded_ext; [| by apply (low_seg s s1 img len Hlow I1 I3)]. intros v Hv.
    pose proof (hdr_range img s (e_phoff (read_elf_hdr (mem s) img)) j) as (Rv & _ & _ & _).
    destruct (E3 (v - p_va (hdr img s (e_phoff (read_elf_hdr (mem s) img)) j)) ltac:(lia)) as (Hav & _).
    rewrite Z.add_comm, Z.sub_add in Hav. apply Hkeep; [lia | done].
  - intros s' Hx. by eapply HS.
Qed.
End Body.

Lemma exec_ready_sy `{Initcode, CallFrames} i path args y s :
  exec_ready i path args s -> exec_ready i path args (set_sy y s).
Proof.
  intros [Hh Hp Hf Hpa Ha Hi]. split; [by apply (holds_ext s) | done | done | done | | done].
  eapply Forall_impl; [| exact Ha]. intros a (n & [K1 K2 K3]). exists n. by split.
Qed.

Lemma exec_refused_sy `{Initcode} path args y s : exec_refused path args (set_sy y s) -> exec_refused path args s.
Proof.
  intros Hr img len top Hf [X1 X2 [G1 G2 G3 G4]] Hfit. apply (Hr img len top Hf); [| exact Hfit].
  split; [exact X1 | exact X2 | split; [exact G1 | exact G2 | exact G3 | exact G4]].
Qed.

Lemma execed_sy `{CallFrames} i name args img y s pt sz sp argc s' : y ≡ sy s ->
  execed i name args img (set_sy y s) pt sz sp argc s' -> execed i name args img s pt sz sp argc s'.
Proof.
  intros Hy [[] X2 X3 X4 X5 X6 X7 X8 X9 X10 X11 X12]. split; try done. split; try done. cbn in *. by rewrite <- Hy.
Qed.

(** * Properties *)

Lemma wp_kexec `{L : Layout} {HL : LayoutOk L} `{Initcode, CallFrames} i path args s :
  quiet s -> cpu_proc (get_cpu (sy s)) = Some i -> exec_ready i path args s ->
  wp (kexec path args) (fun r s' =>
    r = -1 /\ unexeced i s s' /\ exec_refused path args s \/
    exists name img len pt sz sp, name = cstr_at 32 (mem s) path /\ find_program name = Some (img, len) /\
      execed i name args img s pt sz sp r s') s.
Proof.
  intros Hq Hcpu Her. unfold kexec. apply wp_bind, wp_myproc; [apply (qu_locks _ Hq MemLock) |].
  intros y Hy. rewrite Hcpu. cbn [deref_proc]. apply wp_bind, wp_ret.
  apply (wp_kexec_body i path args (set_sy y s)); [| by apply exec_ready_sy | |].
  - destruct Hq as [[A1 A2] Hl]. split; [by split |]. intros l. cbn [sy set_sy]. rewrite Hy. apply Hl.
  - intros s' (U1 & U2 & U3) Hwhy. left. split_and!; [done | split; [by eapply took_sy | done] | by eapply exec_refused_sy].
  - intros name img len pt sz sp argc s' Hn Hf Hx. right. exists name, img, len, pt, sz, sp.
    split_and!; [done | done | by eapply execed_sy].
Qed.

(** C8 ([kexec] is all or nothing): called by a process with a trap frame, a
    kernel stack and an address space of its own, for a path and arguments in
    kernel memory, and with embedded files whose header tables start inside
    them, [kexec] returns without panicking, however malformed the files are.
    Either it returns -1 and nothing has happened: the same pages are free, the
    process table is as it was, and of the memory in use only [kexec]'s own
    array has changed; this also when memory runs out halfway or the arguments
    do not fit, and, if the path names a well-formed executable and the
    arguments fit into the stack page, only if there were no more pages than the
    new program needs at most. Or it returns the number of arguments and the caller has the
    new program: its file's segments are mapped with their permissions and hold
    its bytes, [epc] is the file's entry, [sp] and [a1] point into the stack
    page, 16-byte aligned, at an array of [argc] pointers and a 0, and the
    pointers at copies of the arguments; the pages of the old program, and no
    others, are free again, and no other process and no other memory in use has
    changed. *)
Theorem kexec_correct `{L : Layout} {HL : LayoutOk L} `{Initcode, CallFrames} i path args s :
  quiet s -> cpu_proc (get_cpu (sy s)) = Some i -> exec_ready i path args s ->
  wp (kexec path args) (fun r s' =>
    r = -1 /\ unexeced i s s' /\ exec_refused path args s \/
    exists name img len pt sz sp, name = cstr_at 32 (mem s) path /\ find_program name = Some (img, len) /\
      execed i name args img s pt sz sp r s') s.
Proof. apply wp_kexec. Qed.

(** The caller is the demonstration's process 1; the small program is at the
    start of RAM, the path at 0x80000300 and the one argument in page 1. *)
Definition exec_frames : CallFrames := Build_CallFrames 0x200 0x300 0x400 0x100.
Definition exec_mem : gmap Z Z :=
  fill (fill (mem user_demo) demo_img demo_file) 0x80000300 (bytes "init").
Definition exec_demo : kstate := set_sy nap_sync (put_proc 1 one_proc (set_mem exec_mem user_demo)).

Lemma exec_mem_high x : 0x80001000 <= x -> load8 exec_mem x = load8 (mem user_demo) x.
Proof.
  intros Hx. assert (H1 : Z.of_nat (length demo_file) = 88) by reflexivity.
  assert (H2 : Z.of_nat (length (bytes "init")) = 4) by reflexivity.
  unfold exec_mem, demo_img. rewrite fill_above; [rewrite fill_above; [done |] |]; lia.
Qed.

Lemma exec_demo_quiet : quiet exec_demo.
Proof.
  split; [| intros l; split; [split; vm_compute; intuition congruence | done]].
  destruct (qu_alloc _ two_pages_quiet) as [A1 A2]. by split.
Qed.

Lemma exec_demo_ready : exec_ready (H0 := exec_frames) 1 0x80000300 [0x80001000] exec_demo.
Proof.
  split.
  - apply (holds_keep user_demo); [done | | apply demo_holds]. intros b a (_ & Hs & _) Ha.
    apply exec_mem_high. unfold in_page in Ha. change (start_page user_demo) with 0x80001000 in Hs. lia.
  - done.
  - done.
  - exists 4. split; [| done]. split; [done | | done]. intros j Hj.
    assert (j = 0 \/ j = 1 \/ j = 2 \/ j = 3) as [-> | [-> | [-> | ->]]] by lia; vm_compute; congruence.
  - constructor; [| constructor]. exists 2. split.
    + split; [done | | done]. intros j Hj. assert (j = 0 \/ j = 1) as [-> | ->] by lia; vm_compute; congruence.
    + exists 0x80001000. split; [vm_compute; intuition congruence | done].
    + intros j Hj [Hf _]. change (0x80008400 <= 0x80001000 + j) in Hf. lia.
  - repeat constructor; vm_compute; congruence.
Qed.

Lemma kexec_correct_witness :
  wp (kexec (H1 := exec_frames) 0x80000300 [0x80001000]) (fun r s' =>
    r = -1 /\ unexeced (H0 := exec_frames) 1 exec_demo s' /\ exec_refused 0x80000300 [0x80001000] exec_demo \/
    exists name img len pt sz sp, name = cstr_at 32 (mem exec_demo) 0x80000300 /\
      find_program name = Some (img, len) /\
      execed (H := exec_frames) 1 name [0x80001000] img exec_demo pt sz sp r s') exec_demo.
Proof.
  apply (kexec_correct (H0 := exec_frames) 1 0x80000300 [0x80001000] exec_demo exec_demo_quiet eq_refl exec_demo_ready).
Defined.
