(* ===== verification/Lifecycle.v ===== *)
(** A process's life, call by call (Proc.v, Syscall.v): [fork], [kexec], [wait]
    and [kexit] keep the process table sound, in whatever order the processes
    make them. *)
From S2P Require Import Prelude Machine Csr KPrint Spinlock Printf Mem Vm PageTable KernelMap UserMem UserSpace Took Exec ExecProofs Proc ProcProofs SchedProofs UvmCopy ProcAlloc ProcTable Fork Exit Scheduler Wait Syscall ExecStack Kexec.

(** * fork *)

Lemma unspawned_ok s s' : procs_ok s -> unspawned s s' -> procs_ok s'.
Proof.
  intros Hok [Hk _ Hs]. apply (procs_ok_shrink s); [done |]. intros j Hj.
  destruct (Hs j) as [-> | (Hu & Hu' & Hb)].
  - destruct (holds_stay s s' (get_proc s j)) as [Hh Ho].
    + intros b _ Hb. by apply (tk_owned _ _ _ _ Hk).
    + intros b a H0 Ht Ha. apply (took_page _ _ _ b a Hk); [| done].
      apply (owns_owned s (get_proc s j)); [by apply (pk_holds _ Hok) |]. left. right. split; [done | by right].
    + by apply (pk_holds _ Hok).
    + split_and!; [done | intros b; apply Ho | by apply (pk_blank _ Hok)].
  - destruct (blank_holds s' _ Hb) as [Hh Ho]. split_and!; [done | intros b Hbo; by destruct (Ho b) | done].
Qed.

(** A table with one slot changed: its pages were free or its own. *)
Lemma procs_ok_grow n s s' : procs_ok s -> (n < NPROC)%nat -> holds s' (get_proc s' n) ->
  (forall b, owns s' (get_proc s' n) b -> avail s b \/ owns s (get_proc s n) b) ->
  (p_state (get_proc s' n) = UNUSED -> blank (get_proc s' n)) ->
  (forall j, (j < NPROC)%nat -> j <> n -> get_proc s' j = get_proc s j /\ holds s' (get_proc s j) /\
     forall b, owns s' (get_proc s j) b -> owns s (get_proc s j) b) -> procs_ok s'.
Proof.
  intros Hok Hn Hh Ho Hb Hrest.
  assert (Hno : forall j b, (j < NPROC)%nat -> j <> n -> owns s' (get_proc s' n) b -> ~ owns s' (get_proc s' j) b).
  { intros j b Hj Hne Hbn Hbj. destruct (Hrest j Hj Hne) as (E & _ & Hs). rewrite E in Hbj. apply Hs in Hbj.
    destruct (Ho b Hbn) as [Hav | Hbn'].
    - apply (owned_not_avail s b); [| done]. by eapply owns_owned; [apply (pk_holds _ Hok) |].
    - by apply Hne, (pk_apart _ Hok j n b). }
  split.
  - intros j Hj. destruct (decide (j = n)) as [-> | Hne]; [done |]. by destruct (Hrest j Hj Hne) as (-> & ? & _).
  - intros j k b Hj Hk Hbj Hbk. destruct (decide (j = n)) as [-> | Hj'], (decide (k = n)) as [-> | Hk']; [done | | |].
    + by destruct (Hno k b Hk Hk').
    + by destruct (Hno j b Hj Hj').
    + destruct (Hrest j Hj Hj') as (E & _ & Hs). rewrite E in Hbj. destruct (Hrest k Hk Hk') as (E' & _ & Hs'). rewrite E' in Hbk.
      apply (pk_apart _ Hok j k b); auto.
  - intros j Hj. destruct (decide (j = n)) as [-> | Hne]; [done |]. destruct (Hrest j Hj Hne) as (-> & _).
    by apply (pk_blank _ Hok).
Qed.

Lemma forked_ok `{KSyms} i n s s' : procs_ok s -> forked i n s s' -> procs_ok s'.
Proof.
  intros Hok Hf. pose proof (fk_took _ _ _ _ Hf) as Ht. destruct (fk_slot _ _ _ _ Hf) as [Hn _].
  apply (procs_ok_grow n s); [done | done | apply Hf | | |].
  - intros b Hb. left. by apply (tk_new _ _ _ _ Ht).
  - destruct (fk_proc _ _ _ _ Hf) as (ks & tf & pt & -> & _). done.
  - intros j Hj Hne. split; [by apply (fk_rest _ _ _ _ Hf) |]. pose proof (pk_holds _ Hok j Hj) as Hh.
    destruct (holds_stay s s' (get_proc s j)) as [Hh' Ho]; [| | done |].
    + intros b _ Hb. by apply (tk_owned _ _ _ _ Ht).
    + intros b a H0 Htb Ha. apply (took_page _ _ _ b a Ht); [| done].
      apply (owns_owned s (get_proc s j)); [done |]. left. right. split; [done | by right].
    + split; [done |]. intros b. apply Ho.
Qed.

(** * The scheduler *)

Lemma taken_back_ok z s s' : procs_ok s -> (z < NPROC)%nat -> taken_back z s s' -> procs_ok s'.
Proof.
  intros Hok Hz [Hs Hg]. apply (procs_ok_shrink s); [done |]. intros j Hj. rewrite Hs.
  assert (Hkeep : (forall b, owns s (get_proc s j) b -> ~ (orphan_zombie (get_proc s z) = true /\ owns s (get_proc s z) b)) ->
    holds s' (get_proc s j) /\ (forall b, owns s' (get_proc s j) b -> owns s (get_proc s j) b) /\
    (p_state (get_proc s j) = UNUSED -> blank (get_proc s j))).
  { intros Hn. destruct (gave_back_holds _ _ _ (get_proc s j) Hg Hn (pk_holds _ Hok j Hj)) as [Hh Ho].
    split_and!; [by apply (holds_ext (set_sy (sy s) s')) | intros b; apply Ho | by apply (pk_blank _ Hok)]. }
  case_decide as E; [subst j; destruct (orphan_zombie (get_proc s z)) |].
  - destruct (blank_holds s' _ (released_blank (get_proc s z))) as [Hh Ho].
    split_and!; [done | intros b Hb; by destruct (Ho b) | done].
  - apply Hkeep. intros b _ [? _]. done.
  - apply Hkeep. intros b Hb [_ Hbz]. by apply E, (pk_apart _ Hok j z b).
Qed.

(** * kexec *)

Section ExecOk.
Context `{CallFrames} (i : nat) (s s' : kstate) (Hok : procs_ok s) (Hi : (i < NPROC)%nat).
Context (Hparts : p_tf (get_proc s i) <> 0 /\ p_pt (get_proc s i) <> 0 /\ kstack (get_proc s i) <> 0).
Context (Hfr : 0 <= fr_ustack /\ fr_ustack + 68 <= PAGE_SIZE).
Let p := get_proc s i.

(** The caller's local array and trap frame are not another slot's. *)
Lemma exec_locals j b a : (j < NPROC)%nat -> owns s (get_proc s j) b -> in_page b a ->
  (frame_at (kstack p + fr_ustack) a -> j = i /\ b = kstack p) /\ (tf_word (p_tf p) a -> j = i /\ b = p_tf p).
Proof.
  intros Hj Hb Ha. pose proof (pk_holds _ Hok j Hj) as Hh. pose proof (pk_holds _ Hok i Hi) as Hhi. fold p in Hhi.
  assert (Hone : forall c, owns s p c -> in_page c a -> j = i /\ b = c).
  { intros c Hc Hin. pose proof (owns_page _ _ _ b c a Hh Hhi Hb Hc Ha Hin) as ->. split; [| done].
    by apply (pk_apart _ Hok j i c). }
  split; intros Hx; apply Hone.
  - right. split; [apply Hparts | done].
  - unfold frame_at, in_page in *. lia.
  - left. left. split; [apply Hparts | done].
  - unfold tf_word, tf_epc, tf_regs, in_page, PAGE_SIZE in *. lia.
Qed.

Lemma unexeced_ok : unexeced i s s' -> procs_ok s'.
Proof.
  intros (Ht & _ & Hpr & _). assert (Hs : forall j, get_proc s' j = get_proc s j) by (intros; unfold get_proc; by rewrite Hpr).
  apply (procs_ok_shrink s); [done |]. intros j Hj. rewrite Hs. pose proof (pk_holds _ Hok j Hj) as Hh.
  destruct (holds_stay s s' (get_proc s j)) as [Hh' Ho]; [| | done |].
  - intros b _ Hb. by apply (tk_owned _ _ _ _ Ht).
  - intros b a H0 Htb Ha. assert (Hb : owns s (get_proc s j) b) by (left; right; split; [done | by right]).
    pose proof (owns_owned _ _ _ Hh Hb) as Hbo. apply (tk_memx _ _ _ _ Ht).
    + intros Hfa. destruct (exec_locals j b a Hj Hb Ha) as [Hx _]. destruct (Hx Hfa) as [-> ->].
      destruct (hd_pt _ _ Hh H0) as (_ & _ & _ & _ & Hd). by destruct (Hd (kstack p)) as [_ ?]; [right |].
    + intros c Hc Hin. apply (owned_not_avail s b Hbo).
      by rewrite (page_disjoint b c a (owned_ram _ _ Hbo) (avail_ram _ _ Hc) Ha Hin).
  - split_and!; [done | intros b; apply Ho | by apply (pk_blank _ Hok)].
Qed.

Lemma execed_ok name args img pt sz sp argc : execed i name args img s pt sz sp argc s' ->
  p_state p <> UNUSED -> procs_ok s'.
Proof.
  intros Hx Hu. apply (procs_ok_grow i s); [done | done | apply Hx | | |].
  - intros b. rewrite (xd_proc _ _ _ _ _ _ _ _ _ _ Hx). unfold owns. cbn.
    intros [[? | [_ Hsp]] | ?]; [tauto | left; by apply (xd_fresh _ _ _ _ _ _ _ _ _ _ Hx) | tauto].
  - rewrite (xd_proc _ _ _ _ _ _ _ _ _ _ Hx). intros Hs. by destruct Hu.
  - intros j Hj Hne. split; [by apply (xd_rest _ _ _ _ _ _ _ _ _ _ Hx) |]. pose proof (pk_holds _ Hok j Hj) as Hh.
    assert (Hold : forall b, owns s (get_proc s j) b -> ~ space s (p_pt p) (p_sz p) b).
    { intros b Hb Hsp. apply Hne, (pk_apart _ Hok j i b); [done | done | done |]. left. right. split; [apply Hparts | done]. }
    destruct (holds_stay s s' (get_proc s j)) as [Hh' Ho]; [| | done | split; [done | intros b; apply Ho]].
    + intros b Hb (Hr & Hst & H0). split; [done |]. rewrite (of_start _ _ (xd_frame _ _ _ _ _ _ _ _ _ _ Hx)).
      split; [done |]. destruct (decide (bit s' (idx b) = 0)) as [E | E]; [done |]. exfalso.
      destruct (proj1 (xd_avail _ _ _ _ _ _ _ _ _ _ Hx b) (conj Hr E)) as [[[_ Hav] _] | Hsp]; [done |].
      by apply (Hold b Hb).
    + intros b a H0 Htb Ha. assert (Hb : owns s (get_proc s j) b) by (left; right; split; [done | by right]).
      destruct (exec_locals j b a Hj Hb Ha) as [H1 H2].
      apply (xd_mem _ _ _ _ _ _ _ _ _ _ Hx b); [by eapply owns_owned | by apply Hold | done | |].
      * intros Hf. by destruct (H1 Hf).
      * intros Hw. by destruct (H2 Hw).
Qed.
End ExecOk.

(** * Runs *)

(** One process makes one call, with no lock held, until it returns or
    switches away; or the scheduler takes a process back, which releases a
    zombie that has no parent. *)
Inductive called `{Layout, KSyms, Initcode, Frames, CallFrames} : kstate -> kstate -> Prop :=
  | called_fork i r s s' : quiet s -> cpu_proc (get_cpu (sy s)) = Some i -> can_fork i s ->
      curr_pid s <> 0x7FFFFFFF -> fork s = Ok r s' -> called s s'
  | called_kexec i path args r s s' : quiet s -> cpu_proc (get_cpu (sy s)) = Some i -> (i < NPROC)%nat ->
      p_state (get_proc s i) = RUNNING -> exec_ready i path args s -> kexec path args s = Ok r s' -> called s s'
  | called_wait i fuel addr r s s' : quiet s -> cpu_proc (get_cpu (sy s)) = Some i -> depth (get_cpu (sy s)) = 0 ->
      can_wait i s -> 0 <= addr < U32 -> wait (S fuel) addr s = Ok r s' -> called s s'
  | called_wait_sleeps i fuel addr k s s' : quiet s -> cpu_proc (get_cpu (sy s)) = Some i -> depth (get_cpu (sy s)) = 0 ->
      can_wait i s -> 0 <= addr < U32 -> wait (S fuel) addr s = Swtch s' k -> called s s'
  | called_kexit i status k s s' : quiet s -> cpu_proc (get_cpu (sy s)) = Some i -> depth (get_cpu (sy s)) = 0 ->
      can_exit i s -> @kexit Z status s = Swtch s' k -> called s s'
  | called_scheduler z s s' : (z < NPROC)%nat -> taken_back z s s' -> called s s'.

(** Something else happens that leaves the page tables, the allocator and the
    pages of every slot alone: the scheduler, a sleep, a program writing to
    its memory. *)
Definition elsewhere (s s' : kstate) : Prop :=
  mem_bitmap s' = mem_bitmap s /\ start_page s' = start_page s /\
  forall j, (j < NPROC)%nat -> same_pages (get_proc s j) (get_proc s' j) /\
    (p_state (get_proc s' j) = UNUSED -> p_state (get_proc s j) = UNUSED) /\
    (p_pt (get_proc s j) <> 0 -> same_tables (mem s) (mem s') (p_pt (get_proc s j))).

Definition ran `{Layout, KSyms, Initcode, Frames, CallFrames} (s s' : kstate) : Prop := called s s' \/ elsewhere s s'.

Section Ran.
Context `{L : Layout} {HL : LayoutOk L} `{KSyms, Initcode, Frames, CallFrames}.

(** A slot whose pages and tables are as they were. *)
Lemma elsewhere_ok s s' : elsewhere s s' -> procs_ok s -> procs_ok s'.
Proof.
  intros (Hb & Hst & Hj) Hok. apply (procs_ok_shrink s); [done |]. intros j Hlt. destruct (Hj j Hlt) as (Hsp & Hu & Htab).
  destruct (holds_stay s s' (get_proc s j)) as [Hh Ho].
  - intros b _. unfold owned, bit. by rewrite Hb, Hst.
  - intros b a Hp0 Ht Ha. by apply (Htab Hp0 b a).
  - by apply (pk_holds _ Hok).
  - split_and!; [by apply (same_pages_holds _ (get_proc s j)) | |].
    + intros b Hbo. by apply Ho, (same_pages_owns _ _ _ b Hsp).
    + intros Hun. destruct (pk_blank _ Hok j Hlt (Hu Hun)) as (B1 & B2 & B3 & B4). destruct Hsp as (S1 & S2 & S3 & S4).
      split_and!; congruence.
Qed.

Lemma sleeping_ok i s s' : proc_step i (fun p => set_state WAITING (set_chan (ChanProc i) p)) s s' -> procs_ok s -> procs_ok s'.
Proof.
  intros [Hf Hp]. apply elsewhere_ok. split_and!; [exact (pf_bitmap _ _ Hf) | exact (pf_start _ _ Hf) |]. intros j Hj. rewrite Hp.
  assert (Hm : mem s' = mem s) by exact (pf_mem _ _ Hf). rewrite Hm. by case_decide as E; [subst j |].
Qed.

Lemma called_ok s s' : called s s' -> procs_ok s -> procs_ok s'.
Proof.
  intros Hr Hok. destruct Hr as [i r s s' Hq Hc Hi Hp E | i path args r s s' Hq Hc Hi Hs He E
    | i fuel addr r s s' Hq Hc Hd Hi Ha E | i fuel addr k s s' Hq Hc Hd Hi Ha E | i status k s s' Hq Hc Hd Hi E | z s s' Hz Htb].
  - assert (Hw : wp fork (fun _ s' => procs_ok s') s).
    { apply (wp_fork s i); try done; [apply Hok | |]; intros; [by eapply unspawned_ok | by eapply forked_ok]. }
    unfold wp in Hw. by rewrite E in Hw.
  - assert (Hw : wp (kexec path args) (fun _ s' => procs_ok s') s).
    { eapply wp_mono; [by apply (wp_kexec i path args s) |]. destruct (er_parts _ _ _ _ He) as (E1 & E2 & E3).
      intros r0 s0 [(_ & Hu & _) | (name & img & len & pt & sz & sp & _ & _ & Hx)].
      - eapply (unexeced_ok i s s0); try done. apply He.
      - eapply (execed_ok i s s0); try done; [apply He |]. by rewrite Hs. }
    unfold wp in Hw. by rewrite E in Hw.
  - pose proof (wait_outcome i fuel addr s Hq Hok Hi Hc Hd Ha) as Hw. unfold wp, switches in Hw. rewrite E in Hw.
    destruct (first_zombie NPROC 0 i s); [tauto |]. destruct (has_child i s (seq 0 NPROC)); [done |].
    destruct Hw as (_ & y & _ & ->). by apply (elsewhere_ok s).
  - pose proof (wait_outcome i fuel addr s Hq Hok Hi Hc Hd Ha) as Hw. unfold wp, switches in Hw. rewrite E in Hw.
    destruct (first_zombie NPROC 0 i s); [done |]. destruct (has_child i s (seq 0 NPROC)); [| done].
    destruct Hw as (_ & Hs & _). by eapply sleeping_ok.
  - assert (Hw : switches (@kexit Z status) (fun s' _ => procs_ok s') s).
    { apply (switches_kexit i s Hq Hok Hi); [done | done |]. intros. by eapply exited_ok. }
    unfold switches in Hw. by rewrite E in Hw.
  - by eapply taken_back_ok.
Qed.

Lemma ran_ok s s' : ran s s' -> procs_ok s -> procs_ok s'.
Proof. intros [Hc | He]; [by apply called_ok | by apply elsewhere_ok]. Qed.
End Ran.

(** * Properties *)

(** C11 (the process table stays sound): after any number of calls of [fork],
    [kexec], [wait] and [kexit], successful or not, by any processes and in any
    order, with the scheduler and user programs in between, every slot's trap
    frame, kernel stack and address space are pages in use, no page belongs to
    two slots, and an unused slot holds nothing. *)
Theorem procs_ok_invariant `{L : Layout} {HL : LayoutOk L} `{KSyms, Initcode, Frames, CallFrames} s s' :
  rtc ran s s' -> procs_ok s -> procs_ok s'.
Proof. induction 1 as [| s s1 s' Hr _ IH]; [done |]. intros Hok. apply IH. by eapply ran_ok. Qed.

(** Slot 1 exits, and its child is handed to init. *)
Lemma procs_ok_invariant_witness : exists s' k, @kexit Z 5 exit_demo = Swtch s' k /\ procs_ok s'.
Proof.
  assert (Hi : can_exit 1 exit_demo) by (split; [unfold NPROC; lia | done | done | done]).
  assert (Hs : switches (@kexit Z 5) (fun s' _ => exited 1 5 exit_demo s') exit_demo).
  { by apply (switches_kexit 1 exit_demo exit_demo_quiet exit_demo_ok Hi 5 _ eq_refl eq_refl). }
  destruct (switches_run _ _ _ Hs) as (s' & k & E & _). exists s', k. split; [exact E |].
  apply (procs_ok_invariant (H := demo_syms) (H0 := demo_initcode) (H1 := demo_frames) (H2 := exec_frames) exit_demo s');
    [| exact exit_demo_ok].
  apply rtc_once. left. exact (called_kexit 1 5 k exit_demo s' exit_demo_quiet eq_refl eq_refl Hi E).
Defined.
