(* ===== verification/Vectors.v ===== *)
(** The words of the trap frames that lead back into the kernel: [uvmfirst]
    writes them for the first process, and [fork], [kexec], [wait], [kexit] and
    the scheduler keep them for every process there is. *)
From S2P Require Import Prelude Machine Csr KPrint Spinlock Printf Mem Vm PageTable KernelMap UserMem UserSpace Took Exec ExecProofs Proc ProcProofs SchedProofs UvmCopy ProcAlloc ProcTable Fork Exit Scheduler Wait Syscall ExecStack Kexec Lifecycle Asm AsmTrap UserReturn.

(** Every slot with a trap frame has the words [K] in it. *)
Definition vectors (K : kwords) (s : kstate) : Prop :=
  forall j, (j < NPROC)%nat -> p_tf (get_proc s j) <> 0 -> kwords_at (mem s) (p_tf (get_proc s j)) = K.

(** Where the words are. *)
Definition kword (tf a : Z) : Prop := tf + tf_k_trap <= a < tf + tf_epc.

(** Slots keep their frames, or have none, and the frames keep the words. *)
Definition words_kept (s s' : kstate) : Prop :=
  forall j, (j < NPROC)%nat -> p_tf (get_proc s' j) <> 0 -> p_tf (get_proc s' j) = p_tf (get_proc s j) /\
    forall a, kword (p_tf (get_proc s j)) a -> load8 (mem s') a = load8 (mem s) a.

Lemma vectors_kept K s s' : words_kept s s' -> vectors K s -> vectors K s'.
Proof.
  intros Hk Hv j Hj Htf. destruct (Hk j Hj Htf) as [E Hm]. rewrite E in *. rewrite (kwords_ext (mem s)); [by apply Hv |].
  exact Hm.
Qed.

Lemma kword_page tf a : kword tf a -> in_page tf a.
Proof. unfold kword, in_page, tf_k_trap, tf_epc, PAGE_SIZE. lia. Qed.

(** The frame is a page of the slot's. *)
Lemma tf_page s p : holds s p -> p_tf p <> 0 -> owns s p (p_tf p) /\ owned s (p_tf p).
Proof. intros Hh H0. split; [by left; left | by apply Hh]. Qed.

(** * Call by call *)

Section Calls.
Context (s s' : kstate) (Hok : procs_ok s).

Lemma slot_page j : (j < NPROC)%nat -> p_tf (get_proc s j) <> 0 ->
  owns s (get_proc s j) (p_tf (get_proc s j)) /\ owned s (p_tf (get_proc s j)).
Proof. intros Hj. apply tf_page. by apply (pk_holds _ Hok). Qed.

Lemma unspawned_words : unspawned s s' -> words_kept s s'.
Proof.
  intros [Hk _ Hs] j Hj Htf. destruct (Hs j) as [E | (_ & _ & Hb)]; [| by destruct Htf; apply Hb].
  rewrite E in *. split; [done |]. intros a Ha. destruct (slot_page j Hj Htf) as [_ Ho].
  by apply (took_page _ _ _ _ a Hk Ho), kword_page.
Qed.

Lemma forked_words `{KSyms} i n K : (i < NPROC)%nat -> p_tf (get_proc s i) <> 0 -> forked i n s s' ->
  vectors K s -> vectors K s'.
Proof.
  intros Hi Hti Hf Hv j Hj Htf. pose proof (fk_took _ _ _ _ Hf) as Ht. destruct (decide (j = n)) as [-> | Hne].
  - rewrite <- (Hv i Hi Hti). unfold kwords_at, load32.
    assert (Hb : forall k, tf_k_trap <= k < tf_epc ->
      load8 (mem s') (p_tf (get_proc s' n) + k) = load8 (mem s) (p_tf (get_proc s i) + k)).
    { intros k Hk. rewrite (fk_frame _ _ _ _ Hf k) by tf_lia. rewrite decide_False; [done | tf_lia]. }
    rewrite <- !Z.add_assoc. rewrite !Hb by tf_lia. done.
  - rewrite (fk_rest _ _ _ _ Hf j Hne) in *. rewrite (kwords_ext (mem s)); [by apply Hv |]. intros a Ha.
    destruct (slot_page j Hj Htf) as [_ Ho]. by apply (took_page _ _ _ _ a Ht Ho), kword_page.
Qed.

Lemma gave_back_words B : gave_back B s (set_sy (sy s) s') ->
  (forall j, (j < NPROC)%nat -> p_tf (get_proc s' j) <> 0 -> p_tf (get_proc s' j) = p_tf (get_proc s j) /\
     ~ B (p_tf (get_proc s j))) -> words_kept s s'.
Proof.
  intros Hg Hs j Hj Htf. destruct (Hs j Hj Htf) as [E Hn]. split; [done |]. intros a Ha. rewrite E in Htf.
  destruct (slot_page j Hj Htf) as [_ Ho]. exact (gave_back_page _ _ _ _ a Hg Ho Hn (kword_page _ _ Ha)).
Qed.

Lemma taken_back_words z : (z < NPROC)%nat -> taken_back z s s' -> words_kept s s'.
Proof.
  intros Hz [Hs Hg]. eapply gave_back_words; [exact Hg |]. intros j Hj Htf. rewrite Hs in *. case_decide as E.
  - subst j. destruct (orphan_zombie (get_proc s z)); [done |]. split; [done |]. by intros [? _].
  - split; [done |]. intros [_ Ho]. apply E, (pk_apart _ Hok j z (p_tf (get_proc s j))); [done | done | | done].
    by apply slot_page.
Qed.
Lemma told_tf o c : p_tf (told o c) = p_tf c.
Proof. by destruct (told_same o c) as [(-> & _) _]. Qed.

Lemma exited_words i status : can_exit i s -> exited i status s s' -> words_kept s s'.
Proof.
  intros Hi Hx. eapply gave_back_words; [exact (xt_freed _ _ _ _ Hx) |]. intros j Hj.
  destruct (decide (j = i)) as [-> | Hji].
  - rewrite (xt_self _ _ _ _ Hx). cbn [set_state set_xstate set_pt p_tf]. intros Htf. split; [done |].
    destruct (slot_page i Hj Htf) as [Ho _]. intros [Hsp | (_ & j' & [Hj' Hne] & _ & Hb)].
    + destruct (hd_pt _ _ (pk_holds _ Hok i Hj) (cx_pt _ _ Hi)) as (_ & _ & _ & _ & Hd). by destruct (Hd _ Hsp).
    + by apply Hne, (pk_apart _ Hok j' i _ Hj' Hj Hb).
  - rewrite (xt_rest _ _ _ _ Hx j Hj Hji). unfold bereaved. rewrite !told_tf. unfold heir, unclaimed.
    set (reaper := find_reaper NPROC 0 i s). intros Htf.
    assert (Hsame : p_tf (get_proc s j) <> 0 /\ ~ (reaper = None /\ zombie_child i (get_proc s j) = true)).
    { unfold zombie_child. case_bool_decide as Hp; [| split; [done | by intros [_ ?]]].
      destruct reaper; [split; [done | by intros [? _]] |].
      destruct (in_state ZOMBIE (get_proc s j)); [done | split; [done | by intros [_ ?]]]. }
    destruct Hsame as [H0 Hnz]. destruct (slot_page j Hj H0) as [Ho _]. split.
    + case_bool_decide; [| done]. destruct reaper; [done |]. by destruct (in_state ZOMBIE (get_proc s j)).
    + intros [Hsp | (Hr & j' & [Hj' _] & Hzc & Hb)].
      * apply Hji, (pk_apart _ Hok j i _ Hj (cx_slot _ _ Hi) Ho). left. right. split; [apply Hi | done].
      * apply Hnz. split; [done |]. by rewrite <- (pk_apart _ Hok j' j _ Hj' Hj Hb Ho).
Qed.

Section ExecWords.
Context `{CallFrames} (i : nat) (Hi : (i < NPROC)%nat).
Context (Hparts : p_tf (get_proc s i) <> 0 /\ p_pt (get_proc s i) <> 0 /\ kstack (get_proc s i) <> 0).
Context (Hfr : 0 <= fr_ustack /\ fr_ustack + 68 <= PAGE_SIZE).

(** The caller's local array is not in a frame, and the words that [kexec]
    writes to its own are not those of the kernel. *)
Lemma exec_words j a : (j < NPROC)%nat -> p_tf (get_proc s j) <> 0 -> kword (p_tf (get_proc s j)) a ->
  ~ frame_at (kstack (get_proc s i) + fr_ustack) a /\ ~ tf_word (p_tf (get_proc s i)) a.
Proof.
  intros Hj Htf Ha. destruct (slot_page j Hj Htf) as [Ho _].
  destruct (exec_locals i s Hok Hi Hparts Hfr j _ a Hj Ho (kword_page _ _ Ha)) as [H1 H2]. split.
  - intros Hf. destruct (H1 Hf) as [-> E]. destruct (hd_ks _ _ (pk_holds _ Hok i Hi)) as [_ Hne]; [apply Hparts |]. by apply Hne.
  - intros Hw. destruct (H2 Hw) as [-> _]. unfold kword, tf_word in *. tf_lia.
Qed.

Lemma unexeced_words : unexeced i s s' -> words_kept s s'.
Proof.
  intros (Ht & _ & Hpr & _) j Hj. assert (E : get_proc s' j = get_proc s j) by (unfold get_proc; by rewrite Hpr).
  rewrite E. intros Htf. split; [done |]. intros a Ha. destruct (exec_words j a Hj Htf Ha) as [H1 _].
  apply (tk_memx _ _ _ _ Ht); [done |]. intros c Hc Hin. destruct (slot_page j Hj Htf) as [_ Ho].
  apply (owned_not_avail s _ Ho). by rewrite (page_disjoint _ c a (owned_ram _ _ Ho) (avail_ram _ _ Hc) (kword_page _ _ Ha) Hin).
Qed.

Lemma execed_words name args img pt sz sp argc : execed i name args img s pt sz sp argc s' -> words_kept s s'.
Proof.
  intros Hx j Hj Htf.
  assert (E : p_tf (get_proc s' j) = p_tf (get_proc s j)).
  { destruct (decide (j = i)) as [-> | Hne]; [by rewrite (xd_proc _ _ _ _ _ _ _ _ _ _ Hx) |].
    by rewrite (xd_rest _ _ _ _ _ _ _ _ _ _ Hx j Hne). }
  rewrite E in Htf. split; [done |]. intros a Ha. destruct (slot_page j Hj Htf) as [Ho Hw].
  destruct (exec_words j a Hj Htf Ha) as [H1 H2].
  apply (xd_mem _ _ _ _ _ _ _ _ _ _ Hx (p_tf (get_proc s j))); [done | | by apply kword_page | done | done].
  intros Hsp. assert (j = i) as ->.
  { apply (pk_apart _ Hok j i _ Hj Hi Ho). left. right. split; [apply Hparts | done]. }
  destruct (hd_pt _ _ (pk_holds _ Hok i Hi)) as (_ & _ & _ & _ & Hd); [apply Hparts |]. by destruct (Hd _ Hsp).
Qed.
End ExecWords.

Section WaitWords.
Context `{Frames} (i z : nat) (addr : Z) (Hi : can_wait i s) (Haddr : 0 <= addr < U32).

Lemma refused_words : refused i z addr s s' -> words_kept s s'.
Proof.
  intros [Hs (_ & k & Hk & Hend & _ & Hg) Hf] j Hj. rewrite Hs. intros Htf. split; [done |]. intros a Ha.
  destruct Hi as [I1 I2 I3 I4 I5 I6].
  exact (given_frame i s Hok I1 I3 I4 I5 fr_xstate I6 addr _ k (mem s') (proj1 Haddr) Hend Hg j a Hj Htf (kword_page _ _ Ha)).
Qed.

Lemma reaped_words : (z < NPROC)%nat -> reaped i z addr s s' -> words_kept s s'.
Proof.
  intros Hz [Hs (m1 & Hso & Hgb) Hend _] j Hj. rewrite Hs. case_decide as E; [done |]. intros Htf. split; [done |]. intros a Ha.
  destruct (slot_page j Hj Htf) as [Ho Hw]. pose proof (kword_page _ _ Ha) as Hin.
  rewrite (gave_back_page _ _ _ (p_tf (get_proc s j)) a Hgb); [| exact Hw | | done].
  - cbn [mem set_mem]. unfold status_out in Hso. destruct (addr =? 0) eqn:E0; zbool; [by rewrite Hso |].
    destruct Hi as [I1 I2 I3 I4 I5 I6].
    exact (given_frame i s Hok I1 I3 I4 I5 fr_xstate I6 addr _ 4 m1 (proj1 Haddr) (Hend E0) Hso j a Hj Htf Hin).
  - intros Hc. by apply E, (pk_apart _ Hok j z _ Hj Hz Ho).
Qed.
End WaitWords.
End Calls.

(** * Runs *)

(** As [ran] of Lifecycle, of processes in the table; what happens elsewhere,
    user code, traps and the return from them, keeps the words: [user_cycle]
    shows which bytes of a frame the trap path writes. *)
Definition lived `{Layout, KSyms, Initcode, Frames, CallFrames} (s s' : kstate) : Prop :=
  called s s' /\ (forall i, cpu_proc (get_cpu (sy s)) = Some i -> (i < NPROC)%nat) \/
  elsewhere s s' /\ words_kept s s'.

Section Lived.
Context `{L : Layout} {HL : LayoutOk L} `{KSyms, Initcode, Frames, CallFrames}.

Lemma elsewhere_words s s' : mem s' = mem s -> (forall j, p_tf (get_proc s' j) = p_tf (get_proc s j)) -> words_kept s s'.
Proof. intros Hm Hp j _ _. by rewrite Hm. Qed.

Lemma called_vectors K s s' : called s s' -> (forall i, cpu_proc (get_cpu (sy s)) = Some i -> (i < NPROC)%nat) ->
  procs_ok s -> vectors K s -> vectors K s'.
Proof.
  intros Hr Hcur Hok Hv. destruct Hr as [i r s s' Hq Hc Hi Hp E | i path args r s s' Hq Hc Hi Hs He E
    | i fuel addr r s s' Hq Hc Hd Hi Ha E | i fuel addr k s s' Hq Hc Hd Hi Ha E | i status k s s' Hq Hc Hd Hi E | z s s' Hz Htb].
  - assert (Hw : wp fork (fun _ s' => vectors K s') s).
    { apply (wp_fork s i); try done; [apply Hok | |]; intros.
      - by eapply vectors_kept; [apply unspawned_words |].
      - by eapply (forked_words s); [| apply Hcur | apply Hi | |]. }
    unfold wp in Hw. by rewrite E in Hw.
  - assert (Hw : wp (kexec path args) (fun _ s' => vectors K s') s).
    { eapply wp_mono; [by apply (wp_kexec i path args s) |]. pose proof (er_parts _ _ _ _ He) as Hparts.
      pose proof (er_frame _ _ _ _ He) as Hfr.
      intros r0 s0 [(_ & Hu & _) | (name & img & len & pt & sz & sp & _ & _ & Hx)]; eapply vectors_kept; [| done | | done].
      - by eapply unexeced_words.
      - by eapply execed_words. }
    unfold wp in Hw. by rewrite E in Hw.
  - pose proof (wait_outcome i fuel addr s Hq Hok Hi Hc Hd Ha) as Hw. unfold wp, switches in Hw. rewrite E in Hw.
    destruct (first_zombie NPROC 0 i s) as [z |] eqn:Ez.
    + destruct (first_zombie_some _ _ _ _ _ Ez) as [[_ Hz] _]. eapply vectors_kept; [| done].
      destruct Hw as (_ & _ & [[_ Hx] | [_ Hx]]); 
        [by apply (reaped_words s s' Hok i z addr Hi Ha) | by apply (refused_words s s' Hok i z addr Hi Ha)].
    + destruct (has_child i s (seq 0 NPROC)); [done |]. destruct Hw as (_ & y & _ & ->). exact Hv.
  - pose proof (wait_outcome i fuel addr s Hq Hok Hi Hc Hd Ha) as Hw. unfold wp, switches in Hw. rewrite E in Hw.
    destruct (first_zombie NPROC 0 i s); [done |]. destruct (has_child i s (seq 0 NPROC)); [| done].
    destruct Hw as (_ & [Hf Hs] & _). eapply vectors_kept; [| done]. apply elsewhere_words; [exact (pf_mem _ _ Hf) |].
    intros j. rewrite Hs. by case_decide as Ej; [subst j |].
  - assert (Hw : switches (@kexit Z status) (fun s' _ => vectors K s') s).
    { apply (switches_kexit i s Hq Hok Hi); [done | done |]. intros. eapply vectors_kept; [by eapply exited_words | done]. }
    unfold switches in Hw. by rewrite E in Hw.
  - eapply vectors_kept; [by eapply taken_back_words | done].
Qed.
End Lived.

(** C12 (every process's next trap finds the kernel): if every trap frame names
    the same trap vector, kernel page table and handler, then it still does
    after any number of calls of [fork], [kexec], [wait] and [kexit],
    successful or not, by any processes and in any order: a child's frame has
    its parent's words, and nobody's are overwritten by a copy to or from user
    memory, by a program's image, by its arguments or by a page that changes
    hands. *)
Theorem vectors_invariant `{L : Layout} {HL : LayoutOk L} `{KSyms, Initcode, Frames, CallFrames} K s s' :
  rtc lived s s' -> procs_ok s -> vectors K s -> procs_ok s' /\ vectors K s'.
Proof.
  induction 1 as [| s s1 s' Hr _ IH]; [done |]. intros Hok Hv. apply IH.
  - apply (ran_ok s); [| done]. destruct Hr as [[Hc _] | [He _]]; [by left | by right].
  - destruct Hr as [[Hc Hcur] | [_ Hw]]; [by apply (called_vectors K s s1) | by apply (vectors_kept K s)].
Qed.

(** Slot 1 exits. *)
Lemma vectors_invariant_witness : exists s' k, @kexit Z 5 exit_demo = Swtch s' k /\
  vectors (kwords_at (mem exit_demo) 0x80007000) s'.
Proof.
  assert (Hi : can_exit 1 exit_demo) by (split; [unfold NPROC; lia | done | done | done]).
  assert (Hs : switches (@kexit Z 5) (fun s' _ => exited 1 5 exit_demo s') exit_demo).
  { by apply (switches_kexit 1 exit_demo exit_demo_quiet exit_demo_ok Hi 5 _ eq_refl eq_refl). }
  destruct (switches_run _ _ _ Hs) as (s' & k & E & _). exists s', k. split; [exact E |].
  apply (vectors_invariant (H := demo_syms) (H0 := demo_initcode) (H1 := demo_frames) (H2 := exec_frames)
    (kwords_at (mem exit_demo) 0x80007000) exit_demo s'); [| exact exit_demo_ok |].
  - apply rtc_once. left. split; [exact (called_kexit 1 5 k exit_demo s' exit_demo_quiet eq_refl eq_refl Hi E) |].
    intros i Hc. vm_compute in Hc. injection Hc as <-. unfold NPROC. lia.
  - intros j Hj Htf. destruct (decide (j = 1%nat)) as [-> | Hne]; [reflexivity |].
    destruct (exit_demo_slot j Hj Hne) as (E0 & _). by destruct (Htf E0).
Defined.
