(* ===== verification/ProcSpec.v ===== *)
(** What the process calls promise: an abstract table of processes, in the
    manner of a Unix manual page, which the kernel's table refines.

    An abstract process has a pid, a parent, perhaps an exit status, and memory:
    for each access and address, the byte that the program finds there, if the
    access is allowed. There are no pages, locks, frames or free lists. Every
    call of [fork], [kexec], [wait] and [kexit] is one step of this machine,
    or none. *)
From S2P Require Import Prelude Machine Csr KPrint Spinlock Printf Mem Vm PageTable KernelMap UserMem UserSpace Took Exec ExecProofs Proc ProcProofs SchedProofs UvmCopy ProcAlloc ProcTable Fork Exit Scheduler Wait Syscall ExecStack Kexec Lifecycle.

(** * The abstract machine *)

(** [a_mem need v]: the byte at [v] for accesses that need [need]. *)
Record aproc := mk_aproc {
  a_pid : Z;
  a_parent : option nat;
  a_status : option Z;      (* of a process that has exited *)
  a_mem : Z -> Z -> option Z
}.

Definition astate := nat -> option aproc.

(** Memories are compared pointwise. *)
#[global] Instance aproc_equiv : Equiv aproc := fun p q =>
  a_pid p = a_pid q /\ a_parent p = a_parent q /\ a_status p = a_status q /\ forall need v, a_mem p need v = a_mem q need v.

#[global] Instance aproc_equivalence : Equivalence (≡@{aproc}).
Proof.
  split.
  - by intros p.
  - intros p q (? & ? & ? & Hm). split_and!; [done | done | done |]. intros. symmetry. apply Hm.
  - intros p q r (? & ? & ? & Hm) (? & ? & ? & Hm'). split_and!; [congruence.. |]. intros. by rewrite Hm.
Qed.

Definition with_mem (m : Z -> Z -> option Z) (p : aproc) : aproc := mk_aproc (a_pid p) (a_parent p) (a_status p) m.

(** The children of [i] when it has exited: they are [heir]'s; without one, the
    dead among them are gone. *)
Definition inherit (i : nat) (heir : option nat) (c : aproc) : option aproc :=
  if decide (a_parent c = Some i) then
    match heir, a_status c with
    | None, Some _ => None
    | _, _ => Some (mk_aproc (a_pid c) heir (a_status c) (a_mem c))
    end
  else Some c.

(** Whom the children of [i] go to: the live process with pid 1, if there is
    one other than [i]. *)
Definition is_heir (i : nat) (a : astate) (heir : option nat) : Prop :=
  match heir with
  | Some r => r <> i /\ forall q, a r = Some q -> a_pid q = 1 /\ a_status q = None
  | None => forall r q, r <> i -> a r = Some q -> ~ (a_pid q = 1 /\ a_status q = None)
  end.

(** Memory in which only the bytes from [addr] to [addr + k] may differ. *)
Definition written_at (addr k : Z) (m m' : Z -> Z -> option Z) : Prop :=
  forall need v, ~ (addr <= v < addr + k) -> m' need v = m need v.

(** One step; [who] is the process that runs, if any. *)
Inductive astep (who : option nat) (a a' : astate) : Prop :=
  | as_none : (forall j, a' j ≡ a j) -> astep who a a'
  | as_fork i n p id : who = Some i -> a i = Some p -> a n = None -> a' n ≡ Some (mk_aproc id (Some i) None (a_mem p)) ->
      (forall j, j <> n -> a' j ≡ a j) -> astep who a a'
  | as_exec i p m : who = Some i -> a i = Some p -> a' i ≡ Some (with_mem m p) -> (forall j, j <> i -> a' j ≡ a j) ->
      astep who a a'
  | as_exit i p status heir : who = Some i -> a i = Some p -> a_status p = None -> is_heir i a heir ->
      a' i ≡ Some (mk_aproc (a_pid p) (a_parent p) (Some status) (fun _ _ => None)) ->
      (forall j, j <> i -> a' j ≡ (a j ≫= inherit i heir)) -> astep who a a'
  | as_reap i z p c m addr status : who = Some i -> a i = Some p -> a z = Some c -> a_parent c = Some i ->
      a_status c = Some status -> written_at addr 4 (a_mem p) m ->
      (addr <> 0 -> forall j, 0 <= j < 4 -> m PTE_W (addr + j) = Some (word_byte status j)) ->
      (addr = 0 -> forall need v, m need v = a_mem p need v) ->
      a' z = None -> a' i ≡ Some (with_mem m p) -> (forall j, j <> i -> j <> z -> a' j ≡ a j) -> astep who a a'
  | as_fault i p m addr : who = Some i -> a i = Some p -> written_at addr 4 (a_mem p) m ->
      a' i ≡ Some (with_mem m p) -> (forall j, j <> i -> a' j ≡ a j) -> astep who a a'
  | as_gone z c status : a z = Some c -> a_parent c = None -> a_status c = Some status -> a' z = None ->
      (forall j, j <> z -> a' j ≡ a j) -> astep who a a'
  | as_store i p m : who = Some i -> a i = Some p -> (forall need v, m need v <> None <-> a_mem p need v <> None) ->
      (forall need v, m need v <> a_mem p need v -> a_mem p PTE_W v <> None) ->
      a' i ≡ Some (with_mem m p) -> (forall j, j <> i -> a' j ≡ a j) -> astep who a a'.

(** * The kernel's table as an abstract one *)

#[global] Instance image_or_stack_dec size v : Decision (image_or_stack size v).
Proof. unfold image_or_stack. apply _. Defined.

Definition umem (m : gmap Z Z) (p : proc) (need v : Z) : option Z :=
  if decide ((p_pt p <> 0 /\ 0 <= v < U32) /\ 0 <= need < 1024 /\ image_or_stack (p_sz p) v) then
    let pa := user_pa m (p_pt p) need v in if pa =? 0 then None else Some (load8 m pa)
  else None.

Definition aproc_of (m : gmap Z Z) (p : proc) : option aproc :=
  if in_state UNUSED p then None
  else Some (mk_aproc (pid p) (parent p) (if in_state ZOMBIE p then Some (xstate p) else None) (umem m p)).

Definition abs (s : kstate) : astate := fun j =>
  if decide (j < NPROC)%nat then aproc_of (mem s) (get_proc s j) else None.

(** ** Memory that does not change *)

(** The pages of [p]'s space keep their bytes. *)
Definition space_kept (s s' : kstate) (p : proc) : Prop :=
  forall b a, p_pt p <> 0 -> space s (p_pt p) (p_sz p) b -> in_page b a -> load8 (mem s') a = load8 (mem s) a.

Lemma user_pa_space s p need v : holds s p -> p_pt p <> 0 -> 0 <= v < U32 -> image_or_stack (p_sz p) v ->
  user_pa (mem s) (p_pt p) need v <> 0 ->
  exists b, space s (p_pt p) (p_sz p) b /\ ~ table (mem s) (p_pt p) b /\ in_page b (user_pa (mem s) (p_pt p) need v).
Proof.
  intros Hh H0 Hv Hi Hn. destruct (hd_pt _ _ Hh H0) as (Hwf & Hok & _). unfold user_pa in *.
  set (e := pte_at (mem s) (p_pt p) v) in *. destruct (allows e need) eqn:Ha; [| done].
  pose proof (allows_valid e (allows_user _ _ Ha)) as Hval. destruct (po_owned _ _ _ Hok v Hv Hi Hval) as [Ho Hnt].
  fold e in Ho, Hnt. exists (PTE2PA e). split_and!; [left; by exists v | done |].
  apply owned_ram in Ho. destruct Ho. rewrite u32_small; unfold in_page, PAGE_SIZE, MEM_START, MEM_END, U32 in *; zlia.
Qed.

Lemma umem_kept s s' p need v : holds s p -> space_kept s s' p -> umem (mem s') p need v = umem (mem s) p need v.
Proof.
  intros Hh Hk. unfold umem. case_decide as Hd; [| done]. destruct Hd as ([H0 Hv] & Hn & Hi).
  assert (Hst : same_tables (mem s) (mem s') (p_pt p)) by (intros t a Ht Ha; by apply (Hk t); [| right |]).
  rewrite (same_tables_user_pa (mem s)) by done. cbv zeta. destruct (user_pa _ _ _ _ =? 0) eqn:E; [done |].
  apply Z.eqb_neq in E. destruct (user_pa_space s p need v Hh H0 Hv Hi E) as (b & Hb & _ & Hin). f_equal. by apply (Hk b).
Qed.

Lemma user_pa_plain m pt need v : user_pa m pt need v <> 0 -> user_pa m pt 0 v = user_pa m pt need v.
Proof. unfold user_pa. destruct (allows _ need) eqn:E; [| done]. by rewrite (allows_user _ _ E). Qed.

(** Only the fields that count. *)
Record same_proc (p q : proc) : Prop := {
  sp_pages : same_pages p q;
  sp_pid : pid q = pid p;
  sp_parent : parent q = parent p;
  sp_xstate : xstate q = xstate p;
  sp_unused : p_state q = UNUSED <-> p_state p = UNUSED;
  sp_zombie : p_state q = ZOMBIE <-> p_state p = ZOMBIE
}.

Lemma in_state_iff st p q : (p_state q = st <-> p_state p = st) -> in_state st q = in_state st p.
Proof. intros H. unfold in_state. by apply bool_decide_ext. Qed.

Lemma umem_same_pages m p q need v : same_pages p q -> umem m q need v = umem m p need v.
Proof. intros (_ & Hp & _ & Hz). unfold umem. by rewrite Hp, Hz. Qed.

Lemma aproc_kept s s' p q : holds s p -> space_kept s s' p -> same_proc p q -> aproc_of (mem s') q ≡ aproc_of (mem s) p.
Proof.
  intros Hh Hk [S1 S2 S3 S4 S5 S6]. unfold aproc_of. rewrite !(in_state_iff _ p q) by done.
  destruct (in_state UNUSED p); [done |]. constructor. split_and!; cbn; [done | done | by rewrite S4 |].
  intros need v. rewrite (umem_same_pages _ p q) by done. by apply umem_kept.
Qed.

#[global] Instance same_proc_refl : Reflexive same_proc.
Proof. intros p. by split. Qed.

(** * Call by call *)

Lemma took_space D s s' p : took D s s' -> holds s p -> space_kept s s' p.
Proof.
  intros Ht Hh b a H0 Hb Ha. apply (took_page _ _ _ b a Ht); [| done]. apply (owns_owned s p); [done |]. left. by right.
Qed.

Lemma gave_back_space B s s' p : gave_back B s (set_sy (sy s) s') -> holds s p -> (forall b, owns s p b -> ~ B b) ->
  space_kept s s' p.
Proof.
  intros Hg Hh Hn b a H0 Hb Ha. assert (Ho : owns s p b) by (left; by right).
  exact (gave_back_page _ _ _ b a Hg (owns_owned _ _ _ Hh Ho) (Hn b Ho) Ha).
Qed.

Lemma told_proc o p : same_proc p (told o p).
Proof.
  unfold told, woken, in_state. destruct o as [r |]; [| done].
  destruct (bool_decide (p_chan p = ChanProc r)); [| done]. cbn [andb]. case_bool_decide as Hw; [| done].
  split; cbn; [done | done | done | done | |]; rewrite Hw; split; discriminate.
Qed.

Lemma aproc_same m p q : same_proc p q -> aproc_of m q ≡ aproc_of m p.
Proof.
  intros [S1 S2 S3 S4 S5 S6]. unfold aproc_of. rewrite !(in_state_iff _ p q) by done. destruct (in_state UNUSED p); [done |].
  constructor. split_and!; cbn; [done | done | by rewrite S4 |]. intros need v. by apply umem_same_pages.
Qed.

Lemma find_reaper_none i s k : forall q, find_reaper k q i s = None ->
  forall r, (q <= r < q + k)%nat -> r <> i -> pid (get_proc s r) = 1 -> ~ p_state (get_proc s r) <> ZOMBIE.
Proof.
  induction k as [| k IH]; intros q; cbn [find_reaper]; [lia |]. destruct (_ && _) eqn:E; [done |]. intros Hn r Hr Hne Hp Hz.
  destruct (decide (r = q)) as [-> | Hq]; [| by apply (IH _ Hn r); [lia | ..]].
  unfold in_state in E. rewrite bool_decide_false in E by done. rewrite Hp in E. cbn in E.
  by destruct (Nat.eqb_spec q i).
Qed.

#[local] Instance inherit_proper i o : Proper ((≡) ==> (≡)) (inherit i o).
Proof.
  intros p q Hpq. pose proof Hpq as (E1 & E2 & E3 & Hm). unfold inherit. rewrite E2, E3.
  case_decide; [| by constructor]. destruct o, (a_status q); (done || by constructor).
Qed.

#[local] Instance bind_inherit_proper i o : Proper ((≡) ==> (≡)) (fun x => x ≫= inherit i o).
Proof. intros [p |] [q |] Hpq; inversion Hpq; [by apply inherit_proper | done]. Qed.

(** [heir] does to a slot what [inherit] does to a process. *)
Lemma aproc_heir m i o c : aproc_of m (heir i o c) ≡ (aproc_of m c ≫= inherit i o).
Proof.
  unfold heir, inherit, aproc_of. case_bool_decide as Hp.
  - assert (Hi : forall st r, in_state st (set_parent r c) = in_state st c) by done.
    destruct (in_state ZOMBIE c) eqn:Hz, o as [r |]; rewrite ?Hi, ?Hz; destruct (in_state UNUSED c) eqn:Hu; cbn;
      rewrite ?decide_True by done; cbn; try done; by constructor.
  - destruct (in_state UNUSED c); [done |]. cbn. by rewrite decide_False.
Qed.

Lemma inherit_unclaimed m i c : zombie_child i c = true -> aproc_of m c ≫= inherit i None = None.
Proof.
  unfold zombie_child. rewrite andb_true_iff, bool_decide_eq_true. intros [Hp Hz]. unfold aproc_of. rewrite Hz.
  destruct (in_state UNUSED c); [done |]. cbn. unfold inherit. by rewrite decide_True.
Qed.

Section Steps.
Context (s s' : kstate) (Hok : procs_ok s).

Lemma abs_kept j : ((j < NPROC)%nat -> space_kept s s' (get_proc s j) /\ same_proc (get_proc s j) (get_proc s' j)) ->
  abs s' j ≡ abs s j.
Proof.
  intros H. unfold abs. case_decide as Hj; [| done]. destruct (H Hj). apply aproc_kept; [by apply (pk_holds _ Hok) | done | done].
Qed.

Lemma abs_some j : (j < NPROC)%nat -> p_state (get_proc s j) <> UNUSED ->
  abs s j = Some (mk_aproc (pid (get_proc s j)) (parent (get_proc s j))
    (if in_state ZOMBIE (get_proc s j) then Some (xstate (get_proc s j)) else None) (umem (mem s) (get_proc s j))).
Proof.
  intros Hj Hu. unfold abs. rewrite decide_True by done. unfold aproc_of, in_state at 1. by rewrite bool_decide_false.
Qed.

Lemma abs_unused t j : p_state (get_proc t j) = UNUSED -> abs t j = None.
Proof. intros Hu. unfold abs. case_decide; [| done]. unfold aproc_of, in_state at 1. by rewrite bool_decide_true. Qed.

Lemma unspawned_spec who : unspawned s s' -> astep who (abs s) (abs s').
Proof.
  intros [Hk _ Hs]. apply as_none. intros j. destruct (Hs j) as [E | (Hu & Hu' & _)].
  - apply abs_kept. intros Hj. rewrite E. split; [| done]. by apply (took_space _ _ _ _ Hk), (pk_holds _ Hok).
  - by rewrite !abs_unused.
Qed.

Lemma forked_spec `{KSyms} i n : (i < NPROC)%nat -> p_state (get_proc s i) <> UNUSED -> p_pt (get_proc s i) <> 0 ->
  forked i n s s' -> astep (Some i) (abs s) (abs s').
Proof.
  intros Hi Hu Hpt Hf. destruct (fk_slot _ _ _ _ Hf) as [Hn Hun]. pose proof (fk_took _ _ _ _ Hf) as Ht.
  destruct (fk_proc _ _ _ _ Hf) as (ks & tf & pt & Ep & Htf & Hp0 & Hks).
  eapply (as_fork _ _ _ i n _ (curr_pid s)); [done | by apply abs_some | by apply abs_unused | |].
  - unfold abs. rewrite decide_True by done. unfold aproc_of. rewrite Ep. cbn. constructor. split_and!; [done | done | done |].
    intros need v. unfold umem. cbn [child_of p_pt p_sz a_mem].
    destruct (decide ((pt <> 0 /\ 0 <= v < U32) /\ _)) as [([_ Hv] & Hneed & Him) | Hd].
    + rewrite decide_True by done. pose proof (fk_memory _ _ _ _ Hf v need Hv Him Hneed) as [H0 Hb]. rewrite Ep in H0, Hb.
      cbn [child_of p_pt] in H0, Hb. cbv zeta.
      destruct (user_pa (mem s) _ need v =? 0) eqn:E; [apply Z.eqb_eq in E; by rewrite (proj2 H0 E) |].
      apply Z.eqb_neq in E. assert ((user_pa (mem s') pt need v =? 0) = false) as -> by (apply Z.eqb_neq; tauto). by rewrite Hb.
    + rewrite decide_False; [done |]. intros ([_ Hv] & Hx). apply Hd. done.
  - intros j Hne. apply abs_kept. intros Hj. rewrite (fk_rest _ _ _ _ Hf j Hne). split; [| done].
    by apply (took_space _ _ _ _ Ht), (pk_holds _ Hok).
Qed.

Lemma taken_back_spec who z : (z < NPROC)%nat -> taken_back z s s' -> astep who (abs s) (abs s').
Proof.
  intros Hz [Hs Hg].
  assert (Hkeep : forall j, (j < NPROC)%nat -> j <> z \/ orphan_zombie (get_proc s z) = false -> space_kept s s' (get_proc s j)).
  { intros j Hj Hne. apply (gave_back_space _ _ _ _ Hg); [by apply (pk_holds _ Hok) |]. intros b Hb [Ho Hbz].
    destruct Hne as [Hne |]; [| congruence]. by apply Hne, (pk_apart _ Hok j z b). }
  destruct (orphan_zombie (get_proc s z)) eqn:Eo.
  - unfold orphan_zombie, in_state in Eo. apply andb_true_iff in Eo as [Ez Ep]. apply bool_decide_eq_true in Ez, Ep.
    eapply (as_gone _ _ _ z); [apply abs_some; [done | by rewrite Ez] | done | | |].
    + cbn. unfold in_state. by rewrite bool_decide_true.
    + apply abs_unused. by rewrite Hs, decide_True.
    + intros j Hj. apply abs_kept. intros Hlt. rewrite Hs, decide_False by done. split; [| done]. apply Hkeep; auto.
  - apply as_none. intros j. apply abs_kept. intros Hlt. rewrite Hs. split; [apply Hkeep; auto |]. by case_decide as E; [subst j |].
Qed.
(** ** kexit *)

Lemma is_heir_reaper i : is_heir i (abs s) (find_reaper NPROC 0 i s).
Proof.
  unfold is_heir. destruct (find_reaper NPROC 0 i s) as [r |] eqn:E.
  - destruct (find_reaper_some _ _ _ _ _ E) as (_ & Hne & Hp & Hz). split; [done |]. intros q. unfold abs, aproc_of.
    case_decide; [| done]. destruct (in_state UNUSED _); [done |]. intros [= <-]. unfold in_state. by rewrite bool_decide_false.
  - intros r q Hne. unfold abs, aproc_of. case_decide as Hr; [| done]. destruct (in_state UNUSED _); [done |]. intros [= <-]. cbn.
    intros [Hp Hz]. apply (find_reaper_none _ _ _ _ E r); [lia | done | done |]. intros Hs. unfold in_state in Hz.
    by rewrite bool_decide_true in Hz.
Qed.

Lemma exited_space i status j : can_exit i s -> exited i status s s' -> (j < NPROC)%nat -> j <> i ->
  ~ (find_reaper NPROC 0 i s = None /\ zombie_child i (get_proc s j) = true) -> space_kept s s' (get_proc s j).
Proof.
  intros Hi Hx Hj Hne Hnz. apply (gave_back_space _ _ _ _ (xt_freed _ _ _ _ Hx)); [by apply (pk_holds _ Hok) |].
  intros b Hb [Hsp | (Hr & j' & [Hj' _] & Hzc & Hb')].
  - apply Hne, (pk_apart _ Hok j i b Hj (cx_slot _ _ Hi) Hb). left. right. split; [apply Hi | done].
  - apply Hnz. split; [done |]. by rewrite <- (pk_apart _ Hok j' j b Hj' Hj Hb' Hb).
Qed.

Lemma exited_spec i status : can_exit i s -> exited i status s s' -> astep (Some i) (abs s) (abs s').
Proof.
  intros Hi Hx. pose proof (cx_slot _ _ Hi) as Hil.
  eapply (as_exit _ _ _ i _ status (find_reaper NPROC 0 i s)); [done | apply abs_some; [done |] | | apply is_heir_reaper | |].
  - by rewrite (cx_run _ _ Hi).
  - cbn. unfold in_state. by rewrite (cx_run _ _ Hi).
  - unfold abs. rewrite decide_True by done. rewrite (xt_self _ _ _ _ Hx). constructor. split_and!; [done | done | done |].
    intros need v. cbn. unfold umem. by rewrite decide_False by (intros [[Hp _] _]; done).
  - intros j Hne. unfold abs. case_decide as Hj; [| done]. rewrite (xt_rest _ _ _ _ Hx j Hj Hne). unfold bereaved.
    rewrite (aproc_same _ _ _ (told_proc _ _)), (aproc_same _ _ _ (told_proc _ _)), aproc_heir.
    destruct (decide (find_reaper NPROC 0 i s = None /\ zombie_child i (get_proc s j) = true)) as [[-> Hzc] | Hnz].
    + by rewrite !inherit_unclaimed.
    + pose proof (exited_space i status j Hi Hx Hj Hne Hnz) as Hk.
      by rewrite (aproc_kept s s' (get_proc s j) _ (pk_holds _ Hok j Hj) Hk (reflexivity _)).
Qed.

(** ** kexec *)

Section ExecSpec.
Context `{CallFrames} (i : nat) (Hi : (i < NPROC)%nat).
Context (Hparts : p_tf (get_proc s i) <> 0 /\ p_pt (get_proc s i) <> 0 /\ kstack (get_proc s i) <> 0).
Context (Hfr : 0 <= fr_ustack /\ fr_ustack + 68 <= PAGE_SIZE).

(** The local array and the words of the trap frame are in no space. *)
Lemma exec_space j b a : (j < NPROC)%nat -> p_pt (get_proc s j) <> 0 -> space s (p_pt (get_proc s j)) (p_sz (get_proc s j)) b ->
  in_page b a -> ~ frame_at (kstack (get_proc s i) + fr_ustack) a /\ ~ tf_word (p_tf (get_proc s i)) a.
Proof.
  intros Hj Hp0 Hb Ha. assert (Ho : owns s (get_proc s j) b) by (left; by right).
  destruct (exec_locals i s Hok Hi Hparts Hfr j b a Hj Ho Ha) as [H1 H2].
  destruct (hd_pt _ _ (pk_holds _ Hok j Hj) Hp0) as (_ & _ & _ & _ & Hd). destruct (Hd b Hb) as [D1 D2].
  split; intros Hx; [destruct (H1 Hx) as [-> ->] | destruct (H2 Hx) as [-> ->]]; done.
Qed.

Lemma unexeced_spec who : unexeced i s s' -> astep who (abs s) (abs s').
Proof.
  intros (Ht & _ & Hpr & _). apply as_none. intros j. apply abs_kept. intros Hj.
  assert (E : get_proc s' j = get_proc s j) by (unfold get_proc; by rewrite Hpr). rewrite E. split; [| done].
  intros b a Hp0 Hb Ha. destruct (exec_space j b a Hj Hp0 Hb Ha) as [H1 _]. apply (tk_memx _ _ _ _ Ht); [done |].
  intros c Hc Hin. assert (Ho : owned s b) by (eapply owns_owned; [by apply (pk_holds _ Hok j) | left; by right]).
  apply (owned_not_avail s _ Ho). by rewrite (page_disjoint _ c a (owned_ram _ _ Ho) (avail_ram _ _ Hc) Ha Hin).
Qed.

Lemma execed_spec name args img pt sz sp argc : p_state (get_proc s i) = RUNNING ->
  execed i name args img s pt sz sp argc s' -> astep (Some i) (abs s) (abs s').
Proof.
  intros Hr Hx. pose proof (xd_proc _ _ _ _ _ _ _ _ _ _ Hx) as Ep.
  eapply (as_exec _ _ _ i _ (umem (mem s') (get_proc s' i))); [done | by apply abs_some; [| rewrite Hr] | |].
  - unfold abs. rewrite decide_True by done. rewrite Ep. unfold aproc_of, in_state. cbn. rewrite Hr. by constructor.
  - intros j Hne. apply abs_kept. intros Hj. rewrite (xd_rest _ _ _ _ _ _ _ _ _ _ Hx j Hne). split; [| done].
    intros b a Hp0 Hb Ha. destruct (exec_space j b a Hj Hp0 Hb Ha) as [H1 H2].
    assert (Ho : owns s (get_proc s j) b) by (left; by right).
    apply (xd_mem _ _ _ _ _ _ _ _ _ _ Hx b); [| | done | done | done].
    + by eapply owns_owned; [apply (pk_holds _ Hok j) |].
    + intros Hsp. apply Hne, (pk_apart _ Hok j i b Hj Hi Ho). left. right. split; [apply Hparts | done].
Qed.
End ExecSpec.

(** ** wait *)

Section WaitSpec.
Context `{Frames} (i z : nat) (addr : Z) (Hi : can_wait i s) (Haddr : 0 <= addr < U32).

Lemma waiter_some : abs s i = Some (mk_aproc (pid (get_proc s i)) (parent (get_proc s i)) None (umem (mem s) (get_proc s i))).
Proof.
  rewrite abs_some; [| apply Hi | by rewrite (cw_run _ _ Hi)]. unfold in_state. by rewrite (cw_run _ _ Hi).
Qed.

Section Given.
Context (x k : Z) (m1 : gmap Z Z) (Hk : k <= 4) (Hend : addr + k <= U32).
Context (Hg : status_given (mem s) m1 (p_pt (get_proc s i)) (kstack (get_proc s i) + fr_xstate) addr x k).

(** Nobody else's memory is written to. *)
Lemma given_space j : (j < NPROC)%nat -> j <> i -> space_kept s (set_mem m1 s) (get_proc s j).
Proof.
  intros Hj Hne b a Hp0 Hb Ha. destruct Hi as [I1 I2 I3 I4 I5 I6]. assert (Ho : owns s (get_proc s j) b) by (left; by right).
  apply (given_byte i s Hok I1 I3 I4 I5 fr_xstate I6 addr x k m1 (proj1 Haddr) Hend Hg). intros c Hc _ _ Hin.
  pose proof (owns_page _ _ _ b c a (pk_holds _ Hok j Hj) (pk_holds _ Hok i I1) Ho Hc Ha Hin) as <-.
  by apply Hne, (pk_apart _ Hok j i b).
Qed.

(** The caller's is, in those bytes. *)
Lemma given_written : written_at addr 4 (umem (mem s) (get_proc s i)) (umem m1 (get_proc s i)).
Proof.
  intros need v Hv. destruct Hi as [I1 I2 I3 I4 I5 I6]. pose proof (pk_holds _ Hok i I1) as Hh. set (p := get_proc s i) in *.
  unfold umem. case_decide as Hd; [| done]. destruct Hd as ([H0 Hvr] & Hn & Him).
  pose proof (given_tables i s Hok I1 I3 I4 I5 fr_xstate I6 addr x k m1 (proj1 Haddr) Hend Hg) as Hst.
  rewrite (same_tables_user_pa (mem s)) by done. cbv zeta. destruct (user_pa _ _ _ _ =? 0) eqn:E; [done |].
  apply Z.eqb_neq in E. destruct (user_pa_space s p need v Hh H0 Hvr Him E) as (b & Hb & Hnt & Hin). f_equal.
  apply (sg_frame _ _ _ _ _ _ _ Hg).
  - intros Hl. by apply (local_apart s p Hh I3 I4 fr_xstate I6 b _ Hl Hb).
  - intros j Hj Heq. apply Hv. assert (Hjr : 0 <= addr + j < U32) by lia.
    assert (Hw : user_pa (mem s) (p_pt p) PTE_W (addr + j) <> 0) by (by apply (sg_bytes _ _ _ _ _ _ _ Hg)).
    pose proof (user_pa_plain _ _ _ _ E) as E1. pose proof (user_pa_plain _ _ _ _ Hw) as E2.
    rewrite (user_pa_inj s (p_pt p) (caller_uspace s p Hh I3 I5) 0 v (addr + j)); [lia | done | done | ..]; congruence.
Qed.
End Given.

Lemma refused_spec : refused i z addr s s' -> astep (Some i) (abs s) (abs s').
Proof.
  intros [Hs (_ & k & Hk & Hend & _ & Hg) Hf]. eapply (as_fault _ _ _ i _ (umem (mem s') (get_proc s i)) addr); [done | apply waiter_some | | |].
  - eapply (given_written _ k (mem s')); [lia | done | exact Hg].
  - unfold abs. rewrite decide_True by apply Hi. rewrite Hs. unfold aproc_of, in_state. rewrite (cw_run _ _ Hi). by constructor.
  - intros j Hne. apply abs_kept. intros Hj. rewrite Hs. split; [| done]. by eapply (given_space _ k (mem s') Hend Hg).
Qed.

Section Reaped.
Context (Hz : (z < NPROC)%nat) (Hzc : zombie_child i (get_proc s z) = true) (m1 : gmap Z Z).
Context (Hso : status_out i z addr s m1) (Hend : addr <> 0 -> addr + 4 <= U32).
Context (Hgb : gave_back (owns s (get_proc s z)) (set_mem m1 s) s').

(** The release of the child leaves the others' memory as it is. *)
Lemma reap_kept j : (j < NPROC)%nat -> j <> z -> holds (set_mem m1 s) (get_proc s j) /\ space_kept (set_mem m1 s) s' (get_proc s j).
Proof.
  intros Hj Hne. destruct (status_out_ok i z addr s Hok Hi Hz Haddr m1 Hso Hend) as (Hok1 & _ & Hown).
  pose proof (pk_holds _ Hok1 j Hj) as Hh. split; [done |]. intros b a Hp0 Hb Ha.
  assert (Ho : owns (set_mem m1 s) (get_proc s j) b) by (left; by right).
  apply (gave_back_page _ _ _ b a Hgb); [by eapply owns_owned | | done].
  intros Hbz. apply Hne, (pk_apart _ Hok j z b); [done | done | by apply Hown | done].
Qed.

Lemma reap_others j : j <> i -> j <> z -> get_proc s' j = get_proc s j -> abs s' j ≡ abs s j.
Proof.
  intros Hji Hjz E. unfold abs. case_decide as Hj; [| done]. rewrite E. destruct (reap_kept j Hj Hjz) as [Hh Hk].
  rewrite (aproc_kept _ _ _ _ Hh Hk (reflexivity _)). apply aproc_kept; [by apply (pk_holds _ Hok) | | done].
  unfold status_out in Hso. destruct (addr =? 0) eqn:E0; zbool; [by rewrite Hso |]. by eapply (given_space _ 4 m1 (Hend E0) Hso).
Qed.

Lemma reap_mem need v : umem (mem s') (get_proc s i) need v = umem m1 (get_proc s i) need v.
Proof.
  pose proof (zombie_not_caller i z s Hi Hz Hzc) as Hne. destruct (reap_kept i (cw_slot _ _ Hi) (not_eq_sym Hne)) as [Hh Hk].
  exact (umem_kept _ _ _ need v Hh Hk).
Qed.
End Reaped.

(** The word is where the program finds it. *)
Lemma umem_user m p need v : p_pt p <> 0 -> 0 <= v < U32 -> 0 <= need < 1024 -> image_or_stack (p_sz p) v ->
  user_pa m (p_pt p) need v <> 0 -> umem m p need v = Some (load8 m (user_pa m (p_pt p) need v)).
Proof. intros. unfold umem. rewrite decide_True by done. cbv zeta. by rewrite (proj2 (Z.eqb_neq _ _)). Qed.

Lemma reaped_spec : (z < NPROC)%nat -> zombie_child i (get_proc s z) = true -> reaped i z addr s s' -> astep (Some i) (abs s) (abs s').
Proof.
  intros Hz Hzc [Hs (m1 & Hso & Hgb) Hend Hst]. pose proof (zombie_not_caller i z s Hi Hz Hzc) as Hne.
  assert (Hzs : get_proc s' z = released (get_proc s z)) by (by rewrite Hs, decide_True).
  pose proof (reap_mem Hz Hzc m1 Hso Hend Hgb) as Hm. pose proof (reap_others Hz m1 Hso Hend Hgb) as Ho.
  pose proof Hzc as Hc. unfold zombie_child in Hc. apply andb_true_iff in Hc as [Hp Hzz]. apply bool_decide_eq_true in Hp.
  pose proof Hzz as Hzs'. unfold in_state in Hzs'. apply bool_decide_eq_true in Hzs'.
  eapply (as_reap _ _ _ i z _ _ (umem (mem s') (get_proc s i)) addr (xstate (get_proc s z))); [done | apply waiter_some | | | | | | | | |].
  - by apply abs_some; [| rewrite Hzs'].
  - done.
  - cbn. by rewrite Hzz.
  - intros need v Hv. rewrite Hm. unfold status_out in Hso. destruct (addr =? 0) eqn:E0; zbool; [by rewrite Hso |].
    by eapply (given_written _ 4 m1 ltac:(lia) (Hend E0) Hso).
  - intros E0 j Hj. destruct (Hst E0 j Hj) as [Hn <-]. specialize (Hend E0).
    apply umem_user; [apply Hi | lia | done | | done].
    unfold status_out in Hso. rewrite (proj2 (Z.eqb_neq addr 0) E0) in Hso. apply (cw_user _ _ Hi); [lia |].
    destruct (sg_bytes _ _ _ _ _ _ _ Hso j Hj) as [Hw _]. unfold user_pa in Hw. destruct (allows _ PTE_W) eqn:Ea; [| done].
    by eapply allows_user.
  - intros E0 need v. rewrite Hm. unfold status_out in Hso. apply Z.eqb_eq in E0. rewrite E0 in Hso. by rewrite Hso.
  - apply abs_unused. by rewrite Hzs.
  - unfold abs. rewrite decide_True by apply Hi. rewrite Hs, decide_False by done. unfold aproc_of, in_state.
    rewrite (cw_run _ _ Hi). by constructor.
  - intros j Hji Hjz. apply Ho; [done | done |]. by rewrite Hs, decide_False.
Qed.
End WaitSpec.

(** ** User code *)

(** A program of process [i] has run: it can have changed the bytes that its
    page table lets it write to, and nothing else in memory. *)
Record computed (i : nat) : Prop := {
  cm_cpu : cpu_proc (get_cpu (sy s)) = Some i;
  cm_slot : (i < NPROC)%nat;
  cm_run : p_state (get_proc s i) = RUNNING;
  cm_pt : p_pt (get_proc s i) <> 0;
  cm_user : user_only s (get_proc s i);
  cm_bitmap : mem_bitmap s' = mem_bitmap s;
  cm_start : start_page s' = start_page s;
  cm_procs : forall j, get_proc s' j = get_proc s j;
  cm_mem : forall a, load8 (mem s') a <> load8 (mem s) a ->
    exists v, 0 <= v < U32 /\ user_pa (mem s) (p_pt (get_proc s i)) PTE_W v = a /\ a <> 0
}.

(** The kernel does something that no process can see: it takes a lock, wakes
    somebody, runs the scheduler, writes to a kernel stack or a trap frame. *)
Definition unseen : Prop := elsewhere s s' /\
  forall j, (j < NPROC)%nat -> space_kept s s' (get_proc s j) /\ same_proc (get_proc s j) (get_proc s' j).

Lemma unseen_spec who : unseen -> astep who (abs s) (abs s').
Proof. intros [_ Hj]. apply as_none. intros j. apply abs_kept. apply Hj. Qed.

Section Computed.
Context (i : nat) (Hc : computed i).

Lemma computed_page a : load8 (mem s') a <> load8 (mem s) a -> exists b, owns s (get_proc s i) b /\
  ~ table (mem s) (p_pt (get_proc s i)) b /\ in_page b a.
Proof.
  intros Hch. destruct Hc as [C1 C2 C3 C4 C5 C6 C7 C8 C9]. destruct (C9 a Hch) as (v & Hv & <- & Hn).
  destruct (user_pa_space s _ PTE_W v (pk_holds _ Hok i C2) C4 Hv) as (b & Hb & Hnt & Hin); [| done |].
  - apply C5; [done |]. unfold user_pa in Hn. destruct (allows _ PTE_W) eqn:E; [by eapply allows_user | done].
  - exists b. split_and!; [left; by right | done | done].
Qed.

Lemma computed_other j b a : (j < NPROC)%nat -> owns s (get_proc s j) b -> j <> i \/ table (mem s) (p_pt (get_proc s i)) b ->
  in_page b a -> load8 (mem s') a = load8 (mem s) a.
Proof.
  intros Hj Hb Hne Ha. destruct (decide (load8 (mem s') a = load8 (mem s) a)) as [| Hch]; [done |]. exfalso.
  destruct (computed_page a Hch) as (c & Ho & Hnt & Hin). pose proof (cm_slot _ Hc) as Hi.
  pose proof (owns_page _ _ _ b c a (pk_holds _ Hok j Hj) (pk_holds _ Hok i Hi) Hb Ho Ha Hin) as ->.
  destruct Hne as [Hne |]; [| done]. by apply Hne, (pk_apart _ Hok j i c).
Qed.

Lemma computed_tables j : (j < NPROC)%nat -> p_pt (get_proc s j) <> 0 -> same_tables (mem s) (mem s') (p_pt (get_proc s j)).
Proof.
  intros Hj Hp0 t a Ht Ha. apply (computed_other j t a Hj); [left; right; split; [done | by right] | | done].
  destruct (decide (j = i)) as [-> | Hne]; auto.
Qed.

Lemma computed_elsewhere : elsewhere s s'.
Proof.
  split_and!; [apply Hc | apply Hc |]. intros j Hj. rewrite (cm_procs _ Hc). split_and!; [done | done |].
  by apply computed_tables.
Qed.

(** What changes is writable for the program. *)
Lemma computed_mem need v : let p := get_proc s i in
  (umem (mem s') p need v <> None <-> umem (mem s) p need v <> None) /\
  (umem (mem s') p need v <> umem (mem s) p need v -> umem (mem s) p PTE_W v <> None).
Proof.
  intros p. pose proof (computed_tables i (cm_slot _ Hc) (cm_pt _ Hc)) as Hst. unfold umem at 1 2 3 4.
  case_decide as Hd; [| done]. destruct Hd as ([H0 Hv] & Hn & Him). rewrite (same_tables_user_pa (mem s)) by done. cbv zeta.
  destruct (user_pa _ _ _ _ =? 0) eqn:E; [done |]. apply Z.eqb_neq in E. split; [done |]. intros Hch.
  destruct (cm_mem _ Hc (user_pa (mem s) (p_pt p) need v)) as (v' & Hv' & Eq & _); [congruence |].
  assert (Hw : user_pa (mem s) (p_pt p) PTE_W v' <> 0) by (unfold p; congruence).
  pose proof (user_pa_plain _ _ _ _ E) as E1. pose proof (user_pa_plain _ _ _ _ Hw) as E2.
  assert (v = v') as <-.
  { apply (user_pa_inj s (p_pt p) (caller_uspace s p (pk_holds _ Hok i (cm_slot _ Hc)) (cm_pt _ Hc) (cm_user _ Hc)) 0);
      unfold p in *; congruence. }
  by rewrite umem_user.
Qed.

Lemma computed_spec : astep (Some i) (abs s) (abs s').
Proof.
  eapply (as_store _ _ _ i _ (umem (mem s') (get_proc s i))); [done | apply abs_some | | | |].
  - apply Hc.
  - by rewrite (cm_run _ Hc).
  - intros need v. apply computed_mem.
  - intros need v. apply computed_mem.
  - unfold abs. rewrite decide_True by apply Hc. rewrite (cm_procs _ Hc). unfold aproc_of, in_state.
    rewrite (cm_run _ Hc). by constructor.
  - intros j Hne. apply abs_kept. intros Hj. rewrite (cm_procs _ Hc). split; [| done]. intros b a Hp0 Hb Ha.
    apply (computed_other j b a Hj); [left; by right | by left | done].
Qed.
End Computed.
End Steps.

(** * Runs *)

(** A process that is in the table makes a call, or the scheduler takes a
    process back; user code runs; or the kernel does what nobody sees. *)
Definition kstep `{Layout, KSyms, Initcode, Frames, CallFrames} (s s' : kstate) : Prop :=
  called s s' /\ (forall i, cpu_proc (get_cpu (sy s)) = Some i -> (i < NPROC)%nat) \/
  (exists i, computed s s' i) \/ unseen s s'.

Definition runs_now (s : kstate) : option nat := cpu_proc (get_cpu (sy s)).

Section Runs.
Context `{L : Layout} {HL : LayoutOk L} `{KSyms, Initcode, Frames, CallFrames}.

Lemma called_spec s s' : called s s' -> (forall i, cpu_proc (get_cpu (sy s)) = Some i -> (i < NPROC)%nat) ->
  procs_ok s -> astep (runs_now s) (abs s) (abs s').
Proof.
  unfold runs_now. intros Hr Hcur Hok. destruct Hr as [i r s s' Hq Hc Hi Hp E | i path args r s s' Hq Hc Hi Hs He E
    | i fuel addr r s s' Hq Hc Hd Hi Ha E | i fuel addr k s s' Hq Hc Hd Hi Ha E | i status k s s' Hq Hc Hd Hi E | z s s' Hz Htb];
    try rewrite Hc.
  - assert (Hw : wp fork (fun _ s' => astep (Some i) (abs s) (abs s')) s).
    { apply (wp_fork s i); try done; [apply Hok | |]; intros; [by apply unspawned_spec |].
      by eapply forked_spec; [| apply Hcur | apply Hi | apply Hi |]. }
    unfold wp in Hw. by rewrite E in Hw.
  - assert (Hw : wp (kexec path args) (fun _ s' => astep (Some i) (abs s) (abs s')) s).
    { eapply wp_mono; [by apply (wp_kexec i path args s) |]. pose proof (er_parts _ _ _ _ He) as Hparts.
      pose proof (er_frame _ _ _ _ He) as Hfr.
      intros r0 s0 [(_ & Hu & _) | (name & img & len & pt & sz & sp & _ & _ & Hx)]; [by eapply unexeced_spec | by eapply execed_spec]. }
    unfold wp in Hw. by rewrite E in Hw.
  - pose proof (wait_outcome i fuel addr s Hq Hok Hi Hc Hd Ha) as Hw. unfold wp, switches in Hw. rewrite E in Hw.
    destruct (first_zombie NPROC 0 i s) as [z |] eqn:Ez.
    + destruct (first_zombie_some _ _ _ _ _ Ez) as [[_ Hz] Hzc].
      destruct Hw as (_ & _ & [[_ Hx] | [_ Hx]]); [by apply (reaped_spec s s' Hok i z addr) | by apply (refused_spec s s' Hok i z addr)].
    + destruct (has_child i s (seq 0 NPROC)); [done |]. destruct Hw as (_ & y & _ & ->). by apply as_none.
  - pose proof (wait_outcome i fuel addr s Hq Hok Hi Hc Hd Ha) as Hw. unfold wp, switches in Hw. rewrite E in Hw.
    destruct (first_zombie NPROC 0 i s); [done |]. destruct (has_child i s (seq 0 NPROC)); [| done].
    destruct Hw as (_ & [Hf Hs] & _). apply as_none. intros j. apply abs_kept; [done |]. intros Hj.
    assert (Hm : mem s' = mem s) by exact (pf_mem _ _ Hf). split; [by intros b a _ _ _; rewrite Hm |].
    rewrite Hs. case_decide as Ej; [subst j | done]. pose proof (cw_run _ _ Hi) as Hrun.
    split; cbn; [done | done | done | done | |]; rewrite Hrun; split; discriminate.
  - assert (Hw : switches (@kexit Z status) (fun s' _ => astep (Some i) (abs s) (abs s')) s).
    { apply (switches_kexit i s Hq Hok Hi); [done | done |]. intros. by eapply exited_spec. }
    unfold switches in Hw. by rewrite E in Hw.
  - by apply taken_back_spec with z.
Qed.

Lemma kstep_spec s s' : kstep s s' -> procs_ok s -> procs_ok s' /\ astep (runs_now s) (abs s) (abs s').
Proof.
  intros [[Hc Hcur] | [[i Hc] | Hu]] Hok.
  - split; [by apply (called_ok s) | by apply called_spec].
  - split; [apply (elsewhere_ok s); [by apply (computed_elsewhere s s' Hok i) | done] |].
    unfold runs_now. rewrite (cm_cpu _ _ _ Hc). by apply computed_spec.
  - split; [by apply (elsewhere_ok s); [apply Hu |] | by apply unseen_spec].
Qed.
End Runs.

(** A process that has not exited. *)
Definition alive (j : nat) (a : astate) (p : aproc) : Prop := a j ≡ Some p /\ a_status p = None.

Lemma some_equiv (o : option aproc) p : o ≡ Some p -> exists q, o = Some q /\ q ≡ p.
Proof. intros Ho. inversion Ho as [q p' Hq |]. by exists q. Qed.

(** In the abstract machine a live process keeps its pid and its memory while
    others run. *)
Lemma astep_others who a a' j p : astep who a a' -> who <> Some j -> alive j a p ->
  exists q, alive j a' q /\ a_pid q = a_pid p /\ forall need v, a_mem q need v = a_mem p need v.
Proof.
  intros Hst Hw [Hj Hl]. apply some_equiv in Hj as (p' & Hj & (E1 & E2 & E3 & E4)).
  assert (Hkeep : a' j ≡ a j -> exists q, alive j a' q /\ a_pid q = a_pid p /\ forall need v, a_mem q need v = a_mem p need v).
  { rewrite Hj. intros Hs. exists p. split; [split; [| done] | done]. rewrite Hs. by constructor. }
  assert (Hne : forall i, who = Some i -> j <> i) by congruence.
  destruct Hst as [Hr | i n q id Hi _ Hn _ Hr | i q m Hi _ _ Hr | i q st heir Hi _ _ _ _ Hr | i z q c m addr st Hi _ Hz _ Hs _ _ _ _ _ Hr
    | i q m addr Hi _ _ _ Hr | z c st Hz _ Hs _ Hr | i q m Hi _ _ _ _ Hr].
  - by apply Hkeep.
  - apply Hkeep, Hr. congruence.
  - apply Hkeep, Hr. by apply Hne.
  - specialize (Hr j (Hne i Hi)). rewrite Hj in Hr. cbn in Hr. unfold inherit in Hr. rewrite E3, Hl in Hr. case_decide.
    + exists (mk_aproc (a_pid p') heir None (a_mem p')). split; [split; [| done] | done]. rewrite Hr. by destruct heir.
    + apply Hkeep. by rewrite Hr, Hj.
  - apply Hkeep, Hr; [by apply Hne |]. congruence.
  - apply Hkeep, Hr. by apply Hne.
  - apply Hkeep, Hr. congruence.
  - apply Hkeep, Hr. by apply Hne.
Qed.

(** * Properties *)


(** Slot 1 exits. *)
Lemma exit_demo_kstep s' k : @kexit Z 5 exit_demo = Swtch s' k ->
  kstep (H0 := demo_syms) (H1 := demo_initcode) (H2 := demo_frames) (H3 := exec_frames) exit_demo s'.
Proof.
  intros E. assert (Hi : can_exit 1 exit_demo) by (split; [unfold NPROC; lia | done | done | done]).
  left. split; [exact (called_kexit 1 5 k exit_demo s' exit_demo_quiet eq_refl eq_refl Hi E) |].
  intros i Hc. vm_compute in Hc. injection Hc as <-. unfold NPROC. lia.
Qed.

Lemma exit_demo_runs : exists s' k, @kexit Z 5 exit_demo = Swtch s' k.
Proof.
  assert (Hi : can_exit 1 exit_demo) by (split; [unfold NPROC; lia | done | done | done]).
  assert (Hs : switches (@kexit Z 5) (fun s' _ => True) exit_demo).
  { by apply (switches_kexit 1 exit_demo exit_demo_quiet exit_demo_ok Hi 5 _ eq_refl eq_refl). }
  destruct (switches_run _ _ _ Hs) as (s' & k & E & _). by exists s', k.
Qed.


(** C6 (processes are isolated): while other processes run, whatever they call
    and whatever their programs do, a process that has not exited stays in the
    table with its pid, and finds in its memory what it left there, byte by
    byte and access by access. *)
Theorem processes_isolated `{L : Layout} {HL : LayoutOk L} `{KSyms, Initcode, Frames, CallFrames} j p s s' :
  rtc (fun s s' => kstep s s' /\ runs_now s <> Some j) s s' -> procs_ok s -> alive j (abs s) p ->
  exists q, alive j (abs s') q /\ a_pid q = a_pid p /\ forall need v, a_mem q need v = a_mem p need v.
Proof.
  intros Hr. revert p. induction Hr as [| s s1 s' [Hr Hw] _ IH]; intros p Hok Ha; [by exists p |].
  destruct (kstep_spec s s1 Hr Hok) as [Hok1 Hst]. destruct (astep_others _ _ _ _ _ Hst Hw Ha) as (q & Hq & E1 & E2).
  destruct (IH q Hok1 Hq) as (q' & Hq' & E1' & E2'). exists q'. split_and!; [done | congruence |]. intros. by rewrite E2'.
Qed.

(** Slot 1 exits and init, in slot 0, sees nothing of it. *)
Lemma processes_isolated_witness : exists s' k p q, @kexit Z 5 exit_demo = Swtch s' k /\ alive 0 (abs exit_demo) p /\
  alive 0 (abs s') q /\ a_pid q = a_pid p /\ forall need v, a_mem q need v = a_mem p need v.
Proof.
  destruct exit_demo_runs as (s' & k & E).
  set (p0 := mk_aproc 1 (parent (get_proc exit_demo 0)) None (umem (mem exit_demo) (get_proc exit_demo 0))).
  assert (Hal : alive 0 (abs exit_demo) p0).
  { split; [| reflexivity]. rewrite abs_some; [constructor; split_and!; reflexivity | unfold NPROC; lia | discriminate]. }
  destruct (processes_isolated (H := demo_syms) (H0 := demo_initcode) (H1 := demo_frames) (H2 := exec_frames) 0 p0 exit_demo s')
    as (q & Hq & E1 & E2); [| exact exit_demo_ok | exact Hal |].
  - apply rtc_once. split; [exact (exit_demo_kstep s' k E) | discriminate].
  - exists s', k, p0, q. split; [exact E |]. split; [exact Hal |]. split; [exact Hq |]. split; [exact E1 | exact E2].
Defined.
