(* ===== verification/Trap.v ===== *)
(** Traps, the clock, and start-up: trap.c, boot.c and main.c.

    [utrapret], which [forkret] calls, is in Proc.v. The values of [scause] and
    [sepc] are arguments, as the assembly entry code passes them. [boot] is
    followed up to its [mret]; [main] up to and including a number of turns of
    the scheduler's endless loop. *)
From S2P Require Import Prelude Machine Csr Uart KPrint Spinlock Printf Mem Vm Exec Proc Syscall.

Definition TIMEBASE_HZ : Z := 10000000.
Definition TICK_HZ : Z := 100.
Definition TIMER_INTERVAL : Z := TIMEBASE_HZ / TICK_HZ.
Definition SCAUSE_USER_ECALL : Z := 8.

(** * trap.c *)

Definition init_clock : M unit := init_lock TicksLock "ticks";; modify (set_ticks 0).

Definition init_trap `{KSyms} : M unit := w_stvec sym_kerneltrap.

Definition clockintr : M unit :=
  id ← r_tp;
  when (id =? 0)
    (lock TicksLock;;
     t ← gets ticks;
     modify (set_ticks (t +w 1));;
     wakeup ChanTicks;;
     unlock TicksLock).

(** [fuel]: passes of the loop that reads the clock. *)
Definition devintr (fuel : nat) (scause : Z) : M Z :=
  let code := Z.land scause 0x7FFFFFFF in
  if code =? 1 then x ← r_sip; w_sip (Z.land x (Z.lnot (Z.shiftl 1 1)));; mret 1
  else if code =? 5 then
    t ← r_time64 fuel;
    w_stimecmp64 (u64 (t + TIMER_INTERVAL));;
    clockintr;;
    mret 2
  else if code =? 9 then mret 3
  else mret 0.

Definition is_irq (scause : Z) : bool := negb (Z.land scause 0x80000000 =? 0).

Definition u_trap_handle {A} `{Layout, Initcode, KSyms, Frames, CallFrames} (fuel : nat)
    (scause sepc : Z) : M A :=
  x ← r_sstatus;
  if negb (Z.land x SSTATUS_SPP =? 0) then panic "u_trap_handle: trap not from u-mode"
  else
    o ← myproc; i ← deref_proc o;
    p ← the_proc i;
    st (p_tf p + tf_epc) sepc;;
    dev ← (if is_irq scause then
             dev ← devintr fuel scause;
             if dev =? 0 then
               printf ("u_trap_handle: unexpected interrupt scause %p" +:+ nl) [AInt scause];;
               panic "u_trap_handle"
             else mret dev
           else if scause =? SCAUSE_USER_ECALL then
             epc ← ld (p_tf p + tf_epc);
             st (p_tf p + tf_epc) (epc +w 4);;
             interrupt_on;;
             syscall fuel;;
             mret 0
           else
             stval ← r_stval;
             printf ("pid %d (%s): killed, scause %p sepc %p stval %p" +:+ nl)
               [AInt (pid p); AStr (p_name p); AInt scause; AInt sepc; AInt stval];;
             kexit (-1));
    when (dev =? 2) yield;;
    utrapret.

Definition s_trap_handle (fuel : nat) (scause sepc : Z) : M unit :=
  sstatus ← r_sstatus;
  if Z.land sstatus SSTATUS_SPP =? 0 then panic "s_trap_handle: trap not from s-mode"
  else
    on ← is_interrupt;
    if (on : bool) then panic "s_trap_handle: interrupts enabled"
    else
      o ← myproc;
      dev ← (if is_irq scause then
               dev ← devintr fuel scause;
               if dev =? 0 then
                 printf ("unexpected interrupt: scause %p, sepc %p" +:+ nl) [AInt scause; AInt sepc];;
                 panic "s_trap_handle"
               else mret dev
             else
               modify (set_hang 1);;
               printf ("scause: %p" +:+ nl) [AInt scause];;
               printf ("sepc:   %p" +:+ nl) [AInt sepc];;
               stval ← r_stval;
               printf ("stval:  %p (Bad Address)" +:+ nl) [AInt stval];;
               panic "unhandled exception in kernel");
      (match o with
       | None => mret tt
       | Some i =>
           p ← the_proc i;
           when ((dev =? 2) && in_state RUNNING p) yield
       end);;
      w_sepc sepc;;
      w_sstatus sstatus.

(** * boot.c *)

(** Machine mode, up to [mret]; [main_addr] is the address of [main]. *)
Definition boot (fuel : nat) (main_addr : Z) : M unit :=
  mstatus ← r_mstatus;
  w_mstatus (Z.lor (Z.land mstatus (Z.lnot MSTATUS_MPP_MASK)) MSTATUS_MPP_S);;
  w_mideleg 0xffff;;
  w_medeleg 0xffff;;
  w_satp 0;;
  sie ← r_sie;
  w_sie (Z.lor (Z.lor (Z.lor sie SIE_SEIE) SIE_STIE) SIE_SSIE);;
  w_mepc main_addr;;
  w_pmpaddr0 0xFFFFFFFF;;
  w_pmpcfg0 0xF;;
  e ← r_menvcfgh;
  w_menvcfgh (Z.lor e MENVCFGH_STCE);;
  c ← r_mcounteren;
  w_mcounteren (Z.lor c MCOUNTEREN_TM);;
  t ← r_time64 fuel;
  w_stimecmp64 (u64 (t + TIMER_INTERVAL)).

(** * main.c *)

(** [cpus[r_tp()].id = r_tp()] *)
Definition set_cpu_id : M unit :=
  id ← r_tp; c ← this_cpu; put_cpu (mk_cpu id (depth c) (intena c) (cpu_proc c) (cpu_context c)).

(** Hart 0: the initialisation, which ends with [init = 1]; the UART's
    registers after it. *)
Definition main_first `{Layout, Initcode, KSyms} (d : dev) : M dev :=
  let d := uart_init d in
  set_cpu_id;;
  printf nl [];;
  printf ("wl-00 kernel is booting" +:+ nl) [];;
  init_bitmap;;
  init_kptable;;
  init_kvmhart;;
  init_clock;;
  init_trap;;
  init_proctable;;
  init_userproc;;
  id ← r_tp;
  printf ("Main cpu %d initialized!" +:+ nl) [AInt id];;
  mret d.

(** The other harts, once they have seen [init]. *)
Definition main_other `{KSyms} : M unit :=
  set_cpu_id;;
  init_kvmhart;;
  init_trap;;
  id ← r_tp;
  printf ("cpu %d initialized" +:+ nl) [AInt id].

(** [turns] turns of [scheduler]'s endless loop. *)
Fixpoint scheduler (turns : nat) : M unit :=
  match turns with O => nofuel | S turns => scheduler_turn;; scheduler turns end.

(** [init] is what the hart reads at each pass of its waiting loop. *)
Fixpoint await_init (fuel : nat) (init : nat -> Z) : M unit :=
  match fuel with
  | O => nofuel
  | S fuel => if init 0%nat =? 0 then await_init fuel (fun n => init (S n)) else mret tt
  end.

Definition main `{Layout, Initcode, KSyms} (fuel turns : nat) (init : nat -> Z) (d : dev) : M unit :=
  id ← r_tp;
  (if id =? 0 then main_first d;; mret tt else await_init fuel init;; main_other);;
  scheduler turns.
