(* ===== verification/Init.v ===== *)
(** How the system starts (proc.c: [init_userproc], [uvmfirst]; main.c): the
    first process, made from the program init, and the state in which hart 0
    leaves [main] for the scheduler, from which everything that Lifecycle,
    Vectors and ProcSpec say of runs follows. *)
From S2P Require Import Prelude Machine Csr Uart KPrint Spinlock Printf Mem Vm PageTable KernelMap UserMem UserSpace Took Exec ExecProofs Proc ProcProofs SchedProofs UvmCopy ProcAlloc ProcTable Fork Exit Scheduler Wait Syscall ExecStack Kexec Lifecycle Asm AsmTrap UserReturn Vectors ProcSpec Trap.

(** * Code that returns or halts in [panic] *)

Definition ends {A} (m : M A) (Q : A -> kstate -> Prop) (P : string -> Prop) (s : kstate) : Prop :=
  match m s with Ok a s' => Q a s' | Panic msg _ => P msg | _ => False end.

Section Ends.
Context {A B : Type} (P : string -> Prop).
Implicit Types (m : M A) (f : A -> M B) (s : kstate).

Lemma ends_wp m f Q s : wp m (fun a s' => ends (f a) Q P s') s -> ends (m ≫= f) Q P s.
Proof. unfold wp, ends, mbind, M_bind. by destruct (m s). Qed.

Lemma ends_bind m f Q s : ends m (fun a s' => ends (f a) Q P s') P s -> ends (m ≫= f) Q P s.
Proof. unfold ends, mbind, M_bind. by destruct (m s). Qed.

Lemma ends_ret m (Q : A -> kstate -> Prop) s : wp m Q s -> ends m Q P s.
Proof. unfold wp, ends. by destruct (m s). Qed.

Lemma ends_panic msg (Q : A -> kstate -> Prop) s : P msg -> ends (panic msg) Q P s.
Proof.
  intros HP. pose proof (panic_panics (A := A) msg s) as Hp. unfold panics in Hp. unfold ends. destruct (panic msg s); try done. by subst.
Qed.
End Ends.

(** * The first address space *)

(** The image is loaded into the space [pt], and a page is mapped as the stack. *)
Section FirstSpace.
Context (pt sz p : Z) (s1 s2 s3 s4 : kstate).
Context (Hus : uspace_ok s1 pt) (Hker : forall v, 0 <= v < U32 -> allows (pte_at (mem s1) pt v) 0 = false).
Context (Hst : forall v, stackbase <= v < USER_STACK_TOP -> valid (pte_at (mem s1) pt v) = false).
Context (Him : image pt sz s1 s2) (Hsz : USER_BASE <= sz <= UART_0).
Context (Ha : alloc_some s2 p s3) (Hg : pt_grow pt s3 s4).
Context (Hpte : forall v, 0 <= v < U32 -> pte_at (mem s4) pt v =
  if decide (vpn v = vpn stackbase) then mk_pte p rwu else pte_at (mem s3) pt v).
Let Q := image_or_stack sz.

Lemma first_ext : pt_ext pt (fun b => b = p) s2 s4 /\ owned s4 p /\ ~ table (mem s4) pt p.
Proof.
  pose proof (im_ext _ _ _ _ Him) as Ex. assert (E3 : set_mem (mem s3) s3 = s3) by (by destruct s3).
  destruct (alloc_fill_ext s2 s3 pt p (mem s3) (ex_ready _ _ _ _ Ex) (ex_wf _ _ _ _ Ex) Ha) as (E2 & Ht2 & Ho2).
  { intros a _. by rewrite (as_mem _ _ _ Ha). }
  cbv zeta in E2, Ht2, Ho2. rewrite E3 in E2, Ht2, Ho2. pose proof (pt_grow_ext _ _ _ Hg) as Eg. split_and!.
  - eapply pt_ext_trans; [exact E2 | exact Eg |]. intros b. tauto.
  - by apply Eg.
  - eapply ex_not_table; [exact Eg | apply E2 | | done]. rewrite (same_tables_table (mem s2)) by done.
    intros Ht. apply (owned_not_avail s2 p); [| apply Ha]. eapply table_owned; [apply Ex | done].
Qed.

(** The entries: the image's, the stack's, and what was there. *)
Lemma first_entry v : 0 <= v < U32 -> pte_at (mem s4) pt v =
  if decide (stackbase <= v < USER_STACK_TOP) then mk_pte p rwu else pte_at (mem s2) pt v.
Proof.
  intros Hv. rewrite Hpte by done. unfold pte_at at 1. rewrite (as_mem _ _ _ Ha). 
  destruct (decide (vpn v = vpn stackbase)) as [He | He]; rewrite stack_vpn in He; by case_decide.
Qed.

Lemma first_stack : PTE2PA (mk_pte p rwu) = p /\ valid (mk_pte p rwu) = true.
Proof. apply mk_pte_ram; [apply (avail_ram s2), Ha | done]. Qed.

(** A page of the image or the stack: fresh, in use, and no table. *)
Lemma first_page v : 0 <= v < U32 -> Q v -> let e := pte_at (mem s4) pt v in
  avail s1 (PTE2PA e) /\ owned s4 (PTE2PA e) /\ ~ table (mem s4) pt (PTE2PA e) /\
  (stackbase <= v < USER_STACK_TOP /\ PTE2PA e = p \/ USER_BASE <= v < sz /\ e = pte_at (mem s2) pt v /\ PTE2PA e <> p).
Proof.
  intros Hv HQ e. destruct first_ext as (E4 & Hop & Hnp). pose proof (im_ext _ _ _ _ Him) as Ex.
  destruct stack_consts as (C0 & C1 & C2 & C3 & _). unfold e. rewrite first_entry by done. case_decide as Hd.
  - destruct first_stack as [-> _]. split; [apply (ex_avail _ _ _ _ Ex); apply Ha |].
    split; [exact Hop |]. split; [exact Hnp |]. left. split; [exact Hd | reflexivity].
  - destruct HQ as [Hi | Hi]; [| done]. destruct (image_page _ _ _ _ Him v Hv Hi) as (_ & _ & Hav & Ho & Hnt).
    split; [exact Hav |]. split; [exact (ex_owned _ _ _ _ E4 _ Ho) |]. split; [by eapply ex_not_table; [exact E4 | apply Ex | |] |].
    right. split; [exact Hi |]. split; [reflexivity |]. intros Eq. rewrite Eq in Ho. by apply (owned_not_avail s2 p), Ha.
Qed.

Lemma first_pages_ok : pages_ok pt Q s4.
Proof.
  split.
  - intros v Hv HQ _. by destruct (first_page v Hv HQ) as (_ & ? & ? & _).
  - intros v v' Hv Hv' HQ HQ' _ _ He. destruct (first_page v Hv HQ) as (_ & _ & _ & [[Hs Hp] | (Hi & Ee & Hn)]);
      destruct (first_page v' Hv' HQ') as (_ & _ & _ & [[Hs' Hp'] | (Hi' & Ee' & Hn')]); [| congruence | congruence |].
    + apply stack_vpn in Hs, Hs'. congruence.
    + rewrite Ee, Ee' in He. by apply (im_inj _ _ _ _ Him).
Qed.

Lemma first_fresh b : pages pt Q s4 b -> avail s1 b.
Proof. intros (v & Hv & HQ & _ & ->). by apply (first_page v Hv HQ). Qed.

(** Outside the image nothing was the user's. *)
Lemma image_user v : 0 <= v < U32 -> allows (pte_at (mem s2) pt v) 0 = true -> image_range sz v.
Proof using Him Hker.
  intros Hv Hal. destruct (decide (USER_BASE <= v < sz)) as [Hi | Hi]; [done |]. exfalso.
  assert (He : pte_at (mem s2) pt v = pte_at (mem s1) pt v).
  { apply same_entry_valid; [| by apply allows_valid]. apply (im_kept _ _ _ _ Him); [done | lia]. }
  rewrite He, Hker in Hal by done. discriminate Hal.
Qed.

(** What the process can use. *)
Lemma first_user v : 0 <= v < U32 -> allows (pte_at (mem s4) pt v) 0 = true -> Q v.
Proof.
  intros Hv. rewrite first_entry by done. case_decide as Hd; [intros _; by right |]. intros Hal. left. by apply image_user.
Qed.

Lemma first_space : pt_ext pt (pages pt Q s4) s1 s4.
Proof.
  destruct first_ext as (E4 & _). eapply pt_ext_trans; [apply (im_ext _ _ _ _ Him) | exact E4 |].
  destruct first_stack as [Hpa Hval]. destruct stack_consts as (C0 & C1 & C2 & C3 & C4). intros b. split.
  - intros (v & Hv & HQ & Hvl & ->). destruct (first_page v Hv HQ) as (_ & _ & _ & [[Hs Hp] | (Hi & Ee & Hn)]); [by right |].
    left. exists v. rewrite Ee in *. done.
  - intros [(v & Hv & Hi & Hvl & ->) | ->].
    + assert (He : pte_at (mem s4) pt v = pte_at (mem s2) pt v).
      { rewrite first_entry, decide_False; [done | | done]. unfold image_range in Hi. lia. }
      exists v. rewrite He. split_and!; [lia | lia | by left | done | done].
    + exists stackbase. rewrite first_entry, decide_True by lia. split_and!; [lia | lia | right; unfold stackbase in *; lia | done | done].
Qed.

(** The image is as it was loaded. *)
Lemma first_ubyte v : 0 <= v < U32 -> image_range sz v -> pte_at (mem s4) pt v = pte_at (mem s2) pt v /\
  ubyte (mem s4) pt v = ubyte (mem s2) pt v.
Proof.
  intros Hv Hi. destruct (image_page _ _ _ _ Him v Hv Hi) as (Hal & _ & Hav & Ho & Hnt). destruct first_ext as (E4 & _).
  destruct stack_consts as (C0 & C1 & C2 & C3 & C4).
  assert (He : pte_at (mem s4) pt v = pte_at (mem s2) pt v).
  { rewrite first_entry, decide_False; [done | | done]. unfold image_range in Hi. lia. }
  split; [done |]. unfold ubyte. assert (Hu : user_pa (mem s4) pt 0 v = user_pa (mem s2) pt 0 v) by (unfold user_pa; by rewrite He).
  rewrite Hu. eapply (ex_page _ _ _ _ _ _ E4); [apply (im_ext _ _ _ _ Him) | exact Ho | done |].
  destruct (owned_ram _ _ Ho) as [_ Hr]. unfold user_pa. rewrite Hal.
  rewrite u32_small; unfold in_page, PAGE_SIZE, MEM_START, MEM_END, U32 in *; zlia.
Qed.
End FirstSpace.

Lemma mk_pte_valid p fl : mk_pte p (Z.lor fl PTE_V) = mk_pte p fl.
Proof. unfold mk_pte. by rewrite <- !Z.lor_assoc, (Z.lor_diag PTE_V). Qed.

(** * The first process *)

Definition boot_words `{KSyms} (kpt : Z) : kwords := mk_kwords (u32 sym_kerneltrap) (u32 (MAKE_SATP kpt)) (u32 sym_u_trap_handle).

(** Its slot. *)
Definition first_of `{KSyms} (q : proc) (id ks tf pt sz : Z) : proc :=
  set_state READY (set_name (bytes "init" ++ [0] ++ drop 5 (p_name q)) (set_sz sz (new_proc q id ks tf pt))).

Record first_proc `{KSyms} (n : nat) (img : Z) (s s' : kstate) : Prop := {
  fp_slot : (n < NPROC)%nat /\ p_state (get_proc s n) = UNUSED;
  fp_proc : exists ks tf pt sz, get_proc s' n = first_of (get_proc s n) (curr_pid s) ks tf pt sz /\
    ks <> 0 /\ tf <> 0 /\ pt <> 0 /\ USER_BASE <= sz <= UART_0;
  fp_rest : forall j, j <> n -> get_proc s' j = get_proc s j;
  fp_pid : curr_pid s' = curr_pid s + 1;
  fp_holds : holds s' (get_proc s' n);
  fp_took : took (owns s' (get_proc s' n)) s s';
  fp_words : kwords_at (mem s') (p_tf (get_proc s' n)) = boot_words (kptable s);
  fp_regs : let tf := p_tf (get_proc s' n) in
    load32 (mem s') (tf + tf_k_sp) = kstack (get_proc s' n) +w PAGE_SIZE /\
    load32 (mem s') (tf + tf_epc) = e_entry (read_elf_hdr (mem s) img) /\
    load32 (mem s') (tf + tf_regs 2) = USER_STACK_TOP;
  fp_user : user_only s' (get_proc s' n);
  fp_image : let elf := read_elf_hdr (mem s) img in bad_elf_hdr elf = false /\
    forall j, 0 <= j < e_phnum elf -> loadable (hdr img s (e_phoff elf) j) ->
      seg_loaded (mem s) (mem s') (p_pt (get_proc s' n)) img (hdr img s (e_phoff elf) j);
  fp_stack : forall v, stackbase <= v < USER_STACK_TOP ->
    allows (pte_at (mem s') (p_pt (get_proc s' n)) v) PTE_R = true /\
    allows (pte_at (mem s') (p_pt (get_proc s' n)) v) PTE_W = true
}.

(** A page table that grows while another lock is held. *)
Lemma pt_ext_sy pt E y s s' : pt_ext pt E (set_sy y s) s' -> kready s -> pt_ext pt E s (set_sy (sy s) s').
Proof.
  intros [[] [[A1 A2] _ _] W T N O A Mm] [_ R2 R3]. split; try done.
  - split; [by split | done |]. destruct R3 as [Hh | Hl]; [left; cbn in *; congruence | by right].
  - destruct W as [W1 W2 W3]. by split.
Qed.

(** From [procalloc] to the end of [uvmfirst]; the slot's lock is taken at
    [s1], the program is in memory at [s4] and the trap frame is written at [s']. *)
Section First.
Context `{L : Layout} {HL : LayoutOk L} `{KSyms} (s s1 s2 s3 s4 : kstate) (n : nat) (ks tf pt sz p : Z).
Context (Hq : quiet s) (Hs : spawned n ks tf pt s s1).
Let sl := set_sy (sync_lock (ProcLock n) (sy s1)) s1.
Context (Him : image pt sz sl s2) (Hsz : USER_BASE <= sz <= UART_0) (Hal : sz mod PAGE_SIZE = 0).
Context (Ha : alloc_some s2 p s3) (Hg : pt_grow pt s3 s4).
Context (Hpte : forall v, 0 <= v < U32 -> pte_at (mem s4) pt v =
  if decide (vpn v = vpn stackbase) then mk_pte p rwu else pte_at (mem s3) pt v).
Let Q := image_or_stack sz.

Lemma first_kernel v : 0 <= v < U32 -> allows (pte_at (mem sl) pt v) 0 = false.
Proof using Hs. intros Hv. change (mem sl) with (mem s1). rewrite (sp_map _ _ _ _ _ _ Hs) by done. by apply user_map0_kernel. Qed.

Lemma first_all : pt_ext pt (pages pt Q s4) s1 (set_sy (sy s1) s4) /\ pages_ok pt Q s4 /\
  (forall b, pages pt Q s4 b -> avail s1 b).
Proof.
  pose proof (setup_quiet _ _ _ _ _ Hq (sp_setup _ _ _ _ _ _ Hs)) as Hq1. split_and!.
  - apply (pt_ext_sy _ _ (sync_lock (ProcLock n) (sy s1))); [| by apply quiet_ready].
    exact (first_space pt sz p sl s2 s3 s4 Him Hsz Ha Hg Hpte).
  - exact (first_pages_ok pt sz p sl s2 s3 s4 Him Hsz Ha Hg Hpte).
  - exact (first_fresh pt sz p sl s2 s3 s4 Him Hsz Ha Hg Hpte).
Qed.

Definition first_owns (b : Z) : Prop := (b = ks \/ b = tf) \/ space s4 pt sz b.

Lemma first_took : took first_owns s (set_sy (sy s1) s4).
Proof.
  destruct first_all as (Ex & Hok & Hfr). pose proof (su_took _ _ _ _ _ (sp_setup _ _ _ _ _ _ Hs)) as Ht.
  eapply took_equiv; [| eapply (took_ext _ _ _ pt s s1); [exact Ht | by right | exact Ex |]].
  - intros b. unfold first_owns, space. pose proof (ex_tables _ _ _ _ Ex b) as Htb. cbn [mem set_sy] in *. fold Q. tauto.
  - intros b Hbp. split; [by apply Hfr |]. destruct Hbp as (v & Hv & HQ & Hval & ->).
    exact (proj1 (po_owned _ _ _ Hok v Hv HQ Hval)).
Qed.

Lemma first_apart b : b = ks \/ b = tf -> ~ space s4 pt sz b.
Proof.
  intros Hbk. destruct first_all as (Ex & Hok & Hfr). destruct (spawned_page n ks tf pt s s1 Hs b) as [_ Ho]; [tauto |].
  destruct (sp_apart _ _ _ _ _ _ Hs) as (_ & H2 & H3). intros [Hp | Ht].
  - by apply (owned_not_avail s1 b), Hfr.
  - eapply (ex_not_table _ _ _ _ b Ex); [apply Hs | | done | done]. by destruct Hbk as [-> | ->].
Qed.

Context (s' : kstate) (Hof : oframe (set_sy (sy s1) s4) s') (Hbm : mem_bitmap s' = mem_bitmap s4).
Context (Hm : forall a, ~ in_page tf a -> load8 (mem s') a = load8 (mem s4) a).

Lemma first_owned b : owned s4 b -> owned s' b.
Proof. unfold owned, bit. by rewrite Hbm, (of_start _ _ Hof). Qed.

Lemma first_keeps b a : owned s4 b -> b <> tf -> in_page b a -> load8 (mem s') a = load8 (mem s4) a.
Proof.
  intros Ho Hne Hin. apply Hm. intros Ht. apply Hne. destruct (spawned_page n ks tf pt s s1 Hs tf) as [_ Hto]; [tauto |].
  exact (page_disjoint b tf a (owned_ram _ _ Ho) (owned_ram _ _ Hto) Hin Ht).
Qed.

Lemma first_table : pt_wf s' pt /\ pages_ok pt Q s' /\ (forall b, space s' pt sz b <-> space s4 pt sz b)
  /\ same_tables (mem s4) (mem s') pt.
Proof.
  destruct first_all as (Ex & Hok & Hfr). apply space_keep; [by intros; apply first_owned | | | done].
  - intros b a Hsp Ho Hin. apply (first_keeps b); [done | | done]. intros ->. eapply first_apart; [| exact Hsp]. tauto.
  - destruct (ex_wf _ _ _ _ Ex) as [W1 W2 W3]. by split.
Qed.

Lemma first_final : took first_owns s s'.
Proof.
  assert (Ht : took first_owns s (set_mem (mem s') (set_sy (sy s1) s4))).
  { apply (took_write _ _ s (set_sy (sy s1) s4) tf); [exact first_took | by left; right |].
    intros a _ Hin. by apply Hm. }
  eapply took_frame; [exact Ht | | reflexivity | exact Hbm]. destruct Hof. by split.
Qed.

(** The slot that has these pages. *)
Lemma first_holds c : p_tf c = tf -> p_pt c = pt -> kstack c = ks -> p_sz c = sz ->
  holds s' c /\ forall b, owns s' c b <-> first_owns b.
Proof.
  intros Et Ep Ek Ez. destruct first_table as (Hwf & Hok & Hsp & _). destruct (sp_apart _ _ _ _ _ _ Hs) as (Hkt & _ & _).
  assert (Hn0 : forall b, b = ks \/ b = tf \/ b = pt -> b <> 0).
  { intros b Hbb. apply (spawned_page n ks tf pt s s1 Hs b). destruct Hbb as [? | [? | ->]]; [tauto | tauto |]. right. right. by left. }
  assert (Hown : forall b, first_owns b -> owned s' b) by (intros b Hb; by apply (tk_new _ _ _ _ first_final)). split.
  - split; rewrite ?Et, ?Ep, ?Ek, ?Ez.
    + intros _. apply Hown. by left; right.
    + intros _. split; [apply Hown; by left; left | done].
    + intros _. unfold USER_BASE, UART_0, U32 in *. do 3 (split; [done |]). split; [lia |].
      intros b Hb. apply Hsp in Hb. split; intros ->; (eapply first_apart; [| exact Hb]); tauto.
  - intros b. unfold owns, first_owns. rewrite Et, Ep, Ek, Ez, Hsp.
    pose proof (Hn0 ks ltac:(tauto)). pose proof (Hn0 tf ltac:(tauto)). pose proof (Hn0 pt ltac:(tauto)). tauto.
Qed.

(** A byte of the program. *)
Lemma first_byte v : 0 <= v < U32 -> allows (pte_at (mem s2) pt v) 0 = true ->
  pte_at (mem s') pt v = pte_at (mem s2) pt v /\ ubyte (mem s') pt v = ubyte (mem s2) pt v.
Proof.
  intros Hv Hav. destruct first_table as (_ & Hok & Hsp & Hst).
  pose proof (image_user pt sz sl s2 first_kernel Him v Hv Hav) as Hi.
  destruct (first_ubyte pt sz p sl s2 s3 s4 Him Hsz Ha Hg Hpte v Hv Hi) as [E1 E2].
  assert (E3 : pte_at (mem s') pt v = pte_at (mem s4) pt v) by (by apply same_tables_pte). split; [congruence |]. rewrite <- E2.
  unfold ubyte. assert (Hu : user_pa (mem s') pt 0 v = user_pa (mem s4) pt 0 v) by (by apply same_tables_user_pa). rewrite Hu.
  destruct first_all as (_ & Hok4 & _). assert (Hval : valid (pte_at (mem s4) pt v) = true) by (rewrite E1; by apply allows_valid).
  destruct (po_owned _ _ _ Hok4 v Hv ltac:(by left) Hval) as [Ho Hnt].
  apply (first_keeps (PTE2PA (pte_at (mem s4) pt v))); [done | |].
  - intros Eq. apply (first_apart tf); [tauto |]. left. exists v. split_and!; [lia | lia | by left | done | done].
  - destruct (owned_ram _ _ Ho) as [_ Hr]. unfold user_pa. rewrite E1, Hav, <- E1.
    rewrite u32_small; unfold in_page, PAGE_SIZE, MEM_START, MEM_END, U32 in *; zlia.
Qed.

Lemma first_low x : 0 <= x < start_page s -> load8 (mem s1) x = load8 (mem s) x.
Proof using Hq Hs.
  intros Hx. apply (tk_mem _ _ _ (su_took _ _ _ _ _ (sp_setup _ _ _ _ _ _ Hs))). intros b Hb.
  pose proof (avail_start s b (quiet_ready _ Hq) Hb). unfold in_page. lia.
Qed.

Context (img len : Z) (Himg : 0 <= img) (Hend : img + Z.max len sizeof_elf_hdr <= start_page s).

Lemma first_segs : let elf := read_elf_hdr (mem s1) img in
  (forall j, 0 <= j < e_phnum elf -> let prg := hdr img s1 (e_phoff elf) j in
     e_phoff elf + (j + 1) * sizeof_prg_hdr <= len /\
     (loadable prg -> p_va prg + p_memsz prg <= sz /\ p_offset prg + p_filesz prg <= len /\
        seg_loaded (mem s1) (mem s2) pt img prg)) ->
  read_elf_hdr (mem s1) img = read_elf_hdr (mem s) img /\
  forall j, 0 <= j < e_phnum elf -> loadable (hdr img s (e_phoff elf) j) ->
    seg_loaded (mem s) (mem s') pt img (hdr img s (e_phoff elf) j).
Proof.
  intros elf Hsegs. pose proof (low_elf_hdr s s1 img len first_low Himg Hend) as Helf. split; [done |].
  intros j Hj Hlo. destruct (Hsegs j Hj) as [Hin Hld]. assert (Hphoff : 0 <= e_phoff elf) by apply load32_range.
  rewrite (low_hdr s s1 img len first_low Himg Hend) in Hld by (done || lia).
  destruct (Hld Hlo) as (E1 & E2 & E3). eapply seg_loaded_ext; [| by apply (low_seg s s1 img len first_low Himg Hend)].
  intros v Hv. pose proof (hdr_range img s (e_phoff elf) j) as (Rv & _ & _ & _).
  destruct (E3 (v - p_va (hdr img s (e_phoff elf) j)) ltac:(lia)) as (Hav & _).
  rewrite Z.add_comm, Z.sub_add in Hav. apply first_byte; [unfold UART_0, U32 in *; lia | done].
Qed.
End First.

(** How [init_userproc] can halt: there is no program init, or it does not load,
    or memory runs out. *)
Definition first_panic `{Initcode} (msg : string) : Prop :=
  msg = "init_userproc: procalloc fail"%string \/
  match find_program (bytes "init") with
  | None => msg = "uvmfirst: no init program"%string
  | Some _ => msg = "uvmfirst: cannot load init ELF"%string \/ msg = "uvmfirst: out of memory"%string \/
      msg = "uvmfirst: mappage"%string
  end.

Section Userproc.
Context `{L : Layout} {HL : LayoutOk L} `{Initcode, KSyms} (s : kstate) (Hq : quiet s) (Himgs : Forall (image_file s) programs).
Context (Hfree : exists j, (j < NPROC)%nat /\ p_state (get_proc s j) = UNUSED).

(** If init is a well-formed executable, memory is short: at most the pages of
    its image, of its stack and of a page table, and two more. *)
Definition first_short : Prop := forall img len top, find_program (bytes "init") = Some (img, len) ->
  executable s img len top -> scarce (pages_below top + 1028) s.

Context (P : string -> Prop) (HP0 : forall msg, first_panic msg -> first_short -> P msg).
Context (Q : unit -> kstate -> Prop).
Context (HQ : forall n img len s', find_program (bytes "init") = Some (img, len) -> first_proc n img s s' -> Q tt s').

(** The trap frame and the slot, at the end of [uvmfirst]. *)
Section Publish.
Context (n : nat) (ks tf pt sz p img len : Z) (s1 s2 s3 s4 : kstate).
Context (Hf : find_program (bytes "init") = Some (img, len)) (Hs : spawned n ks tf pt s s1).
Let sl := set_sy (sync_lock (ProcLock n) (sy s1)) s1.
Context (Him : image pt sz sl s2) (Hsz : USER_BASE <= sz <= UART_0) (Hal : sz mod PAGE_SIZE = 0).
Context (Ha : alloc_some s2 p s3) (Hg : pt_grow pt s3 s4).
Context (Hpte : forall v, 0 <= v < U32 -> pte_at (mem s4) pt v =
  if decide (vpn v = vpn stackbase) then mk_pte p rwu else pte_at (mem s3) pt v).
Context (Himg : 0 <= img) (Hend : img + Z.max len sizeof_elf_hdr <= start_page s).
Let elf := read_elf_hdr (mem s1) img.
Context (Hok : bad_elf_hdr elf = false).
Context (Hsegs : forall j, 0 <= j < e_phnum elf -> let prg := hdr img s1 (e_phoff elf) j in
  e_phoff elf + (j + 1) * sizeof_prg_hdr <= len /\
  (loadable prg -> p_va prg + p_memsz prg <= sz /\ p_offset prg + p_filesz prg <= len /\ seg_loaded (mem s1) (mem s2) pt img prg)).

Definition first_frame (m : gmap Z Z) (kpt : Z) : gmap Z Z :=
  store32 (store32 (store32 (store32 (store32 (store32 m (tf + tf_epc) (e_entry elf)) (tf + tf_regs 2) USER_STACK_TOP)
    (tf + tf_k_sp) (ks +w PAGE_SIZE)) (tf + tf_k_satp) (MAKE_SATP kpt)) (tf + tf_k_trap) sym_kerneltrap)
    (tf + tf_u_trap) sym_u_trap_handle.

Lemma first_frame_words m kpt : kwords_at (first_frame m kpt) tf = boot_words kpt /\
  load32 (first_frame m kpt) (tf + tf_k_sp) = ks +w PAGE_SIZE /\ load32 (first_frame m kpt) (tf + tf_epc) = e_entry elf /\
  load32 (first_frame m kpt) (tf + tf_regs 2) = USER_STACK_TOP.
Proof.
  assert (He : 0 <= e_entry elf < U32) by apply load32_range. unfold first_frame, kwords_at, boot_words.
  split_and!; [f_equal | ..];
    repeat first [rewrite load32_store32_eq | rewrite load32_store32_ne by tf_lia]; first [reflexivity | by rewrite u32_idem | by rewrite u32_small].
Qed.

Lemma first_frame_out m kpt a : ~ in_page tf a -> load8 (first_frame m kpt) a = load8 m a.
Proof. intros Hn. unfold first_frame. unfold in_page, PAGE_SIZE in Hn. by rewrite !load8_store32_ne by tf_lia. Qed.

Lemma first_made s' : oframe (set_sy (sy s1) s4) s' -> mem_bitmap s' = mem_bitmap s4 -> mem s' = first_frame (mem s4) (kptable s) ->
  (forall j, get_proc s' j = if decide (j = n) then first_of (get_proc s n) (curr_pid s) ks tf pt sz else get_proc s1 j) ->
  curr_pid s' = curr_pid s1 -> first_proc n img s s'.
Proof.
  intros Hof Hbm Hmem Hpr Hpid. pose proof (sp_setup _ _ _ _ _ _ Hs) as [Ht1 Hpid1 _ Hrest].
  assert (Hm : forall a, ~ in_page tf a -> load8 (mem s') a = load8 (mem s4) a) by (intros; rewrite Hmem; by apply first_frame_out).
  set (c := first_of (get_proc s n) (curr_pid s) ks tf pt sz). assert (Hn : get_proc s' n = c) by (by rewrite Hpr, decide_True).
  destruct (first_holds s s1 s2 s3 s4 n ks tf pt sz p Hq Hs Him Hsz Hal Ha Hg Hpte s' Hof Hbm Hm c) as [Hh Ho]; try reflexivity.
  destruct (first_table s s1 s2 s3 s4 n ks tf pt sz p Hq Hs Him Hsz Ha Hg Hpte s' Hof Hbm Hm) as (_ & _ & _ & Hst).
  destruct (first_segs s s1 s2 s3 s4 n ks tf pt sz p Hq Hs Him Hsz Ha Hg Hpte s' Hof Hbm Hm img len Himg Hend Hsegs) as [Helf Hld].
  destruct (first_frame_words (mem s4) (kptable s)) as (F1 & F2 & F3 & F4). rewrite <- Hmem in F1, F2, F3, F4.
  assert (Hpg : forall b, b = ks \/ b = tf \/ b = pt -> b <> 0).
  { intros b Hbb. apply (spawned_page n ks tf pt s s1 Hs). destruct Hbb as [? | [? | ->]]; try tauto. right. right. by left. }
  split; try rewrite Hn.
  - apply Hs.
  - exists ks, tf, pt, sz. split_and!; (done || (apply Hpg; tauto) || lia).
  - intros j Hj. rewrite Hpr, decide_False by done. by apply Hrest.
  - congruence.
  - done.
  - eapply took_equiv; [intros b; symmetry; apply Ho |].
    exact (first_final s s1 s2 s3 s4 n ks tf pt sz p Hq Hs Him Hsz Ha Hg Hpte s' Hof Hbm Hm).
  - exact F1.
  - cbv zeta. unfold elf in F3. rewrite Helf in F3. done.
  - intros v Hv. change (p_pt c) with pt. change (p_sz c) with sz. rewrite (same_tables_pte (mem s4)) by done.
    apply (first_user pt sz p sl s2 s3 s4 (first_kernel s s1 n ks tf pt Hs) Him Ha Hpte v Hv).
  - cbv zeta. unfold elf in Hok. rewrite Helf in Hok. split; [done |]. rewrite <- Helf. exact Hld.
  - intros v Hv. change (p_pt c) with pt. rewrite (same_tables_pte (mem s4)) by done.
    assert (Hmap : forall v, stackbase <= v < USER_STACK_TOP -> pte_at (mem s4) pt v = mk_pte p rwu).
    { intros v' Hv'. destruct stack_consts as (C0 & C1 & C2 & C3 & _).
      by rewrite (first_entry pt p s2 s3 s4 Ha Hpte v' ltac:(lia)), decide_True by lia. }
    pose proof (avail_ram s2 p (as_avail _ _ _ Ha)) as Hram.
    pose proof (stack_user_pa s4 pt p Hmap Hram PTE_R v ltac:(auto) Hv) as HuR.
    pose proof (stack_user_pa s4 pt p Hmap Hram PTE_W v ltac:(auto) Hv) as HuW.
    destruct Hram as [_ Hr]. unfold user_pa, MEM_START in *. destruct (allows _ PTE_R); [| lia]. destruct (allows _ PTE_W); [done | lia].
Qed.
End Publish.

(** The pages that were there before the first process. *)
Lemma first_ran_out n ks tf pt s1 : spawned n ks tf pt s s1 -> forall k y, ran_out pt (k + 1) (set_sy y s1) -> scarce (k + 1028) s.
Proof.
  intros Hs k y Hout. pose proof (su_took _ _ _ _ _ (sp_setup _ _ _ _ _ _ Hs)) as Ht.
  eapply few_mono; [eapply (scarce_new_table _ (fun b => b = ks \/ b = tf) 2 _ pt s s1 (set_sy y s1)); [exact Ht | | done | done | exact Hout] | lia | done].
  apply (few_or 1 1 _ _ _ (few_one ks) (few_one tf)). intros b [Hb | Hb] Hn; [exact Hb | done].
Qed.

Lemma ends_uvmfirst n ks tf pt s1 : spawned n ks tf pt s s1 -> ends (uvmfirst n USER_STACK_TOP) Q P s1.
Proof.
  intros Hs. pose proof (sp_setup _ _ _ _ _ _ Hs) as Hset. pose proof (setup_quiet _ _ _ _ _ Hq Hset) as Hq1.
  unfold uvmfirst. apply ends_wp, wp_lock; [apply Hq1 |]. set (sl := set_sy _ s1).
  assert (Hrl : kready sl) by (by apply ready_locked).
  assert (HP : forall msg, msg = "uvmfirst: cannot load init ELF"%string \/ msg = "uvmfirst: out of memory"%string \/
    msg = "uvmfirst: mappage"%string -> forall img len, find_program (bytes "init") = Some (img, len) ->
    (forall top, executable s img len top -> ran_out pt (pages_below top + 1) sl) -> P msg).
  { intros msg Hmsg img len Hf Hout. apply HP0; [right; by rewrite Hf |]. intros img' len' top Hf' Hx.
    rewrite Hf in Hf'. injection Hf' as <- <-. exact (first_ran_out n ks tf pt s1 Hs _ _ (Hout top Hx)). }
  destruct (find_program (bytes "init")) as [[img len] |] eqn:Hf.
  2: { apply ends_panic, HP0; [right; by rewrite Hf |]. intros img len top Hf'. congruence. }
  destruct (find_loop_in _ _ _ _ Hf) as (pr & Hpr & Ei & El).
  destruct (proj1 (list.Forall_forall _ _) Himgs pr Hpr) as (I1 & I2 & I3 & I4). rewrite <- Ei, <- El in *.
  apply ends_wp, wp_gets. change (get_proc sl n) with (get_proc s1 n).
  rewrite (su_slot _ _ _ _ _ Hset). cbn [new_proc p_pt p_tf kstack].
  assert (Hst : start_page s1 = start_page s) by apply (of_start _ _ (tk_frame _ _ _ _ (su_took _ _ _ _ _ Hset))).
  pose proof (low_elf_hdr s s1 img len (first_low s s1 n ks tf pt Hq Hs) I1 I3) as Helf.
  assert (Hwfl : pt_wf sl pt) by (destruct (sp_wf _ _ _ _ _ _ Hs) as [W1 W2 W3]; by split).
  apply ends_wp. eapply wp_mono.
  { apply (wp_load_elf pt img len 0 sl); [done | by apply kernel_only_uspace; [| exact (sp_map _ _ _ _ _ _ Hs)] | done | done | | |].
    - change (start_page sl) with (start_page s1). lia.
    - intros v Hv. apply (spawned_unmapped n ks tf pt s s1 Hs). by left.
    - change (mem sl) with (mem s1). by rewrite Helf. }
  intros [[r entry] sz] s2 (Him & Hsz & Hal & Hres).
  assert (Hexe : forall top, executable s img len top -> executable sl img len top)
    by (apply (low_executable s sl img len (first_low s s1 n ks tf pt Hq Hs) I1 I3)).
  destruct Hres as [(-> & -> & Hout) | (-> & -> & Htop & Hok & Hsegs)]; cbn [Z.ltb Z.compare].
  { apply ends_panic. eapply HP; [auto | done |]. intros top Hx. eapply ran_out_mono; [by apply Hout, Hexe | lia]. }
  assert (Hshort : ran_out pt 1 s2 -> forall top, executable s img len top -> ran_out pt (pages_below top + 1) sl).
  { intros Ho top Hx. specialize (Htop top (Hexe top Hx)).
    assert (Hd : few ((sz - USER_BASE) / PAGE_SIZE) (pages pt (image_range sz) s2)) by (apply few_pages; [done | done | lia]).
    eapply ran_out_mono; [apply (ran_out_ext _ _ _ _ _ _ (im_ext _ _ _ _ Him) Hd Ho) |]. unfold pages_below, PAGE_SIZE. zlia. }
  apply ends_wp, pa_alloc; [apply (im_ext _ _ _ _ Him) | |].
  { intros s3 Hn3. cbn [Z.eqb]. apply ends_panic. eapply HP; [auto | done |]. apply Hshort. exists (fun _ => False), s2.
    split_and!; [apply pt_ext_refl; apply (im_ext _ _ _ _ Him) | apply few_none; [done | tauto] | apply Hn3]. }
  intros p s3 Ha. rewrite (fresh_nonzero _ _ _ Ha).
  pose proof (im_ext _ _ _ _ Him) as Ex. assert (E3 : set_mem (mem s3) s3 = s3) by (by destruct s3).
  destruct (alloc_fill_ext s2 s3 pt p (mem s3) (ex_ready _ _ _ _ Ex) (ex_wf _ _ _ _ Ex) Ha) as (X3 & _ & _).
  { intros a _. by rewrite (as_mem _ _ _ Ha). }
  cbv zeta in X3. rewrite E3 in X3. destruct stack_consts as (C0 & C1 & C2 & C3 & C4).
  destruct (avail_ram s2 p (as_avail _ _ _ Ha)) as [Hpal _].
  assert (Hns : valid (pte_at (mem s3) pt stackbase) = false).
  { rewrite (as_mem _ _ _ Ha).
    destruct (image_no_stack pt sz sl s2 Him Hsz) as [Hun _]; [| by apply Hun; fold stackbase; lia].
    intros v Hv. apply (spawned_unmapped n ks tf pt s s1 Hs). by right. }
  fold stackbase. change (Z.lor (Z.lor (Z.lor PTE_R PTE_W) PTE_U) PTE_V) with (Z.lor rwu PTE_V).
  apply ends_wp, wp_mappage; [apply X3 | apply X3 | done | lia | done | done | |].
  { intros s4 _ _ Hfull. cbn [Z.eqb]. apply ends_panic. eapply HP; [auto | done |]. apply Hshort.
    exists (fun b => b = p), s3. split_and!; [exact X3 | apply few_one | exact Hfull]. }
  intros r s4 Hg Hr Hpte. rewrite (mk_pte_valid p rwu) in Hpte. assert ((r =? 0) = false) as -> by lia.
  assert (Hf4 : kframe sl s4).
  { transitivity s2; [apply Ex |]. transitivity s3; [apply X3 | apply Hg]. }
  apply ends_ret, wp_bind, wp_gets.
  assert (Hk : kptable s4 = kptable s).
  { rewrite (kf_kpt _ _ Hf4). apply (of_kpt _ _ (tk_frame _ _ _ _ (su_took _ _ _ _ _ Hset))). }
  rewrite Hk. unfold st, with_proc. do 9 (apply wp_bind, wp_modify). set (s5 := put_proc n _ _).
  assert (Hg4 : forall j, get_proc s4 j = get_proc s1 j) by (intros j; unfold get_proc; by rewrite (kf_procs _ _ Hf4)).
  assert (Hm5 : mem s5 = first_frame ks tf img s1 (mem s4) (kptable s)) by reflexivity.
  assert (Hb5 : mem_bitmap s5 = mem_bitmap s4) by reflexivity.
  assert (Hs5 : sy s5 = sy s4) by reflexivity.
  assert (Ho5 : forall y, y ≡ sy s1 -> oframe (set_sy (sy s1) s4) (set_sy y s5)) by (intros y Hy; by split).
  assert (Hp5 : forall j, get_proc s5 j = if decide (j = n) then first_of (get_proc s n) (curr_pid s) ks tf pt sz else get_proc s1 j).
  { intros j. unfold s5. rewrite !get_proc_put. case_decide as Ej; [subst j |].
    - rewrite !decide_True by done. change (get_proc (set_mem _ _) n) with (get_proc s4 n).
      by rewrite Hg4, (su_slot _ _ _ _ _ Hset).
    - change (get_proc (set_mem _ _) j) with (get_proc s4 j). apply Hg4. }
  assert (Hc5 : curr_pid s5 = curr_pid s1) by (exact (kf_pid _ _ Hf4)). clearbody s5.
  apply (wp_unlock _ (sy s1)); [apply Hq1 | rewrite Hs5; exact (kf_sy _ _ Hf4) |]. intros y Hy. apply (HQ n img len); [done |].
  by apply (first_made n ks tf pt sz p img len s1 s2 s3 s4 Hs Him Hsz Hal Ha Hg Hpte I1 I3 Hok Hsegs (set_sy y s5) (Ho5 y Hy)).
Qed.

Lemma ends_init_userproc : blank_slots s -> curr_pid s <> 0x7FFFFFFF -> ends init_userproc Q P s.
Proof.
  intros Hb Hpid. unfold init_userproc. apply ends_wp, (wp_procalloc s Hq Hb); [done | |].
  - intros s' _ Hno. apply ends_panic, HP0; [by left |]. intros img len top _ Hx.
    destruct Hno as [Hfull | Hsc]; [destruct Hfree as (j & Hj & Hu); by destruct (Hfull j Hj) |].
    pose proof (pages_below_nonneg _ _ _ _ Hx). by eapply few_mono; [exact Hsc | lia |].
  - intros n ks tf pt s1 Hs. by eapply ends_uvmfirst.
Qed.
End Userproc.

(** Everything else is as the table wants it. *)
Lemma first_proc_ok `{KSyms} n img s s' : procs_ok s -> first_proc n img s s' -> procs_ok s'.
Proof.
  intros Hok Hf. pose proof (fp_took _ _ _ _ Hf) as Ht. destruct (fp_slot _ _ _ _ Hf) as [Hn _].
  apply (procs_ok_grow n s); [done | done | apply Hf | | |].
  - intros b Hb. left. by apply (tk_new _ _ _ _ Ht).
  - destruct (fp_proc _ _ _ _ Hf) as (ks & tf & pt & sz & -> & _). done.
  - intros j Hj Hne. split; [by apply (fp_rest _ _ _ _ Hf) |]. pose proof (pk_holds _ Hok j Hj) as Hh.
    destruct (holds_stay s s' (get_proc s j)) as [Hh' Ho]; [| | done |].
    + intros b _ Hb. by apply (tk_owned _ _ _ _ Ht).
    + intros b a H0 Htb Hin. apply (took_page _ _ _ b a Ht); [| done].
      apply (owns_owned s (get_proc s j)); [done |]. left. right. split; [done | by right].
    + split; [done |]. intros b. apply Ho.
Qed.

(** * The machine at boot *)

(** Every lock is free. *)
Definition idle (y : sync) : Prop := forall l, can_lock l y.

#[global] Instance idle_proper : Proper ((≡) ==> iff) idle.
Proof. intros a b Hab. unfold idle. by setoid_rewrite Hab. Qed.

Lemma idle_lock l nm y : idle y -> idle (set_lk l (mk_spinlock 0 None nm) y).
Proof.
  intros Hi l'. destruct (Hi l') as [[H1 H2 H3] Hf]. split; [by split |]. unfold lk_free. destruct (decide (l = l')) as [-> | Hne].
  - by rewrite lk_set_lk_eq.
  - by rewrite lk_set_lk_ne.
Qed.

Lemma csr_get_set y c v c' : csr_get (csr_set y c v) c' = if decide (c = c') then u32 v else csr_get y c'.
Proof.
  unfold csr_get, csr_set. cbn [csrs tp]. case_decide as Hd; [subst; by rewrite get0_insert_eq |].
  rewrite get0_insert_ne; [done | congruence].
Qed.

Lemma idle_csr c v y : c <> SSTATUS -> idle y -> idle (csr_set y c v).
Proof.
  intros Hc Hi l. destruct (Hi l) as [[H1 H2 H3] Hf].
  assert (Hg : csr_get (csr_set y c v) SSTATUS = csr_get y SSTATUS) by (by rewrite csr_get_set, decide_False).
  split; [split | done]; [done | unfold sie in *; by rewrite Hg | by rewrite Hg].
Qed.

Lemma idle_cpu id y : idle y ->
  let c := get_cpu y in idle (set_cpu (mk_cpu id (depth c) (intena c) (cpu_proc c) (cpu_context c)) y).
Proof.
  intros Hi c l. destruct (Hi l) as [[H1 H2 H3] Hf]. split; [| done].
  assert (Hg : get_cpu (set_cpu (mk_cpu id (depth c) (intena c) (cpu_proc c) (cpu_context c)) y) =
    mk_cpu id (depth c) (intena c) (cpu_proc c) (cpu_context c)) by (unfold get_cpu, set_cpu; cbn; by rewrite get0_insert_eq).
  split; [by rewrite Hg | rewrite Hg; exact H2 | exact H3].
Qed.

(** The locks of the table. *)
Lemma wp_init_procs k : forall i s (Q : unit -> kstate -> Prop), idle (sy s) ->
  (forall y tab, idle y -> cpus y = cpus (sy s) -> csrs y = csrs (sy s) -> tp y = tp (sy s) ->
     (forall j, get0 proc0 tab j = if decide (i <= j < i + k)%nat then set_state UNUSED (set_kstack 0 (get_proc s j)) else get_proc s j) ->
     Q tt (set_sy y (set_proctable tab s))) -> wp (init_procs k i) Q s.
Proof.
  induction k as [| k IH]; intros i s Q Hi HQ; cbn [init_procs].
  - apply wp_ret. replace s with (set_sy (sy s) (set_proctable (proctable s) s)) at 1 by (by destruct s).
    apply HQ; try done. intros j. by rewrite decide_False by lia.
  - unfold init_lock, put_lock, with_proc. do 2 (apply wp_bind, wp_modify). set (s1 := put_proc i _ _).
    apply (IH (S i) s1); [apply idle_lock; exact Hi |]. intros y tab Hy E1 E2 E3 Ht.
    change (set_sy y (set_proctable tab s1)) with (set_sy y (set_proctable tab s)). apply HQ; try done. intros j. rewrite Ht.
    unfold s1. rewrite get_proc_put. change (get_proc (set_sy _ s) ?x) with (get_proc s x).
    destruct (decide (j = i)) as [-> | Hj]; repeat case_decide; try lia; done.
Qed.

Lemma make_satp_word pt : ram_page pt -> u32 (MAKE_SATP pt) = MAKE_SATP pt.
Proof.
  intros Hr. apply u32_small. rewrite MAKE_SATP_value by done. destruct Hr. unfold MEM_START, MEM_END, U32 in *. zlia.
Qed.

(** Hart 0 enters [main]: [.bss] is zero, so that no page is free and no slot
    used, no lock is held, and the embedded files are in the kernel's image. *)
Record power_on `{Layout, Initcode} (s : kstate) : Prop := {
  pw_pages : forall i, bit s i = 0;
  pw_locks : idle (sy s);
  pw_procs : forall j, get_proc s j = proc0;
  pw_pid : curr_pid s = 1;
  pw_images : Forall (image_file (set_start_page sym_end s)) programs
}.

(** Hart 0 leaves it for the scheduler. [s0] is the state in which the first
    process was made. *)
Record booted `{Layout, Initcode, KSyms} (s s' : kstate) : Prop := {
  bo_quiet : quiet s';
  bo_procs : procs_ok s';
  bo_words : vectors (boot_words (kptable s')) s';
  bo_satp : csr_get (sy s') SATP = MAKE_SATP (kptable s');
  bo_stvec : csr_get (sy s') STVEC = u32 (Z.land sym_kerneltrap (Z.lnot 3));
  bo_ticks : ticks s' = 0;
  bo_cpu : cpu_id (get_cpu (sy s')) = Z.of_nat (tp (sy s)) /\ cpu_proc (get_cpu (sy s')) = cpu_proc (get_cpu (sy s));
  bo_kernel : pt_wf s' (kptable s') /\ ((exists b, avail s' b) -> forall v, 0 <= v < U32 ->
    pte_at (mem s') (kptable s') v = kernel_map v);
  bo_first : exists n img len s0, find_program (bytes "init") = Some (img, len) /\ first_proc n img s0 s' /\
    pid (get_proc s' n) = 1 /\ parent (get_proc s' n) = None /\ (forall j, j <> n -> p_state (get_proc s' j) = UNUSED) /\
    (forall x, 0 <= x < sym_end -> load8 (mem s0) x = load8 (mem s) x);
  bo_low : forall x, 0 <= x < sym_end -> load8 (mem s') x = load8 (mem s) x
}.

Section Main.
Context `{L : Layout} {HL : LayoutOk L} `{Initcode, KSyms}.

(** The state once the tables are set up, before the first process. *)
Record prepared (s s9 : kstate) : Prop := {
  pr_quiet : quiet s9;
  pr_slots : forall j, get_proc s9 j = set_state UNUSED (set_kstack 0 proc0) \/ get_proc s9 j = proc0;
  pr_pid : curr_pid s9 = 1;
  pr_start : start_page s9 = sym_end;
  pr_satp : csr_get (sy s9) SATP = MAKE_SATP (kptable s9);
  pr_stvec : csr_get (sy s9) STVEC = u32 (Z.land sym_kerneltrap (Z.lnot 3));
  pr_ticks : ticks s9 = 0;
  pr_cpu : cpu_id (get_cpu (sy s9)) = Z.of_nat (tp (sy s)) /\ cpu_proc (get_cpu (sy s9)) = cpu_proc (get_cpu (sy s));
  pr_kernel : pt_wf s9 (kptable s9) /\ ((exists b, avail s9 b) -> forall v, 0 <= v < U32 ->
    pte_at (mem s9) (kptable s9) v = kernel_map v);
  pr_low : forall x, 0 <= x < sym_end -> load8 (mem s9) x = load8 (mem s) x
}.

Lemma prepared_procs s s9 : prepared s s9 -> procs_ok s9 /\ blank_slots s9.
Proof.
  intros Hp. assert (Hb : forall j, blank (get_proc s9 j)).
  { intros j. destruct (pr_slots _ _ Hp j) as [-> | ->]; done. }
  split; [| by intros j]. split.
  - intros j _. by apply blank_holds.
  - intros j k b _ _ Ho _. by destruct (proj2 (blank_holds s9 _ (Hb j)) b).
  - intros j _ _. apply Hb.
Qed.

(** From the first instruction to the page table. *)
Section Prepare.
Context (s : kstate) (Hp : power_on s).

(** Hart 0 has a number, and has printed something. *)
Record greeted (s2 : kstate) : Prop := {
  gt_mem : mem s2 = mem s;
  gt_pages : forall i, bit s2 i = 0;
  gt_procs : proctable s2 = proctable s;
  gt_pid : curr_pid s2 = 1;
  gt_sy : sy s2 ≡ let c := get_cpu (sy s) in
    set_cpu (mk_cpu (Z.of_nat (tp (sy s))) (depth c) (intena c) (cpu_proc c) (cpu_context c)) (sy s)
}.

Lemma greeted_idle s2 : greeted s2 -> idle (sy s2).
Proof. intros Hg. rewrite (gt_sy _ Hg). apply idle_cpu, Hp. Qed.

Lemma greeted_printed s2 s3 : greeted s2 -> printed s2 s3 -> greeted s3.
Proof.
  intros [G1 G2 G3 G4 G5] ([] & Hm & Hb & _). split; [congruence | | congruence | congruence | by rewrite kf_sy].
  intros i. unfold bit. rewrite Hb. apply G2.
Qed.

Lemma greeted_start : greeted (let c := get_cpu (sy s) in
  set_sy (set_cpu (mk_cpu (Z.of_nat (tp (sy s))) (depth c) (intena c) (cpu_proc c) (cpu_context c)) (sy s)) s).
Proof. split; [done | apply Hp | done | apply Hp | done]. Qed.

(** The allocator and the kernel's page table. *)
Section Tables.
Context (s2 s3 s4 : kstate) (kpt : Z) (Hg : greeted s2).
Context (Ha3 : forall b, avail s3 b <-> ram_page b /\ sym_end <= b).
Context (Hm3 : forall x, load8 (mem s3) x = if (sym_end <=? x) && (x <? MEM_END) then 0 else load8 (mem s2) x).
Context (Hf3 : kframe (set_start_page sym_end (set_sy (set_lk MemLock (mk_spinlock 0 None "mem") (sy s2)) s2)) s3).
Context (Hr4 : kready s4) (Hwf : pt_wf s4 kpt) (Hf4 : kframe s3 s4) (Hkpt : avail s3 kpt).
Context (Hm4 : forall a, (forall t, table (mem s4) kpt t -> ~ in_page t a) -> load8 (mem s4) a = load8 (mem s3) a).
Context (Hav4 : forall b, avail s4 b <-> avail s3 b /\ ~ table (mem s4) kpt b).
Context (Hmap : (exists b, avail s4 b) -> forall v, 0 <= v < U32 -> pte_at (mem s4) kpt v = kernel_map v).

Lemma tables_sy : idle (sy s4) /\ cpu_id (get_cpu (sy s4)) = Z.of_nat (tp (sy s)) /\ tp (sy s4) = tp (sy s) /\
  cpu_proc (get_cpu (sy s4)) = cpu_proc (get_cpu (sy s)).
Proof.
  assert (Hs : sy s4 ≡ set_lk MemLock (mk_spinlock 0 None "mem") (sy s2)).
  { rewrite (kf_sy _ _ Hf4). exact (kf_sy _ _ Hf3). }
  split; [rewrite Hs; by apply idle_lock, greeted_idle |].
  assert (Hc : cpu_equiv (get_cpu (sy s4)) (get_cpu (sy s2))).
  { transitivity (get_cpu (set_lk MemLock (mk_spinlock 0 None "mem") (sy s2))); [by apply get_cpu_equiv | done]. }
  assert (Hc2 : cpu_equiv (get_cpu (sy s4)) (get_cpu (set_cpu (let c := get_cpu (sy s) in
    mk_cpu (Z.of_nat (tp (sy s))) (depth c) (intena c) (cpu_proc c) (cpu_context c)) (sy s)))).
  { transitivity (get_cpu (sy s2)); [done |]. apply get_cpu_equiv, Hg. }
  unfold get_cpu at 2, set_cpu in Hc2. cbn [cpus tp] in Hc2. rewrite get0_insert_eq in Hc2.
  destruct Hc2 as (C1 & _ & C3 & _). cbn in C1, C3. destruct Hs as [Ht _]. destruct (gt_sy _ Hg) as [Ht2 _].
  cbn in Ht, Ht2. split_and!; [exact C1 | congruence | exact C3].
Qed.

Lemma tables_low x : 0 <= x < sym_end -> load8 (mem s4) x = load8 (mem s) x.
Proof.
  intros Hx. rewrite Hm4.
  - rewrite Hm3, (gt_mem _ Hg). zcase; [lia | done].
  - intros t Ht Hin. assert (Ho : owned s4 t) by (by eapply table_owned). destruct Ho as (_ & Hst & _).
    rewrite (kf_start _ _ Hf4), (kf_start _ _ Hf3) in Hst. cbn [start_page set_start_page] in Hst. unfold in_page in Hin. lia.
Qed.

Let y4 := csr_set (set_lk TicksLock (mk_spinlock 0 None "ticks") (csr_set (sy s4) SATP (MAKE_SATP kpt))) STVEC
  (Z.land sym_kerneltrap (Z.lnot 3)).

Lemma tables_idle : idle y4.
Proof. destruct tables_sy as (Hi & _). apply idle_csr; [done |]. apply idle_lock, idle_csr; done. Qed.

Lemma tables_prepared y tab : idle y -> cpus y = cpus y4 -> csrs y = csrs y4 -> tp y = tp y4 ->
  (forall j, get0 proc0 tab j = if decide (0 <= j < 0 + NPROC)%nat then set_state UNUSED (set_kstack 0 (get_proc s4 j)) else get_proc s4 j) ->
  prepared s (set_sy y (set_proctable tab (set_ticks 0 (set_kptable kpt s4)))).
Proof.
  intros Hi E1 E2 E3 Ht. destruct tables_sy as (_ & C1 & C2 & C3). pose proof (avail_ram _ _ Hkpt) as Hram.
  assert (Hcpu : get_cpu y = get_cpu (sy s4)) by (unfold get_cpu; by rewrite E1, E3).
  assert (Hcsr : forall c, csr_get y c = csr_get y4 c) by (intros c; unfold csr_get; by rewrite E2, E3).
  assert (Hproc : forall j, get_proc s4 j = proc0).
  { intros j. unfold get_proc. rewrite (kf_procs _ _ Hf4), (kf_procs _ _ Hf3). cbn [proctable set_start_page set_sy].
    rewrite (gt_procs _ Hg). apply Hp. }
  split; try (cbn [sy set_sy kptable set_kptable]; rewrite ?Hcsr).
  - split; [destruct (kr_alloc _ Hr4) as [A1 A2]; by split | exact Hi].
  - intros j. change (get_proc _ j) with (get0 proc0 tab j). rewrite Ht, Hproc. case_decide; auto.
  - change (curr_pid _) with (curr_pid s4). rewrite (kf_pid _ _ Hf4), (kf_pid _ _ Hf3). apply Hg.
  - change (start_page _) with (start_page s4). by rewrite (kf_start _ _ Hf4), (kf_start _ _ Hf3).
  - unfold y4. rewrite csr_get_set, decide_False by done. change (csr_get (set_lk _ _ ?y) SATP) with (csr_get y SATP).
    rewrite csr_get_set, decide_True by done. by apply make_satp_word.
  - unfold y4. by rewrite csr_get_set, decide_True.
  - done.
  - rewrite Hcpu. done.
  - split; [destruct Hwf as [W1 W2 W3]; by split | exact Hmap].
  - exact tables_low.
Qed.
End Tables.
End Prepare.

(** The first process starts in a machine that is prepared. *)
Lemma prepared_booted s s9 s' n img len : prepared s s9 -> find_program (bytes "init") = Some (img, len) ->
  first_proc n img s9 s' -> booted s s'.
Proof.
  intros Hp Hf Hfp. destruct (prepared_procs s s9 Hp) as [Hok Hbl]. pose proof (fp_took _ _ _ _ Hfp) as Ht.
  pose proof (tk_frame _ _ _ _ Ht) as Hof. destruct (fp_proc _ _ _ _ Hfp) as (ks & tf & pt & sz & En & N1 & N2 & N3 & Hsz).
  assert (Hslot : p_tf (get_proc s9 n) = 0 /\ pid (get_proc s' n) = 1 /\ parent (get_proc s' n) = None).
  { rewrite En. destruct (pr_slots _ _ Hp n) as [E | E]; cbn; rewrite E, (pr_pid _ _ Hp); done. }
  assert (Hst : same_tables (mem s9) (mem s') (kptable s9)).
  { intros t a Htt Hin. apply (took_page _ _ _ t a Ht); [| done]. by eapply table_owned; [apply (pr_kernel _ _ Hp) |]. }
  assert (Hrest : forall j, j <> n -> get_proc s' j = set_state UNUSED (set_kstack 0 proc0) \/ get_proc s' j = proc0).
  { intros j Hj. rewrite (fp_rest _ _ _ _ Hfp j Hj). apply Hp. }
  assert (Hcsr : forall c, csr_get (sy s') c = csr_get (sy s9) c).
  { intros c. destruct (of_sy _ _ Hof) as (E1 & _ & E2 & _). unfold csr_get. rewrite E1. apply E2. }
  destruct (get_cpu_equiv _ _ (of_sy _ _ Hof)) as (C1 & _ & C3 & _).
  split; rewrite ?(of_kpt _ _ Hof), ?Hcsr, ?(of_ticks _ _ Hof), ?C1, ?C3; try apply Hp.
  - apply (quiet_frame s9); [done | apply Ht | apply Hp].
  - by apply (first_proc_ok n img s9).
  - intros j Hj Htf. destruct (decide (j = n)) as [-> | Hne]; [apply Hfp |].
    destruct (Hrest j Hne) as [E | E]; rewrite E in Htf; by destruct Htf.
  - destruct (pr_kernel _ _ Hp) as [Hwf Hmap]. split.
    + apply (wf_kept s9); [done | apply Ht | done].
    + intros [b Hb] v Hv. rewrite (same_tables_pte (mem s9)) by done. apply Hmap; [| done].
      exists b. by apply (tk_avail _ _ _ _ Ht) in Hb as [? _].
  - exists n, img, len, s9. destruct Hslot as (_ & S1 & S2). do 4 (split; [done |]). split; [| apply Hp].
    intros j Hne. by destruct (Hrest j Hne) as [-> | ->].
  - intros x Hx. rewrite (tk_mem _ _ _ Ht); [by apply (pr_low _ _ Hp) |]. intros b Hb Hin.
    pose proof (avail_start s9 b (quiet_ready _ (pr_quiet _ _ Hp)) Hb) as Hge. rewrite (pr_start _ _ Hp) in Hge.
    unfold in_page in Hin. lia.
Qed.

Lemma first_proc_out n img s s' y o : y ≡ sy s' -> first_proc n img s s' -> first_proc n img s (set_sy y (set_out o s')).
Proof.
  intros Hy [F1 F2 F3 F4 F5 F6 F7 F8 F9 F10 F11]. split; try done.
  - by apply (holds_ext s').
  - eapply took_frame; [exact F6 | by split | done | done].
Qed.

(** If init is a well-formed executable, there is less memory than it needs
    with two page tables. *)
Definition boot_short (s : kstate) : Prop := forall img len top, find_program (bytes "init") = Some (img, len) ->
  executable s img len top -> (MEM_END - sym_end) / PAGE_SIZE <= pages_below top + 2053.

Lemma kernel_short s s3 s9 kpt m : (forall b, avail s3 b <-> ram_page b /\ sym_end <= b) ->
  (forall b, avail s9 b <-> avail s3 b /\ ~ table m kpt b) -> Forall (image_file (set_start_page sym_end s)) programs ->
  (forall x, 0 <= x < sym_end -> load8 (mem s9) x = load8 (mem s) x) -> first_short s9 -> boot_short s.
Proof.
  intros Ha3 Ha9 Himgs Hlow Hsh img len top Hf Hx. destruct (find_loop_in _ _ _ _ Hf) as (pr & Hpr & Ei & El).
  destruct (proj1 (list.Forall_forall _ _) Himgs pr Hpr) as (I1 & I2 & I3 & _). rewrite <- Ei, <- El in *.
  assert (Hx0 : executable (set_start_page sym_end s) img len top).
  { destruct Hx as [X1 X2 [G1 G2 G3 G4]]. split; [exact X1 | exact X2 | split; [exact G1 | exact G2 | exact G3 | exact G4]]. }
  pose proof (pages_below_nonneg _ _ _ _ Hx) as Hnn.
  pose proof (Hsh img len top Hf (low_executable (set_start_page sym_end s) s9 img len Hlow I1 I3 top Hx0)) as Hsc.
  pose proof (few_or _ _ _ _ (fun b => ram_page b /\ sym_end <= b) Hsc (few_tables m kpt)) as Hall.
  destruct HL as [[Ht _] Het [[He1 He2] Hea]].
  assert (Hc : MEM_END / PAGE_SIZE - sym_end / PAGE_SIZE <= pages_below top + 1028 + 1025).
  { apply (few_count (fun i => PAGE_SIZE * i) _ _ _ (fun b => ram_page b /\ sym_end <= b)); [apply Hall | | | lia].
    - intros b Hb Hn. by apply Ha9; rewrite Ha3.
    - unfold PAGE_SIZE. intros; lia.
    - intros i Hi. unfold ram_page, PAGE_SIZE, MEM_START, MEM_END in *. zlia. }
  unfold PAGE_SIZE, MEM_END in *. zlia.
Qed.

Lemma ends_main d s : power_on s ->
  ends (main_first d) (fun d' s' => d' = uart_init d /\ booted s s') (fun msg => first_panic msg /\ boot_short s) s.
Proof.
  intros Hp. unfold main_first, set_cpu_id. apply ends_wp, wp_bind, wp_gets, wp_bind, wp_gets, wp_modify.
  pose proof (greeted_start s Hp) as Hg1. set (s1 := set_sy _ s) in *. clearbody s1.
  assert (Hpr : forall s1, greeted s s1 -> can_print s1) by (intros x Hx; right; apply (greeted_idle s Hp x Hx)).
  apply ends_wp, wp_printf; [by apply Hpr | reflexivity |]. intros s1' Hs1'. pose proof (greeted_printed s _ _ Hg1 Hs1') as Hg1'.
  apply ends_wp, wp_printf; [by apply Hpr | reflexivity |]. intros s2 Hs2. pose proof (greeted_printed s _ _ Hg1' Hs2) as Hg.
  apply ends_wp. eapply wp_mono; [apply wp_init_bitmap; [apply Hg | apply (greeted_idle s Hp s2 Hg MemLock) | by apply Hpr] |].
  intros _ s3 (Hr3 & _ & _ & Ha3 & Hm3 & Hf3). unfold init_kptable. apply ends_wp, wp_bind.
  eapply wp_mono; [apply wp_kptable_make; [done |] |].
  { exists sym_end. apply Ha3. destruct HL as [[Ht _] Het [[He1 He2] Hea]]. split; [| done]. split; [done |].
    unfold MEM_START, MEM_END, PAGE_SIZE in *. zlia. }
  intros kpt s4 (Hr4 & Hwf & Hf4 & Hkpt & Hm4 & Hav4 & Hmap). apply wp_modify.
  assert (Hmap' : (exists b, avail s4 b) -> forall v, 0 <= v < U32 -> pte_at (mem s4) kpt v = kernel_map v).
  { intros Hb v Hv. by apply Hmap. }
  pose proof (tables_prepared s Hp s2 s3 s4 kpt Hg Hm3 Hf3 Hr4 Hwf Hf4 Hkpt Hm4 Hmap') as Hprep.
  pose proof (tables_idle s Hp s2 s3 s4 kpt Hg Hf3 Hf4) as Hidle.
  unfold init_kvmhart. apply ends_wp, wp_bind, wp_gets. cbn [kptable set_kptable]. unfold set_satp. fold (MAKE_SATP kpt).
  apply wp_modify. unfold init_clock, init_lock, put_lock. apply ends_wp, wp_bind, wp_modify, wp_modify.
  unfold init_trap. apply ends_wp, wp_modify. unfold init_proctable, init_lock, put_lock.
  apply ends_wp. do 2 (apply wp_bind, wp_modify). apply wp_init_procs; [apply idle_lock, idle_lock; exact Hidle |].
  intros y tab Hy E1 E2 E3 Ht. pose proof (Hprep y tab Hy E1 E2 E3 Ht) as Hpre. set (s9 := set_sy y _) in *.
  destruct (prepared_procs s s9 Hpre) as [_ Hbl].
  apply ends_bind, ends_init_userproc; [apply Hpre | | | | | done | rewrite (pr_pid _ _ Hpre); lia].
  - eapply Forall_impl; [| apply Hp]. intros pr (I1 & I2 & I3 & I4). cbn [start_page set_start_page] in I3.
    pose proof (low_elf_hdr (set_start_page sym_end s) s9 (pr_img pr) (pr_len pr) (pr_low _ _ Hpre) I1 I3) as Helf.
    split_and!; [done | lia | lia | by rewrite (pr_start _ _ Hpre) | by rewrite Helf].
  - exists 0%nat. split; [unfold NPROC; lia |]. by destruct (pr_slots _ _ Hpre 0%nat) as [-> | ->].
  - intros msg Hmsg Hsh. split; [done |].
    by apply (kernel_short s s3 s9 kpt (mem s4) Ha3 Hav4 (pw_images _ Hp) (pr_low _ _ Hpre)).
  - intros n img len s10 Hf Hfp. pose proof (prepared_booted s s9 s10 n img len Hpre Hf Hfp) as Hbo.
    apply ends_ret, wp_bind, wp_gets, wp_bind.
    destruct (vprintf_prints _ (bytes ("Main cpu %d initialized!" +:+ nl)) [AInt (Z.of_nat (tp (sy s10)))] (le_n _) eq_refl) as [bs Hbs].
    eapply wp_printf_exact; [right; apply (qu_locks _ (bo_quiet _ _ Hbo)) | exact Hbs |]. intros y' Hy'.
    apply wp_ret. split; [done |]. eapply (prepared_booted s s9 _ n img len); [done | done |]. by apply first_proc_out.
Qed.
End Main.

(** * Properties *)

(** C10 (the kernel boots): on hart 0, with [.bss] zeroed and the embedded files
    in place, [main] either reaches the scheduler or halts in [panic] because
    there is no program init, it does not load or memory runs out; if init is a
    well-formed executable, only if there is less memory than its image, its
    stack and two page tables can take. When it
    reaches the scheduler, no lock is held, the process table is sound, paging
    is on with the kernel's table, which maps the machine as it should unless
    it took the last page, traps enter the kernel, the one process there is has
    pid 1, no parent, init's image and stack, and a trap frame that starts it
    at its entry point and names the kernel's table, stack and handlers. *)
Theorem main_boots `{L : Layout} {HL : LayoutOk L} `{Initcode, KSyms} d s : power_on s ->
  match main_first d s with
  | Ok d' s' => d' = uart_init d /\ booted s s' /\
      exists n p, abs s' n = Some p /\ a_pid p = 1 /\ a_parent p = None /\ a_status p = None /\ forall j, j <> n -> abs s' j = None
  | Panic msg _ => first_panic msg /\ boot_short s
  | _ => False
  end.
Proof.
  intros Hp. pose proof (ends_main d s Hp) as He. unfold ends in He. destruct (main_first d s) as [d' s' | | | | | |]; try done.
  destruct He as [-> Hb]. split; [done |]. split; [done |].
  destruct (bo_first _ _ Hb) as (n & img & len & s0 & _ & Hf & Hpid & Hpar & Hrest & _). destruct (fp_slot _ _ _ _ Hf) as [Hn _].
  destruct (fp_proc _ _ _ _ Hf) as (ks & tf & pt & sz & En & _).
  exists n. eexists. split; [by apply abs_some; [| rewrite En] |]. cbn [a_pid a_parent a_status]. rewrite Hpid, Hpar.
  split_and!; [done | done | by rewrite En |]. intros j Hj. apply abs_unused. by apply Hrest.
Qed.

(** A machine with 32752 free pages, and the small program as init: [main_first]
    reaches the scheduler. *)
Definition boot_layout : Layout := {| sym_trampoline := 0x80001000; sym_etext := 0x80002000; sym_end := 0x80010000 |}.

Lemma boot_layout_ok : LayoutOk boot_layout.
Proof. split; vm_compute; intuition congruence. Qed.

Definition boot_demo : kstate := set_curr_pid 1 (set_mem (fill ∅ demo_img demo_file) boot_ram).

Lemma boot_demo_on : power_on (H := boot_layout) boot_demo.
Proof.
  split.
  - done.
  - intros l. split; [split; vm_compute; intuition congruence |]. split; reflexivity.
  - done.
  - done.
  - repeat constructor; vm_compute; congruence.
Qed.

Lemma boot_demo_init : executable boot_demo demo_img 88 0x1008.
Proof.
  assert (Hp : e_phoff (read_elf_hdr (mem boot_demo) demo_img) = 52) by (vm_compute; reflexivity).
  assert (Hn : e_phnum (read_elf_hdr (mem boot_demo) demo_img) = 1) by (vm_compute; reflexivity).
  split; [done | vm_compute; reflexivity |]. rewrite Hp, Hn. split.
  - intros j Hj. unfold sizeof_prg_hdr. lia.
  - intros j Hj _. assert (j = 0) as -> by lia. vm_compute. intuition congruence.
  - intros i j Hi Hj. lia.
  - unfold USER_BASE, UART_0. lia.
Qed.

Lemma main_boots_witness : exists d' s',
  main_first (H := boot_layout) (H1 := demo_syms) dev_demo boot_demo = Ok d' s' /\
  booted (H := boot_layout) (H1 := demo_syms) boot_demo s'.
Proof.
  pose proof (main_boots (L := boot_layout) (HL := boot_layout_ok) (H0 := demo_syms) dev_demo boot_demo boot_demo_on) as Hm.
  destruct (main_first dev_demo boot_demo) as [d' s' | msg s' | | | | |] eqn:E; try (destruct Hm; fail).
  - exists d', s'. split; [reflexivity | exact (proj1 (proj2 Hm))].
  - pose proof (proj2 Hm demo_img 88 0x1008 eq_refl boot_demo_init) as Hs. vm_compute in Hs. by destruct Hs.
Defined.
