(* ===== verification/SyscallProofs.v ===== *)
(** Properties of the system calls (Syscall.v): what [sys_write] prints. *)
From S2P Require Import Prelude Machine Csr KPrint Spinlock Printf Mem Vm PageTable KernelMap UserMem UserSpace Exec Proc ProcProofs SchedProofs Syscall.

(** * What the caller's buffer holds *)

(** The [k] user bytes from [va] on. *)
Fixpoint user_bytes (m : gmap Z Z) (pt va : Z) (k : nat) : list Z :=
  match k with
  | O => []
  | S k => load8 m (user_pa m pt PTE_R va) :: user_bytes m pt (va + 1) k
  end.

(** What reaches the console: of each chunk of 127 bytes, those before the
    first NUL. *)
Fixpoint shown (fuel : nat) (bs : list Z) : list Z :=
  match fuel, bs with
  | S fuel, _ :: _ => until_nul (take 127 bs) ++ shown fuel (drop 127 bs)
  | _, _ => []
  end.

Lemma user_bytes_length m pt k : forall va, length (user_bytes m pt va k) = k.
Proof. induction k as [|k IH]; intros va; cbn; [done |]. by rewrite IH. Qed.

Lemma user_bytes_take m pt k : forall va j, (j <= k)%nat ->
  take j (user_bytes m pt va k) = user_bytes m pt va j.
Proof.
  induction k as [|k IH]; intros va [|j] Hj; cbn; try done; [lia |]. by rewrite IH by lia.
Qed.

Lemma user_bytes_drop m pt k : forall va j, (j <= k)%nat ->
  drop j (user_bytes m pt va k) = user_bytes m pt (va + Z.of_nat j) (k - j).
Proof.
  induction k as [|k IH]; intros va [|j] Hj; cbn [user_bytes drop]; try lia.
  - done.
  - cbn. by rewrite Z.add_0_r.
  - rewrite IH by lia. cbn [Nat.sub]. f_equal. lia.
Qed.

Lemma user_bytes_lookup m pt k : forall va j c, user_bytes m pt va k !! j = Some c ->
  (j < k)%nat /\ c = load8 m (user_pa m pt PTE_R (va + Z.of_nat j)).
Proof.
  induction k as [|k IH]; intros va [|j] c; cbn; try done.
  - intros [= <-]. rewrite Z.add_0_r. split; [lia | done].
  - intros H. apply IH in H as [Hj ->]. split; [lia |]. do 2 f_equal. lia.
Qed.

Lemma user_bytes_range m pt k : forall va, Forall (fun c => 0 <= c < 256) (user_bytes m pt va k).
Proof. induction k as [|k IH]; intros va; constructor; [apply load8_range | done]. Qed.

Lemma user_bytes_ext m m' pt k : forall va,
  (forall j, 0 <= j < Z.of_nat k -> load8 m' (user_pa m' pt PTE_R (va + j)) = load8 m (user_pa m pt PTE_R (va + j))) ->
  user_bytes m' pt va k = user_bytes m pt va k.
Proof.
  induction k as [|k IH]; intros va H; cbn; [done |]. f_equal.
  - specialize (H 0 ltac:(lia)). by rewrite Z.add_0_r in H.
  - apply IH. intros j Hj. specialize (H (1 + j) ltac:(lia)). by rewrite Z.add_assoc in H.
Qed.

(** A chunk read from the buffer as a string. *)
Lemma cstr_at_until_nul m l : forall fuel a, (length l < fuel)%nat ->
  (forall j c, l !! j = Some c -> load8 m (a + Z.of_nat j) = c) -> load8 m (a + Z.of_nat (length l)) = 0 ->
  cstr_at fuel m a = until_nul l.
Proof.
  induction l as [|c l IH]; intros [|fuel] a Hf Hl H0; cbn in Hf; try lia; cbn [cstr_at until_nul].
  - cbn in H0. rewrite Z.add_0_r in H0. by rewrite H0.
  - pose proof (Hl 0%nat c eq_refl) as Hc. rewrite Z.add_0_r in Hc. rewrite Hc. zcase; [done |]. f_equal.
    apply IH; [lia | |].
    + intros j d Hj. specialize (Hl (S j) d Hj). rewrite <- Hl. f_equal. lia.
    + rewrite <- H0. cbn [length]. f_equal. lia.
Qed.

Lemma until_nul_range l : Forall (fun c => 0 <= c < 256) l -> cstring (until_nul l).
Proof.
  induction 1 as [|c l Hc _ IH]; cbn; [constructor |]. zcase; [constructor |]. constructor; [lia | done].
Qed.

(** [printf("%s", str)] *)
Lemma prints_s str : cstring str -> prints (vprintf (bytes "%s") [AStr str]) str.
Proof.
  intros Hs. change (vprintf (bytes "%s") [AStr str]) with (print_string str;; vprintf [] []).
  pose proof (prints_bind _ _ _ _ (prints_print_string str) prints_nil) as H.
  by rewrite app_nil_r, until_nul_cstring, u8_cstring in H.
Qed.

(** Without NUL bytes everything is shown. *)
Lemma shown_all fuel : forall bs, cstring bs -> (length bs <= fuel)%nat -> shown fuel bs = bs.
Proof.
  induction fuel as [|fuel IH]; intros bs Hb Hl; [by destruct bs; cbn in Hl; [| lia] |].
  destruct bs as [|b bs]; [done |]. cbn [shown]. rewrite until_nul_cstring by (by apply Forall_take).
  rewrite IH; [apply take_drop | by apply Forall_drop |]. rewrite length_drop. cbn in *. lia.
Qed.

(** * The calling process *)

Section Caller.
Context `{CallFrames} (i : nat) (pt : Z).

(** Process [i] runs on this hart, with address space [pt] and the buffer of
    [sys_write] on its kernel stack. *)
Record caller (s : kstate) : Prop := {
  ca_hart : hart_ok (sy s);
  ca_proc : cpu_proc (get_cpu (sy s)) = Some i;
  ca_print : can_print s;
  ca_pt : p_pt (get_proc s i) = pt;
  ca_space : uspace_ok s pt;
  ca_kbuf : kbuf s pt (kstack (get_proc s i) + fr_kbuf) 128
}.

Definition in_kbuf (s : kstate) (a : Z) : Prop :=
  kstack (get_proc s i) + fr_kbuf <= a < kstack (get_proc s i) + fr_kbuf + 128.

Lemma kbuf_same_tables s m' : caller s -> mem_unchanged (in_kbuf s) (mem s) m' -> same_tables (mem s) m' pt.
Proof.
  intros Hc Hm t a Ht Ha. apply Hm. intros Hb. exact (kb_tables _ _ _ _ (ca_kbuf _ Hc) a t Hb Ht Ha).
Qed.

Lemma caller_step s m' y o : caller s -> mem_unchanged (in_kbuf s) (mem s) m' -> y ≡ sy s ->
  caller (set_sy y (set_out o (set_mem m' s))).
Proof.
  intros Hc Hm Hy. pose proof (kbuf_same_tables s m' Hc Hm) as Hs. destruct Hc as [C1 C2 C3 C4 C5 C6]. split.
  - cbn [sy set_sy]. by rewrite Hy.
  - cbn [sy set_sy]. by destruct (get_cpu_equiv _ _ Hy) as (_ & _ & -> & _).
  - destruct C3 as [C3 | C3]; [by left | right]. cbn [sy set_sy]. by rewrite Hy.
  - exact C4.
  - destruct (same_tables_uspace _ _ _ Hs C5) as [[] ? ?]. by split.
  - destruct (same_tables_kbuf _ _ _ _ _ Hs C6) as [? ? ?]. by split.
Qed.

(** Which process calls. *)
Lemma wp_caller {A} (f : nat -> M A) Q s : caller s ->
  (forall y, y ≡ sy s -> wp (f i) Q (set_sy y s)) ->
  wp (o ← myproc; j ← deref_proc o; f j) Q s.
Proof.
  intros Hc HQ. apply wp_bind, wp_myproc; [apply Hc |]. intros y Hy. rewrite (ca_proc _ Hc).
  apply wp_bind, wp_ret. by apply HQ.
Qed.

Lemma caller_sy s y : caller s -> y ≡ sy s -> caller (set_sy y s).
Proof.
  intros Hc Hy. pose proof (caller_step s (mem s) y (out s) Hc (mem_unchanged_refl _ _) Hy) as Hn.
  by destruct s.
Qed.

(** User bytes survive writes to the buffer. *)
Lemma user_bytes_kept s m' va k : caller s -> mem_unchanged (in_kbuf s) (mem s) m' ->
  0 <= va -> va + Z.of_nat k <= U32 ->
  (forall j, 0 <= j < Z.of_nat k -> user_pa (mem s) pt PTE_R (va + j) <> 0) ->
  user_bytes m' pt va k = user_bytes (mem s) pt va k.
Proof.
  intros Hc Hm Hva Hend Hr. pose proof (kbuf_same_tables s m' Hc Hm) as Hs.
  apply user_bytes_ext. intros j Hj. rewrite (same_tables_user_pa (mem s) m') by done. apply Hm.
  unfold in_kbuf. pose proof (user_not_kbuf s pt PTE_R (va + j) _ _ (ca_space _ Hc) (ca_kbuf _ Hc)
    ltac:(lia) (Hr j Hj)). lia.
Qed.

(** ** One chunk *)

(** The buffer after a chunk of [c] bytes was copied in and terminated. *)
Lemma chunk_string s m1 va c : read_in (mem s) m1 pt (kstack (get_proc s i) + fr_kbuf) va (Z.of_nat c) ->
  (c < 128)%nat ->
  cstr_at 128 (store8 m1 (kstack (get_proc s i) + fr_kbuf + Z.of_nat c) 0) (kstack (get_proc s i) + fr_kbuf)
  = until_nul (user_bytes (mem s) pt va c).
Proof.
  intros [_ Hm] Hc. set (ka := kstack (get_proc s i) + fr_kbuf) in *.
  apply cstr_at_until_nul; rewrite ?user_bytes_length.
  - done.
  - intros j d Hj. apply user_bytes_lookup in Hj as [Hj ->].
    rewrite load8_store8_ne, Hm by lia. zcase; [| lia]. do 2 f_equal. lia.
  - by rewrite load8_store8_eq.
Qed.

Lemma chunk_unchanged s m1 va c : read_in (mem s) m1 pt (kstack (get_proc s i) + fr_kbuf) va c -> 0 <= c < 128 ->
  mem_unchanged (in_kbuf s) (mem s) (store8 m1 (kstack (get_proc s i) + fr_kbuf + c) 0).
Proof.
  intros [_ Hm] Hc a Ha. unfold in_kbuf in Ha. rewrite load8_store8_ne, Hm by lia. zcase; [lia | done].
Qed.
End Caller.

(** * sys_write *)

Section Write.
Context `{CallFrames} (i : nat) (pt p_buf n : Z) (Hbuf : 0 <= p_buf) (Hend : p_buf + n <= U32).

(** What the loop does from byte [wrote] on. *)
Definition write_result (fuel : nat) (wrote : Z) (s : kstate) (r : Z) (s' : kstate) : Prop :=
  kframe s s' /\ mem_bitmap s' = mem_bitmap s /\ mem_unchanged (in_kbuf i s) (mem s) (mem s') /\
  (r = u32 n /\ (forall j, wrote <= j < n -> user_pa (mem s) pt PTE_R (p_buf + j) <> 0) /\
     out s' = out s ++ shown fuel (user_bytes (mem s) pt (p_buf + wrote) (Z.to_nat (n - wrote)))
   \/ r = u32 (-1) /\ (exists j, wrote <= j < n /\ user_pa (mem s) pt PTE_R (p_buf + j) = 0) /\
     exists bs, out s' = out s ++ bs).

(** A chunk and then the rest. *)
Lemma write_result_chunk fuel wrote c s m1 y r s' : caller i pt s -> 0 <= wrote -> 0 < c <= 127 ->
  wrote + c <= n -> c = 127 \/ wrote + c = n ->
  read_in (mem s) m1 pt (kstack (get_proc s i) + fr_kbuf) (p_buf + wrote) c -> y ≡ sy s ->
  let m2 := store8 m1 (kstack (get_proc s i) + fr_kbuf + c) 0 in
  let str := until_nul (user_bytes (mem s) pt (p_buf + wrote) (Z.to_nat c)) in
  write_result fuel (wrote + c) (set_sy y (set_out (out s ++ str) (set_mem m2 s))) r s' ->
  write_result (S fuel) wrote s r s'.
Proof.
  intros Hc Hw Hc0 Hcn Hlast Hr Hy m2 str (Hf & Hb & Hm & Hres). cbn in Hf, Hb, Hm, Hres.
  pose proof (chunk_unchanged i pt s m1 _ c Hr ltac:(lia)) as Hm2. fold m2 in Hm2.
  pose proof (kbuf_same_tables i pt s m2 Hc Hm2) as Hst.
  split; [transitivity (set_sy y (set_out (out s ++ str) (set_mem m2 s))); [by split | done] |].
  split; [done |]. split; [by eapply mem_unchanged_trans |].
  destruct Hres as [(-> & Hrd & Hout) | (-> & (j & Hj & Hj0) & bs & Hout)].
  - left. split; [done |].
    assert (Hall : forall j, wrote <= j < n -> user_pa (mem s) pt PTE_R (p_buf + j) <> 0).
    { intros j Hj. destruct (decide (wrote + c <= j)).
      - rewrite <- (same_tables_user_pa (mem s) m2) by done. apply Hrd. lia.
      - replace (p_buf + j) with (p_buf + wrote + (j - wrote)) by lia. apply (proj1 Hr). lia. }
    split; [done |]. rewrite Hout, <- app_assoc. f_equal.
    destruct (Z.to_nat (n - wrote)) as [|k] eqn:Ek; [lia |]. cbn [user_bytes shown].
    change (load8 _ _ :: _) with (user_bytes (mem s) pt (p_buf + wrote) (S k)). rewrite <- Ek.
    rewrite (user_bytes_kept i pt s m2) by
      (try done; try lia; intros j Hj; replace (p_buf + (wrote + c) + j) with (p_buf + (wrote + c + j)) by lia;
       apply Hall; lia).
    assert (Hk : (Z.to_nat c <= Z.to_nat (n - wrote))%nat) by lia.
    f_equal.
    + unfold str. f_equal. destruct Hlast as [-> | Hl].
      * symmetry. by apply user_bytes_take.
      * rewrite take_ge by (rewrite user_bytes_length; lia). f_equal. lia.
    + f_equal. destruct Hlast as [-> | Hl].
      * rewrite user_bytes_drop by done. f_equal; lia.
      * rewrite drop_ge by (rewrite user_bytes_length; lia).
        replace (n - (wrote + c)) with 0 by lia. done.
  - right. split; [done |]. split.
    + exists j. rewrite (same_tables_user_pa (mem s) m2) in Hj0 by done. split; [lia | done].
    + exists (str ++ bs). by rewrite Hout, app_assoc.
Qed.

Lemma wp_sys_write_loop fuel : forall s wrote, caller i pt s -> 0 <= wrote <= n -> n - wrote <= Z.of_nat fuel ->
  wp (sys_write_loop fuel p_buf n wrote) (write_result fuel wrote s) s.
Proof.
  induction fuel as [|fuel IH]; intros s wrote Hc Hw Hf; cbn [sys_write_loop].
  all: destruct (wrote <? n) eqn:E; zbool; [try lia |].
  1, 3: apply wp_ret; unfold write_result; split_and!; [done | done | done |]; left;
    replace (Z.to_nat (n - wrote)) with 0%nat by lia; split_and!; [done | lia | by rewrite app_nil_r].
  set (c := if 127 <? n - wrote then 127 else n - wrote).
  assert (Hcc : 0 < c <= 127 /\ wrote + c <= n /\ (c = 127 \/ wrote + c = n)) by (unfold c; zcase; lia).
  destruct Hcc as (Hc0 & Hcn & Hl).
  apply (wp_caller i pt); [done |]. intros y Hy. pose proof (caller_sy i pt s y Hc Hy) as Hcy.
  apply wp_bind, wp_gets. rewrite (ca_pt _ _ _ Hcy). change (get_proc (set_sy y s) i) with (get_proc s i).
  set (ka := kstack (get_proc s i) + fr_kbuf). apply wp_bind. unfold copyin.
  eapply wp_mono; [apply wp_copyin_loop; [apply Hcy | lia | lia | lia |] |].
  { rewrite <- (Z.add_0_r ka). apply (kbuf_sub _ _ _ 128); [exact (ca_kbuf _ _ _ Hcy) | lia | lia | lia]. }
  intros r s1 (m1 & k & -> & [Hk Hr] & Hrd). cbn [mem set_sy] in Hr, Hrd.
  destruct Hr as [[-> ->] | (-> & Hk' & H0)].
  - pose proof (chunk_string i pt s m1 (p_buf + wrote) (Z.to_nat c)) as Hstr.
    rewrite Z2Nat.id in Hstr by lia. specialize (Hstr Hrd ltac:(lia)).
    pose proof (chunk_unchanged i pt s m1 _ c Hrd ltac:(lia)) as Hm2. fold ka in Hstr, Hm2.
    cbn [Z.eqb]. apply wp_bind, wp_modify, wp_bind, wp_gets. cbn [mem set_mem]. rewrite Hstr.
    set (str := until_nul _) in *. apply wp_bind, (wp_printf_exact _ _ str).
    + exact (ca_print _ _ _ (caller_step i pt s _ y (out s) Hc Hm2 Hy)).
    + apply prints_s, until_nul_range, user_bytes_range.
    + intros y2 Hy2. cbn [sy set_sy set_mem] in Hy2. rewrite Hy in Hy2.
      change (wp (sys_write_loop fuel p_buf n (wrote + c)) (write_result (S fuel) wrote s)
        (set_sy y2 (set_out (out s ++ str) (set_mem (store8 m1 (ka + c) 0) s)))).
      eapply wp_mono; [apply IH; [by apply caller_step | lia | lia] |].
      intros r s' Hres. apply (write_result_chunk fuel wrote c s m1 y2); (done || lia).
  - assert (Hm1 : mem_unchanged (in_kbuf i s) (mem s) m1).
    { intros a Ha. rewrite (proj2 Hrd). unfold in_kbuf in Ha. fold ka in Ha. zcase; [lia | done]. }
    cbn [Z.eqb Pos.eqb]. apply wp_bind, wp_printf; [| done |].
    + exact (ca_print _ _ _ (caller_step i pt s _ y (out s) Hc Hm1 Hy)).
    + intros s2 (Hf2 & Hmem2 & Hb2 & bs & Ho2). apply wp_ret. cbn in Hmem2, Hb2, Ho2.
      split_and!; [etransitivity; [| exact Hf2]; by split | done | by rewrite Hmem2 |].
      right. split_and!; [done | | by exists bs].
      exists (wrote + k). split; [lia |]. by rewrite Z.add_assoc.
Qed.
End Write.

(** ** Arguments *)

(** Argument [k] of the call, in the trap frame of process [i]. *)
Definition arg_reg (i : nat) (k : Z) (s : kstate) : Z :=
  load32 (mem s) (p_tf (get_proc s i) + tf_regs (10 + k)).

Lemma wp_argraw `{CallFrames} i pt k (Q : Z -> kstate -> Prop) s : caller i pt s -> 0 <= k <= 5 ->
  (forall y, y ≡ sy s -> caller i pt (set_sy y s) -> Q (arg_reg i k s) (set_sy y s)) -> wp (argraw k) Q s.
Proof.
  intros Hc Hk HQ. unfold argraw. apply (wp_caller i pt); [done |]. intros y Hy. apply wp_bind, wp_gets.
  assert ((0 <=? k) && (k <=? 5) = true) as -> by lia. apply wp_gets, HQ; [done | by apply caller_sy].
Qed.

Lemma wp_argint `{CallFrames} i pt k (Q : Z -> kstate -> Prop) s : caller i pt s -> 0 <= k <= 5 ->
  (forall y, y ≡ sy s -> caller i pt (set_sy y s) -> Q (s32 (arg_reg i k s)) (set_sy y s)) -> wp (argint k) Q s.
Proof.
  intros Hc Hk HQ. unfold argint. apply wp_bind, (wp_argraw i pt); [done | done |].
  intros y Hy Hcy. by apply wp_ret, HQ.
Qed.

(** C34 ([sys_write] prints the caller's bytes): only descriptor 1 and at most
    1024 bytes are accepted, anything else returns -1 without effect. If the
    caller can read its whole buffer, [n] is returned and every byte has
    reached the console, in order, provided none is NUL; of a chunk of 127
    bytes with a NUL in it only those before the NUL are printed, although [n]
    is still returned. Otherwise -1 is returned. No memory but the buffer on
    the kernel stack changes, no page is lost and no lock stays held. *)
Theorem sys_write_correct `{CallFrames} i pt s : caller i pt s ->
  let fd := s32 (arg_reg i 0 s) in
  let p_buf := arg_reg i 1 s in
  let n := s32 (arg_reg i 2 s) in
  let bs := user_bytes (mem s) pt p_buf (Z.to_nat n) in
  p_buf + n <= U32 ->
  wp sys_write (fun r s' =>
    kframe s s' /\ mem_bitmap s' = mem_bitmap s /\ mem_unchanged (in_kbuf i s) (mem s) (mem s') /\
    if (fd =? 1) && ((0 <=? n) && (n <=? 1024)) then
      r = n /\ (forall j, 0 <= j < n -> user_pa (mem s) pt PTE_R (p_buf + j) <> 0) /\
        out s' = out s ++ shown (length bs) bs /\ (Forall (fun c => c <> 0) bs -> out s' = out s ++ bs)
      \/ r = u32 (-1) /\ (exists j, 0 <= j < n /\ user_pa (mem s) pt PTE_R (p_buf + j) = 0) /\
        exists o, out s' = out s ++ o
    else r = u32 (-1) /\ out s' = out s) s.
Proof.
  intros Hc fd p_buf n bs Hend. unfold sys_write.
  apply wp_bind, (wp_argint i pt); [done | lia |]. intros y1 Hy1 Hc1.
  apply wp_bind, (wp_argraw i pt); [done | lia |]. intros y2 Hy2 Hc2.
  apply wp_bind, (wp_argint i pt); [done | lia |]. intros y3 Hy3 Hc3.
  change (s32 (arg_reg i 0 s)) with fd. change (arg_reg i 1 (set_sy y1 s)) with p_buf.
  change (s32 (arg_reg i 2 _)) with n. change (set_sy y3 _) with (set_sy y3 s) in *.
  assert (Hy : y3 ≡ sy s) by (cbn in Hy2, Hy3; by rewrite Hy3, Hy2).
  assert (Hfr : kframe s (set_sy y3 s)) by (by split).
  destruct (fd =? 1); cbn [negb andb]; [| by apply wp_ret].
  destruct (n <? 0) eqn:E1; zbool; [cbn [orb] |].
  { assert ((0 <=? n) = false) as -> by lia. by apply wp_ret. }
  destruct (1024 <? n) eqn:E2; zbool; cbn [orb].
  { assert ((n <=? 1024) = false) as -> by lia. rewrite andb_false_r. by apply wp_ret. }
  assert ((0 <=? n) && (n <=? 1024) = true) as -> by lia.
  eapply wp_mono; [apply (wp_sys_write_loop i pt p_buf n); [apply load32_range | done | done | lia | lia] |].
  intros r s' (Hf & Hb & Hm & Hres). split_and!; [by etransitivity | done | done |].
  rewrite Z.add_0_r, Z.sub_0_r in Hres. cbn [mem out set_sy] in Hres.
  change (user_bytes (mem s) pt p_buf (Z.to_nat n)) with bs in Hres.
  destruct Hres as [(-> & Hrd & Ho) | Hres]; [left | by right].
  assert (Hlen : length bs = Z.to_nat n) by apply user_bytes_length. rewrite Hlen.
  split_and!; [apply u32_small; unfold U32; lia | done | done |].
  intros Hnz. rewrite Ho. f_equal. apply shown_all; [| lia].
  pose proof (user_bytes_range (mem s) pt (Z.to_nat n) p_buf) as Hr. fold bs in Hr.
  refine (Forall_impl _ _ (Forall_and Hnz Hr)). intros c [? ?]. lia.
Qed.

(** Process 1 writes the two bytes "Hi" of its page at 0x1000; its kernel stack
    is page 1 of RAM, with the trap frame in its upper half. *)
Definition demo_frames : CallFrames := Build_CallFrames 0x200 0x300 0x400 0x100.
Definition write_mem : gmap Z Z :=
  store32 (store32 (store32 (store8 (store8 (mem user_demo) 0x80006000 72) 0x80006001 105)
    0x8000183C 1) 0x80001840 0x1000) 0x80001844 2.
Definition write_demo : kstate :=
  put_proc 1 (mk_proc 1 RUNNING (replicate 16 0) demo_pt 0x80001000 0x2000 0x80001800 0 ChanNull context0 None)
    (set_sy (set_cpu (mk_cpu 0 0 0 (Some 1%nat) context0) (sy user_demo)) (set_mem write_mem user_demo)).

Lemma write_mem_tables : same_tables (mem user_demo) write_mem demo_pt.
Proof.
  intros t a Ht Ha. apply user_demo_table in Ht. unfold in_page, demo_pt, PAGE_SIZE in *. unfold write_mem.
  rewrite !load8_store32_ne, !load8_store8_ne by lia. done.
Qed.

Lemma write_demo_caller : caller (H := demo_frames) 1 demo_pt write_demo.
Proof.
  pose proof (same_tables_uspace _ _ _ write_mem_tables user_demo_ok) as [[] ? ?].
  pose proof (same_tables_kbuf _ _ _ 0x80001100 128 write_mem_tables (user_demo_kbuf 0x80001100 128
    ltac:(lia) ltac:(lia) ltac:(lia))) as [? ? ?].
  split.
  - split; vm_compute; intuition congruence.
  - done.
  - right. split; [split; vm_compute; intuition congruence | done].
  - done.
  - split; [by split | done | done].
  - by split.
Qed.

Lemma sys_write_correct_witness :
  wp (sys_write (H := demo_frames)) (fun r s' =>
    kframe write_demo s' /\ mem_bitmap s' = mem_bitmap write_demo /\
    mem_unchanged (in_kbuf (H := demo_frames) 1 write_demo) (mem write_demo) (mem s') /\
    (r = 2 /\ (forall j, 0 <= j < 2 -> user_pa (mem write_demo) demo_pt PTE_R (0x1000 + j) <> 0) /\
       out s' = out write_demo ++ [72; 105] /\
       (Forall (fun c => c <> 0) [72; 105] -> out s' = out write_demo ++ [72; 105])
     \/ r = u32 (-1) /\ (exists j, 0 <= j < 2 /\ user_pa (mem write_demo) demo_pt PTE_R (0x1000 + j) = 0) /\
       exists o, out s' = out write_demo ++ o)) write_demo.
Proof. exact (sys_write_correct (H := demo_frames) 1 demo_pt write_demo write_demo_caller ltac:(vm_compute; congruence)). Defined.
