(* ===== verification/SysExec.v ===== *)
(** The exec system call as a whole (syscall.c: [sys_exec]): the path and the
    arguments are copied in from the caller's memory, [kexec] replaces the
    caller's program, and the page the strings were kept in goes back. *)
From S2P Require Import Prelude Machine Csr KPrint Spinlock Printf Mem Vm PageTable KernelMap UserMem UserSpace Took Exec ExecProofs Proc ProcProofs SchedProofs UvmCopy ProcAlloc ProcTable Fork Exit Scheduler Wait Syscall ExecStack Kexec Lifecycle SyscallProofs.

(** * What the caller passes *)

(** The byte and the word that the program with the tables [pt] reads at [v]. *)
Definition rbyte (m : gmap Z Z) (pt v : Z) : Z := load8 m (user_pa m pt PTE_R v).
Definition rword (m : gmap Z Z) (pt v : Z) : Z :=
  rbyte m pt v + 256 * rbyte m pt (v + 1) + 65536 * rbyte m pt (v + 2) + 16777216 * rbyte m pt (v + 3).

(** A string of [n] bytes that it can read. *)
Record ustr (m : gmap Z Z) (pt v n : Z) : Prop := {
  ut_range : 0 <= v /\ 0 <= n /\ v + n < U32;
  ut_read : forall j, 0 <= j <= n -> user_pa m pt PTE_R (v + j) <> 0;
  ut_bytes : forall j, 0 <= j < n -> rbyte m pt (v + j) <> 0;
  ut_end : rbyte m pt (v + n) = 0
}.

Definition readable (m : gmap Z Z) (pt v : Z) : Prop := forall j, 0 <= j < 4 -> user_pa m pt PTE_R (v + j) <> 0.

(** Where the [k]th element of the array at [uargv] is. *)
Definition uptr (uargv k : Z) : Z := u32 (uargv + 4 * k).

(** The program passes an argument array of strings of the lengths [lens]. *)
Record passed (m : gmap Z Z) (pt uargv : Z) (lens : list Z) : Prop := {
  ps_strs : forall k n, lens !! k = Some n -> let u := rword m pt (uptr uargv (Z.of_nat k)) in
    readable m pt (uptr uargv (Z.of_nat k)) /\ u <> 0 /\ ustr m pt u n;
  ps_end : uargv <> 0 -> let e := uptr uargv (Z.of_nat (length lens)) in readable m pt e /\ rword m pt e = 0;
  ps_none : uargv = 0 -> lens = [];
  ps_max : Z.of_nat (length lens) <= MAXARG
}.

Fixpoint str_bytes (lens : list Z) : Z := match lens with [] => 0 | n :: lens => n + 1 + str_bytes lens end.

Lemma str_bytes_room lens : Forall (fun n => 0 <= n) lens -> 0 <= str_bytes lens <= args_room lens.
Proof.
  intros Hl. induction Hl as [| n lens Hn _ IH]; [done |]. cbn [str_bytes args_room]. unfold up16. zlia.
Qed.

Lemma str_bytes_take lens k n : Forall (fun n => 0 <= n) lens -> lens !! k = Some n ->
  str_bytes (take (S k) lens) = str_bytes (take k lens) + n + 1 /\ str_bytes (take (S k) lens) <= str_bytes lens.
Proof.
  intros Hl. revert k. induction Hl as [| a lens Ha Hl IH]; intros k Hk; [done |]. destruct k as [| k].
  - injection Hk as ->. pose proof (str_bytes_room lens Hl).
    change (take 1 (n :: lens)) with [n]. change (take 0 (n :: lens)) with (@nil Z). cbn [str_bytes]. lia.
  - destruct (IH k Hk) as [E1 E2]. change (take (S (S k)) (a :: lens)) with (a :: take (S k) lens).
    change (take (S k) (a :: lens)) with (a :: take k lens). cbn [str_bytes]. lia.
Qed.

Lemma passed_lens m pt uargv lens : passed m pt uargv lens -> Forall (fun n => 0 <= n) lens.
Proof.
  intros Hp. apply Forall_lookup_2. intros k n Hk. destruct (ps_strs _ _ _ _ Hp k n Hk) as (_ & _ & Hu).
  apply (ut_range _ _ _ _ Hu).
Qed.

Lemma ustr_unique m pt v n k : ustr m pt v n -> ustr m pt v k -> n = k.
Proof.
  intros [(_ & N0 & _) _ Nb Ne] [(_ & K0 & _) _ Kb Ke]. destruct (Z.lt_trichotomy n k) as [H | [H | H]]; [| done |].
  - by destruct (Kb n).
  - by destruct (Nb k).
Qed.

(** A string that ends within the limit is copied. *)
Lemma ustr_copied m pt v n max k : ustr m pt v n -> n < max -> 0 <= k ->
  (forall j, 0 <= j < k -> rbyte m pt (v + j) <> 0) -> k = max \/ user_pa m pt PTE_R (v + k) = 0 -> False.
Proof.
  intros [(_ & N0 & _) Nr Nb Ne] Hmax Hk Hnz Hstop. destruct (decide (k <= n)) as [Hle | Hgt].
  - destruct Hstop as [-> | Hz]; [lia | by apply (Nr k)].
  - apply (Hnz n); [lia | done].
Qed.

Lemma cstr_at_lookup m fuel : forall a j c, cstr_at fuel m a !! j = Some c -> c = load8 m (a + Z.of_nat j).
Proof.
  induction fuel as [| fuel IH]; intros a j c; cbn [cstr_at]; [done |]. destruct (load8 m a =? 0); [done |]. destruct j as [| j]; cbn.
  - intros [= <-]. by rewrite Z.add_0_r.
  - intros Hj. apply IH in Hj as ->. f_equal. lia.
Qed.

(** * Copying in at any address: the last page is never the user's *)

Section CopyAny.
Context (t : kstate) (pt : Z) (Hus : uspace_ok t pt).
Context (Htop : forall v, U32 - PAGE_SIZE <= v < U32 -> user_pa (mem t) pt PTE_R v = 0).

Lemma wp_copyinstr_any dst va max (Q : Z -> kstate -> Prop) : 0 <= va < U32 -> 0 <= max <= PAGE_SIZE -> kbuf t pt dst max ->
  (forall m' r, copied_str (mem t) m' pt dst va max r -> Q r (set_mem m' t)) -> wp (copyinstr pt dst va max) Q t.
Proof.
  intros Hva Hmax Hb HQ. destruct (decide (va + max <= U32)) as [Hend | Hend].
  - unfold copyinstr. rewrite <- (u32_small va) at 1 by lia.
    eapply wp_mono; [apply wp_copyinstr_loop; try done; lia |]. intros r s' (m' & -> & Hc). by apply HQ.
  - assert (Hz : user_pa (mem t) pt PTE_R va = 0) by (apply Htop; lia).
    assert (0 < max) as Hpos by lia. unfold copyinstr. destruct (Z.to_nat max) as [| k] eqn:Ek; [lia |]. cbn [copyinstr_loop].
    assert ((max <=? 0) = false) as -> by lia. apply wp_bind, wp_find_user_pa; [apply Hus |]. rewrite Hz. cbn [Z.eqb].
    apply wp_ret. assert (Et : set_mem (mem t) t = t) by (by destruct t). rewrite <- Et. apply HQ. exists 0.
    split_and!; [lia | lia | lia |]. right. split_and!; [done | right; by rewrite Z.add_0_r | apply read_in_0].
Qed.

Lemma wp_copyin_any dst va (Q : Z -> kstate -> Prop) : 0 <= va < U32 -> kbuf t pt dst 4 ->
  (forall m' r k, stops (mem t) pt PTE_R va 4 r k -> read_in (mem t) m' pt dst va k -> Q r (set_mem m' t)) ->
  wp (copyin pt dst va 4) Q t.
Proof.
  intros Hva Hb HQ. destruct (decide (va + 4 <= U32)) as [Hend | Hend].
  - unfold copyin. rewrite <- (u32_small va) at 1 by lia.
    eapply wp_mono; [apply wp_copyin_loop; try done; lia |]. intros r s' (m' & k & -> & Hs & Hr). by apply (HQ m' r k).
  - assert (Hz : user_pa (mem t) pt PTE_R va = 0) by (apply Htop; unfold PAGE_SIZE; lia).
    unfold copyin. change (Z.to_nat 4) with 4%nat. cbn [copyin_loop]. change (4 <=? 0) with false. cbn iota.
    apply wp_bind, wp_find_user_pa; [apply Hus |]. rewrite Hz. cbn [Z.eqb].
    apply wp_ret. assert (Et : set_mem (mem t) t = t) by (by destruct t). rewrite <- Et.
    apply (HQ (mem t) (-1) 0); [by apply stops_refused | apply read_in_0].
Qed.
End CopyAny.

(** * The strings in the kernel *)

Section Gather.
Context `{CallFrames} (s : kstate) (p : proc) (Hh : holds s p) (Hpt : p_pt p <> 0) (Hks : kstack p <> 0) (Hu : user_only s p).
Let pt := p_pt p.
Context (Hpath : 0 <= fr_path /\ fr_path + MAXPATH <= PAGE_SIZE) (Huarg : 0 <= fr_uarg /\ fr_uarg + 4 <= PAGE_SIZE).
Context (Hdis : fr_path + MAXPATH <= fr_uarg \/ fr_uarg + 4 <= fr_path).

(** The locals [path] and [uarg]. *)
Definition in_path (a : Z) : Prop := kstack p + fr_path <= a < kstack p + fr_path + MAXPATH.
Definition in_uarg (a : Z) : Prop := kstack p + fr_uarg <= a < kstack p + fr_uarg + 4.

Lemma locals_page a : in_path a \/ in_uarg a -> in_page (kstack p) a.
Proof. unfold in_path, in_uarg, in_page. lia. Qed.

(** The kernel stack is not among the pages of the space. *)
Lemma space_stack b a : space s pt (p_sz p) b -> in_page b a -> ~ in_page (kstack p) a.
Proof.
  intros Hb Ha Hin. destruct (hd_ks _ _ Hh Hks) as [Hko _]. destruct (hd_pt _ _ Hh Hpt) as (_ & _ & _ & _ & Hd).
  assert (Ho : owned s b) by (eapply owns_owned; [exact Hh | left; by right]). destruct (Hd b Hb) as [_ Hne]. apply Hne.
  exact (page_disjoint b (kstack p) a (owned_ram _ _ Ho) (owned_ram _ _ Hko) Ha Hin).
Qed.

Lemma stack_kbuf off n : 0 <= off -> 0 <= n -> off + n <= PAGE_SIZE -> kbuf s pt (kstack p + off) n.
Proof.
  intros H0 Hn He. destruct (hd_ks _ _ Hh Hks) as [Hko _]. pose proof (owned_ram _ _ Hko) as [_ Hr]. split.
  - unfold span_ok, MEM_START, MEM_END, PAGE_SIZE, U32 in *. lia.
  - intros x t Hx Ht Hin. apply (space_stack t x); [by right | done | unfold in_page; lia].
  - intros x v Hx Hv Ha Hin. eapply (space_stack _ x); [| exact Hin | unfold in_page; lia]. by apply caller_user_page.
Qed.

(** Once the page [buf] is allocated, at [t0]. *)
Context (t0 : kstate) (buf : Z) (Hbuf : avail s buf) (Hown : forall b, owned s b -> owned t0 b).

Lemma space_buf b a : space s pt (p_sz p) b -> in_page b a -> ~ in_page buf a.
Proof.
  intros Hb Ha Hin. assert (Ho : owned s b) by (eapply owns_owned; [exact Hh | left; by right]).
  apply (owned_not_avail s b Ho). by rewrite (page_disjoint b buf a (owned_ram _ _ Ho) (avail_ram _ _ Hbuf) Ha Hin).
Qed.

Lemma stack_buf a : in_page (kstack p) a -> ~ in_page buf a.
Proof.
  intros Ha Hin. destruct (hd_ks _ _ Hh Hks) as [Hko _]. apply (owned_not_avail s _ Hko).
  by rewrite (page_disjoint _ buf a (owned_ram _ _ Hko) (avail_ram _ _ Hbuf) Ha Hin).
Qed.

(** Only the locals and the page were written. *)
Definition scratch (m : gmap Z Z) : Prop :=
  forall a, ~ in_path a -> ~ in_uarg a -> ~ in_page buf a -> load8 m a = load8 (mem s) a.

Lemma scratch_space m b a : scratch m -> space s pt (p_sz p) b -> in_page b a -> load8 m a = load8 (mem s) a.
Proof.
  intros Hm Hb Ha. apply Hm; [| | by eapply space_buf]; intros Hl; apply (space_stack b a Hb Ha), locals_page; auto.
Qed.

Lemma scratch_tables m : scratch m -> same_tables (mem s) m pt.
Proof. intros Hm t a Ht Ha. apply (scratch_space m t); [done | by right | done]. Qed.

Lemma scratch_uspace m : scratch m -> uspace_ok (set_mem m t0) pt.
Proof. intros Hm. apply (uspace_kept s); [by apply scratch_tables | exact Hown | by apply caller_uspace]. Qed.

Lemma scratch_user_pa m v need : scratch m -> user_pa m pt need v = user_pa (mem s) pt need v.
Proof. intros Hm. by apply same_tables_user_pa, scratch_tables. Qed.

Lemma scratch_byte m v : scratch m -> 0 <= v < U32 -> user_pa (mem s) pt PTE_R v <> 0 -> rbyte m pt v = rbyte (mem s) pt v.
Proof.
  intros Hm Hv Hn. unfold rbyte. rewrite scratch_user_pa by done.
  destruct (user_pa_page s pt (caller_uspace s p Hh Hpt Hu) PTE_R v Hv Hn) as (Ha & _ & _ & Hin).
  eapply scratch_space; [done | | exact Hin]. apply caller_user_page; [done | done |]. by eapply allows_user.
Qed.

Lemma scratch_ustr m v n : scratch m -> ustr (mem s) pt v n -> ustr m pt v n.
Proof.
  intros Hm [(N1 & N2 & N3) Nr Nb Ne].
  assert (Hb : forall j, 0 <= j <= n -> rbyte m pt (v + j) = rbyte (mem s) pt (v + j)) by (intros j Hj; apply scratch_byte; auto; lia).
  split; [done | | |].
  - intros j Hj. rewrite scratch_user_pa by done. by apply Nr.
  - intros j Hj. rewrite Hb by lia. by apply Nb.
  - rewrite Hb by lia. done.
Qed.

Lemma scratch_top m v : scratch m -> U32 - PAGE_SIZE <= v < U32 -> user_pa m pt PTE_R v = 0.
Proof. intros Hm Hv. rewrite scratch_user_pa by done. by apply caller_top. Qed.

Lemma scratch_uarg m : scratch m -> kbuf (set_mem m t0) pt (kstack p + fr_uarg) 4.
Proof.
  intros Hm. destruct (stack_kbuf fr_uarg 4) as [K1 K2 K3]; [lia.. |]. pose proof (scratch_tables m Hm) as Hst. split; [done | |].
  - intros x t Hx. cbn [mem set_mem]. rewrite (same_tables_table (mem s)) by done. by apply K2.
  - intros x v Hx Hv. cbn [mem set_mem]. rewrite (same_tables_pte (mem s)) by done. by apply K3.
Qed.

Lemma scratch_buf m used : scratch m -> 0 <= used <= PAGE_SIZE -> kbuf (set_mem m t0) pt (buf + used) (PAGE_SIZE - used).
Proof.
  intros Hm Hused. pose proof (scratch_tables m Hm) as Hst. pose proof (avail_ram _ _ Hbuf) as [_ Hr]. split.
  - unfold span_ok, MEM_START, MEM_END, PAGE_SIZE, U32 in *. lia.
  - intros x t Hx. cbn [mem set_mem]. rewrite (same_tables_table (mem s)) by done. intros Ht Hin.
    apply (space_buf t x); [by right | done | unfold in_page; lia].
  - intros x v Hx Hv. cbn [mem set_mem]. rewrite (same_tables_pte (mem s)) by done. intros Ha Hin.
    eapply (space_buf _ x); [| exact Hin | unfold in_page; lia]. by apply caller_user_page.
Qed.

(** ** The loop over the arguments *)

Context (mp : gmap Z Z) (uargv : Z).

(** The [k]th string is at [a], below [used]. *)
Definition got (m : gmap Z Z) (used k a : Z) : Prop := let u := rword (mem s) pt (uptr uargv k) in
  readable (mem s) pt (uptr uargv k) /\ u <> 0 /\ exists n, buf <= a /\ a + n + 1 <= buf + used /\ str_at m a n /\
    ustr (mem s) pt u n /\ forall j, 0 <= j <= n -> load8 m (a + j) = rbyte (mem s) pt (u + j).

(** The state of the loop; the path stays what it was in [mp]. *)
Record gathered (m : gmap Z Z) (used : Z) (argv : list Z) : Prop := {
  ga_scratch : scratch m;
  ga_path : forall a, in_path a -> load8 m a = load8 mp a;
  ga_used : 0 <= used <= PAGE_SIZE;
  ga_got : forall k a, argv !! k = Some a -> got m used (Z.of_nat k) a
}.

(** Writes to the local and to the rest of the page. *)
Lemma gathered_write m m' used argv : gathered m used argv ->
  (forall a, ~ in_uarg a -> ~ (buf + used <= a < buf + PAGE_SIZE) -> load8 m' a = load8 m a) -> gathered m' used argv.
Proof.
  intros [G1 G2 G3 G4] Hw. split.
  - intros a H1 H2 H3. rewrite Hw; [by apply G1 | done |]. unfold in_page in H3. lia.
  - intros a Ha. rewrite Hw; [by apply G2 | |].
    + unfold in_path, in_uarg in *. lia.
    + intros Hin. apply (stack_buf a); [apply locals_page; auto | unfold in_page; lia].
  - done.
  - intros k a Hk. destruct (G4 k a Hk) as (R & N & n & B1 & B2 & Hs & Hus & Hb). split; [done |]. split; [done |].
    assert (Hsame : forall j, 0 <= j <= n -> load8 m' (a + j) = load8 m (a + j)).
    { intros j Hj. apply Hw; [| lia]. intros Hua. apply (stack_buf (a + j)); [apply locals_page; auto | unfold in_page; lia]. }
    exists n. split_and!; [done | done | by apply (str_at_ext m) | done |]. intros j Hj. rewrite Hsame by done. by apply Hb.
Qed.

Lemma gathered_word m m' used argv k va : gathered m used argv -> 0 <= va < U32 -> k = 4 \/ user_pa m pt PTE_R (va + k) = 0 -> 0 <= k <= 4 ->
  read_in m m' pt (kstack p + fr_uarg) va k ->
  gathered m' used argv /\ (k = 4 -> readable (mem s) pt va /\ load32 m' (kstack p + fr_uarg) = rword (mem s) pt va).
Proof.
  intros Hg Hva Hst Hk [Hr Hm]. pose proof (ga_scratch _ _ _ Hg) as Hsc. split.
  - apply (gathered_write m); [done |]. intros a Ha _. rewrite Hm. unfold in_uarg in Ha. zcase; [lia | done].
  - intros ->. assert (Hrd : readable (mem s) pt va) by (intros j Hj; rewrite <- (scratch_user_pa m) by done; by apply Hr).
    split; [done |].
    assert (Hlt : va + 4 <= U32).
    { destruct (decide (va + 4 <= U32)) as [| Hn]; [done |]. destruct (Hrd 0 ltac:(lia)). rewrite Z.add_0_r.
      apply (caller_top s p Hh Hpt Hu). unfold PAGE_SIZE. lia. }
    assert (Hb : forall j, 0 <= j < 4 -> load8 m' (kstack p + fr_uarg + j) = rbyte (mem s) pt (va + j)).
    { intros j Hj. rewrite Hm. zcase; [| lia]. replace (kstack p + fr_uarg + j - (kstack p + fr_uarg)) with j by lia.
      rewrite <- (scratch_byte m) by (done || lia || by apply Hrd). done. }
    pose proof (Hb 0 ltac:(lia)) as H0. rewrite !Z.add_0_r in H0. unfold load32, rword. by rewrite H0, !Hb by lia.
Qed.

(** A string was copied behind the others. *)
Lemma gathered_string m m' used argv k : gathered m used argv -> let u := rword (mem s) pt (uptr uargv (Z.of_nat (length argv))) in
  readable (mem s) pt (uptr uargv (Z.of_nat (length argv))) -> u <> 0 -> 0 <= u < U32 -> 0 <= k < PAGE_SIZE - used ->
  (forall j, 0 <= j < k -> rbyte m pt (u + j) <> 0) -> rbyte m pt (u + k) = 0 -> read_in m m' pt (buf + used) u (k + 1) ->
  gathered m' (used + (k + 1)) (argv ++ [buf + used]) /\ str_at m' (buf + used) k.
Proof.
  intros Hg u Hrd Hu0 Hur Hk Hnz Hz [Hr Hm]. pose proof (ga_scratch _ _ _ Hg) as Hsc. pose proof (ga_used _ _ _ Hg) as Hused.
  pose proof (avail_ram _ _ Hbuf) as [_ Hram].
  assert (Hread : forall j, 0 <= j <= k -> user_pa (mem s) pt PTE_R (u + j) <> 0).
  { intros j Hj. rewrite <- (scratch_user_pa m) by done. apply Hr. lia. }
  assert (Hend : u + k < U32).
  { destruct (decide (u + k < U32)) as [| Hn]; [done |]. exfalso. apply (Hread (U32 - 1 - u)); [lia |].
    apply (caller_top s p Hh Hpt Hu). unfold PAGE_SIZE. lia. }
  assert (Hby : forall j, 0 <= j <= k -> rbyte m pt (u + j) = rbyte (mem s) pt (u + j)) by (intros j Hj; apply scratch_byte; auto; lia).
  assert (Hnew : forall j, 0 <= j <= k -> load8 m' (buf + used + j) = rbyte (mem s) pt (u + j)).
  { intros j Hj. rewrite Hm. zcase; [| lia]. replace (buf + used + j - (buf + used)) with j by lia. by apply Hby. }
  assert (Hstr : str_at m' (buf + used) k).
  { split; [unfold MEM_START, MEM_END, PAGE_SIZE, U32 in *; lia | |].
    - intros j Hj. rewrite Hnew, <- Hby by lia. by apply Hnz.
    - rewrite Hnew, <- Hby by lia. exact Hz. }
  split; [| exact Hstr].
  assert (Hg' : gathered m' used argv).
  { apply (gathered_write m); [done |]. intros a _ Ha. rewrite Hm. zcase; [lia | done]. }
  destruct Hg' as [G1 G2 G3 G4]. split; [done | done | lia |]. intros i a Hi. apply lookup_app_Some in Hi as [Hi | [Hge Hi]].
  - destruct (G4 i a Hi) as (R & N & n & B1 & B2 & B3). split; [done |]. split; [done |]. exists n. split; [done |]. split; [lia | done].
  - assert (i = length argv) as ->.
    { destruct (i - length argv)%nat eqn:E; [lia |]. done. }
    rewrite Nat.sub_diag in Hi. injection Hi as <-. split; [done |]. split; [done |]. exists k. split_and!; [lia | lia | done | | done].
    split; [lia | done | |].
    + intros j Hj. rewrite <- Hby by lia. by apply Hnz.
    + rewrite <- Hby by lia. exact Hz.
Qed.

(** So far the strings are those of [lens]. *)
Definition on_track (used : Z) (argv : list Z) : Prop := forall lens, passed (mem s) pt uargv lens ->
  (length argv <= length lens)%nat /\ used = str_bytes (take (length argv) lens).

Lemma on_track_next used argv lens : on_track used argv -> passed (mem s) pt uargv lens -> uargv <> 0 ->
  let u := rword (mem s) pt (uptr uargv (Z.of_nat (length argv))) in u <> 0 ->
  exists n, lens !! length argv = Some n /\ ustr (mem s) pt u n /\ (length argv < 16)%nat /\
    str_bytes (take (S (length argv)) lens) = used + n + 1 /\ used + n + 1 <= str_bytes lens.
Proof.
  intros Ht Hp Hu0 u Hun. destruct (Ht lens Hp) as [Hle Hus]. pose proof (ps_max _ _ _ _ Hp) as Hmax.
  destruct (decide (length argv = length lens)) as [E | Hne].
  { destruct (ps_end _ _ _ _ Hp Hu0) as [_ Hz]. unfold u in Hun. by rewrite E in Hun. }
  destruct (lens !! length argv) as [n |] eqn:El; [| apply lookup_ge_None in El; lia].
  destruct (ps_strs _ _ _ _ Hp _ n El) as (_ & _ & Hs).
  destruct (str_bytes_take lens (length argv) n (passed_lens _ _ _ _ Hp) El) as [E1 E2].
  exists n. unfold MAXARG in Hmax. split_and!; [done | done | lia | lia | lia].
Qed.

(** The next string is the one the program passed. *)
Lemma on_track_push m used argv k : on_track used argv -> uargv <> 0 ->
  rword (mem s) pt (uptr uargv (Z.of_nat (length argv))) <> 0 -> gathered m (used + (k + 1)) (argv ++ [buf + used]) ->
  str_at m (buf + used) k -> on_track (used + (k + 1)) (argv ++ [buf + used]).
Proof.
  intros Htr Hu0 Hnz Hg Hstr lens Hps. destruct (on_track_next used argv lens Htr Hps Hu0 Hnz) as (n & El & Hun & _ & Ht & _).
  destruct (ga_got _ _ _ Hg (length argv) (buf + used)) as (_ & _ & n' & _ & _ & Hs' & Hun' & _).
  { rewrite lookup_app_r, Nat.sub_diag by lia. done. }
  assert (n' = k) as -> by (eapply str_at_unique; [exact Hs' | exact Hstr]).
  assert (n = k) as -> by (eapply ustr_unique; [exact Hun | exact Hun']).
  rewrite length_app. cbn [length]. rewrite Nat.add_1_r. split; [apply lookup_lt_Some in El; lia | lia].
Qed.

Lemma wp_exec_args fuel : uargv <> 0 -> forall m used argv, gathered m used argv -> on_track used argv ->
  (length argv <= 16)%nat -> (fuel + length argv = 17)%nat ->
  wp (exec_args fuel pt (kstack p + fr_uarg) uargv buf used (Z.of_nat (length argv)) argv) (fun o t' => exists m' used' argv',
    t' = set_mem m' t0 /\ gathered m' used' argv' /\
    match o with
    | None => forall lens, passed (mem s) pt uargv lens -> PAGE_SIZE < str_bytes lens
    | Some l => l = argv' /\ on_track used' argv' /\ (length argv' <= 16)%nat /\ readable (mem s) pt (uptr uargv (Z.of_nat (length argv'))) /\
        rword (mem s) pt (uptr uargv (Z.of_nat (length argv'))) = 0
    end) (set_mem m t0).
Proof.
  intros Hu0. induction fuel as [| fuel IH]; intros m used argv Hg Htr Hlen Hf; [lia |]. cbn [exec_args].
  pose proof (ga_scratch _ _ _ Hg) as Hsc. fold (uptr uargv (Z.of_nat (length argv))).
  assert (Hur : 0 <= uptr uargv (Z.of_nat (length argv)) < U32) by apply u32_range.
  apply wp_bind, (wp_copyin_any (set_mem m t0) pt (scratch_uspace m Hsc)); [intros v; by apply scratch_top | done | by apply scratch_uarg |].
  intros m1 r k [Hk Hr] Hread. cbn [mem set_mem] in Hr, Hread.
  destruct (gathered_word m m1 used argv k _ Hg Hur ltac:(tauto) Hk Hread) as [Hg1 Hw].
  destruct Hr as [[-> ->] | (-> & Hk4 & Hz4)]; cbn [Z.ltb Z.compare].
  2: { apply wp_ret. exists m1, used, argv. split_and!; [done | done |]. intros lens Hps. exfalso.
       rewrite (scratch_user_pa m) in Hz4 by done. destruct (Htr lens Hps) as [Hle _].
       destruct (decide (length argv = length lens)) as [E | Hne].
       - destruct (ps_end _ _ _ _ Hps Hu0) as [Hrd _]. rewrite <- E in Hrd. apply (Hrd k); [lia | exact Hz4].
       - destruct (lens !! length argv) as [n |] eqn:El; [| apply lookup_ge_None in El; lia].
         destruct (ps_strs _ _ _ _ Hps _ n El) as (Hrd & _). apply (Hrd k); [lia | exact Hz4]. }
  destruct (Hw eq_refl) as [Hrd Hword]. unfold ld. apply wp_bind, wp_gets. cbn [mem set_mem]. rewrite Hword.
  set (u := rword (mem s) pt (uptr uargv (Z.of_nat (length argv)))) in *.
  destruct (u =? 0) eqn:Eu; zbool; [apply wp_ret; by exists m1, used, argv |].
  destruct (Z.of_nat (length argv) =? MAXARG) eqn:Ea; zbool.
  { apply wp_ret. exists m1, used, argv. split_and!; [done | done |]. intros lens Hps.
    destruct (on_track_next used argv lens Htr Hps Hu0 Eu) as (n & _ & _ & Hlt & _). unfold MAXARG in Ea. lia. }
  assert (Hu32 : 0 <= u < U32) by (rewrite <- Hword; apply load32_range).
  pose proof (ga_scratch _ _ _ Hg1) as Hsc1. pose proof (ga_used _ _ _ Hg1) as Hused.
  change (set_mem m1 (set_mem m t0)) with (set_mem m1 t0).
  apply wp_bind, (wp_copyinstr_any (set_mem m1 t0) pt (scratch_uspace m1 Hsc1)); [intros v; by apply scratch_top | done | lia | by apply scratch_buf |].
  cbn [mem set_mem]. intros m2 r (k & Hk2 & Hnz & [(-> & Hlt & Hz & Hrd2) | (-> & Hstop & Hrd2)]); cbn [Z.ltb Z.compare].
  - destruct (gathered_string m1 m2 used argv k Hg1 Hrd Eu Hu32 ltac:(lia) Hnz Hz Hrd2) as [Hg2 Hstr].
    pose proof (ga_used _ _ _ Hg2) as Hused2. change (set_mem m2 (set_mem m1 t0)) with (set_mem m2 t0). unfold load_str.
    apply wp_bind, wp_bind, wp_gets. cbn [mem set_mem]. set (str := cstr_at (Z.to_nat PAGE_SIZE) m2 (buf + used)).
    pose proof (cstr_at_length m2 (Z.to_nat PAGE_SIZE) (buf + used) k Hstr ltac:(lia)) as Hsl. fold str in Hsl.
    assert ((Z.to_nat PAGE_SIZE <=? length str)%nat = false) as -> by (apply Nat.leb_gt; lia). apply wp_ret.
    assert (Hst : strlen str = k).
    { unfold strlen. rewrite strlen_loop_spec; [lia | apply cstr_at_bytes | lia | unfold PAGE_SIZE, U32 in *; lia]. }
    rewrite Hst. replace (Z.of_nat (length argv) + 1) with (Z.of_nat (length (argv ++ [buf + used]))) by (rewrite length_app; cbn; lia).
    apply IH; [exact Hg2 | by apply (on_track_push m2) | rewrite length_app; cbn; unfold MAXARG in Ea; lia | rewrite length_app; cbn; lia].
  - apply wp_ret. exists m2, used, argv. split; [done |]. split.
    + apply (gathered_write m1); [done |]. intros a _ Ha. destruct Hrd2 as [_ Hm2]. rewrite Hm2. zcase; [lia | done].
    + intros lens Hps. destruct (on_track_next used argv lens Htr Hps Hu0 Eu) as (n & _ & Hun & _ & _ & Hle).
      destruct (decide (n < PAGE_SIZE - used)) as [Hfit |]; [| lia]. exfalso.
      apply (ustr_copied m1 pt u n (PAGE_SIZE - used) k); [by apply scratch_ustr | done | lia | exact Hnz | exact Hstop].
Qed.
(** At the end of the array all strings are there. *)
Lemma gathered_lens m used argv lens : gathered m used argv ->
  argv = [] /\ uargv = 0 \/ uargv <> 0 /\ readable (mem s) pt (uptr uargv (Z.of_nat (length argv))) /\
    rword (mem s) pt (uptr uargv (Z.of_nat (length argv))) = 0 ->
  passed (mem s) pt uargv lens -> Forall2 (str_at m) argv lens.
Proof.
  intros Hg Hend Hps. destruct Hend as [[-> E0] | (Hu0 & _ & Hz)]; [by rewrite (ps_none _ _ _ _ Hps E0) |].
  assert (Hlen : length argv = length lens).
  { destruct (Nat.lt_trichotomy (length argv) (length lens)) as [Hlt | [| Hgt]]; [| done |].
    - destruct (lookup_lt_is_Some_2 lens (length argv) Hlt) as [n Hn]. by destruct (ps_strs _ _ _ _ Hps _ n Hn) as (_ & Hne & _).
    - destruct (lookup_lt_is_Some_2 argv (length lens) Hgt) as [a Ha]. destruct (ga_got _ _ _ Hg _ a Ha) as (_ & Hne & _).
      by destruct (ps_end _ _ _ _ Hps Hu0). }
  apply Forall2_same_length_lookup. split; [done |]. intros k a n Ha Hn.
  destruct (ga_got _ _ _ Hg k a Ha) as (_ & _ & n' & _ & _ & Hs & Hun & _). destruct (ps_strs _ _ _ _ Hps k n Hn) as (_ & _ & Hun').
  by rewrite (ustr_unique _ _ _ n n' Hun' Hun).
Qed.
End Gather.

(** * The call *)

(** What [sys_exec] needs of its caller, process [i]. *)
Record can_exec `{Initcode, CallFrames} (i : nat) (s : kstate) : Prop := {
  ce_holds : holds s (get_proc s i);
  ce_parts : p_tf (get_proc s i) <> 0 /\ p_pt (get_proc s i) <> 0 /\ kstack (get_proc s i) <> 0;
  ce_user : user_only s (get_proc s i);
  ce_path : 0 <= fr_path /\ fr_path + MAXPATH <= PAGE_SIZE;
  ce_uarg : 0 <= fr_uarg /\ fr_uarg + 4 <= PAGE_SIZE;
  ce_apart : fr_path + MAXPATH <= fr_uarg \/ fr_uarg + 4 <= fr_path;
  ce_ustack : 0 <= fr_ustack /\ fr_ustack + 68 <= PAGE_SIZE;
  ce_images : Forall (image_file s) programs
}.

(** The kernel's locals during the call. *)
Definition exec_local `{CallFrames} (p : proc) (a : Z) : Prop :=
  in_path p a \/ in_uarg p a \/ frame_at (kstack p + fr_ustack) a.

(** The call failed: the program is still there. *)
Definition exec_failed `{CallFrames} (i : nat) (s s' : kstate) : Prop :=
  tookx (exec_local (get_proc s i)) (fun _ => False) s s' /\ kready s' /\ proctable s' = proctable s /\ curr_pid s' = curr_pid s.

(** The request is good: the path is the string [name], and the argument strings,
    of the lengths [lens], fit into the stack page. *)
Record good_request (i : nat) (upath uargv : Z) (s : kstate) (name lens : list Z) : Prop := {
  gq_path : exists n, n < MAXPATH /\ ustr (mem s) (p_pt (get_proc s i)) upath n /\ Z.of_nat (length name) = n /\
    forall j c, name !! j = Some c -> c = rbyte (mem s) (p_pt (get_proc s i)) (upath + Z.of_nat j);
  gq_args : passed (mem s) (p_pt (get_proc s i)) uargv lens;
  gq_fit : args_room lens + up16 (4 * (Z.of_nat (length lens) + 1)) <= PAGE_SIZE
}.

(** A good request for a well-formed executable fails only if there are no more
    pages than those of its image, of its stack, of a page table and of the
    strings. *)
Definition exec_short `{Initcode} (i : nat) (upath uargv : Z) (s : kstate) : Prop :=
  forall name lens img len top, good_request i upath uargv s name lens -> find_program name = Some (img, len) ->
    executable s img len top -> scarce (pages_below top + 1027) s.

(** It succeeded: the caller's program [name] and arguments, as they were in its
    memory, are what the new program in the space [pt] starts with. *)
Record exec_done `{CallFrames} (i : nat) (upath uargv : Z) (s : kstate) (name : list Z) (img pt sz sp argc : Z) (s' : kstate) : Prop := {
  ed_frame : oframe s s' /\ kready s';
  ed_path : exists n, n < MAXPATH /\ ustr (mem s) (p_pt (get_proc s i)) upath n /\ Z.of_nat (length name) = n /\
    forall j c, name !! j = Some c -> c = rbyte (mem s) (p_pt (get_proc s i)) (upath + Z.of_nat j);
  ed_proc : get_proc s' i = set_name (new_name name (p_name (get_proc s i))) (set_sz sz (set_pt pt (get_proc s i)));
  ed_rest : forall j, j <> i -> get_proc s' j = get_proc s j;
  ed_holds : holds s' (get_proc s' i);
  ed_avail : forall b, avail s' b <->
    avail s b /\ ~ space s' pt sz b \/ space s (p_pt (get_proc s i)) (p_sz (get_proc s i)) b;
  ed_mem : forall b a, owned s b -> ~ space s (p_pt (get_proc s i)) (p_sz (get_proc s i)) b -> in_page b a ->
    ~ exec_local (get_proc s i) a -> ~ tf_word (p_tf (get_proc s i)) a -> load8 (mem s') a = load8 (mem s) a;
  ed_regs : let tf := p_tf (get_proc s i) in
    load32 (mem s') (tf + tf_epc) = e_entry (read_elf_hdr (mem s) img) /\
    load32 (mem s') (tf + tf_regs 2) = sp /\ load32 (mem s') (tf + tf_regs 11) = sp;
  ed_sp : stackbase <= sp /\ sp + 4 * (argc + 1) <= USER_STACK_TOP /\ sp mod 16 = 0;
  ed_argc : 0 <= argc <= MAXARG /\ (uargv = 0 -> argc = 0) /\
    (uargv <> 0 -> readable (mem s) (p_pt (get_proc s i)) (uptr uargv argc) /\ rword (mem s) (p_pt (get_proc s i)) (uptr uargv argc) = 0);
  ed_args : forall k, 0 <= k < argc -> let u := rword (mem s) (p_pt (get_proc s i)) (uptr uargv k) in
    let w := uword (mem s') pt (sp + 4 * k) in
    u <> 0 /\ exists n, ustr (mem s) (p_pt (get_proc s i)) u n /\ sp < w /\ w + n + 1 <= USER_STACK_TOP /\
      forall j, 0 <= j <= n -> ubyte (mem s') pt (w + j) = rbyte (mem s) (p_pt (get_proc s i)) (u + j);
  ed_null : uword (mem s') pt (sp + 4 * argc) = 0;
  ed_image : let elf := read_elf_hdr (mem s) img in bad_elf_hdr elf = false /\
    forall j, 0 <= j < e_phnum elf -> loadable (hdr img s (e_phoff elf) j) ->
      seg_loaded (mem s) (mem s') pt img (hdr img s (e_phoff elf) j)
}.

Lemma took_mono (F G : Z -> Prop) D s s' : (forall a, F a -> G a) -> tookx F D s s' -> tookx G D s s'.
Proof. intros Hfg [Fr R A N O Mm]. split; try done. intros a Ha. apply Mm. auto. Qed.

Section Call.
Context `{L : Layout} {HL : LayoutOk L} `{Initcode, CallFrames} (i : nat) (s : kstate) (Hq : quiet s) (He : can_exec i s).
Let p := get_proc s i.

(** The page for the strings is allocated. *)
Section Work.
Context (y : sync) (Hy : y ≡ sy s) (mp : gmap Z Z) (buf : Z) (t0 : kstate) (Ha : alloc_some (set_mem mp (set_sy y s)) buf t0).

Lemma work_avail : avail s buf.
Proof. exact (as_avail _ _ _ Ha). Qed.

Lemma work_owned b : owned s b -> owned t0 b.
Proof. intros Ho. exact (owned_alloc_keep _ _ _ b Ha Ho). Qed.

Lemma work_buf : owned t0 buf.
Proof. exact (owned_alloc_some _ _ _ Ha). Qed.

Lemma work_frame m : oframe s (set_mem m t0).
Proof. pose proof (as_frame _ _ _ Ha) as []. split; try done. cbn in *. by rewrite kf_sy. Qed.

Lemma work_procs m j : get_proc (set_mem m t0) j = get_proc s j.
Proof. unfold get_proc. cbn [proctable set_mem]. by rewrite (kf_procs _ _ (as_frame _ _ _ Ha)). Qed.

Lemma work_took m : scratch s p buf m -> tookx (exec_local p) (fun b => b = buf) s (set_mem m t0).
Proof.
  intros Hm. assert (Ht : took (fun b => b = buf) (set_mem mp (set_sy y s)) t0).
  { apply took_alloc_only; [| done]. destruct (qu_alloc _ Hq) as [A1 A2]. by split. }
  destruct Ht as [_ [T1 T2] Tav Tnew Town _]. split.
  - apply work_frame.
  - by split.
  - exact Tav.
  - exact Tnew.
  - exact Town.
  - intros a Hl Hav. apply Hm; [unfold exec_local in Hl; tauto | unfold exec_local in Hl; tauto |]. apply Hav, work_avail.
Qed.

Lemma work_quiet m : scratch s p buf m -> quiet (set_mem m t0).
Proof. intros Hm. apply (quiet_frame s); [apply work_frame | apply (work_took m Hm) | done]. Qed.

(** The call gives up: the page goes back. *)
Lemma wp_give_up m (Q : Z -> kstate -> Prop) : scratch s p buf m -> (forall s', exec_failed i s s' -> Q (u32 (-1)) s') ->
  wp (kfree buf;; mret (u32 (-1))) Q (set_mem m t0).
Proof.
  intros Hm HQ. pose proof (quiet_ready _ (work_quiet m Hm)) as Hr. apply wp_bind, pa_free; [done | exact work_buf |].
  intros s' Hf. apply wp_ret, HQ. pose proof (freed_set_one _ _ _ Hr work_buf Hf) as Hfs.
  pose proof (as_frame _ _ _ Ha) as Hfa. pose proof (fs_frame _ _ _ Hfs) as Hff.
  split; [| split; [apply Hfs |]].
  - eapply took_equiv; [| eapply took_return; [exact (work_took m Hm) | exact Hfs | done]]. intros b. tauto.
  - rewrite (kf_procs _ _ Hff), (kf_pid _ _ Hff). cbn [proctable curr_pid set_mem].
    rewrite (kf_procs _ _ Hfa), (kf_pid _ _ Hfa). done.
Qed.

(** ** What [kexec] finds *)

Section Ready.
Context (m : gmap Z Z) (used uargv : Z) (argv : list Z) (Hg : gathered s p buf mp uargv m used argv).
Let t1 := set_mem m t0.
Let Hsc : scratch s p buf m := ga_scratch s p buf mp uargv m used argv Hg.

Lemma work_tables : same_tables (mem s) m (p_pt p).
Proof. destruct (ce_parts _ _ He) as (_ & P2 & P3). apply (scratch_tables s p (ce_holds _ _ He) P2 P3 (ce_path _ _ He) (ce_uarg _ _ He) (ce_apart _ _ He) buf work_avail m Hsc). Qed.

Lemma work_holds : holds t1 p /\ forall b, owns t1 p b <-> owns s p b.
Proof.
  apply (holds_stay s t1 p); [intros b _; apply work_owned | | apply (ce_holds _ _ He)].
  intros b a _ Hb Hin. by apply (work_tables b a).
Qed.

Lemma work_space b : space t1 (p_pt p) (p_sz p) b <-> space s (p_pt p) (p_sz p) b.
Proof.
  destruct (ce_parts _ _ He) as (_ & P2 & P3). pose proof (ce_holds _ _ He) as Hh. destruct (hd_pt _ _ Hh P2) as (Hwf & Hpk & _).
  destruct (space_keep s t1 (p_pt p) (p_sz p)) as (_ & _ & K & _); [by intros; apply work_owned | | done | done | done].
  intros c x Hc Hco Hx.
  apply (scratch_space s p Hh P2 P3 (ce_path _ _ He) (ce_uarg _ _ He) (ce_apart _ _ He) buf work_avail m c x); done.
Qed.

(** The kernel's image is not touched. *)
Lemma work_low x : 0 <= x < start_page s -> load8 (mem t1) x = load8 (mem s) x.
Proof.
  intros Hx. destruct (ce_parts _ _ He) as (_ & _ & P3). destruct (hd_ks _ _ (ce_holds _ _ He) P3) as [(_ & Hks & _) _].
  pose proof (as_start _ _ _ Ha) as Hb. cbn [start_page set_mem set_sy] in Hb. destruct (ce_path _ _ He). destruct (ce_uarg _ _ He).
  apply Hsc; unfold in_path, in_uarg, in_page; fold p in Hks; lia.
Qed.

Lemma work_start : start_page t1 = start_page s.
Proof. exact (of_start _ _ (work_frame m)). Qed.

Lemma work_ready : (exists n, str_at m (kstack p + fr_path) n /\ n < MAXPATH) -> exec_ready i (kstack p + fr_path) argv t1.
Proof.
  intros Hpath. destruct (ce_parts _ _ He) as (P1 & P2 & P3).
  split; unfold t1; rewrite ?work_procs; [apply work_holds | done | apply (ce_ustack _ _ He) | exact Hpath | |].
  - apply list.Forall_forall. intros a Hin. apply list_elem_of_lookup_1 in Hin as [k Hk].
    destruct (ga_got _ _ _ _ _ _ _ _ Hg k a Hk) as (_ & _ & n & B1 & B2 & Hs & _). pose proof (ga_used _ _ _ _ _ _ _ _ Hg) as Hus.
    exists n. split; [done | exists buf; split_and!; [exact work_buf | done | lia] |].
    intros j Hj Hf. apply (stack_buf s p (ce_holds _ _ He) P3 buf work_avail (a + j)); [| unfold in_page; lia].
    destruct (ce_ustack _ _ He). unfold frame_at in Hf. fold p in Hf. unfold in_page. lia.
  - eapply Forall_impl; [| apply (ce_images _ _ He)]. intros pr (I1 & I2 & I3 & I4).
    pose proof (low_elf_hdr s t1 (pr_img pr) (pr_len pr) work_low I1 I3) as Helf.
    split_and!; [done | lia | lia | change (start_page (set_mem m t0)) with (start_page t1); by rewrite work_start | by unfold t1 in Helf; rewrite Helf].
Qed.
End Ready.

(** ** After [kexec] *)

(** [kexec] refused a good request. *)
Lemma refused_short m used uargv argv (Hg : gathered s p buf mp uargv m used argv) upath n : n < MAXPATH ->
  ustr (mem s) (p_pt p) upath n ->
  (forall j, 0 <= j <= n -> load8 mp (kstack p + fr_path + j) = rbyte (mem s) (p_pt p) (upath + j)) ->
  str_at m (kstack p + fr_path) n ->
  argv = [] /\ uargv = 0 \/ uargv <> 0 /\ readable (mem s) (p_pt p) (uptr uargv (Z.of_nat (length argv))) /\
    rword (mem s) (p_pt p) (uptr uargv (Z.of_nat (length argv))) = 0 ->
  exec_refused (kstack p + fr_path) argv (set_mem m t0) -> exec_short i upath uargv s.
Proof.
  intros Hn Hups Hmp Hstr Hend Hwhy name lens img len top [(n' & _ & Hu' & Hl & Hby) Gp Gf] Hf Hx. fold p in Hu', Hby, Gp.
  assert (n' = n) as -> by (by eapply ustr_unique). destruct (find_loop_in _ _ _ _ Hf) as (pr & Hpr & Ei & El).
  destruct (proj1 (list.Forall_forall _ _) (ce_images _ _ He) pr Hpr) as (I1 & I2 & I3 & _). rewrite <- Ei, <- El in *.
  assert (Hname : cstr_at 32 m (kstack p + fr_path) = name).
  { pose proof (cstr_at_length m 32 _ n Hstr ltac:(unfold MAXPATH in Hn; lia)) as Hcl.
    apply list_eq_same_length with (length name); [done | lia |]. intros j c d Hj Hc Hd.
    rewrite (cstr_at_lookup _ _ _ _ _ Hc), (Hby j d Hd), (ga_path _ _ _ _ _ _ _ _ Hg) by (unfold in_path; lia).
    apply Hmp. lia. }
  assert (Hfit : args_fit m argv).
  { pose proof (gathered_lens s p buf mp uargv m used argv lens Hg Hend Gp) as Hl2. assert (El2 : length argv = length lens) by (by eapply list.Forall2_length).
    split; [rewrite El2; apply Gp |]. exists lens. split; [done |]. by rewrite El2. }
  pose proof (ga_scratch _ _ _ _ _ _ _ _ Hg) as Hsc.
  pose proof (low_executable s (set_mem m t0) img len (work_low m used uargv argv Hg) I1 I3 top Hx) as Hx1.
  rewrite <- Hname in Hf. pose proof (Hwhy img len top Hf Hx1 Hfit) as Hs.
  eapply few_mono; [apply (scarce_took _ _ _ 1 s (set_mem m t0) (work_took m Hsc) (few_one buf) Hs) | lia | done].
Qed.

Section Failed.
Context (m : gmap Z Z) (used uargv : Z) (argv : list Z) (Hg : gathered s p buf mp uargv m used argv) (s5 s6 : kstate).
Let t1 := set_mem m t0.
Context (Hx : unexeced i t1 s5) (Hf : freed s5 buf s6).

Lemma failed_after : owned s5 buf -> exec_failed i s s6.
Proof.
  intros Ho. destruct Hx as (Ht & Hr & Hpr & Hpid). pose proof (freed_set_one _ _ _ Hr Ho Hf) as Hfs.
  pose proof (as_frame _ _ _ Ha) as Hfa. pose proof (fs_frame _ _ _ Hfs) as Hff.
  pose proof (work_took m (ga_scratch _ _ _ _ _ _ _ _ Hg)) as Ht1.
  assert (Ht5 : tookx (exec_local p) (fun _ => False) t1 s5).
  { eapply took_mono; [| exact Ht]. intros a. unfold t1. rewrite work_procs. unfold exec_local. tauto. }
  split; [| split; [apply Hfs |]].
  - eapply took_equiv; [| eapply took_return; [exact (took_trans _ _ _ _ _ _ Ht1 Ht5) | exact Hfs |]]; [intros b; tauto | by left].
  - rewrite (kf_procs _ _ Hff), (kf_pid _ _ Hff), Hpr, Hpid. unfold t1. cbn [proctable curr_pid set_mem].
    rewrite (kf_procs _ _ Hfa), (kf_pid _ _ Hfa). done.
Qed.
End Failed.

Section Done.
Context (m : gmap Z Z) (used uargv : Z) (argv : list Z) (Hg : gathered s p buf mp uargv m used argv) (s5 s6 : kstate).
Let t1 := set_mem m t0.
Context (name : list Z) (img pt sz sp argc : Z) (Hx : execed i name argv img t1 pt sz sp argc s5).

Lemma done_procs : get_proc t1 i = p.
Proof. apply work_procs. Qed.

(** The page of the strings is still the caller's. *)
Lemma done_buf : owned s5 buf /\ forall b, space s5 pt sz b -> b <> buf.
Proof.
  pose proof work_buf as (Hr & Hst & Hb0). pose proof (xd_avail _ _ _ _ _ _ _ _ _ _ Hx buf) as Hav.
  pose proof (xd_fresh _ _ _ _ _ _ _ _ _ _ Hx) as Hfr. rewrite done_procs in Hav.
  assert (Hna : ~ avail t1 buf) by (intros [_ Hn]; done).
  destruct (work_holds m used uargv argv Hg) as [Hh1 Ho1]. fold t1 in Hh1, Ho1.
  assert (Hns : ~ space t1 (p_pt p) (p_sz p) buf).
  { intros Hsp. destruct (ce_parts _ _ He) as (_ & P2 & _). apply (owned_not_avail s buf); [| exact work_avail].
    eapply owns_owned; [apply (ce_holds _ _ He) |]. apply Ho1. left. by right. }
  split; [| intros b Hb ->; by apply Hna, Hfr]. split; [done |]. split.
  - rewrite (of_start _ _ (xd_frame _ _ _ _ _ _ _ _ _ _ Hx)). exact Hst.
  - destruct (decide (bit s5 (idx buf) = 0)) as [| Hn]; [done |]. exfalso. destruct (proj1 Hav (conj Hr Hn)) as [[? _] | ?]; done.
Qed.

Context (Hf : freed s5 buf s6).

Lemma done_freed : freed_set (fun b => b = buf) s5 s6.
Proof. apply freed_set_one; [apply Hx | apply done_buf | done]. Qed.

Lemma done_byte b a : ram_page b -> b <> buf -> in_page b a -> load8 (mem s6) a = load8 (mem s5) a.
Proof.
  intros Hb Hne Hin. apply (fs_mem _ _ _ done_freed). intros c -> Hc. apply Hne.
  exact (page_disjoint b buf a Hb (avail_ram _ _ work_avail) Hin Hc).
Qed.

Lemma done_holds : holds s6 (get_proc s6 i) /\ (forall b, space s6 pt sz b <-> space s5 pt sz b) /\ same_tables (mem s5) (mem s6) pt.
Proof.
  assert (Ep : get_proc s6 i = get_proc s5 i) by (unfold get_proc; by rewrite (kf_procs _ _ (fs_frame _ _ _ done_freed))).
  rewrite Ep. destruct (ce_parts _ _ He) as (P1 & P2 & P3). pose proof (ce_holds _ _ He) as Hh.
  pose proof (xd_holds _ _ _ _ _ _ _ _ _ _ Hx) as Hh5. pose proof (xd_proc _ _ _ _ _ _ _ _ _ _ Hx) as Ex. rewrite done_procs in Ex.
  assert (Hno : forall b, owned s b -> b <> buf) by (intros b Ho ->; exact (owned_not_avail s buf Ho work_avail)).
  destruct (gave_back_holds _ _ _ (get_proc s5 i) (freed_gave_back _ _ _ done_freed)) as [G1 G2]; [| done |].
  - intros b. rewrite Ex. unfold owns. cbn. intros [[[_ ->] | [_ Hsp]] | [_ ->]].
    + by apply Hno, Hh.
    + by apply done_buf.
    + by apply Hno, Hh.
  - split; [done |].
    rewrite Ex in Hh5. destruct (hd_pt _ _ Hh5 (proj1 (xd_pt _ _ _ _ _ _ _ _ _ _ Hx))) as (Hwf & Hpk & _). cbn in Hwf, Hpk.
    destruct (space_keep s5 s6 pt sz) as (_ & _ & K3 & K4); [| | done | done | done].
    + intros b Hb Ho. apply (fs_owned _ _ _ done_freed); [done |]. by apply done_buf.
    + intros b a Hb Ho Hin. apply (done_byte b); [by eapply owned_ram | by apply done_buf | done].
Qed.

(** What the new program reads. *)
Lemma done_user v : 0 <= v < U32 -> allows (pte_at (mem s5) pt v) 0 = true ->
  pte_at (mem s6) pt v = pte_at (mem s5) pt v /\ ubyte (mem s6) pt v = ubyte (mem s5) pt v.
Proof.
  intros Hv Hal. destruct done_holds as (_ & _ & Hst). split; [by apply same_tables_pte |]. unfold ubyte.
  assert (Hu : user_pa (mem s6) pt 0 v = user_pa (mem s5) pt 0 v) by (by apply same_tables_user_pa). rewrite Hu.
  pose proof (xd_user _ _ _ _ _ _ _ _ _ _ Hx v Hv Hal) as HQ. pose proof (allows_valid _ Hal) as Hval.
  assert (Hsp : space s5 pt sz (PTE2PA (pte_at (mem s5) pt v))) by (left; by exists v).
  pose proof (xd_holds _ _ _ _ _ _ _ _ _ _ Hx) as Hh5. rewrite (xd_proc _ _ _ _ _ _ _ _ _ _ Hx) in Hh5.
  destruct (hd_pt _ _ Hh5 (proj1 (xd_pt _ _ _ _ _ _ _ _ _ _ Hx))) as (_ & Hpk & _). cbn in Hpk.
  destruct (po_owned _ _ _ Hpk v Hv HQ Hval) as [Ho _].
  apply (done_byte (PTE2PA (pte_at (mem s5) pt v))); [by eapply owned_ram | by apply done_buf |].
  destruct (owned_ram _ _ Ho) as [_ Hr]. unfold user_pa. rewrite Hal.
  rewrite u32_small; unfold in_page, PAGE_SIZE, MEM_START, MEM_END, U32 in *; zlia.
Qed.

Context (upath n : Z) (Hn : n < MAXPATH) (Hups : ustr (mem s) (p_pt p) upath n).
Context (Hmp : forall j, 0 <= j <= n -> load8 mp (kstack p + fr_path + j) = rbyte (mem s) (p_pt p) (upath + j)).

Lemma done_path j : 0 <= j <= n -> load8 m (kstack p + fr_path + j) = rbyte (mem s) (p_pt p) (upath + j).
Proof. intros Hj. rewrite (ga_path _ _ _ _ _ _ _ _ Hg) by (unfold in_path; lia). by apply Hmp. Qed.

Lemma done_path_str : str_at m (kstack p + fr_path) n.
Proof.
  destruct (ce_parts _ _ He) as (_ & _ & P3). destruct (hd_ks _ _ (ce_holds _ _ He) P3) as [Hko _].
  apply owned_ram in Hko as [_ Hr]. fold p in Hr. destruct (ut_range _ _ _ _ Hups) as (_ & N0 & _). destruct (ce_path _ _ He). split.
  - unfold MEM_START, MEM_END, PAGE_SIZE, U32, MAXPATH in *. lia.
  - intros j Hj. rewrite done_path by lia. by apply (ut_bytes _ _ _ _ Hups).
  - rewrite done_path by lia. apply Hups.
Qed.

Lemma done_mem b a : owned s b -> ~ space s (p_pt p) (p_sz p) b -> in_page b a -> ~ exec_local p a -> ~ tf_word (p_tf p) a ->
  load8 (mem s6) a = load8 (mem s) a.
Proof.
  intros Ho Hns Hin Hl Hw. assert (Hne : b <> buf) by (intros ->; exact (owned_not_avail s buf Ho work_avail)).
  pose proof (owned_ram _ _ Ho) as Hr. rewrite (done_byte b) by done.
  destruct (work_holds m used uargv argv Hg) as [_ Ho1]. fold t1 in Ho1.
  pose proof (xd_mem _ _ _ _ _ _ _ _ _ _ Hx b a) as Hxm. rewrite done_procs in Hxm. rewrite Hxm; [| by apply work_owned | | done | |].
  - apply (ga_scratch _ _ _ _ _ _ _ _ Hg); [unfold exec_local in Hl; tauto.. |]. intros Hb. apply Hne.
    exact (page_disjoint b buf a Hr (avail_ram _ _ work_avail) Hin Hb).
  - intros Hsp. by apply Hns, (work_space m used uargv argv Hg).
  - unfold exec_local in Hl. tauto.
  - done.
Qed.

Lemma done_avail b : avail s6 b <-> avail s b /\ ~ space s6 pt sz b \/ space s (p_pt p) (p_sz p) b.
Proof.
  destruct done_holds as (_ & Hsp & _). pose proof (xd_avail _ _ _ _ _ _ _ _ _ _ Hx b) as Hav. rewrite done_procs in Hav.
  pose proof (tk_avail _ _ _ _ (work_took m (ga_scratch _ _ _ _ _ _ _ _ Hg)) b) as Hav1. fold t1 in Hav1.
  rewrite (fs_avail _ _ _ done_freed), Hav, Hav1, Hsp. pose proof (work_space m used uargv argv Hg b) as Hos. fold t1 in Hos. rewrite Hos.
  destruct done_buf as [_ Hnb]. pose proof work_avail as Hba. split.
  - intros [[[[? ?] ?] | ?] | ->]; [by left | by right |]. left. split; [done |]. intros Hs. by apply (Hnb buf).
  - intros [[Hb Hns] | ?]; [| by left; right]. destruct (decide (b = buf)) as [-> | Hne]; [by right |]. left. left. done.
Qed.

Lemma done_passed : args_passed (mem t1) (mem s6) pt argv sp argc.
Proof.
  eapply args_passed_ext; [apply Hx |]. destruct stack_consts as (_ & C1 & _ & C3 & _). intros v Hv. apply done_user; [lia |].
  destruct (ap_stack _ _ _ _ _ _ (xd_args _ _ _ _ _ _ _ _ _ _ Hx) v Hv) as [HR _]. by eapply allows_user.
Qed.

Lemma done_args k : 0 <= k < argc -> let u := rword (mem s) (p_pt p) (uptr uargv k) in let w := uword (mem s6) pt (sp + 4 * k) in
  u <> 0 /\ exists n, ustr (mem s) (p_pt p) u n /\ sp < w /\ w + n + 1 <= USER_STACK_TOP /\
    forall j, 0 <= j <= n -> ubyte (mem s6) pt (w + j) = rbyte (mem s) (p_pt p) (u + j).
Proof.
  intros Hk u w. pose proof done_passed as Hap.
  destruct (ap_argc _ _ _ _ _ _ Hap) as [Hargc _]. destruct (lookup_lt_is_Some_2 argv (Z.to_nat k)) as [a Hak]; [lia |].
  destruct (ga_got _ _ _ _ _ _ _ _ Hg _ a Hak) as (_ & Hnz & l & B1 & B2 & Hs & Hus & Hb). rewrite Z2Nat.id in * by lia.
  destruct (ap_args _ _ _ _ _ _ Hap (Z.to_nat k) a l Hak Hs) as (A1 & A2 & A3). rewrite Z2Nat.id in * by lia.
  split; [done |]. exists l. do 3 (split; [done |]). intros j Hj. unfold w. rewrite A3 by done. by apply Hb.
Qed.

Lemma done_image : 0 <= img -> img + sizeof_elf_hdr <= start_page s ->
  read_elf_hdr (mem t1) img = read_elf_hdr (mem s) img /\
  (let elf := read_elf_hdr (mem s) img in bad_elf_hdr elf = false /\
    forall j, 0 <= j < e_phnum elf -> loadable (hdr img s (e_phoff elf) j) ->
      seg_loaded (mem s) (mem s6) pt img (hdr img s (e_phoff elf) j)).
Proof.
  intros Hi0 Hend. pose proof (work_low m used uargv argv Hg) as Hlow. fold t1 in Hlow. set (len := start_page s - img).
  assert (Hel : img + Z.max len sizeof_elf_hdr <= start_page s) by (unfold len; lia).
  pose proof (low_elf_hdr s t1 img len Hlow Hi0 Hel) as Helf. split; [done |].
  destruct (xd_image _ _ _ _ _ _ _ _ _ _ Hx) as [Hok Hsegs]. cbv zeta in Hok, Hsegs. rewrite Helf in Hok, Hsegs.
  assert (Est : start_page t1 = start_page s) by exact (of_start _ _ (work_frame m)). rewrite Est in Hsegs. cbv zeta. split; [done |]. set (elf := read_elf_hdr (mem s) img) in *. intros j Hj Hlo.
  destruct (Hsegs j Hj) as [Hin Hld]. assert (Hph : 0 <= e_phoff elf) by apply load32_range.
  rewrite (low_hdr s t1 img len Hlow Hi0 Hel) in Hld by (unfold len; lia). destruct (Hld Hlo) as (E1 & E2 & E3).
  eapply seg_loaded_ext; [| apply (low_seg s t1 img len Hlow Hi0 Hel); [unfold len; lia | exact E3]]. intros v Hv.
  pose proof (hdr_range img s (e_phoff elf) j) as (Rv & _ & _ & _).
  destruct (E3 (v - p_va (hdr img s (e_phoff elf) j)) ltac:(lia)) as (Hav & _).
  rewrite Z.add_comm, Z.sub_add in Hav. destruct (xd_pt _ _ _ _ _ _ _ _ _ _ Hx) as (_ & _ & Hszr). apply done_user; [lia | done].
Qed.

Lemma exec_done_all len : name = cstr_at 32 m (kstack p + fr_path) -> find_program name = Some (img, len) ->
  (argc = 0 /\ uargv = 0 \/ uargv <> 0 /\ readable (mem s) (p_pt p) (uptr uargv argc) /\ rword (mem s) (p_pt p) (uptr uargv argc) = 0) ->
  exec_done i upath uargv s name img pt sz sp argc s6.
Proof.
  intros Hname Hfind Hargc. destruct (ce_parts _ _ He) as (P1 & P2 & P3). pose proof (ce_holds _ _ He) as Hh.
  pose proof (hd_tf _ _ Hh P1) as Htfo. fold p in Htfo.
  assert (Hproc : forall j, get_proc s6 j = get_proc s5 j) by (intros j; unfold get_proc; by rewrite (kf_procs _ _ (fs_frame _ _ _ done_freed))).
  destruct (find_loop_in _ _ _ _ Hfind) as (pr & Hpr & Ei & El).
  destruct (proj1 (list.Forall_forall _ _) (ce_images _ _ He) pr Hpr) as (I1 & I2 & I3 & I4). rewrite <- Ei in *.
  destruct done_image as [Helf Himg]; [done | lia |]. pose proof done_passed as Hap.
  split; fold p.
  - split; [| apply done_freed]. etransitivity; [apply (work_frame m) |]. etransitivity; [apply Hx |]. apply kframe_oframe, done_freed.
  - exists n. split; [done |]. split; [done |]. pose proof done_path_str as Hstr. split.
    + rewrite Hname. apply cstr_at_length; [done | unfold MAXPATH in Hn; lia].
    + intros j c Hj. pose proof Hj as Hj'. rewrite Hname in Hj. apply cstr_at_lookup in Hj as ->. apply done_path.
      apply lookup_lt_Some in Hj'. rewrite Hname in Hj'.
      pose proof (cstr_at_length m 32 _ n Hstr ltac:(unfold MAXPATH in Hn; lia)). lia.
  - rewrite Hproc, (xd_proc _ _ _ _ _ _ _ _ _ _ Hx), done_procs. done.
  - intros j Hj. rewrite Hproc, (xd_rest _ _ _ _ _ _ _ _ _ _ Hx j Hj). apply work_procs.
  - apply done_holds.
  - apply done_avail.
  - intros b a. apply done_mem.
  - pose proof (xd_regs _ _ _ _ _ _ _ _ _ _ Hx) as Hregs. rewrite done_procs, Helf in Hregs. cbv zeta in Hregs |- *.
    assert (Hw : forall o, 0 <= o -> o + 4 <= PAGE_SIZE -> load32 (mem s6) (p_tf p + o) = load32 (mem s5) (p_tf p + o)).
    { intros o Ho Hoe. apply load32_ext. intros a Hin. apply (done_byte (p_tf p)); [by eapply owned_ram | | unfold in_page; lia].
      intros E. rewrite E in Htfo. exact (owned_not_avail s buf Htfo work_avail). }
    rewrite !Hw by (unfold tf_epc, tf_regs, PAGE_SIZE; lia). exact Hregs.
  - apply Hap.
  - destruct (ap_argc _ _ _ _ _ _ Hap) as [-> ?]. split; [lia |]. destruct Hargc as [[? ->] | (? & ? & ?)]; split; done.
  - intros k Hk. by apply done_args.
  - apply Hap.
  - exact Himg.
Qed.
End Done.
End Work.

(** ** The whole call *)

Context (Hcpu : cpu_proc (get_cpu (sy s)) = Some i).
Let upath := arg_reg i 0 s.
Let uargv := arg_reg i 1 s.

Definition exec_outcome (r : Z) (s' : kstate) : Prop :=
  r = u32 (-1) /\ exec_failed i s s' /\ exec_short i upath uargv s \/
  exists name img len pt sz sp argc, r = argc /\ find_program name = Some (img, len) /\
    exec_done i upath uargv s name img pt sz sp argc s'.

(** A state of the call before the page is allocated. *)
Definition early (t : kstate) : Prop := exists y m, y ≡ sy s /\ t = set_mem m (set_sy y s) /\ forall a, ~ in_path p a -> load8 m a = load8 (mem s) a.

Lemma early_failed t : early t -> exec_failed i s t.
Proof.
  intros (y & m & Hy & -> & Hm). destruct (qu_alloc _ Hq) as [A1 A2]. split; [| split; [| done]].
  - split; [by split | by split | cbn; intros b; tauto | done | done |]. intros a Hl _. apply Hm. unfold exec_local in Hl. tauto.
  - destruct (quiet_ready _ Hq) as [_ R2 R3]. split; [by split | cbn; by rewrite Hy |].
    destruct R3 as [R3 | R3]; [by left | right; cbn; by rewrite Hy].
Qed.

Lemma early_none t t' : early t -> alloc_none t t' -> exec_failed i s t'.
Proof.
  intros Ht Hn. destruct (early_failed t Ht) as (T1 & T2 & T3 & T4). pose proof (an_frame _ _ Hn) as Hf. split; [| split; [by eapply kready_alloc_none |]].
  - eapply took_frame; [exact T1 | by apply kframe_oframe | apply Hn | apply Hn].
  - rewrite (kf_procs _ _ Hf), (kf_pid _ _ Hf). done.
Qed.

Lemma early_arg t k (Q : Z -> kstate -> Prop) : early t -> 0 <= k <= 5 -> (forall t', early t' -> mem t' = mem t -> Q (arg_reg i k s) t') ->
  wp (argaddr k) Q t.
Proof.
  intros (y & m & Hy & -> & Hm) Hk HQ. unfold argaddr, argraw.
  apply wp_bind, wp_myproc; [cbn; rewrite Hy; apply (qu_locks _ Hq MemLock) |]. intros y' Hy'. cbn [sy set_sy set_mem] in *.
  destruct (get_cpu_equiv _ _ Hy) as (_ & _ & -> & _). rewrite Hcpu. cbn [deref_proc]. apply wp_bind, wp_ret, wp_bind, wp_gets.
  assert ((0 <=? k) && (k <=? 5) = true) as -> by lia. unfold ld. apply wp_gets.
  change (get_proc _ i) with p. change (mem (set_sy _ _)) with m.
  assert (Hr : load32 m (p_tf p + tf_regs (10 + k)) = arg_reg i k s).
  { apply load32_ext. intros a Ha. apply Hm. destruct (ce_parts _ _ He) as (P1 & _ & P3). pose proof (ce_holds _ _ He) as Hh.
    fold p in P1, P3, Hh. destruct (hd_ks _ _ Hh P3) as [Hko Hne]. pose proof (hd_tf _ _ Hh P1) as Hto. intros Hin. apply Hne.
    apply (page_disjoint _ _ a (owned_ram _ _ Hko) (owned_ram _ _ Hto)).
    - destruct (ce_path _ _ He). unfold in_path, in_page in *. lia.
    - change (p_tf p + tf_regs (10 + k) <= a < p_tf p + tf_regs (10 + k) + 4) in Ha. unfold in_page, PAGE_SIZE. unfold tf_regs in Ha. lia. }
  rewrite Hr. apply HQ; [| done]. exists y', m. split_and!; [by rewrite Hy' | done | done].
Qed.

(** The strings are there, or the arguments cannot be read. *)
Lemma wp_exec_rest y mp buf t0 n (Hy : y ≡ sy s) (Ha : alloc_some (set_mem mp (set_sy y s)) buf t0) m used argv (o : option (list Z)) :
  (forall a, ~ in_path p a -> load8 mp a = load8 (mem s) a) -> n < MAXPATH -> ustr (mem s) (p_pt p) upath n ->
  (forall j, 0 <= j <= n -> load8 mp (kstack p + fr_path + j) = rbyte (mem s) (p_pt p) (upath + j)) ->
  gathered s p buf mp uargv m used argv ->
  match o with
  | None => forall lens, passed (mem s) (p_pt p) uargv lens -> PAGE_SIZE < str_bytes lens
  | Some l => l = argv /\ (argv = [] /\ uargv = 0 \/ uargv <> 0 /\
      readable (mem s) (p_pt p) (uptr uargv (Z.of_nat (length argv))) /\ rword (mem s) (p_pt p) (uptr uargv (Z.of_nat (length argv))) = 0)
  end ->
  wp (ret ← (match o with None => mret (-1) | Some argv => kexec (kstack p + fr_path) argv end); kfree buf;; mret (u32 ret))
    exec_outcome (set_mem m t0).
Proof.
  intros Hmp0 Hn Hups Hmp Hg Ho. pose proof (ga_scratch _ _ _ _ _ _ _ _ Hg) as Hsc.
  destruct o as [l |]; [destruct Ho as [-> Hargs] |].
  2: { apply wp_bind, wp_ret, (wp_give_up y Hy mp buf t0 Ha m); [done |]. intros s' Hs'. left. split_and!; [done | done |].
       intros name lens img len top [_ Gp Gf]. pose proof (Ho lens Gp) as Hlt.
       pose proof (str_bytes_room lens (passed_lens _ _ _ _ Gp)). unfold up16 in Gf. zlia. }
  pose proof (done_path_str mp buf m used uargv argv Hg upath n Hn Hups Hmp) as Hstr.
  apply wp_bind. eapply wp_mono; [apply (wp_kexec i (kstack p + fr_path) argv (set_mem m t0)) |].
  - by apply (work_quiet y Hy mp buf t0 Ha).
  - destruct (get_cpu_equiv _ _ (of_sy _ _ (work_frame y Hy mp buf t0 Ha m))) as (_ & _ & -> & _). done.
  - apply (work_ready y Hy mp buf t0 Ha m used uargv argv Hg). by exists n.
  - intros r s5 [(-> & Hx & Hwhy) | (name & img & len & pt & sz & sp & Hname & Hfind & Hx)].
    + assert (Hob : owned s5 buf) by (apply (tk_owned _ _ _ _ (proj1 Hx)); exact (work_buf y mp buf t0 Ha)).
      apply wp_bind, pa_free; [apply Hx | done |]. intros s6 Hf. apply wp_ret. left. split_and!; [done | |].
      { by apply (failed_after y Hy mp buf t0 Ha m used uargv argv Hg s5 s6 Hx Hf). }
      by apply (refused_short y Hy mp buf t0 Ha m used uargv argv Hg upath n).
    + destruct (done_buf y mp buf t0 Ha m used uargv argv Hg s5 name img pt sz sp r Hx) as [Hob _].
      apply wp_bind, pa_free; [apply Hx | done |]. intros s6 Hf. apply wp_ret. right. exists name, img, len, pt, sz, sp, r.
      pose proof (xd_args _ _ _ _ _ _ _ _ _ _ Hx) as Hap. destruct (ap_argc _ _ _ _ _ _ Hap) as [Er Hr].
      split; [apply u32_small; unfold MAXARG, U32 in *; lia |]. split; [done |].
      apply (exec_done_all y Hy mp buf t0 Ha m used uargv argv Hg s5 s6 name img pt sz sp r Hx Hf upath n Hn Hups Hmp len); try done.
      rewrite Er. destruct Hargs as [[-> E0] | Hargs]; [by left | by right].
Qed.

Lemma wp_sys_exec : wp sys_exec exec_outcome s.
Proof.
  destruct (ce_parts _ _ He) as (P1 & P2 & P3). pose proof (ce_holds _ _ He) as Hh. fold p in P1, P2, P3, Hh.
  unfold sys_exec. apply wp_bind, wp_myproc; [apply (qu_locks _ Hq MemLock) |]. intros y Hy. rewrite Hcpu. cbn [deref_proc].
  apply wp_bind, wp_ret, wp_bind, wp_gets. change (get_proc (set_sy y s) i) with p.
  assert (He0 : early (set_sy y s)) by (exists y, (mem s); split_and!; [done | by destruct s | done]).
  apply wp_bind, early_arg; [done | lia |]. fold upath. intros t (y1 & m1 & Hy1 & -> & Hm1) Emem. cbn [mem set_mem set_sy] in Emem. subst m1.
  set (t := set_mem (mem s) (set_sy y1 s)).
  assert (Hus : uspace_ok t (p_pt p)) by (apply (uspace_kept s); [done | done | by apply caller_uspace, (ce_user _ _ He)]).
  assert (Hur : 0 <= upath < U32) by apply load32_range.
  assert (Hkb : kbuf t (p_pt p) (kstack p + fr_path) MAXPATH).
  { destruct (stack_kbuf s p Hh P2 P3 (ce_user _ _ He) fr_path MAXPATH) as [K1 K2 K3]; [apply (ce_path _ _ He) | done | apply (ce_path _ _ He) |].
    by split. }
  apply wp_bind, (wp_copyinstr_any t (p_pt p) Hus); [intros v; by apply (caller_top s p Hh P2 (ce_user _ _ He)) | done | done | done |].
  change (mem t) with (mem s). intros mp r (n & Hn & Hnz & Hcase).
  assert (Hpath : forall k, 0 <= k <= MAXPATH -> read_in (mem s) mp (p_pt p) (kstack p + fr_path) upath k ->
    forall a, ~ in_path p a -> load8 mp a = load8 (mem s) a).
  { intros k Hk [_ Hm] a Hna. rewrite Hm. unfold in_path in Hna. zcase; [lia | done]. }
  change (set_mem mp t) with (set_mem mp (set_sy y1 s)).
  destruct Hcase as [(-> & Hlt & Hz & Hrd) | (-> & Hstop & Hrd)]; cbn [Z.ltb Z.compare].
  2: { apply wp_ret. left. split_and!; [done | |].
       - apply early_failed. exists y1, mp. split_and!; [done | done | by apply (Hpath n)].
       - intros name lens img len top [(n' & Hn' & Hu' & _) _ _]. exfalso.
         apply (ustr_copied (mem s) (p_pt p) upath n' MAXPATH n); [done | done | lia | exact Hnz | exact Hstop]. }
  pose proof (Hpath (n + 1) ltac:(lia) Hrd) as Hmp0. destruct Hrd as [Hread Hbytes].
  assert (Hups : ustr (mem s) (p_pt p) upath n).
  { split; [| intros j Hj; apply Hread; lia | exact Hnz | exact Hz]. split; [lia |]. split; [lia |].
    destruct (decide (upath + n < U32)) as [| Hge]; [done |]. exfalso. apply (Hread (U32 - 1 - upath)); [lia |].
    apply (caller_top s p Hh P2 (ce_user _ _ He)). unfold PAGE_SIZE. lia. }
  assert (Hmp : forall j, 0 <= j <= n -> load8 mp (kstack p + fr_path + j) = rbyte (mem s) (p_pt p) (upath + j)).
  { intros j Hj. rewrite Hbytes. zcase; [| lia]. unfold rbyte. do 3 f_equal. lia. }
  apply wp_bind, early_arg; [by exists y1, mp | lia |]. fold uargv. intros t2 (y2 & m2 & Hy2 & -> & _) Emem.
  cbn [mem set_mem set_sy] in Emem. subst m2.
  assert (He2 : early (set_mem mp (set_sy y2 s))) by (by exists y2, mp).
  apply wp_bind, pa_alloc; [apply (early_failed _ He2) | |].
  { intros t3 Hn3. cbn [Z.eqb]. apply wp_ret. left. split_and!; [done | by apply (early_none _ _ He2) |].
    intros name lens img len top _ _ Hx. pose proof (pages_below_nonneg _ _ _ _ Hx). apply few_none; [lia | apply Hn3]. }
  intros buf t0 Ha. rewrite (fresh_nonzero _ _ _ Ha).
  assert (Et0 : set_mem mp t0 = t0) by (pose proof (as_mem _ _ _ Ha) as Em; cbn in Em; rewrite <- Em; by destruct t0).
  assert (Hg0 : gathered s p buf mp uargv mp 0 []).
  { split; [intros a Hna _ _; by apply Hmp0 | done | unfold PAGE_SIZE; lia | done]. }
  rewrite <- Et0 at 1. destruct (uargv =? 0) eqn:Eu; zbool.
  - apply wp_bind, wp_ret. apply (wp_exec_rest y2 mp buf t0 n Hy2 Ha mp 0 [] (Some [])); try done. split; [done | by left].
  - apply wp_bind. eapply wp_mono.
    { apply (wp_exec_args s p Hh P2 P3 (ce_user _ _ He) (ce_path _ _ He) (ce_uarg _ _ He) (ce_apart _ _ He) t0 buf
        (as_avail _ _ _ Ha) (work_owned y2 mp buf t0 Ha) mp uargv 17 Eu mp 0 []); [done | | cbn; lia | done]. intros lens _. split; [cbn; lia | done]. }
    intros o t' (m' & used' & argv' & -> & Hg & Ho). apply (wp_exec_rest y2 mp buf t0 n Hy2 Ha m' used' argv' o); try done.
    destruct o as [l |]; [| done]. destruct Ho as (-> & _ & _ & Hrd & Hw). split; [done |]. by right.
Qed.
End Call.

(** * Properties *)

(** C9 (the exec system call): for a process whose page table gives the user
    only its image and stack, [sys_exec] returns, whatever the two pointers in
    the argument registers are. Either it returns -1 and the program is as it
    was, with no page lost and nothing written but the kernel's locals, which, for
    a readable path of a well-formed executable and readable arguments that fit
    into the stack page, happens only when memory is short; or the
    path was a string of fewer than 32 readable bytes that names a program, the
    argument list ended after at most 16 readable strings, and the process has
    that program: its image, its entry point, and on its stack [argv], whose
    strings are byte for byte those the caller passed, with [argc] returned.
    The page that held the strings, the old image, its stack and its page table
    are free again, and no other process's pages have changed. *)
Theorem sys_exec_correct `{L : Layout} {HL : LayoutOk L} `{Initcode, CallFrames} i s :
  quiet s -> cpu_proc (get_cpu (sy s)) = Some i -> can_exec i s ->
  wp sys_exec (fun r s' => r = u32 (-1) /\ exec_failed i s s' /\ exec_short i (arg_reg i 0 s) (arg_reg i 1 s) s \/
    exists name img len pt sz sp, find_program name = Some (img, len) /\
      exec_done i (arg_reg i 0 s) (arg_reg i 1 s) s name img pt sz sp r s') s.
Proof.
  intros Hq Hcpu He. eapply wp_mono; [by apply (wp_sys_exec i) |].
  intros r s' [Hf | (name & img & len & pt & sz & sp & argc & -> & Hfind & Hd)]; [by left | right].
  by exists name, img, len, pt, sz, sp.
Qed.

Lemma exec_demo_can : can_exec (H0 := exec_frames) 1 exec_demo.
Proof.
  destruct exec_demo_ready as [R1 R2 R3 _ _ R6]. split; try done.
  - intros v Hv Ha.
    assert (Hst : same_tables (mem user_demo) (mem exec_demo) demo_pt).
    { intros t a Ht Hin. apply exec_mem_high. apply user_demo_table in Ht. unfold in_page, demo_pt in *. lia. }
    change (p_pt (get_proc exec_demo 1)) with demo_pt in Ha. rewrite (same_tables_pte (mem user_demo)) in Ha by done.
    destruct (user_demo_page v Hv Ha) as [Hp _]. left. change (p_sz (get_proc exec_demo 1)) with 0x2000.
    unfold vpn, USER_BASE in *. zlia.
  - left. done.
Qed.

Lemma sys_exec_correct_witness :
  wp (sys_exec (H1 := exec_frames)) (fun r s' => r = u32 (-1) /\ exec_failed (H := exec_frames) 1 exec_demo s' /\
      exec_short 1 (arg_reg 1 0 exec_demo) (arg_reg 1 1 exec_demo) exec_demo \/
    exists name img len pt sz sp, find_program name = Some (img, len) /\
      exec_done (H := exec_frames) 1 (arg_reg 1 0 exec_demo) (arg_reg 1 1 exec_demo) exec_demo name img pt sz sp r s') exec_demo.
Proof. exact (sys_exec_correct (H0 := exec_frames) 1 exec_demo exec_demo_quiet eq_refl exec_demo_can). Defined.
