(* ===== verification/TrapProofs.v ===== *)
(** Properties of the trap code (Trap.v) and of the system calls (Syscall.v). *)
From S2P Require Import Prelude Machine Csr KPrint Spinlock Printf Mem Vm PageTable KernelMap UserMem UserSpace Exec Proc ProcProofs SchedProofs Syscall Trap.

(** * The clock *)

Lemma can_lock_csr l c v y : c <> SSTATUS -> can_lock l y -> can_lock l (csr_set y c v).
Proof.
  intros Hc [[H1 H2 H3] Hf]. split; [split |].
  - exact H1.
  - unfold sie. rewrite csr_get_set_ne by done. exact H2.
  - by rewrite csr_get_set_ne.
  - exact Hf.
Qed.

(** The deadline after the writes of [w_stimecmp64]. *)
Lemma stimecmp64_written y v x : 0 <= x < U64 ->
  stimecmp64 (csr_set (csr_set (csr_set y STIMECMP v) STIMECMPH (u32 (Z.shiftr x 32))) STIMECMP (u32 x)) = x.
Proof.
  intros Hx. unfold stimecmp64. rewrite csr_get_set_eq, csr_get_set_ne, csr_get_set_eq by done.
  rewrite Z.shiftr_div_pow2 by easy. change (2 ^ 32) with U32. u32lia.
Qed.

(** What a tick does to process [j]. *)
Definition ticked (s : kstate) (j : nat) : proc :=
  if decide (tp (sy s) = 0%nat /\ (j < NPROC)%nat) then woken ChanTicks (get_proc s j) else get_proc s j.

(** Every hart's interrupt enters [clockintr]; hart 0 advances the clock. *)
Lemma wp_clockintr s : can_lock TicksLock (sy s) -> (forall j, (j < NPROC)%nat -> can_lock (ProcLock j) (sy s)) ->
  wp clockintr (fun _ s' => pframe s (set_ticks (ticks s) s') /\
    ticks s' = (if decide (tp (sy s) = 0%nat) then ticks s +w 1 else ticks s) /\
    forall j, get_proc s' j = ticked s j) s.
Proof.
  intros Ht Hp. unfold clockintr, ticked. apply wp_bind. unfold r_tp. apply wp_gets.
  destruct (decide (tp (sy s) = 0%nat)) as [H0 | H0].
  2: { assert ((Z.of_nat (tp (sy s)) =? 0) = false) as -> by lia. cbn [when]. apply wp_ret.
       split_and!; [by split | done |]. intros j. by rewrite decide_False by tauto. }
  rewrite H0. cbn [Z.of_nat Z.eqb when]. apply wp_bind, wp_lock; [done |].
  apply wp_bind, wp_gets, wp_bind, wp_modify, wp_bind. cbn [ticks set_sy].
  eapply wp_mono; [apply wp_wakeup_loop |].
  { intros j Hj. cbn [sy set_sy set_ticks]. apply can_lock_other; [done | apply Hp; lia]. }
  intros [] s1 [Hf Hq]. apply (wp_unlock _ (sy s)); [done | exact (pf_sy _ _ Hf) |].
  intros y Hy. destruct Hf. cbn in *. split_and!; [by split | done |].
  intros j. change (get_proc (set_sy y s1) j) with (get_proc s1 j). rewrite Hq.
  change (get_proc (set_ticks _ _) j) with (get_proc s j). repeat case_decide; (done || lia).
Qed.

(** The control registers once the deadline is [t]. *)
Definition armed (t : Z) (y : sync) : sync :=
  csr_set (csr_set (csr_set y STIMECMP 0xFFFFFFFF) STIMECMPH (u32 (Z.shiftr t 32))) STIMECMP (u32 t).

Lemma wp_devintr_timer n s scause : steady_clock (tsrc s) -> Z.land scause 0x7FFFFFFF = 5 ->
  can_lock TicksLock (sy s) -> (forall j, (j < NPROC)%nat -> can_lock (ProcLock j) (sy s)) ->
  wp (devintr (2 + n) scause) (fun r s' => r = 2 /\
    (exists k, (k = 1 \/ k = 4)%nat /\ sy s' ≡ armed (u64 (tsrc s (k + tpos s) + TIMER_INTERVAL)) (sy s)) /\
    ticks s' = (if decide (tp (sy s) = 0%nat) then ticks s +w 1 else ticks s) /\
    (forall j, get_proc s' j = ticked s j) /\
    pframe s (set_tpos (tpos s) (set_sy (sy s) (set_ticks (ticks s) s')))) s.
Proof.
  intros Hc Hcode Ht Hp. unfold devintr. rewrite Hcode. cbn [Z.eqb Pos.eqb].
  destruct (r_time64_reads n s Hc) as (k & Hk & Hr). apply wp_bind. unfold wp. rewrite Hr.
  apply wp_bind. unfold w_stimecmp64, w_stimecmp64_writes, w_stimecmp, w_stimecmph, csrw. cbn [in_order].
  wp_steps. cbn [sy set_sy set_tpos].
  eapply wp_mono.
  { apply wp_clockintr; cbn [sy set_sy]; [| intros j Hj]; repeat (apply can_lock_csr; [done |]);
      [done | by apply Hp]. }
  intros [] s' (Hf & Htk & Hq). apply wp_ret. destruct Hf. cbn in *. split_and!; [done | by exists k | done | exact Hq | by split].
Qed.

(** A timer interrupt: with a clock that runs, [devintr] on a timer
    interrupt sets the next deadline one interval after a time the clock had
    during the call; on hart 0, and only there, it advances [ticks] by one,
    wrapping, and makes [READY] exactly the processes that sleep on it; but for
    the clock's own progress nothing else changes and no lock is left held. *)
Theorem devintr_timer n s scause : steady_clock (tsrc s) -> Z.land scause 0x7FFFFFFF = 5 ->
  can_lock TicksLock (sy s) -> (forall j, (j < NPROC)%nat -> can_lock (ProcLock j) (sy s)) ->
  wp (devintr (2 + n) scause) (fun r s' => r = 2 /\
    (exists k, (k = 1 \/ k = 4)%nat /\ stimecmp64 (sy s') = u64 (tsrc s (k + tpos s) + TIMER_INTERVAL)) /\
    ticks s' = (if decide (tp (sy s) = 0%nat) then ticks s +w 1 else ticks s) /\
    (forall j, get_proc s' j = ticked s j) /\
    (forall c, c <> STIMECMP -> c <> STIMECMPH -> csr_get (sy s') c = csr_get (sy s) c) /\
    (forall l, lk (sy s') l = lk (sy s) l) /\
    pframe s (set_tpos (tpos s) (set_sy (sy s) (set_ticks (ticks s) s')))) s.
Proof.
  intros Hc Hcode Ht Hp. eapply wp_mono; [by apply wp_devintr_timer |].
  intros r s' (-> & (k & Hk & Hy) & Htk & Hq & Hf). split_and!; [done | | done | done | | | done].
  - exists k. split; [done |]. unfold stimecmp64. rewrite (csr_get_equiv _ _ STIMECMP Hy), (csr_get_equiv _ _ STIMECMPH Hy).
    apply stimecmp64_written. unfold u64, U64. zlia.
  - intros c H1 H2. rewrite (csr_get_equiv _ _ c Hy). unfold armed. by rewrite !csr_get_set_ne.
  - intros l. by rewrite (lk_equiv _ _ l Hy).
Qed.

(** Hart 0's first tick wakes process 3, which sleeps on the clock. *)
Lemma devintr_timer_witness :
  wp (devintr (2 + 0) 0x80000005) (fun r s' => r = 2 /\
    (exists k, (k = 1 \/ k = 4)%nat /\
       stimecmp64 (sy s') = u64 (tsrc sleepers (k + tpos sleepers) + TIMER_INTERVAL)) /\
    ticks s' = (if decide (tp (sy sleepers) = 0%nat) then ticks sleepers +w 1 else ticks sleepers) /\
    (forall j, get_proc s' j = ticked sleepers j) /\
    (forall c, c <> STIMECMP -> c <> STIMECMPH -> csr_get (sy s') c = csr_get (sy sleepers) c) /\
    (forall l, lk (sy s') l = lk (sy sleepers) l) /\
    pframe sleepers (set_tpos (tpos sleepers) (set_sy (sy sleepers) (set_ticks (ticks sleepers) s')))) sleepers.
Proof.
  apply (devintr_timer 0 sleepers 0x80000005).
  - split; cbn; unfold U32, U64; intros; lia.
  - done.
  - split; [split; vm_compute; intuition congruence | done].
  - intros j Hj. split; [split; vm_compute; intuition congruence | done].
Defined.

(** * Leaving machine mode *)

(** The previous privilege of [mstatus] becomes supervisor mode. *)
Lemma mpp_supervisor x i : 0 <= i < 32 ->
  Z.testbit (u32 (Z.lor (Z.land x (Z.lnot MSTATUS_MPP_MASK)) MSTATUS_MPP_S)) i =
  if i =? 11 then true else if i =? 12 then false else Z.testbit x i.
Proof.
  intros Hi. unfold u32. change U32 with (2 ^ 32). rewrite Z.mod_pow2_bits_low by lia.
  rewrite Z.lor_spec, Z.land_spec, Z.lnot_spec by lia.
  assert (Hall : forallb (fun k => Bool.eqb (Z.testbit MSTATUS_MPP_MASK (Z.of_nat k)) ((Z.of_nat k =? 11) || (Z.of_nat k =? 12))
    && Bool.eqb (Z.testbit MSTATUS_MPP_S (Z.of_nat k)) (Z.of_nat k =? 11)) (seq 0 32) = true) by reflexivity.
  rewrite forallb_forall in Hall. specialize (Hall (Z.to_nat i)).
  rewrite Z2Nat.id in Hall by lia.
  destruct (andb_prop _ _ (Hall ltac:(apply in_seq; lia))) as [H1%eqb_prop H2%eqb_prop].
  rewrite H1, H2. destruct (i =? 11), (i =? 12); by rewrite ?andb_true_r, ?andb_false_r, ?orb_true_r, ?orb_false_r.
Qed.

(** The control registers [boot] writes. *)
Definition boot_csrs : list Z :=
  [MSTATUS; MIDELEG; MEDELEG; SATP; SIE; MEPC; PMPADDR0; PMPCFG0; MENVCFGH; MCOUNTEREN; STIMECMP; STIMECMPH].

(** What [boot] leaves in a hart's registers, [x] being the time it read. *)
Record handed_over (main_addr x : Z) (y y' : sync) : Prop := {
  ho_mpp : forall i, 0 <= i < 32 -> Z.testbit (csr_get y' MSTATUS) i =
    if i =? 11 then true else if i =? 12 then false else Z.testbit (csr_get y MSTATUS) i;
  ho_mepc : csr_get y' MEPC = u32 main_addr;
  ho_satp : csr_get y' SATP = 0;
  ho_mideleg : csr_get y' MIDELEG = 0xffff;
  ho_medeleg : csr_get y' MEDELEG = 0xffff;
  ho_sie : csr_get y' SIE = u32 (Z.lor (csr_get y SIE) 0x222);
  ho_pmp : csr_get y' PMPADDR0 = 0xFFFFFFFF /\ csr_get y' PMPCFG0 = 0xF;
  ho_sstc : csr_get y' MENVCFGH = u32 (Z.lor (csr_get y MENVCFGH) MENVCFGH_STCE);
  ho_time : csr_get y' MCOUNTEREN = u32 (Z.lor (csr_get y MCOUNTEREN) MCOUNTEREN_TM);
  ho_deadline : stimecmp64 y' = u64 (x + TIMER_INTERVAL);
  ho_others : forall c, c ∉ boot_csrs -> csr_get y' c = csr_get y c;
  ho_locks : forall l, lk y' l = lk y l
}.

(** The registers before the timer is set. *)
Definition boot_regs (main_addr : Z) (y : sync) : sync :=
  let y := csr_set y MSTATUS (Z.lor (Z.land (csr_get y MSTATUS) (Z.lnot MSTATUS_MPP_MASK)) MSTATUS_MPP_S) in
  let y := csr_set (csr_set (csr_set y MIDELEG 0xffff) MEDELEG 0xffff) SATP 0 in
  let y := csr_set y SIE (Z.lor (Z.lor (Z.lor (csr_get y SIE) SIE_SEIE) SIE_STIE) SIE_SSIE) in
  let y := csr_set (csr_set (csr_set y MEPC main_addr) PMPADDR0 0xFFFFFFFF) PMPCFG0 0xF in
  let y := csr_set y MENVCFGH (Z.lor (csr_get y MENVCFGH) MENVCFGH_STCE) in
  csr_set y MCOUNTEREN (Z.lor (csr_get y MCOUNTEREN) MCOUNTEREN_TM).

Lemma boot_regs_handed_over main_addr x y :
  handed_over main_addr x y (armed (u64 (x + TIMER_INTERVAL)) (boot_regs main_addr y)).
Proof.
  unfold armed, boot_regs. cbv zeta. split.
  10: { apply stimecmp64_written. unfold u64, U64. zlia. }
  10: { intros c Hc. unfold boot_csrs in Hc. rewrite !not_elem_of_cons in Hc. destruct_and! Hc.
        rewrite !csr_get_set_ne by (by apply not_eq_sym). done. }
  1: { intros i Hi. rewrite <- mpp_supervisor by done. autorewrite with kern. done. }
  all: autorewrite with kern; try done.
  by rewrite <- !Z.lor_assoc.
Qed.

Lemma wp_csrw_on {A} c v (m : M A) Q y s : wp m Q (set_sy (csr_set y c v) s) -> wp (csrw c v;; m) Q (set_sy y s).
Proof. intros Hw. exact Hw. Qed.

Lemma wp_csrr_on {A} c (f : Z -> M A) Q y s : wp (f (csr_get y c)) Q (set_sy y s) -> wp (csrr c ≫= f) Q (set_sy y s).
Proof. intros Hw. exact Hw. Qed.

Lemma wp_boot_regs n main_addr Q y s :
  wp (t ← r_time64 n; w_stimecmp64 (u64 (t + TIMER_INTERVAL))) Q (set_sy (boot_regs main_addr y) s) ->
  wp (boot n main_addr) Q (set_sy y s).
Proof.
  unfold boot, boot_regs, r_mstatus, w_mstatus, w_mideleg, w_medeleg, w_satp, r_sie, w_sie, w_mepc, w_pmpaddr0, w_pmpcfg0,
    r_menvcfgh, w_menvcfgh, r_mcounteren, w_mcounteren. cbv zeta. intros Hw.
  repeat first [simple apply wp_csrw_on | simple apply wp_csrr_on].
  exact Hw.
Qed.

Lemma wp_w_stimecmp64 t Q s : Q tt (set_sy (armed t (sy s)) s) -> wp (w_stimecmp64 t) Q s.
Proof. intros HQ. exact HQ. Qed.

(** [boot] hands the hart over: with a clock that runs, it reaches its [mret]
    with supervisor mode as the privilege to return to, [main] as the address,
    paging off, every interrupt and exception delegated, the supervisor's
    interrupts enabled, all of memory open to it, the supervisor's timer turned
    on and the first deadline one interval after a time the clock had; every
    other register, the memory and the locks are as they were. *)
Theorem boot_correct n main_addr s : steady_clock (tsrc s) ->
  wp (boot (2 + n) main_addr) (fun _ s' => exists k, (k = 1 \/ k = 4)%nat /\
    handed_over main_addr (tsrc s (k + tpos s)) (sy s) (sy s') /\
    s' = set_sy (sy s') (set_tpos (2 + k + tpos s)%nat s)) s.
Proof.
  intros Hc. destruct (r_time64_reads n (set_sy (boot_regs main_addr (sy s)) s) Hc) as (k & Hk & Hr).
  assert (Hs : s = set_sy (sy s) s) by (by destruct s). rewrite Hs at 1. apply wp_boot_regs.
  apply wp_bind. unfold wp at 1. rewrite Hr.
  apply wp_w_stimecmp64. exists k. split_and!; [done | apply boot_regs_handed_over | done].
Qed.

Lemma boot_correct_witness :
  wp (boot (2 + 0) 0x80000100) (fun _ s' => exists k, (k = 1 \/ k = 4)%nat /\
    handed_over 0x80000100 (tsrc csr_demo (k + tpos csr_demo)) (sy csr_demo) (sy s') /\
    s' = set_sy (sy s') (set_tpos (2 + k + tpos csr_demo)%nat csr_demo)) csr_demo.
Proof. apply (boot_correct 0 0x80000100 csr_demo). split; cbn; unfold U32, U64; intros; lia. Defined.
