(* ===== verification/TrapHandle.v ===== *)
(** The trap handlers of trap.c as a whole: what a user program's fault and a
    system call come to, from the trap to the [sret], and what the kernel's own
    code sees of an interrupt. *)
From S2P Require Import Prelude Machine Csr KPrint Spinlock Printf Mem Vm PageTable KernelMap UserMem UserSpace Took Exec ExecProofs Proc ProcProofs SchedProofs UvmCopy ProcAlloc ProcTable Fork Exit Scheduler Wait Syscall ExecStack Kexec Lifecycle Trap TrapProofs Asm AsmTrap UserReturn Vectors.

(** * u_trap_handle: the entry *)

Definition from_user (y : sync) : Prop := Z.land (csr_get y SSTATUS) SSTATUS_SPP = 0.

(** The [pc] is in the frame. *)
Definition saved_pc (i : nat) (pc : Z) (s : kstate) : kstate :=
  set_mem (store32 (mem s) (p_tf (get_proc s i) + tf_epc) pc) s.

(** What follows the entry. *)
Definition u_trap_rest {A} `{Layout, Initcode, KSyms, Frames, CallFrames} (fuel : nat) (scause sepc : Z) (p : proc) : M A :=
  dev ← (if is_irq scause then
           dev ← devintr fuel scause;
           if dev =? 0 then
             printf ("u_trap_handle: unexpected interrupt scause %p" +:+ nl) [AInt scause];;
             panic "u_trap_handle"
           else mret dev
         else if scause =? SCAUSE_USER_ECALL then
           epc ← ld (p_tf p + tf_epc);
           st (p_tf p + tf_epc) (epc +w 4);;
           interrupt_on;;
           syscall fuel;;
           mret 0
         else
           stval ← r_stval;
           printf ("pid %d (%s): killed, scause %p sepc %p stval %p" +:+ nl)
             [AInt (pid p); AStr (p_name p); AInt scause; AInt sepc; AInt stval];;
           kexit (-1));
  when (dev =? 2) yield;;
  utrapret.

Lemma u_trap_entry {A} `{Layout, Initcode, KSyms, Frames, CallFrames} fuel scause sepc i s :
  hart_ok (sy s) -> cpu_proc (get_cpu (sy s)) = Some i -> from_user (sy s) ->
  exists y, y ≡ sy s /\ u_trap_handle (A := A) fuel scause sepc s =
    u_trap_rest fuel scause sepc (get_proc s i) (saved_pc i sepc (set_sy y s)).
Proof.
  intros Hok Hc Hu.
  assert (Hm : wp myproc (fun o s' => exists y, y ≡ sy s /\ o = Some i /\ s' = set_sy y s) s).
  { apply wp_myproc; [done |]. rewrite Hc. eauto. }
  apply wp_Ok in Hm as (o & s1 & Hm & y & Hy & -> & ->). exists y. split; [done |].
  unfold u_trap_handle, r_sstatus, csrr. cbn [mbind M_bind]. unfold mbind at 1, M_bind at 1. cbn [gets res_bind].
  unfold from_user in Hu. rewrite Hu. cbn [Z.eqb negb]. rewrite (bind_Ok _ _ _ _ _ Hm). reflexivity.
Qed.

Lemma switches_eq {A} (m m' : M A) P s s' : m s = m' s' -> switches m' P s' -> switches m P s.
Proof. unfold switches. by intros ->. Qed.

(** * A fault *)

(** The state in which a process is killed: its [pc] is saved and a line has
    been printed. *)
Record faulted (i : nat) (pc : Z) (s s1 : kstate) : Prop := {
  fa_mem : mem s1 = store32 (mem s) (p_tf (get_proc s i) + tf_epc) pc;
  fa_out : exists bs, out s1 = out s ++ bs;
  fa_bitmap : mem_bitmap s1 = mem_bitmap s;
  fa_frame : kframe s s1
}.

(** Such a state is as sound as the one before: the frame is no page table. *)
Lemma faulted_ok i pc s s1 : procs_ok s -> (i < NPROC)%nat -> p_tf (get_proc s i) <> 0 -> faulted i pc s s1 -> procs_ok s1.
Proof.
  intros Hok Hi Htf [Hm _ Hb Hf]. assert (Hp : forall j, get_proc s1 j = get_proc s j) by (intros j; unfold get_proc; by rewrite (kf_procs _ _ Hf)).
  apply (elsewhere_ok s); [| done]. split_and!; [done | apply Hf |]. intros j Hj. rewrite Hp. split_and!; [done | done |].
  intros H0 t a Ht Ha. rewrite Hm. apply load8_store32_ne.
  assert (Hto : owns s (get_proc s j) t) by (left; right; split; [done | by right]).
  destruct (slot_page s Hok i Hi Htf) as [Ho _].
  destruct (decide (in_page (p_tf (get_proc s i)) a)) as [Hin | Hin]; [| unfold in_page, tf_epc, PAGE_SIZE in *; lia].
  exfalso. pose proof (owns_page _ _ _ t _ a (pk_holds _ Hok j Hj) (pk_holds _ Hok i Hi) Hto Ho Ha Hin) as ->.
  assert (j = i) as -> by (by apply (pk_apart _ Hok j i _ Hj Hi Hto)).
  destruct (hd_pt _ _ (pk_holds _ Hok i Hi) H0) as (_ & _ & _ & _ & Hd). by destruct (Hd _ (or_intror Ht)).
Qed.

Lemma faulted_quiet i pc s s1 : quiet s -> faulted i pc s s1 -> quiet s1.
Proof.
  intros Hq [_ _ Hb Hf]. apply (quiet_frame s); [by apply kframe_oframe | | done].
  destruct (qu_alloc _ Hq) as [A1 A2]. split; rewrite (kf_start _ _ Hf); [done |]. unfold bit. by rewrite Hb.
Qed.

Lemma faulted_exit i pc s s1 : can_exit i s -> faulted i pc s s1 -> can_exit i s1.
Proof.
  intros [C1 C2 C3 C4] [_ _ _ Hf]. assert (E : get_proc s1 i = get_proc s i) by (unfold get_proc; by rewrite (kf_procs _ _ Hf)).
  split; [done | by rewrite E..].
Qed.

Lemma u_trap_fault {A} `{Layout, Initcode, KSyms, Frames, CallFrames} fuel scause sepc i s (P : kstate -> Prop) :
  quiet s -> procs_ok s -> can_exit i s -> p_tf (get_proc s i) <> 0 ->
  cpu_proc (get_cpu (sy s)) = Some i -> depth (get_cpu (sy s)) = 0 -> from_user (sy s) ->
  is_irq scause = false -> scause <> SCAUSE_USER_ECALL ->
  (forall s1 s', faulted i sepc s s1 -> sy s' ≡ sync_lock (ProcLock i) (sy s1) -> exited i (-1) s1 s' -> P s') ->
  switches (u_trap_handle (A := A) fuel scause sepc) (fun s' _ => P s') s.
Proof.
  intros Hq Hok Hx Htf Hc Hd Hu Hirq Hne HP. pose proof (proj1 (qu_locks _ Hq MemLock)) as Hho.
  destruct (u_trap_entry (A := A) fuel scause sepc i s Hho Hc Hu) as (y & Hy & E).
  apply (switches_eq _ _ _ _ _ E). clear E. unfold u_trap_rest. rewrite Hirq. apply Z.eqb_neq in Hne. rewrite Hne. apply switches_bind.
  apply switches_wp, wp_gets, switches_wp, wp_printf; [| done |].
  { right. cbn [sy saved_pc set_mem set_sy]. rewrite Hy. apply Hq. }
  intros s1 (Hf & Hm & Hb & Ho). assert (Hfa : faulted i sepc s s1).
  { split; [done | done | done |]. destruct Hf. cbn in *. split; try done. by rewrite kf_sy, Hy. }
  assert (Hcp : cpu_equiv (get_cpu (sy s1)) (get_cpu (sy s))) by (apply get_cpu_equiv, Hfa).
  destruct Hcp as (_ & Hcd & Hcc & _).
  apply (switches_kexit i s1 (faulted_quiet _ _ _ _ Hq Hfa) (faulted_ok _ _ _ _ Hok (cx_slot _ _ Hx) Htf Hfa)
    (faulted_exit _ _ _ _ Hx Hfa)); [by rewrite Hcc | by rewrite Hcd |].
  intros s' k Hsy Hex _. by apply (HP s1).
Qed.

(** C17 (a fault kills the process, and only it): an exception from user code
    that is not a system call never returns to user mode: with the [pc] saved
    and a line printed, the process exits with status -1, as [kexit] does it:
    its memory is freed, its children find another parent, its own parent is
    told, and the hart is given to the scheduler. *)
Theorem user_fault_kills {A} `{Layout, Initcode, KSyms, Frames, CallFrames} fuel scause sepc i s :
  quiet s -> procs_ok s -> can_exit i s -> p_tf (get_proc s i) <> 0 ->
  cpu_proc (get_cpu (sy s)) = Some i -> depth (get_cpu (sy s)) = 0 -> from_user (sy s) ->
  is_irq scause = false -> scause <> SCAUSE_USER_ECALL ->
  switches (u_trap_handle (A := A) fuel scause sepc) (fun s' _ =>
    exists s1, faulted i sepc s s1 /\ exited i (-1) s1 s' /\ procs_ok s' /\
      p_state (get_proc s' i) = ZOMBIE /\ xstate (get_proc s' i) = -1) s.
Proof.
  intros Hq Hok Hx Htf Hc Hd Hu Hirq Hne. apply (u_trap_fault fuel scause sepc i); try done.
  intros s1 s' Hfa _ Hex. exists s1. pose proof (faulted_ok _ _ _ _ Hok (cx_slot _ _ Hx) Htf Hfa) as Hok1.
  split_and!; [done | done | | |].
  - by apply (exited_ok i (-1) s1 s' Hok1 (faulted_exit _ _ _ _ Hx Hfa)).
  - by rewrite (xt_self _ _ _ _ Hex).
  - by rewrite (xt_self _ _ _ _ Hex).
Qed.

(** Process 1 reads what it may not. *)
Lemma user_fault_kills_witness :
  switches (u_trap_handle (A := unit) (H := tiny_layout) (H0 := demo_initcode) (H1 := demo_syms) (H2 := demo_frames)
    (H3 := exec_frames) 10 13 0x1000) (fun s' _ =>
    exists s1, faulted 1 0x1000 exit_demo s1 /\ exited 1 (-1) s1 s' /\ procs_ok s' /\
      p_state (get_proc s' 1) = ZOMBIE /\ xstate (get_proc s' 1) = -1) exit_demo.
Proof.
  apply user_fault_kills; [exact exit_demo_quiet | exact exit_demo_ok | | done | reflexivity | reflexivity | reflexivity | reflexivity | done].
  split; [unfold NPROC; lia | done | done | done].
Defined.

(** * System calls *)

(** [syscall] for the number [n]: what goes into [a0]. *)
Definition serve `{Layout, Initcode, KSyms, Frames, CallFrames} (fuel : nat) (n : Z) : M Z :=
  let bad := printf ("Error: Invalid syscall %d" +:+ nl) [AInt n];; mret (u32 (-1)) in
  if (n <=? 0) || (NSYSCALLS <=? n) then bad
  else match List.find (fun e => fst e =? n) (syscalls fuel) with None => bad | Some (_, handler) => handler end.

Lemma wp_syscall `{Layout, Initcode, KSyms, Frames, CallFrames} fuel i s (Q : unit -> kstate -> Prop) :
  hart_ok (sy s) -> cpu_proc (get_cpu (sy s)) = Some i ->
  let tf := p_tf (get_proc s i) in
  (forall y, y ≡ sy s -> wp (serve fuel (s32 (load32 (mem s) (tf + tf_regs 17))))
     (fun r s' => Q tt (set_mem (store32 (mem s') (tf + tf_regs 10) r) s')) (set_sy y s)) ->
  wp (syscall fuel) Q s.
Proof.
  intros Hok Hc tf HQ. unfold syscall. apply wp_bind, wp_myproc; [done |]. intros y Hy. rewrite Hc. cbn [deref_proc].
  apply wp_bind, wp_ret, wp_bind, wp_gets, wp_bind, wp_gets. change (get_proc (set_sy y s) i) with (get_proc s i). fold tf.
  cbn [mem set_sy]. specialize (HQ y Hy). unfold serve in HQ. cbv zeta. set (n := s32 _) in *.
  destruct ((n <=? 0) || (NSYSCALLS <=? n)).
  { apply wp_bind. apply wp_bind_inv in HQ. eapply wp_mono; [exact HQ |]. intros [] s1 Hs1. exact Hs1. }
  destruct (List.find _ _) as [[m handler] |].
  - apply wp_bind. eapply wp_mono; [exact HQ |]. intros r s1 Hs1. exact Hs1.
  - apply wp_bind. apply wp_bind_inv in HQ. eapply wp_mono; [exact HQ |]. intros [] s1 Hs1. exact Hs1.
Qed.

(** The state in which a system call is served: the [pc] is that of the next
    instruction, and interrupts are on. *)
Definition serving (i : nat) (pc : Z) (s : kstate) : kstate :=
  let s1 := saved_pc i (pc +w 4) (saved_pc i pc s) in
  set_sy (csr_set (sy s1) SSTATUS (Z.lor (csr_get (sy s1) SSTATUS) SSTATUS_SIE)) s1.

(** What a call may do and still return to its caller: it leaves the registers
    and the [pc] in the frame alone, the slot's frame and the hart's
    process. *)
Record returns (i : nat) (s s' : kstate) : Prop := {
  rt_hart : hart_ok (sy s');
  rt_proc : cpu_proc (get_cpu (sy s')) = Some i;
  rt_tf : p_tf (get_proc s' i) = p_tf (get_proc s i);
  rt_frame : let tf := p_tf (get_proc s i) in
    forall a, tf + tf_epc <= a < tf + tf_k_hartid -> load8 (mem s') a = load8 (mem s) a
}.

#[global] Instance csr_set_proper c v : Proper ((≡) ==> (≡)) (fun y => csr_set y c v).
Proof.
  intros a b (Ht & Hl & Hcs & Hp). split_and!; [done | done | | done]. intros h d. cbn. rewrite Ht.
  destruct (decide ((tp b, c) = (h, d))) as [<- |]; [by rewrite !get0_insert_eq | by rewrite !get0_insert_ne].
Qed.

(** Outside critical sections interrupts may be on. *)
Lemma hart_ok_on y : hart_ok y -> depth (get_cpu y) = 0 -> hart_ok (csr_set y SSTATUS (Z.lor (csr_get y SSTATUS) SSTATUS_SIE)).
Proof.
  intros [H1 H2 H3] Hd. split.
  - exact H1.
  - intros Hlt. change (get_cpu (csr_set y SSTATUS (Z.lor (csr_get y SSTATUS) SSTATUS_SIE))) with (get_cpu y) in Hlt. lia.
  - rewrite csr_get_set_eq. apply u32_range.
Qed.

Lemma u_trap_ecall {A} `{Layout, Initcode, KSyms, Frames, CallFrames} fuel pc i s (P : Z -> kstate -> Prop) (Q : kstate -> Prop) :
  hart_ok (sy s) -> cpu_proc (get_cpu (sy s)) = Some i -> depth (get_cpu (sy s)) = 0 -> from_user (sy s) -> 0 <= pc < U32 ->
  let tf := p_tf (get_proc s i) in
  (forall y, y ≡ sy (serving i pc s) -> wp (serve fuel (s32 (load32 (mem s) (tf + tf_regs 17))))
     (fun r s' => P r s' /\ returns i (serving i pc s) s') (set_sy y (serving i pc s))) ->
  (forall r s1 s', P r s1 -> returns i (serving i pc s) s1 -> sent i (set_mem (store32 (mem s1) (tf + tf_regs 10) r) s1) s' -> Q s') ->
  to_users (u_trap_handle (A := A) fuel SCAUSE_USER_ECALL pc) Q s.
Proof.
  intros Hho Hc Hd Hu Hpc tf Hs HQ. destruct (u_trap_entry (A := A) fuel SCAUSE_USER_ECALL pc i s Hho Hc Hu) as (y & Hy & E).
  apply (to_users_eq _ _ _ _ _ E). clear E. unfold u_trap_rest. change (is_irq SCAUSE_USER_ECALL) with false. change (SCAUSE_USER_ECALL =? SCAUSE_USER_ECALL) with true. cbn iota.
  apply to_users_wp. apply wp_bind, wp_gets. fold tf.
  assert (He : load32 (mem (saved_pc i pc (set_sy y s))) (tf + tf_epc) = pc).
  { cbn. change (get_proc (set_sy y s) i) with (get_proc s i). fold tf. rewrite load32_store32_eq. by apply u32_small. }
  rewrite He. apply wp_bind, wp_modify, wp_bind. unfold interrupt_on. apply wp_bind, wp_gets, wp_modify.
  change (saved_pc i pc (set_sy y s)) with (set_sy y (saved_pc i pc s)). cbn [mem set_sy].
  set (s1 := set_sy _ _).
  assert (Hs1 : s1 = set_sy (csr_set y SSTATUS (Z.lor (csr_get y SSTATUS) SSTATUS_SIE)) (serving i pc s)) by reflexivity.
  assert (Hy1 : sy s1 ≡ sy (serving i pc s)).
  { rewrite Hs1. cbn [sy set_sy serving saved_pc set_mem]. rewrite (csr_get_equiv _ _ SSTATUS Hy).
    exact (csr_set_proper _ _ _ _ Hy). }
  assert (Hh1 : hart_ok (sy s1)) by (rewrite Hy1; by apply hart_ok_on).
  assert (Hc1 : cpu_proc (get_cpu (sy s1)) = Some i).
  { destruct (get_cpu_equiv _ _ Hy1) as (_ & _ & -> & _). exact Hc. }
  assert (Ha7 : load32 (mem s1) (tf + tf_regs 17) = load32 (mem s) (tf + tf_regs 17)).
  { change (mem s1) with (store32 (store32 (mem s) (tf + tf_epc) pc) (tf + tf_epc) (pc +w 4)).
    rewrite !load32_store32_ne by tf_lia. done. }
  apply wp_bind. apply (wp_syscall fuel i s1); [done | done |]. change (p_tf (get_proc s1 i)) with tf. rewrite Ha7.
  intros y2 Hy2. change (set_sy y2 s1) with (set_sy y2 (serving i pc s)). rewrite Hy1 in Hy2.
  eapply wp_mono; [exact (Hs y2 Hy2) |]. intros r s2 [HP Hr]. apply wp_ret. change (0 =? 2) with false. cbn [when].
  apply to_users_wp, wp_ret. apply (to_users_utrapret i); [apply Hr | apply Hr |]. intros s3 Hs3. by apply (HQ r s2).
Qed.

(** ** From the trap to the [sret] *)

Section EndToEnd.
Context `{L : Layout, IC : Initcode, KS : KSyms, FR : Frames, CF : CallFrames}.
Context (i : nat) (tf pc r : Z) (s s2 s' : kstate).
Context (Htf : p_tf (get_proc s i) = tf) (Hr : returns i (serving i pc s) s2).
Context (Hs : sent i (set_mem (store32 (mem s2) (tf + tf_regs 10) r) s2) s').

(** The words of the frame after the call. *)
Lemma served_word o : tf_epc <= o -> o + 4 <= tf_k_hartid -> o + 4 <= tf_regs 10 \/ tf_regs 11 <= o ->
  load32 (mem s') (tf + o) = load32 (mem (serving i pc s)) (tf + o).
Proof using Htf Hr Hs.
  intros H1 H2 H3. pose proof (rt_tf _ _ _ Hr) as Et. change (p_tf (get_proc (serving i pc s) i)) with (p_tf (get_proc s i)) in Et.
  rewrite Htf in Et. pose proof (sent_load i _ s' Hs o) as Hl. change (get_proc (set_mem _ s2) i) with (get_proc s2 i) in Hl.
  rewrite Et in Hl. rewrite Hl by tf_lia. cbn [mem set_mem]. rewrite load32_store32_ne by tf_lia.
  apply load32_ext. intros a Ha. apply (rt_frame _ _ _ Hr). change (p_tf (get_proc (serving i pc s) i)) with (p_tf (get_proc s i)).
  rewrite Htf. lia.
Qed.

Lemma served_result : load32 (mem s') (tf + tf_regs 10) = u32 r.
Proof using Htf Hr Hs.
  pose proof (rt_tf _ _ _ Hr) as Et. change (p_tf (get_proc (serving i pc s) i)) with (p_tf (get_proc s i)) in Et.
  rewrite Htf in Et. pose proof (sent_load i _ s' Hs (tf_regs 10)) as Hl. change (get_proc (set_mem _ s2) i) with (get_proc s2 i) in Hl.
  rewrite Et in Hl. rewrite Hl by tf_lia. apply load32_store32_eq.
Qed.

Lemma served_pc : csr_get (sy s') SEPC = pc +w 4.
Proof using Htf Hr Hs.
  pose proof (rt_tf _ _ _ Hr) as Et. change (p_tf (get_proc (serving i pc s) i)) with (p_tf (get_proc s i)) in Et.
  rewrite Htf in Et. rewrite (sn_pc _ _ _ Hs). change (get_proc (set_mem _ s2) i) with (get_proc s2 i). rewrite Et.
  cbn [mem set_mem]. rewrite load32_store32_ne by tf_lia.
  assert (load32 (mem s2) (tf + tf_epc) = load32 (mem (serving i pc s)) (tf + tf_epc)) as ->.
  { apply load32_ext. intros a Ha. apply (rt_frame _ _ _ Hr). change (p_tf (get_proc (serving i pc s) i)) with (p_tf (get_proc s i)).
    rewrite Htf. tf_lia. }
  change (mem (serving i pc s)) with (store32 (store32 (mem s) (p_tf (get_proc s i) + tf_epc) pc) (p_tf (get_proc s i) + tf_epc) (pc +w 4)).
  rewrite Htf, load32_store32_eq. apply u32_idem.
Qed.

(** A register other than [a0] has the value that it had in the trap. *)
Lemma served_reg rs x : frame_holds (mem s) tf rs -> x <> ZERO -> x <> A0 -> load32 (mem s') (tf + tf_regs (reg_num x)) = rget rs x.
Proof using Htf Hr Hs.
  intros Hf Hz Ha. rewrite <- (Hf x Hz). pose proof (reg_num_range x).
  assert (Hn : reg_num x <> 10 /\ reg_num x <> 0) by (split; intros E; [apply Ha | apply Hz]; by apply reg_num_inj).
  rewrite served_word by tf_lia.
  change (mem (serving i pc s)) with (store32 (store32 (mem s) (p_tf (get_proc s i) + tf_epc) pc) (p_tf (get_proc s i) + tf_epc) (pc +w 4)).
  rewrite Htf, !load32_store32_ne by tf_lia. done.
Qed.
End EndToEnd.


(** ** getpid *)

Lemma returns_sy i s y : hart_ok (sy s) -> cpu_proc (get_cpu (sy s)) = Some i -> y ≡ sy s -> returns i s (set_sy y s).
Proof.
  intros Hho Hc Hy. split; [cbn; by rewrite Hy | | done | done]. cbn [sy set_sy].
  by destruct (get_cpu_equiv _ _ Hy) as (_ & _ & -> & _).
Qed.

Lemma wp_serve_getpid `{Layout, Initcode, KSyms, Frames, CallFrames} fuel i s (Q : Z -> kstate -> Prop) :
  hart_ok (sy s) -> cpu_proc (get_cpu (sy s)) = Some i ->
  (forall y, y ≡ sy s -> Q (u32 (pid (get_proc s i))) (set_sy y s)) -> wp (serve fuel SYS_GETPID) Q s.
Proof.
  intros Hho Hc HQ. change (serve fuel SYS_GETPID) with sys_getpid. unfold sys_getpid.
  apply wp_bind, wp_myproc; [done |]. intros y Hy. rewrite Hc. apply wp_bind, wp_ret, wp_bind, wp_gets, wp_ret. by apply HQ.
Qed.

(** Process 1, whose pid is 7, calls getpid() at 0x1000. *)
Definition getpid_user : mach :=
  mk_mach (rset A7 SYS_GETPID (rset S0 0x1234 (fun _ => 0))) ∅
    (<[SSCRATCH := 0x80007000]> (<[SCAUSE := 8]> (<[SEPC := 0x1000]> (<[SSTATUS := 0x20]> ∅)))).

(** The kernel when [usertrap] has left the hart as [m1]. *)
Definition getpid_kernel (m1 : mach) : kstate :=
  put_proc 1 (set_pid 7 one_proc)
    (set_sy (mk_sync ∅ {[2%nat := mk_cpu 2 0 0 (Some 1%nat) context0]} 2 (kmap (pair 2%nat) (hc m1))) (set_mem (mm m1) user_demo)).

Lemma getpid_on_hart m1 : on_hart (getpid_kernel m1) m1.
Proof.
  split; [done |]. intros c. unfold csr_of, csr_get, get0. cbn [getpid_kernel sy put_proc set_proctable set_sy csrs tp].
  by rewrite (lookup_kmap (pair 2%nat)).
Qed.

Lemma getpid_served m1 : hart_ok (sy (getpid_kernel m1)) -> forall y, y ≡ sy (serving 1 0x1000 (getpid_kernel m1)) ->
  wp (serve (H := tiny_layout) (H0 := demo_initcode) (H1 := demo_syms) (H2 := demo_frames) (H3 := exec_frames) 10
       (s32 (rget (rg getpid_user) A7)))
    (fun r s' => r = 7 /\ returns 1 (serving 1 0x1000 (getpid_kernel m1)) s') (set_sy y (serving 1 0x1000 (getpid_kernel m1))).
Proof.
  intros Hho y Hy. set (k := serving 1 0x1000 (getpid_kernel m1)) in *.
  assert (Hk : hart_ok (sy k)) by (by apply hart_ok_on).
  assert (Hc : cpu_proc (get_cpu (sy k)) = Some 1%nat) by reflexivity.
  change (s32 (rget (rg getpid_user) A7)) with SYS_GETPID. apply (wp_serve_getpid 10 1).
  - cbn [sy set_sy]. by rewrite Hy.
  - cbn [sy set_sy]. by destruct (get_cpu_equiv _ _ Hy) as (_ & _ & -> & _).
  - intros y2 Hy2. split; [reflexivity |]. apply (returns_sy 1 k y2); [done | done |]. rewrite Hy2. exact Hy.
Qed.

