(* ===== verification/Preempt.v ===== *)
(** Preemption: [yield] (proc.c), and the timer interrupt as user code and as
    the kernel's own code live through it. *)
From S2P Require Import Prelude Machine Csr KPrint Spinlock Printf Mem Vm PageTable KernelMap UserMem UserSpace Took Exec ExecProofs Proc ProcProofs SchedProofs UvmCopy ProcAlloc ProcTable Fork Exit Scheduler Wait Syscall ExecStack Kexec Lifecycle Trap TrapProofs Asm AsmTrap UserReturn Vectors TrapHandle.

(** * yield *)

(** The rest of [yield], on whichever hart the scheduler resumes it. *)
Definition yields (i : nat) (y : sync) (k : M unit) : Prop :=
  forall y2 s2 (Q : unit -> kstate -> Prop), hart_ok y2 -> depth (get_cpu y2) = 0 -> lk_free (ProcLock i) y2 ->
  sy s2 ≡ sync_lock (ProcLock i) y2 -> (forall y3, y3 ≡ set_sie (sie y) y2 -> Q tt (set_sy y3 s2)) -> wp k Q s2.

Lemma switches_yield i s (P : kstate -> M unit -> Prop) : can_lock (ProcLock i) (sy s) -> depth (get_cpu (sy s)) = 0 ->
  cpu_proc (get_cpu (sy s)) = Some i ->
  (forall s1 k, sy s1 ≡ sync_lock (ProcLock i) (sy s) -> proc_step i (set_state READY) s s1 -> yields i (sy s) k -> P s1 k) ->
  switches yield P s.
Proof.
  intros Hl H0 Hc HP. destruct Hl as [Hok Hfree]. unfold yield. apply switches_wp, wp_myproc; [done |]. intros y Hy. rewrite Hc.
  cbn [deref_proc]. apply switches_wp, wp_ret, switches_wp, wp_lock; [cbn [sy set_sy]; by rewrite Hy |].
  cbn [sy set_sy]. unfold with_proc. apply switches_wp, wp_modify. set (s1 := put_proc i _ _).
  assert (Hs1 : proc_step i (set_state READY) s s1) by (do 2 eapply proc_step_sy_l; apply proc_step_put).
  assert (Hy1 : sy s1 ≡ sync_lock (ProcLock i) (sy s)) by (change (sy s1) with (sync_lock (ProcLock i) y); by rewrite Hy).
  apply switches_bind, (switches_sched i (sy s)); [done | done | done | done | |].
  { destruct Hs1 as [_ Hp]. by rewrite Hp, decide_True. }
  intros k Hk. apply HP; [done | done |]. intros y2 s2 Q Hok2 H02 Hf2 Hy2 HQ.
  apply wp_bind, (Hk y2); [done | done | done |]. intros y3 Hy3.
  apply (wp_unlock _ (set_sie (sie (sy s)) y2)); [split; [by apply hart_ok_set_sie | done] | done |].
  intros y4 Hy4. by apply HQ.
Qed.

(** * A tick *)

(** What a timer interrupt needs: a clock that runs, and no lock held. *)
Record tickable (i : nat) (s : kstate) : Prop := {
  tb_clock : steady_clock (tsrc s);
  tb_ticks : can_lock TicksLock (sy s);
  tb_procs : forall j, (j < NPROC)%nat -> can_lock (ProcLock j) (sy s);
  tb_slot : (i < NPROC)%nat;
  tb_proc : cpu_proc (get_cpu (sy s)) = Some i;
  tb_depth : depth (get_cpu (sy s)) = 0
}.

(** At the switch: the next deadline is set, the clock has advanced on hart 0,
    the sleepers on the clock are awake, and process [i] waits for its turn. *)
Record preempted (i : nat) (s s1 : kstate) : Prop := {
  pm_self : get_proc s1 i = set_state READY (ticked s i);
  pm_rest : forall j, j <> i -> get_proc s1 j = ticked s j;
  pm_ticks : ticks s1 = (if decide (tp (sy s) = 0%nat) then ticks s +w 1 else ticks s);
  pm_sync : exists k, (k = 1 \/ k = 4)%nat /\
    sy s1 ≡ sync_lock (ProcLock i) (armed (u64 (tsrc s (k + tpos s) + TIMER_INTERVAL)) (sy s));
  pm_mem : mem s1 = mem s;
  pm_kept : mem_bitmap s1 = mem_bitmap s /\ start_page s1 = start_page s /\ kptable s1 = kptable s /\
    curr_pid s1 = curr_pid s /\ out s1 = out s
}.

Lemma sie_armed t y : sie (armed t y) = sie y.
Proof. unfold sie, armed. by rewrite !csr_get_set_ne. Qed.

Lemma sie_equiv y z : y ≡ z -> sie y = sie z.
Proof. intros Hy. unfold sie. by rewrite (csr_get_equiv _ _ SSTATUS Hy). Qed.

(** The tick and the [yield] after it. *)
Lemma switches_tick {A} n scause i s (f : M A) (P : kstate -> M A -> Prop) : tickable i s -> Z.land scause 0x7FFFFFFF = 5 ->
  (forall s1 k, preempted i s s1 -> yields i (sy s) k -> P s1 (k ≫= fun _ => f)) ->
  wp (devintr (2 + n) scause) (fun dev s' => dev = 2 /\ get_proc s' i = ticked s i /\ switches (yield;; f) P s') s.
Proof.
  intros [T1 T2 T3 T4 T5 T6] Hcode HP. eapply wp_mono; [by apply wp_devintr_timer |].
  intros r s' (-> & (k & Hk & Hy) & Htk & Hq & Hf). split; [done |]. split; [apply Hq |]. set (t := u64 _) in Hy.
  assert (Hcp : cpu_equiv (get_cpu (sy s')) (get_cpu (sy s))) by exact (get_cpu_equiv _ _ Hy).
  destruct Hcp as (_ & Hcd & Hcc & _).
  apply switches_bind, (switches_yield i).
  - rewrite Hy. unfold armed. do 3 (apply can_lock_csr; [discriminate |]). by apply T3.
  - by rewrite Hcd.
  - by rewrite Hcc.
  - intros s1 k1 Hy1 [Hf1 Hp1] Hk1. apply HP.
    + destruct Hf, Hf1. cbn in *. split.
      * by rewrite Hp1, decide_True, Hq.
      * intros j Hj. by rewrite Hp1, decide_False, Hq.
      * congruence.
      * exists k. split; [done |]. by rewrite Hy1, Hy.
      * congruence.
      * split_and!; congruence.
    + unfold yields in *. by rewrite (sie_equiv _ _ Hy), sie_armed in Hk1.
Qed.

Lemma preempted_sy i y s s1 : y ≡ sy s -> preempted i (set_sy y s) s1 -> preempted i s s1.
Proof.
  intros Hy [P1 P2 P3 (k & Hk & P4) P5 P6].
  assert (Ht : forall j, ticked (set_sy y s) j = ticked s j).
  { intros j. unfold ticked. cbn [sy set_sy]. by rewrite (tp_equiv _ _ Hy). }
  cbn [sy set_sy] in *. rewrite (tp_equiv _ _ Hy) in P3.
  split; [by rewrite P1, Ht | intros j Hj; by rewrite P2, Ht | done | | done | done].
  exists k. split; [done |]. rewrite P4. cbn [tsrc tpos set_sy]. set (t := u64 _).
  apply sync_lock_proper. unfold armed. do 3 apply csr_set_proper. done.
Qed.

Lemma tickable_sy i y s : y ≡ sy s -> tickable i s -> tickable i (set_sy y s).
Proof.
  intros Hy [T1 T2 T3 T4 T5 T6]. destruct (get_cpu_equiv _ _ Hy) as (_ & Hcd & Hcc & _).
  split; cbn [tsrc sy set_sy]; [done | by rewrite Hy | intros j Hj; rewrite Hy; by apply T3 | done | by rewrite Hcc | by rewrite Hcd].
Qed.

(** [k] is the rest of a function of process [i], which holds its lock; on
    whichever hart it is resumed, as the scheduler does it, it ends in user
    mode, with everything else as the scheduler left it. *)
Definition returns_to_user {A} `{KSyms} (i : nat) (y : sync) (k : M A) : Prop :=
  forall y2 s2, hart_ok y2 -> depth (get_cpu y2) = 0 -> cpu_proc (get_cpu y2) = Some i -> lk_free (ProcLock i) y2 ->
    sy s2 ≡ sync_lock (ProcLock i) y2 ->
    to_users k (fun s3 => exists y3, y3 ≡ set_sie (sie y) y2 /\ sent i (set_sy y3 s2) s3) s2.

Lemma yields_to_user {A} `{KSyms} i y k : yields i y k -> returns_to_user (A := A) i y (k ≫= fun _ => utrapret).
Proof.
  intros Hk y2 s2 Hok2 H02 Hc2 Hf2 Hy2. apply to_users_wp, (Hk y2); [done | done | done | done |]. intros y3 Hy3.
  apply (to_users_utrapret i).
  - cbn [sy set_sy]. rewrite Hy3. by apply hart_ok_set_sie.
  - cbn [sy set_sy]. destruct (get_cpu_equiv _ _ Hy3) as (_ & _ & -> & _). exact Hc2.
  - intros s3 Hs3. by exists y3.
Qed.

(** C16 (a timer interrupt preempts user code): in the middle of a user
    program, a timer interrupt saves the [pc] in the frame, sets the next
    deadline, on hart 0 advances the clock by one and wakes exactly the
    processes that sleep on it, makes the running process [READY] and switches
    to the scheduler with only that process's lock held; nothing else changes.
    When the scheduler runs the process again, on this hart or another, it
    goes back to user mode, by way of [utrapret] on that hart. *)
Theorem timer_preempts {A} `{Layout, Initcode, KSyms, Frames, CallFrames} n scause sepc i s :
  tickable i s -> from_user (sy s) -> is_irq scause = true -> Z.land scause 0x7FFFFFFF = 5 ->
  switches (u_trap_handle (A := A) (2 + n) scause sepc) (fun s1 k =>
    preempted i (saved_pc i sepc s) s1 /\ returns_to_user i (sy s) k) s.
Proof.
  intros Ht Hu Hirq Hcode. destruct (u_trap_entry (A := A) (2 + n) scause sepc i s) as (y & Hy & E);
    [apply (tb_ticks _ _ Ht) | apply Ht | done |].
  apply (switches_eq _ _ _ _ _ E). clear E. unfold u_trap_rest. rewrite Hirq.
  assert (Ht' : tickable i (saved_pc i sepc (set_sy y s))) by (destruct (tickable_sy i y s Hy Ht); by split).
  apply switches_wp, wp_bind. eapply wp_mono; [apply (switches_tick (A := A) n scause i _ utrapret
    (fun s1 k => preempted i (saved_pc i sepc s) s1 /\ returns_to_user i (sy s) k)); [done | done |] |].
  - intros s1 k Hp Hk. split; [by apply (preempted_sy i y) |]. unfold yields in Hk. cbn [sy saved_pc set_mem set_sy] in Hk.
    rewrite (sie_equiv _ _ Hy) in Hk. by apply yields_to_user.
  - intros dev s' (-> & _ & Hsw). cbn [Z.eqb Pos.eqb]. apply wp_ret. exact Hsw.
Qed.

(** * s_trap_handle *)

(** What an interrupt of the kernel's own code finds: it was enabled there, and
    is disabled now. *)
Definition from_kernel (y : sync) : Prop := Z.land (csr_get y SSTATUS) SSTATUS_SPP <> 0 /\ sie y = false.

(** What follows the checks, for an interrupt of current process [o]. *)
Definition s_trap_rest (fuel : nat) (scause sepc sstatus : Z) (o : option nat) : M unit :=
  dev ← (dev ← devintr fuel scause;
         if dev =? 0 then
           printf ("unexpected interrupt: scause %p, sepc %p" +:+ nl) [AInt scause; AInt sepc];;
           panic "s_trap_handle"
         else mret dev);
  (match o with
   | None => mret tt
   | Some i => p ← the_proc i; when ((dev =? 2) && in_state RUNNING p) yield
   end);;
  w_sepc sepc;;
  w_sstatus sstatus.

Lemma s_trap_entry fuel scause sepc s : hart_ok (sy s) -> from_kernel (sy s) -> is_irq scause = true ->
  exists y, y ≡ sy s /\ s_trap_handle fuel scause sepc s =
    s_trap_rest fuel scause sepc (csr_get (sy s) SSTATUS) (cpu_proc (get_cpu (sy s))) (set_sy y s).
Proof.
  intros Hok [Hspp Hsie] Hirq.
  assert (Hm : wp myproc (fun o s' => exists y, y ≡ sy s /\ o = cpu_proc (get_cpu (sy s)) /\ s' = set_sy y s) s).
  { apply wp_myproc; [done |]. eauto. }
  apply wp_Ok in Hm as (o & s1 & Hm & y & Hy & -> & ->). exists y. split; [done |].
  unfold s_trap_handle, r_sstatus, csrr. unfold mbind at 1, M_bind at 1. cbn [gets res_bind].
  apply Z.eqb_neq in Hspp. rewrite Hspp.
  assert (Hi : is_interrupt s = Ok false s).
  { change (is_interrupt s) with (Ok (negb (Z.land (csr_get (sy s) SSTATUS) SSTATUS_SIE =? 0)) s). f_equal. exact Hsie. }
  rewrite (bind_Ok _ _ _ _ _ Hi), (bind_Ok _ _ _ _ _ Hm). rewrite Hirq. reflexivity.
Qed.

(** The control registers that [sret] uses are those of the trap. *)
Definition sret_regs (sepc sstatus : Z) (y : sync) : sync := csr_set (csr_set y SEPC sepc) SSTATUS sstatus.

Lemma wp_s_trap_exit sepc sstatus s (Q : unit -> kstate -> Prop) : Q tt (set_sy (sret_regs sepc sstatus (sy s)) s) ->
  wp (w_sepc sepc;; w_sstatus sstatus) Q s.
Proof. intros HQ. apply wp_bind, wp_modify, wp_modify. exact HQ. Qed.

Lemma ticked_running s i : p_state (get_proc s i) = RUNNING -> ticked s i = get_proc s i.
Proof.
  intros Hr. unfold ticked, woken, in_state. case_decide; [| done]. rewrite Hr, (bool_decide_false (RUNNING = WAITING)) by done.
  by rewrite ?andb_false_r, ?andb_false_l.
Qed.

(** [k] is the rest of [s_trap_handle] in process [i]: resumed on any hart, it
    returns with the [pc] and the status of the trap in that hart's registers,
    and everything else as the scheduler left it. *)
Definition returns_to_kernel (i : nat) (sepc sstatus : Z) (k : M unit) : Prop :=
  forall y2 s2, hart_ok y2 -> depth (get_cpu y2) = 0 -> lk_free (ProcLock i) y2 -> sy s2 ≡ sync_lock (ProcLock i) y2 ->
    wp k (fun _ s3 => exists y3, y3 ≡ set_sie false y2 /\ s3 = set_sy (sret_regs sepc sstatus y3) s2) s2.

Lemma switches_s_trap n scause sepc i s (P : kstate -> M unit -> Prop) : tickable i s -> from_kernel (sy s) ->
  is_irq scause = true -> Z.land scause 0x7FFFFFFF = 5 -> p_state (get_proc s i) = RUNNING ->
  (forall s1 k, preempted i s s1 -> returns_to_kernel i sepc (csr_get (sy s) SSTATUS) k -> P s1 k) ->
  switches (s_trap_handle (2 + n) scause sepc) P s.
Proof.
  intros Ht Hk Hirq Hcode Hrun HP. destruct (s_trap_entry (2 + n) scause sepc s) as (y & Hy & E); [apply (tb_ticks _ _ Ht) | done | done |].
  apply (switches_eq _ _ _ _ _ E). clear E. unfold s_trap_rest. rewrite (tb_proc _ _ Ht).
  set (f := w_sepc sepc;; w_sstatus (csr_get (sy s) SSTATUS)).
  assert (Hcont : forall s1 k, preempted i (set_sy y s) s1 -> yields i (sy (set_sy y s)) k -> P s1 (k ≫= fun _ => f)).
  { intros s1 k Hp Hyk. apply HP; [by apply (preempted_sy i y) |]. intros y2 s2 Hok2 H02 Hf2 Hy2.
    apply wp_bind, (Hyk y2); [done | done | done | done |]. intros y3 Hy3. apply wp_s_trap_exit. exists y3.
    cbn [sy set_sy] in Hy3. rewrite (sie_equiv _ _ Hy) in Hy3. destruct Hk as [_ Hsie]. rewrite Hsie in Hy3. done. }
  pose proof (tickable_sy i y s Hy Ht) as Ht'.
  apply switches_wp, wp_bind. eapply wp_mono; [apply (switches_tick n scause i _ f P); [done | done | exact Hcont] |].
  intros dev s' (-> & Hp & Hsw). cbn [Z.eqb Pos.eqb]. apply wp_ret.
  assert (Hr : in_state RUNNING (get_proc s' i) = true).
  { rewrite Hp, ticked_running by done. unfold in_state. change (get_proc (set_sy y s) i) with (get_proc s i). rewrite Hrun. done. }
  eapply switches_eq; [| exact Hsw]. unfold mbind at 1, M_bind at 1. rewrite (bind_Ok _ _ _ (get_proc s' i) s') by done.
  rewrite Hr. reflexivity.
Qed.

(** C4 (the kernel's own code is preempted and resumed): kernel code of process
    [i], with interrupts enabled and no lock held, is interrupted by the timer.
    [kerneltrap] saves its registers on its stack, and [s_trap_handle] switches
    to the scheduler with the process [READY], the next deadline set, the clock
    advanced and the sleepers on it awake. When the scheduler resumes the
    process, on any hart and after any traps there, and its stack frame is as
    it was, the handler returns, and [kerneltrap]'s [sret] goes back to the
    instruction that was interrupted, with the status, and with all registers
    but [tp], that it had; [tp] is that of the hart it goes on on. *)
Theorem kernel_preempted n i m sp : rget (rg m) SP = sp -> 128 <= sp < U32 -> regs_ok (rg m) ->
  is_irq (csr_of m SCAUSE) = true -> Z.land (csr_of m SCAUSE) 0x7FFFFFFF = 5 -> 0 <= csr_of m SCAUSE < U32 ->
  0 <= csr_of m SEPC < U32 ->
  exists m1, run 34 kerneltrap 0 m = Left (Called "s_trap_handle") 34 m1 /\
  forall s, on_hart s m1 -> tickable i s -> from_kernel (sy s) -> p_state (get_proc s i) = RUNNING ->
    switches (s_trap_handle (2 + n) (rget (rg m1) A0) (rget (rg m1) A1)) (fun s1 k => preempted i s s1 /\
      forall y2 s2, hart_ok y2 -> depth (get_cpu y2) = 0 -> lk_free (ProcLock i) y2 -> sy s2 ≡ sync_lock (ProcLock i) y2 ->
        (forall a, sp - 128 <= a < sp -> load8 (mem s2) a = load8 (mem s1) a) ->
        wp k (fun _ s3 => forall m2, on_hart s3 m2 -> rget (rg m2) SP = sp - 128 ->
          exists m3, run 31 kerneltrap 34 m2 = Left Sreturned 65 m3 /\
            (forall r, r <> TP -> rget (rg m3) r = rget (rg m) r) /\ rget (rg m3) TP = rget (rg m2) TP /\
            csr_of m3 SEPC = csr_of m SEPC /\ csr_of m3 SSTATUS = csr_of m SSTATUS /\ mm m3 = mem s2) s2) s.
Proof.
  intros Hsp Hr Hrs Hirq Hcode Hca Hpc. destruct (kerneltrap_call m sp Hsp Hr Hrs) as (m1 & Hrun & Hp). exists m1.
  split; [done |]. intros s [Hm Hcs] Ht Hk Hst. destruct (pr_args _ _ _ Hp) as [-> ->]. rewrite !u32_small by done.
  apply (switches_s_trap n _ _ i s); [done | done | done | done | done |]. intros s1 k Hpm Hret. split; [done |].
  intros y2 s2 Hok2 H02 Hf2 Hy2 Hframe. eapply wp_mono; [by apply (Hret y2 s2) |].
  intros [] s3 (y3 & Hy3 & ->) m2 [Hm2 Hcs2] Hs2. cbn [mem sy set_sy] in *.
  assert (Hss : csr_get (sy s) SSTATUS = csr_of m SSTATUS).
  { rewrite <- Hcs. unfold csr_of. by rewrite (pr_csrs _ _ _ Hp). }
  destruct (kerneltrap_return m sp Hsp Hr m1 m2 Hp Hs2) as (m3 & Hr3 & Hregs & Htp & Hmm & Hhc).
  { intros a Ha. rewrite Hm2, Hframe, (pm_mem _ _ _ Hpm), <- Hm by done. done. }
  exists m3. unfold csr_of at 1 3. rewrite Hhc. fold (csr_of m2 SEPC). fold (csr_of m2 SSTATUS). rewrite !Hcs2.
  unfold sret_regs. rewrite (csr_get_set_ne _ SSTATUS SEPC), !csr_get_set_eq by discriminate. rewrite (u32_small _ Hpc), Hss.
  split_and!; [done | done | done | done | | by rewrite Hmm].
  apply u32_small. rewrite <- Hss. apply (tb_ticks _ _ Ht).
Qed.

(** Process 1 is in user mode, or in the kernel with interrupts enabled, when
    hart 2's timer fires. *)
Definition tick_user : kstate := put_proc 1 one_proc (set_sy nap_sync sleepers).

Lemma tick_clock : steady_clock (tsrc sleepers).
Proof. split; cbn; unfold U32, U64; intros; lia. Qed.

Lemma timer_preempts_witness :
  switches (u_trap_handle (A := unit) (H := tiny_layout) (H0 := demo_initcode) (H1 := demo_syms) (H2 := demo_frames)
    (H3 := exec_frames) (2 + 0) 0x80000005 0x1000) (fun s1 k =>
    preempted 1 (saved_pc 1 0x1000 tick_user) s1 /\ returns_to_user (H := demo_syms) 1 (sy tick_user) k) tick_user.
Proof.
  apply timer_preempts; [| reflexivity | reflexivity | reflexivity].
  assert (Hl : forall l, can_lock l (sy tick_user)) by (intros l; split; [split; vm_compute; intuition congruence | done]).
  split; [exact tick_clock | apply Hl | intros j _; apply Hl | unfold NPROC; lia | reflexivity | reflexivity].
Defined.

Definition tick_mach : mach :=
  mk_mach (rset SP 0x80009000 user_regs) ∅ (<[SCAUSE := 0x80000005]> (<[SEPC := 0x80000444]> (<[SSTATUS := 0x120]> ∅))).

Definition tick_kernel (m1 : mach) : kstate :=
  put_proc 1 one_proc (set_sy (mk_sync ∅ {[2%nat := mk_cpu 2 0 0 (Some 1%nat) context0]} 2 (kmap (pair 2%nat) (hc m1)))
    (set_mem (mm m1) sleepers)).

Lemma tick_on_hart m1 : on_hart (tick_kernel m1) m1.
Proof.
  split; [done |]. intros c. unfold csr_of, csr_get, get0. cbn [tick_kernel sy put_proc set_proctable set_sy csrs tp].
  by rewrite (lookup_kmap (pair 2%nat)).
Qed.

Lemma kernel_preempted_witness : exists m1, run 34 kerneltrap 0 tick_mach = Left (Called "s_trap_handle") 34 m1 /\
  switches (s_trap_handle (2 + 0) (rget (rg m1) A0) (rget (rg m1) A1)) (fun s1 _ => preempted 1 (tick_kernel m1) s1) (tick_kernel m1).
Proof.
  destruct (kernel_preempted 0 1 tick_mach 0x80009000) as (m1 & Hrun & Hall).
  - reflexivity.
  - unfold U32. lia.
  - intros r. destruct r; vm_compute; split; (discriminate || reflexivity).
  - reflexivity.
  - reflexivity.
  - vm_compute. split; [discriminate | reflexivity].
  - vm_compute. split; [discriminate | reflexivity].
  - exists m1. split; [exact Hrun |]. pose proof (tick_on_hart m1) as Hon.
    assert (Hss : csr_get (sy (tick_kernel m1)) SSTATUS = 0x120).
    { rewrite <- (oh_csrs _ _ Hon).
      transitivity (match run 34 kerneltrap 0 tick_mach with Left _ _ m => csr_of m SSTATUS | _ => 0 end); [by rewrite Hrun |].
      vm_compute. reflexivity. }
    assert (Hl : forall l, can_lock l (sy (tick_kernel m1))).
    { intros l. split; [split | split; reflexivity].
      - change (0 <= 0). lia.
      - intros H. change (0 < 0) in H. lia.
      - rewrite Hss. unfold U32. lia. }
    assert (Ht : tickable 1 (tick_kernel m1)).
    { split; [exact tick_clock | apply Hl | intros j _; apply Hl | unfold NPROC; lia | reflexivity | reflexivity]. }
    assert (Hk : from_kernel (sy (tick_kernel m1))).
    { split; [rewrite Hss; discriminate |]. unfold sie. by rewrite Hss. }
    assert (Hst : p_state (get_proc (tick_kernel m1) 1) = RUNNING) by reflexivity.
    pose proof (Hall (tick_kernel m1) Hon Ht Hk Hst) as Hsw. clear Hall.
    destruct (switches_run _ _ _ Hsw) as (s1 & k & E & Hp & _). unfold switches. rewrite E. exact Hp.
Defined.
