(* ===== verification/Ulib.v ===== *)
(** The user library's memory and string functions: src/user/ulib.c.

    [u_] marks the user's copy of a function that the kernel has too. Memory is
    that of the user's address space, a pointer an address in it; a loop whose
    length is not known beforehand has fuel, and [None] is running out of it.
    The theorems relate the copies to the kernel's own functions, which decide
    differently how to copy overlapping areas. *)
From S2P Require Import Prelude Machine Csr KPrint Spinlock Printf Mem.

Fixpoint u_strlen_loop (fuel : nat) (m : gmap Z Z) (str count : Z) : option Z :=
  match fuel with
  | O => None
  | S fuel => if load8 m str =? 0 then Some count else u_strlen_loop fuel m (str +w 1) (count +w 1)
  end.

Definition u_strlen (fuel : nat) (m : gmap Z Z) (str : Z) : option Z := u_strlen_loop fuel m str 0.

Fixpoint u_strcmp (fuel : nat) (m : gmap Z Z) (a b : Z) : option Z :=
  match fuel with
  | O => None
  | S fuel =>
      let c := load8 m a in
      let d := load8 m b in
      if negb (c =? 0) && (c =? d) then u_strcmp fuel m (a +w 1) (b +w 1)
      else Some (u8 c - u8 d)
  end.

(** [while (len-- > 0) *ptr++ = val;] *)
Fixpoint u_memset_loop (len : nat) (m : gmap Z Z) (ptr val : Z) : gmap Z Z :=
  match len with
  | O => m
  | S len => u_memset_loop len (store8 m ptr val) (ptr +w 1) val
  end.

Definition u_memset (m : gmap Z Z) (dst val len : Z) : gmap Z Z :=
  u_memset_loop (Z.to_nat len) m dst val.

(** [while (len--) *d++ = *s++;] *)
Fixpoint u_copy_forwards (len : nat) (m : gmap Z Z) (d s : Z) : gmap Z Z :=
  match len with
  | O => m
  | S len => u_copy_forwards len (store8 m d (load8 m s)) (d +w 1) (s +w 1)
  end.

(** [while (len--) *--d = *--s;] *)
Fixpoint u_copy_backwards (len : nat) (m : gmap Z Z) (d s : Z) : gmap Z Z :=
  match len with
  | O => m
  | S len =>
      let d := d -w 1 in
      let s := s -w 1 in
      u_copy_backwards len (store8 m d (load8 m s)) d s
  end.

Definition u_memmove (m : gmap Z Z) (dst src len : Z) : gmap Z Z :=
  if dst <? src then u_copy_forwards (Z.to_nat len) m dst src
  else u_copy_backwards (Z.to_nat len) m (dst +w len) (src +w len).

Definition u_memcpy (m : gmap Z Z) (dst src len : Z) : gmap Z Z := u_memmove m dst src len.

(** * Lemmas *)

Lemma u_copy_forwards_up n : forall m d s, u_copy_forwards n m d s = move_up n m d s.
Proof. induction n as [|n IH]; intros m d s; cbn; [done | apply IH]. Qed.

Lemma u_copy_backwards_down n : forall m d s, u_copy_backwards n m d s = move_down n m d s.
Proof. induction n as [|n IH]; intros m d s; cbn; [done | apply IH]. Qed.

Lemma u_memset_loop_set n : forall m p v, u_memset_loop n m p v = memset_loop n m p v.
Proof. induction n as [|n IH]; intros m p v; [done | apply (IH (store8 m p v))]. Qed.

Lemma u_memmove_spec m dst src len a : span_ok dst len -> span_ok src len ->
  load8 (u_memmove m dst src len) a =
    if (dst <=? a) && (a <? dst + len) then load8 m (src + (a - dst)) else load8 m a.
Proof.
  intros (Hd & Hn & Hdn) (Hs & _ & Hsn). unfold u_memmove.
  assert (Hk : len = Z.of_nat (Z.to_nat len)) by lia. revert Hk. generalize (Z.to_nat len). intros k ->.
  destruct (dst <? src) eqn:E; zbool.
  - rewrite u_copy_forwards_up. apply move_up_spec; lia.
  - rewrite u_copy_backwards_down, !u32_small by lia. apply move_down_spec; lia.
Qed.

Lemma u_strlen_loop_spec fuel : forall m a k count, str_at m a k -> 0 <= count -> count + k < U32 ->
  k < Z.of_nat fuel -> u_strlen_loop fuel m a count = Some (count + k).
Proof.
  induction fuel as [|fuel IH]; intros m a k count Hs Hc Hck Hf; pose proof (sa_range _ _ _ Hs); [lia |].
  cbn [u_strlen_loop]. pose proof (str_at_head m a k Hs) as Hh. zcase.
  - f_equal. lia.
  - assert (k <> 0) by tauto. rewrite !u32_small by lia.
    rewrite (IH m (a + 1) (k - 1)); [f_equal; lia | by apply str_at_next; [| lia] | lia..].
Qed.

Lemma u_strcmp_spec fuel : forall m a b k l, str_at m a k -> str_at m b l -> k < Z.of_nat fuel ->
  u_strcmp fuel m a b = Some (strcmp (cstr_at (S (Z.to_nat k)) m a) (cstr_at (S (Z.to_nat l)) m b)).
Proof.
  induction fuel as [|fuel IH]; intros m a b k l Ha Hb Hf;
    pose proof (sa_range _ _ _ Ha); pose proof (sa_range _ _ _ Hb); [lia |].
  pose proof (str_at_head m a k Ha) as Hka. pose proof (str_at_head m b l Hb) as Hlb. cbn [u_strcmp].
  assert (Hd : deref (cstr_at (S (Z.to_nat l)) m b) = load8 m b).
  { cbn [cstr_at]. destruct (load8 m b =? 0) eqn:E; zbool; [by rewrite E | done]. }
  destruct (decide (k = 0)) as [-> | Hk0].
  { rewrite (cstr_at_nil m a) by tauto. cbn [strcmp]. rewrite Hd.
    assert (load8 m a = 0) as -> by tauto. done. }
  rewrite (cstr_at_cons m a k) by (done || lia). cbn [strcmp]. rewrite Hd.
  destruct (negb (load8 m a =? 0) && (load8 m a =? load8 m b)) eqn:E; [| done].
  apply andb_prop in E as [_ E]. apply Z.eqb_eq in E. rewrite E in Hka.
  assert (Hl0 : l <> 0) by tauto.
  rewrite !u32_small by lia.
  rewrite (IH m (a + 1) (b + 1) (k - 1) (l - 1)); [| by apply str_at_next; [| lia].. | lia].
  do 2 f_equal; [f_equal; lia |].
  rewrite (cstr_at_cons m b l) by (done || lia). cbn [tail]. f_equal. lia.
Qed.

(** * Properties *)

(** The user's copies of the memory functions: on areas that end below the
    top of the address space the user's [memmove] and [memcpy] leave in every
    byte what the kernel's [memmove] leaves, overlapping areas included,
    although they copy backwards whenever the destination is not below the
    source and the kernel only if it starts inside it; [memset] agrees with
    the kernel's as well. *)
Theorem u_memory_equiv m dst src len val a : span_ok dst len -> span_ok src len ->
  load8 (u_memmove m dst src len) a = load8 (memmove_mem m dst src len) a /\
  load8 (u_memcpy m dst src len) a = load8 (memmove_mem m dst src len) a /\
  u_memset m dst val len = memset_loop (Z.to_nat len) m dst val.
Proof.
  intros Hd Hs. unfold u_memcpy. rewrite u_memmove_spec, memmove_mem_spec by done.
  split_and!; [done | done | apply u_memset_loop_set].
Qed.

(** An overlapping copy, by one byte upwards. *)
Definition ulib_demo : gmap Z Z := <[0x2000 := 104]> (<[0x2001 := 105]> (<[0x2002 := 0]> ∅)).

Lemma u_memory_equiv_witness :
  load8 (u_memmove ulib_demo 0x2001 0x2000 2) 0x2002 = load8 (memmove_mem ulib_demo 0x2001 0x2000 2) 0x2002 /\
  load8 (u_memcpy ulib_demo 0x2001 0x2000 2) 0x2002 = load8 (memmove_mem ulib_demo 0x2001 0x2000 2) 0x2002 /\
  u_memset ulib_demo 0x2001 7 2 = memset_loop 2 ulib_demo 0x2001 7.
Proof. exact (u_memory_equiv ulib_demo 0x2001 0x2000 2 7 0x2002 ltac:(done) ltac:(done)). Defined.

(** The user's string functions return: on strings of [k] and [l] bytes
    that end below the top of the address space, [strlen] returns [k] and
    [strcmp] what the kernel's [strcmp] returns, after at most [k + 1] passes
    of their loops. *)
Theorem u_strings_return m a b k l fuel : str_at m a k -> str_at m b l -> k < Z.of_nat fuel ->
  u_strlen fuel m a = Some k /\
  u_strcmp fuel m a b = Some (strcmp (cstr_at (S (Z.to_nat k)) m a) (cstr_at (S (Z.to_nat l)) m b)).
Proof.
  intros Ha Hb Hf. pose proof (sa_range _ _ _ Ha). split; [| by apply u_strcmp_spec].
  by apply (u_strlen_loop_spec fuel m a k 0); try lia.
Qed.

Lemma u_strings_return_witness :
  u_strlen 3 ulib_demo 0x2000 = Some 2 /\
  u_strcmp 3 ulib_demo 0x2000 0x2001 = Some (strcmp (cstr_at 3 ulib_demo 0x2000) (cstr_at 2 ulib_demo 0x2001)).
Proof.
  apply (u_strings_return ulib_demo 0x2000 0x2001 2 1 3); [split.. | done].
  - done.
  - intros j Hj. assert (j = 0 \/ j = 1) as [-> | ->] by lia; done.
  - done.
  - done.
  - intros j Hj. assert (j = 0) as -> by lia. done.
  - done.
Defined.
