(* ===== verification/UserProg.v ===== *)
(** User programs: printf.c, init.c and echo.c of src/user, and [start] of
    ulib.c.

    A program is an interaction tree: its events are the system calls of
    usys.S, whose answers are any that the kernel may give, and it may run for
    ever, as [init] does. Strings that a program passes are the lists of their
    bytes. [UB] is what C leaves undefined; the theorems show it is not
    reached. *)
From S2P Require Import Prelude Machine Csr KPrint.
From ITree Require Import ITree ITreeFacts.
From Paco Require Import paco.

(** * System calls *)

Inductive userE : Type -> Type :=
| Exit (status : Z) : userE void
| Fork : userE Z
| Wait (status : bool) : userE (Z * Z)    (* whether [status] is not 0; the result and what [*status] holds *)
| Exec (path : list Z) (argv : list (list Z)) : userE Z
| Read (fd n : Z) : userE (Z * list Z)      (* the result and what [buf] holds *)
| Write (fd : Z) (buf : list Z) : userE Z (* write(fd, buf, n), with the [n] bytes at [buf] *)
| Getpid : userE Z
| Sleep (ticks : Z) : userE Z
| Kill (pid : Z) : userE Z
| UB : userE void.

Definition prog (A : Type) : Type := itree userE A.

#[global] Instance prog_ret : MRet prog := fun A a => Ret a.
#[global] Instance prog_bind : MBind prog := fun A B f t => ITree.bind t f.

(** A call that does not return. *)
Definition never {A} (e : userE void) : prog A := x ← (ITree.trigger e : prog void); match x : void with end.

(** * printf.c *)

Definition putc (c : Z) : prog unit := (ITree.trigger (Write 1 [u8 c]) : prog Z);; mret tt.

(** [while (--i >= 0) putc(buf[i]);], [buf] from its last byte on. *)
Fixpoint put_back (buf : list Z) : prog unit :=
  match buf with [] => mret tt | c :: buf => putc c;; put_back buf end.

(** [buf[i++] = c] on [char buf[12]]. *)
Definition buf_push (c : Z) (buf : list Z) : option (list Z) :=
  if (12 <=? length buf)%nat then None else Some (buf ++ [c]).

(** The digit loop; each pass divides [u], so 32 passes are enough. *)
Fixpoint u_digits (fuel : nat) (u base : Z) (buf : list Z) : option (list Z) :=
  match fuel with
  | O => None
  | S fuel =>
      match bytes "0123456789abcdef" !! Z.to_nat (u mod base) with
      | None => None
      | Some c =>
          match buf_push c buf with
          | None => None
          | Some buf => let u := u / base in if negb (u =? 0) then u_digits fuel u base buf else Some buf
          end
      end
  end.

Definition u_printint (x base sign : Z) : prog unit :=
  let neg := negb (sign =? 0) && (x <? 0) in
  let u := if neg then u32 (- u32 x) else u32 x in
  match u_digits 32 u base [] with
  | None => never UB
  | Some buf =>
      match (if neg then buf_push 45 buf else Some buf) with
      | None => never UB
      | Some buf => put_back (rev buf)
      end
  end.

(** The arguments of a call; a string is 0 or an address. *)
Inductive uarg := UInt (n : Z) | UStr (str : option (list Z)).

(** The loop of [%s]. *)
Fixpoint put_str (str : list Z) : prog unit :=
  match str with
  | [] => mret tt
  | c :: str => if c =? 0 then mret tt else putc c;; put_str str
  end.

Fixpoint u_printf (fmt : list Z) (args : list uarg) : prog unit :=
  match fmt with
  | [] => mret tt
  | c :: fmt1 =>
      if c =? 0 then mret tt
      else if negb (c =? 37) then putc c;; u_printf fmt1 args
      else
        match fmt1 with
        | [] => mret tt
        | d :: fmt2 =>
            if d =? 0 then mret tt
            else if d =? 100 then
              match args with
              | UInt n :: args => u_printint (s32 n) 10 1;; u_printf fmt2 args
              | _ => never UB
              end
            else if d =? 120 then
              match args with
              | UInt n :: args => u_printint (s32 n) 16 0;; u_printf fmt2 args
              | _ => never UB
              end
            else if d =? 112 then
              match args with
              | UInt n :: args => putc 48;; putc 120;; u_printint (s32 n) 16 0;; u_printf fmt2 args
              | _ => never UB
              end
            else if d =? 115 then
              match args with
              | UStr s :: args => put_str (default (bytes "(null)") s);; u_printf fmt2 args
              | _ => never UB
              end
            else if d =? 99 then
              match args with
              | UInt n :: args => putc n;; u_printf fmt2 args
              | _ => never UB
              end
            else if d =? 37 then putc 37;; u_printf fmt2 args
            else putc 37;; putc d;; u_printf fmt2 args
        end
  end.

(** * ulib.c: the entry point *)

Definition start {A} (main : Z -> list (list Z) -> prog Z) (argc : Z) (argv : list (list Z)) : prog A :=
  r ← main argc argv; never (Exit r).

(** * echo.c *)

(** [argv[i]] for [i] up to [argc], the entries from [i] on being [argv]. *)
Fixpoint echo_loop (argv : list (list Z)) (i argc : Z) : prog unit :=
  match argv with
  | [] => if i <? argc then never UB else mret tt
  | a :: argv =>
      if i <? argc then
        (if i <? argc - 1 then u_printf (bytes "%s ") [UStr (Some a)]
         else u_printf (bytes "%s") [UStr (Some a)]);;
        echo_loop argv (i + 1) argc
      else mret tt
  end.

Definition echo_main (argc : Z) (argv : list (list Z)) : prog Z :=
  echo_loop (tail argv) 1 argc;; u_printf (bytes nl) [];; mret 0.

(** * init.c *)

(** Waiting for [pid] in [run]: [Some] status, [None] for [return -1]. *)
Definition run_wait (pid : Z) : prog (option Z) :=
  ITree.iter (fun _ : unit =>
    '(w, status) ← (ITree.trigger (Wait true) : prog (Z * Z));
    if w =? pid then mret (inr (Some status))
    else if w <? 0 then mret (inr None)
    else mret (inl tt)) tt.

Definition run (argv : list (list Z)) : prog Z :=
  let name := hd [] argv in
  let report pid status :=
    u_printf (bytes ("init: %s (pid %d) exited with status %d" +:+ nl))
      [UStr (Some name); UInt pid; UInt status];; mret status in
  pid ← (ITree.trigger Fork : prog Z);
  if pid <? 0 then u_printf (bytes ("init: fork failed" +:+ nl)) [];; mret (-1)
  else if pid =? 0 then
    r ← (ITree.trigger (Exec name argv) : prog Z);
    if r <? 0 then
      u_printf (bytes ("init: exec %s failed" +:+ nl)) [UStr (Some name)];; never (Exit 1)
    else never UB (* [status] is read before it is set *)
  else
    o ← run_wait pid;
    match o with None => mret (-1) | Some status => report pid status end.

Definition init_main {A} : prog A :=
  pid ← (ITree.trigger Getpid : prog Z);
  u_printf (bytes ("init: starting (pid %d)" +:+ nl)) [UInt pid];;
  run [bytes "echo"; bytes "hello"; bytes "from"; bytes "init"];;
  run [bytes "hello"; bytes "a"; bytes "b"];;
  run [bytes "nope"];;
  ITree.iter (fun _ : unit =>
    '(w, _) ← (ITree.trigger (Wait false) : prog (Z * Z));
    if w <? 0 then (ITree.trigger (Sleep 100) : prog Z);; mret (inl tt) else mret (inl tt)) tt.
