(* ===== verification/UserProgProofs.v ===== *)
(** Properties of the user programs (UserProg.v): what [printf] and [echo]
    write, compared with the kernel's [printf], and what [init] may do. *)
From S2P Require Import Prelude Machine Csr KPrint UserProg.
From ITree Require Import ITree ITreeFacts.
From Paco Require Import paco.

(** * Programs that only write *)

(** One [write(1, ...)] per byte. *)
Fixpoint emit (bs : list Z) : prog unit :=
  match bs with [] => Ret tt | c :: bs => Vis (Write 1 [c]) (fun _ : Z => emit bs) end.

(** Whatever the writes return, [t] writes exactly [bs] and returns [a]. *)
Definition emits {A} (t : prog A) (bs : list Z) (a : A) : Prop := t ≈ ITree.bind (emit bs) (fun _ => Ret a).

Lemma emits_ret {A} (a : A) : emits (mret a) [] a.
Proof. unfold emits. cbn. by rewrite bind_ret_l. Qed.

Lemma emit_app {A} bs cs (k : prog A) :
  ITree.bind (emit (bs ++ cs)) (fun _ => k) ≈ ITree.bind (emit bs) (fun _ => ITree.bind (emit cs) (fun _ => k)).
Proof.
  induction bs as [|c bs IH]; cbn; [by rewrite bind_ret_l |].
  rewrite !bind_vis. apply eqit_Vis. intros _. apply IH.
Qed.

Lemma emits_bind {A B} (t : prog A) (f : A -> prog B) bs cs a b :
  emits t bs a -> emits (f a) cs b -> emits (t ≫= f) (bs ++ cs) b.
Proof.
  unfold emits. intros Ht Hf. unfold mbind, prog_bind. rewrite emit_app, Ht, bind_bind.
  eapply eutt_clo_bind; [reflexivity |]. intros ? ? _. by rewrite bind_ret_l.
Qed.

Lemma emits_putc c : emits (putc c) [u8 c] tt.
Proof.
  unfold emits, putc, mbind, prog_bind. cbn [emit]. rewrite bind_trigger, bind_vis.
  apply eqit_Vis. intros _. by rewrite bind_ret_l.
Qed.

Lemma emits_cons {A} c (t : prog A) bs a : emits t bs a -> emits (putc c;; t) (u8 c :: bs) a.
Proof. intros H. apply (emits_bind (putc c) (fun _ => t) [u8 c] bs tt a); [apply emits_putc | done]. Qed.

Lemma emits_put_back buf : emits (put_back buf) (u8 <$> buf) tt.
Proof. induction buf; cbn; [apply emits_ret | by apply emits_cons]. Qed.

Lemma emits_put_str str : emits (put_str str) (u8 <$> until_nul str) tt.
Proof.
  induction str as [|c str IH]; cbn; [apply emits_ret |]. zcase; [apply emits_ret | by apply emits_cons].
Qed.

(** * Numbers *)

Lemma u_digits_loop fuel : forall u base buf, u_digits fuel u base buf = digit_loop fuel 12 u base buf.
Proof.
  induction fuel as [|fuel IH]; intros u base buf; cbn [u_digits digit_loop]; [done |].
  change (bytes "0123456789abcdef") with digits. destruct (digits !! _); [| done].
  unfold buf_push. destruct (12 <=? length buf)%nat; [done |]. cbn. by rewrite IH.
Qed.

(** A larger buffer and more passes do not matter. *)
Lemma digit_loop_mono fuel : forall fuel' cap cap' num base nums ds, (fuel <= fuel')%nat -> (cap <= cap')%nat ->
  digit_loop fuel cap num base nums = Some ds -> digit_loop fuel' cap' num base nums = Some ds.
Proof.
  induction fuel as [|fuel IH]; intros [|fuel'] cap cap' num base nums ds Hf Hc; cbn [digit_loop]; try done; [lia |].
  destruct (digits !! _); [| done]. destruct (cap <=? length nums)%nat eqn:E; [done |].
  apply Nat.leb_gt in E. assert ((cap' <=? length nums)%nat = false) as -> by (apply Nat.leb_gt; lia).
  destruct (negb _); [| done]. apply IH; lia.
Qed.

(** The digits of a 32-bit number: at most ten in base 10, eight in base 16. *)
Lemma u_digits_some u base k : (base = 10 /\ k = 9%nat) \/ (base = 16 /\ k = 7%nat) -> 0 <= u < U32 ->
  exists ds, u_digits 32 u base [] = Some ds /\ digit_loop 33 34 u base [] = Some ds /\
    digit_loop 33 32 u base [] = Some ds /\ le_value base ds = u /\ (1 <= length ds <= S k)%nat /\ Forall is_digit ds.
Proof.
  intros Hb Hu. destruct (digit_loop_spec base k ltac:(lia) 32 12 u []) as (ds & Hd & Hv & Hl & Ha).
  - split; [lia |]. destruct Hb as [[-> ->] | [-> ->]]; unfold U32 in Hu; cbn; lia.
  - lia.
  - cbn. lia.
  - rewrite app_nil_l in Hd. exists ds. rewrite u_digits_loop. rewrite Hd.
    rewrite (digit_loop_mono 32 33 12 34 u base [] ds ltac:(lia) ltac:(lia) Hd).
    rewrite (digit_loop_mono 32 33 12 32 u base [] ds ltac:(lia) ltac:(lia) Hd). done.
Qed.

(** Program [u] writes what the kernel function [k] prints. *)
Definition agree (u : prog unit) (k : M unit) (bs : list Z) : Prop := emits u bs tt /\ prints k bs.

Lemma agree_bind u u' k k' bs cs : agree u k bs -> agree u' k' cs -> agree (u;; u') (k;; k') (bs ++ cs).
Proof. intros [H1 H2] [H3 H4]. split; [by eapply emits_bind | by apply prints_bind]. Qed.

(** [%d]: at most eleven bytes of the buffer's twelve. *)
Lemma agree_int error x : - 0x80000000 <= x < 0x80000000 -> exists bs,
  agree (u_printint x 10 1) (printint error x 10) bs /\ parse_int 10 bs = x /\ (length bs <= 11)%nat.
Proof.
  intros Hx. destruct (prints_printint error x 10 ltac:(lia) Hx) as (bs & Hbs & Hp & _ & _).
  exists bs. unfold u_printint. cbn [Z.eqb negb andb].
  set (u := if x <? 0 then u32 (- u32 x) else u32 x).
  assert (Hu : 0 <= u < U32) by (unfold u; destruct (x <? 0); apply u32_range).
  destruct (u_digits_some u 10 9 ltac:(auto) Hu) as (ds & -> & Hd & _ & _ & Hl & Ha).
  unfold printint in Hbs. cbn [Z.eqb negb orb] in Hbs. fold u in Hbs. rewrite Hd in Hbs.
  assert (Hsame : forall l, prints (put_all l) bs -> bs = u8 <$> l).
  { intros l Hpl. pose proof (prints_put_all l csr_demo) as H1. rewrite Hpl in H1. injection H1. done. }
  destruct (x <? 0) eqn:E.
  - unfold buf_push. assert ((12 <=? length ds)%nat = false) as -> by (apply Nat.leb_gt; lia).
    assert ((34 <=? length ds)%nat = false) as Hc by (apply Nat.leb_gt; lia). rewrite Hc in Hbs.
    pose proof (Hsame _ Hbs) as He. split_and!; [split | done |].
    + rewrite He. apply emits_put_back.
    + unfold printint. cbn [Z.eqb negb orb]. rewrite E. change (u32 (- u32 x)) with u. by rewrite Hd, Hc.
    + rewrite He, length_fmap, length_rev, length_app. cbn. lia.
  - pose proof (Hsame _ Hbs) as He. split_and!; [split | done |].
    + rewrite He. apply emits_put_back.
    + unfold printint. cbn [Z.eqb negb orb]. rewrite E. change (u32 x) with u. by rewrite Hd.
    + rewrite He, length_fmap, length_rev. lia.
Qed.

(** [%x]: at most eight digits. *)
Lemma agree_hex x : exists bs, agree (u_printint (s32 x) 16 0) (print_uint (u32 x) 16) bs /\
  parse_digits 16 bs = u32 x /\ (length bs <= 8)%nat.
Proof.
  assert (Hs : u32 (s32 x) = u32 x).
  { unfold s32. pose proof (u32_range x). zcase; [apply u32_idem |]. u32lia. }
  destruct (u_digits_some (u32 x) 16 7 ltac:(auto) (u32_range x)) as (ds & Hu & _ & Hd & Hv & Hl & Ha).
  exists (rev ds). unfold u_printint, print_uint. cbn [Z.eqb negb andb]. rewrite Hs, Hu, Hd.
  split_and!; [split | by rewrite parse_digits_rev | rewrite length_rev; lia].
  - pose proof (emits_put_back (rev ds)) as H. by rewrite digits_u8 in H by (by apply Forall_rev).
  - by apply prints_digits, Forall_rev.
Qed.

Lemma s32_range x : - 0x80000000 <= s32 x < 0x80000000.
Proof. unfold s32. pose proof (u32_range x). unfold U32 in *. zcase; lia. Qed.

(** * printf *)

Definition karg (a : uarg) : arg :=
  match a with UInt n => AInt n | UStr (Some str) => AStr str | UStr None => AStr [] end.

(** Formats that both [printf]s know, with arguments that fit. *)
Fixpoint common_fmt (fmt : list Z) (args : list uarg) : bool :=
  match fmt with
  | [] => true
  | c :: fmt1 =>
      if c =? 0 then true
      else if c =? 37 then
        match fmt1 with
        | [] => false
        | d :: fmt2 =>
            if (d =? 100) || (d =? 120) || (d =? 99) then
              match args with UInt _ :: args => common_fmt fmt2 args | _ => false end
            else if d =? 115 then
              match args with UStr (Some _) :: args => common_fmt fmt2 args | _ => false end
            else false
        end
      else common_fmt fmt1 args
  end.

Lemma agree_printf n : forall fmt args, (length fmt <= n)%nat -> common_fmt fmt args = true ->
  exists bs, agree (u_printf fmt args) (vprintf fmt (karg <$> args)) bs.
Proof.
  assert (H0 : agree (mret tt) (mret tt) []) by (split; [apply emits_ret | apply prints_nil]).
  induction n as [|n IH]; intros [|c fmt] args Hn Hok; cbn in Hn; try lia; [eauto | eauto |].
  cbn [common_fmt] in Hok. cbn [u_printf vprintf]. destruct (c =? 0) eqn:Ec; [eauto |].
  destruct (c =? 37) eqn:E37; cbn [negb].
  2: { destruct (IH fmt args ltac:(lia) Hok) as (bs & Hbs). exists ([u8 c] ++ bs).
       apply agree_bind; [split; [apply emits_putc | apply prints_putchar] | done]. }
  destruct fmt as [|d fmt]; [done |]. cbn in Hn.
  destruct (decide (d = 0)) as [-> | Hd0]; [done |]. assert ((d =? 0) = false) as -> by lia.
  assert (Hcons : forall u k fmt args, (length fmt <= n)%nat -> common_fmt fmt args = true ->
    (exists bs, agree u k bs) ->
    exists bs, agree (u;; u_printf fmt args) (k;; vprintf fmt (karg <$> args)) bs).
  { intros u k fmt' args' Hl Hc (bs & Hb). destruct (IH fmt' args' Hl Hc) as (cs & Hcs).
    exists (bs ++ cs). by apply agree_bind. }
  destruct (Z.eqb_spec d 100), (Z.eqb_spec d 117), (Z.eqb_spec d 120), (Z.eqb_spec d 112),
    (Z.eqb_spec d 115), (Z.eqb_spec d 99); try lia; cbn [orb] in Hok; try discriminate Hok;
    (destruct args as [|[x | [str |]] args]; try discriminate Hok); cbn [fmap list_fmap karg default];
    apply Hcons; try done; try lia.
  - destruct (agree_int (fun _ => undef) (s32 x) (s32_range x)) as (bs & ? & _). eauto.
  - destruct (agree_hex x) as (bs & ? & _). eauto.
  - eexists. split; [apply emits_put_str | apply prints_print_string].
  - exists [u8 x]. split; [apply emits_putc |]. pose proof (prints_putchar (u8 x)) as H. by rewrite u8_idem in H.
Qed.

(** * echo *)

(** The arguments after the name, separated by spaces. *)
Fixpoint joined (args : list (list Z)) : list Z :=
  match args with
  | [] => []
  | [a] => a
  | a :: args => a ++ [32] ++ joined args
  end.

Lemma emits_arg a : cstring a -> emits (u_printf (bytes "%s") [UStr (Some a)]) a tt.
Proof.
  intros Ha. change (u_printf (bytes "%s") [UStr (Some a)]) with (put_str a;; (mret tt : prog unit)).
  rewrite <- (app_nil_r a) at 2. eapply emits_bind; [| apply emits_ret].
  pose proof (emits_put_str a) as H. by rewrite until_nul_cstring, u8_cstring in H.
Qed.

Lemma emits_arg_space a : cstring a -> emits (u_printf (bytes "%s ") [UStr (Some a)]) (a ++ [32]) tt.
Proof.
  intros Ha. change (u_printf (bytes "%s ") [UStr (Some a)]) with (put_str a;; putc 32;; (mret tt : prog unit)).
  eapply emits_bind; [| apply (emits_cons 32), emits_ret].
  pose proof (emits_put_str a) as H. by rewrite until_nul_cstring, u8_cstring in H.
Qed.

Lemma emits_echo_loop argv : forall i, Forall cstring argv ->
  emits (echo_loop argv i (i + Z.of_nat (length argv))) (joined argv) tt.
Proof.
  induction argv as [|a argv IH]; intros i Ha; cbn [echo_loop].
  { cbn [length]. rewrite Z.add_0_r, Z.ltb_irrefl. apply emits_ret. }
  inversion Ha as [|? ? Ha1 Ha2]; subst. cbn [length]. rewrite (proj2 (Z.ltb_lt _ _)) by lia.
  replace (i + Z.of_nat (S (length argv))) with (i + 1 + Z.of_nat (length argv)) by lia.
  destruct argv as [|b argv].
  - rewrite (proj2 (Z.ltb_ge _ _)) by (cbn; lia). cbn [joined]. rewrite <- (app_nil_r a) at 2.
    eapply emits_bind; [by apply emits_arg |]. apply (IH (i + 1)). constructor.
  - rewrite (proj2 (Z.ltb_lt _ _)) by (cbn [length]; lia). cbn [joined]. rewrite app_assoc.
    eapply emits_bind; [by apply emits_arg_space |]. by apply (IH (i + 1)).
Qed.

Lemma observe_bind {A B} (t : prog A) (f : A -> prog B) : observe (ITree.bind t f) =
  match observe t with
  | RetF a => observe (f a)
  | TauF t' => TauF (ITree.bind t' f)
  | VisF e k => VisF e (fun x => ITree.bind (k x) f)
  end.
Proof. unfold observe at 1. cbn. fold (observe t). by destruct (observe t). Qed.

(** * What a program may do

    [safe pre side post Q t]: every system call [e] that [t] makes satisfies
    [pre e], its continuation satisfies [side], and as long as the kernel's
    answers satisfy [post], [t] goes on so; if it returns, the result
    satisfies [Q]. It may go on for ever. *)
Section Safe.
Context (pre : forall X, userE X -> Prop) (post : forall X, userE X -> X -> Prop).
Context (side : forall A X, userE X -> (X -> prog A) -> Prop).
Context (side_bind : forall A B X (e : userE X) (k : X -> prog A) (f : A -> prog B),
  side A X e k -> side B X e (fun x => ITree.bind (k x) f)).

Definition safeF {A} (Q : A -> Prop) (r : prog A -> Prop) (ot : itree' userE A) : Prop :=
  match ot with
  | RetF a => Q a
  | TauF t => r t
  | @VisF _ _ _ X e k => pre X e /\ side A X e k /\ forall x, post X e x -> r (k x)
  end.

Definition safe_gen {A} (Q : A -> Prop) (r : prog A -> Prop) (t : prog A) : Prop := safeF Q r (observe t).

Lemma safe_gen_mon {A} (Q : A -> Prop) : monotone1 (safe_gen Q).
Proof.
  intros t r r' H LE. unfold safe_gen, safeF in *. destruct (observe t); [done | auto |].
  destruct H as (H1 & H2 & H3). auto.
Qed.
#[local] Hint Resolve safe_gen_mon : paco.

Definition safe {A} (Q : A -> Prop) (t : prog A) : Prop := paco1 (safe_gen Q) bot1 t.

Lemma safe_ret {A} (Q : A -> Prop) a : Q a -> safe Q (mret a).
Proof. intros H. pfold. exact H. Qed.

Lemma safe_trigger {A X} (Q : A -> Prop) (e : userE X) (f : X -> prog A) : pre X e ->
  side A X e (fun x => ITree.bind (Ret x) f) -> (forall x, post X e x -> safe Q (f x)) ->
  safe Q ((ITree.trigger e : prog X) ≫= f).
Proof.
  intros H1 H2 H3. pfold. unfold safe_gen. cbn. split_and!; [done | done |]. intros x Hx. left.
  pose proof (H3 x Hx) as H. punfold H.
Qed.

Lemma safe_bind {A B} (P : A -> Prop) (Q : B -> Prop) (f : A -> prog B) : forall t, safe P t ->
  (forall a, P a -> safe Q (f a)) -> safe Q (t ≫= f).
Proof.
  intros t Ht Hf. unfold safe, mbind, prog_bind. revert t Ht. pcofix CIH. intros t Ht. punfold Ht. pfold.
  unfold safe_gen in *. rewrite observe_bind.
  destruct (observe t) as [a | t' | X e k]; cbn [safeF] in *.
  - pose proof (Hf a Ht) as H. punfold H. eapply safe_gen_mon; [exact H |]. intros x [Hx | []]. left.
    eapply paco1_mon; [exact Hx | done].
  - destruct Ht as [Ht | []]. right. by apply CIH.
  - destruct Ht as (H1 & H2 & H3). split_and!; [done | by apply side_bind |]. intros x Hx.
    destruct (H3 x Hx) as [H | []]. right. by apply CIH.
Qed.

(** A loop whose passes keep [I]. *)
Lemma safe_iter {I B} (Inv : I -> Prop) (Q : B -> Prop) (body : I -> prog (I + B)) :
  (forall i, Inv i -> safe (fun lr => match lr with inl i => Inv i | inr b => Q b end) (body i)) ->
  forall i, Inv i -> safe Q (ITree.iter body i).
Proof.
  intros Hbody i Hi. set (cont := fun lr : I + B =>
    match lr with inl l => Tau (ITree.iter body l) | inr b => Ret b end).
  assert (Hgen : forall x t, observe x = observe (ITree.bind t cont) ->
    safe (fun lr => match lr with inl i => Inv i | inr b => Q b end) t -> safe Q x).
  { unfold safe. pcofix CIH. intros x t Hx Ht. punfold Ht. pfold. unfold safe_gen in *. rewrite Hx, observe_bind.
    destruct (observe t) as [[l | b] | t' | X e k]; cbn [safeF] in *.
    - right. apply (CIH _ (body l)); [reflexivity | by apply Hbody].
    - done.
    - destruct Ht as [Ht | []]. right. by eapply CIH.
    - destruct Ht as (H1 & H2 & H3). split_and!; [done | by apply side_bind |]. intros y Hy.
      destruct (H3 y Hy) as [H | []]. right. by eapply CIH. }
  apply (Hgen _ (body i)); [reflexivity | by apply Hbody].
Qed.

(** ** Programs that may write *)
Context (Hw : forall fd buf, pre Z (Write fd buf)).
Context (Hws : forall A fd buf (k : Z -> prog A), side A Z (Write fd buf) k).

Lemma safe_putc c (Q : unit -> Prop) : Q tt -> safe Q (putc c).
Proof. intros H. apply safe_trigger; auto. intros _ _. by apply safe_ret. Qed.

Lemma safe_seq (t u : prog unit) (Q : unit -> Prop) : safe (fun _ => True) t -> safe Q u -> safe Q (t;; u).
Proof. intros H1 H2. eapply safe_bind; [exact H1 | done]. Qed.

Lemma safe_put_back buf : safe (fun _ => True) (put_back buf).
Proof. induction buf; cbn; [by apply safe_ret |]. apply safe_seq; [by apply safe_putc | done]. Qed.

Lemma safe_put_str str : safe (fun _ => True) (put_str str).
Proof.
  induction str as [|c str IH]; cbn; [by apply safe_ret |]. zcase; [by apply safe_ret |].
  apply safe_seq; [by apply safe_putc | done].
Qed.

(** The digit buffer is large enough. *)
Lemma safe_printint x base sign : base = 10 \/ base = 16 -> safe (fun _ => True) (u_printint x base sign).
Proof.
  intros Hb. unfold u_printint. set (neg := negb (sign =? 0) && (x <? 0)).
  set (u := if neg then u32 (- u32 x) else u32 x).
  assert (Hu : 0 <= u < U32) by (unfold u; destruct neg; apply u32_range).
  destruct (u_digits_some u base (if base =? 10 then 9%nat else 7%nat)) as (ds & -> & _ & _ & _ & Hl & _); [| done |].
  { destruct Hb as [-> | ->]; auto. }
  destruct neg; [| apply safe_put_back]. unfold buf_push.
  assert ((12 <=? length ds)%nat = false) as -> by (apply Nat.leb_gt; destruct (base =? 10); lia).
  apply safe_put_back.
Qed.

(** Formats whose arguments fit. *)
Fixpoint u_fmt_ok (fmt : list Z) (args : list uarg) : bool :=
  match fmt with
  | [] => true
  | c :: fmt1 =>
      if c =? 37 then
        match fmt1 with
        | [] => true
        | d :: fmt2 =>
            if (d =? 100) || (d =? 120) || (d =? 112) || (d =? 99) then
              match args with UInt _ :: args => u_fmt_ok fmt2 args | _ => false end
            else if d =? 115 then
              match args with UStr _ :: args => u_fmt_ok fmt2 args | _ => false end
            else u_fmt_ok fmt2 args
        end
      else u_fmt_ok fmt1 args
  end.

Lemma safe_printf n : forall fmt args, (length fmt <= n)%nat -> u_fmt_ok fmt args = true ->
  safe (fun _ => True) (u_printf fmt args).
Proof.
  assert (H0 : safe (fun _ => True) (mret tt)) by (by apply safe_ret).
  induction n as [|n IH]; intros [|c fmt] args Hn Hok; cbn in Hn; try lia; [done | done |].
  cbn [u_fmt_ok] in Hok. cbn [u_printf]. destruct (c =? 0) eqn:Ec; [done |].
  destruct (c =? 37) eqn:E37; cbn [negb].
  2: { apply safe_seq; [by apply safe_putc |]. apply IH; [lia | done]. }
  destruct fmt as [|d fmt]; [done |]. cbn in Hn. destruct (d =? 0) eqn:Ed; [done |].
  assert (Hint : forall x base sign, base = 10 \/ base = 16 -> safe (fun _ => True) (u_printint x base sign))
    by apply safe_printint.
  destruct (Z.eqb_spec d 100), (Z.eqb_spec d 120), (Z.eqb_spec d 112),
    (Z.eqb_spec d 115), (Z.eqb_spec d 99), (Z.eqb_spec d 37); try lia; cbn [orb] in Hok;
    try (destruct args as [|[x | str] args]; try discriminate Hok);
    repeat (first [ apply safe_seq; [first [by apply safe_putc | by apply Hint; auto | apply safe_put_str] |]
                  | apply IH; [lia | exact Hok] ]).
Qed.
End Safe.

(** * init *)

(** What the child of [run] may do: exec, write and exit. An [exec] that comes
    back has failed. *)
Definition child_pre X (e : userE X) : Prop :=
  match e with Exit _ | Exec _ _ | Write _ _ => True | _ => False end.
Definition child_post X (e : userE X) : X -> Prop :=
  match e with Exec _ _ => fun r => r < 0 | _ => fun _ => True end.
Definition no_side A X (e : userE X) (k : X -> prog A) : Prop := True.

Definition child_safe {A} (t : prog A) : Prop := safe child_pre child_post no_side (fun _ => False) t.

(** What [init] itself may do: not exit, not exec, and fork only if the child,
    to whom [fork] returns 0, is safe. *)
Definition init_pre X (e : userE X) : Prop :=
  match e with Exit _ | Exec _ _ | UB => False | _ => True end.
Definition init_post X (e : userE X) : X -> Prop :=
  match e with Fork => fun pid => pid <> 0 | _ => fun _ => True end.
Definition init_side A X (e : userE X) : (X -> prog A) -> Prop :=
  match e with Fork => fun k => child_safe (k 0) | _ => fun _ => True end.

Definition init_safe {A} (Q : A -> Prop) (t : prog A) : Prop := safe init_pre init_post init_side Q t.

Lemma child_bind {A B} (t : prog A) (f : A -> prog B) : child_safe t -> child_safe (ITree.bind t f).
Proof.
  intros H. eapply (safe_bind child_pre child_post no_side); [done | exact H | done].
Qed.

Lemma init_side_bind A B X (e : userE X) (k : X -> prog A) (f : A -> prog B) :
  init_side A X e k -> init_side B X e (fun x => ITree.bind (k x) f).
Proof. destruct e; cbn; auto using child_bind. Qed.

Lemma init_safe_bind {A B} (P : A -> Prop) (Q : B -> Prop) (t : prog A) (f : A -> prog B) :
  init_safe P t -> (forall a, P a -> init_safe Q (f a)) -> init_safe Q (t ≫= f).
Proof. apply safe_bind, init_side_bind. Qed.

Lemma init_safe_printf fmt args : u_fmt_ok fmt args = true -> init_safe (fun _ => True) (u_printf fmt args).
Proof.
  intros H. eapply (safe_printf init_pre init_post init_side init_side_bind); [done | done | reflexivity | done].
Qed.

Lemma never_child_exit {A} st : child_safe (@never A (Exit st)).
Proof. apply safe_trigger; try done. Qed.

Lemma child_ret {A B} (a : A) (f : A -> prog B) : child_safe (f a) -> child_safe (ITree.bind (Ret a) f).
Proof.
  intros H. apply (safe_bind child_pre child_post no_side ltac:(done) (fun x => x = a)).
  - by apply safe_ret.
  - by intros x ->.
Qed.

(** The child of [run]: exec, or say that it failed and exit. *)
Lemma run_child argv : child_safe (A := Z)
  (r ← (ITree.trigger (Exec (hd [] argv) argv) : prog Z);
   if r <? 0 then
     u_printf (bytes ("init: exec %s failed" +:+ nl)) [UStr (Some (hd [] argv))];; never (Exit 1)
   else never UB).
Proof.
  apply safe_trigger; [done | done |]. intros r Hr. cbn in Hr. rewrite (proj2 (Z.ltb_lt _ _)) by done.
  eapply (safe_bind child_pre child_post no_side); [done | | by intros ? _; apply never_child_exit].
  eapply (safe_printf child_pre child_post no_side); done.
Qed.

Lemma init_safe_wait pid : init_safe (fun _ => True) (run_wait pid).
Proof.
  apply (safe_iter init_pre init_post init_side init_side_bind (fun _ => True)); [| done].
  intros _ _. apply safe_trigger; [done | done |]. intros [w st] _.
  repeat (zcase; [by apply safe_ret |]). by apply safe_ret.
Qed.

Lemma init_safe_run argv : init_safe (fun _ => True) (run argv).
Proof.
  apply safe_trigger; [done | |].
  - apply child_ret. apply run_child.
  - intros pid Hpid. cbn in Hpid. zcase.
    + eapply init_safe_bind; [by apply init_safe_printf |]. intros ? _. by apply safe_ret.
    + zcase; [done |]. eapply init_safe_bind; [apply init_safe_wait |].
      intros [status |] _; [| by apply safe_ret].
      eapply init_safe_bind; [by apply init_safe_printf |]. intros ? _. by apply safe_ret.
Qed.

(** * Properties *)



(** C38 (printing a number stays in its buffer): for every 32-bit [x], the
    smallest [int] included, the user's [printint] writes in base 10 the
    numeral of [x], of at most 11 characters, and in base 16 that of [x] as an
    unsigned number, of at most 8: [buf[12]] is never overrun. *)
Theorem u_printint_bounds x : - 0x80000000 <= x < 0x80000000 ->
  (exists bs, emits (u_printint x 10 1) bs tt /\ parse_int 10 bs = x /\ (length bs <= 11)%nat) /\
  (exists bs, emits (u_printint x 16 0) bs tt /\ parse_digits 16 bs = u32 x /\ (length bs <= 8)%nat).
Proof.
  intros Hx. split.
  - destruct (agree_int (fun _ => undef) x Hx) as (bs & [He _] & Hp & Hl). eauto.
  - destruct (agree_hex x) as (bs & [He _] & Hp & Hl).
    assert (s32 x = x) as Hs by (unfold s32; zcase; u32lia). rewrite Hs in He. eauto.
Qed.

Lemma u_printint_bounds_witness :
  (exists bs, emits (u_printint (- 0x80000000) 10 1) bs tt /\ parse_int 10 bs = - 0x80000000
     /\ (length bs <= 11)%nat) /\
  (exists bs, emits (u_printint (- 0x80000000) 16 0) bs tt /\ parse_digits 16 bs = u32 (- 0x80000000)
     /\ (length bs <= 8)%nat).
Proof. apply (u_printint_bounds (- 0x80000000)). lia. Defined.

(** [echo]: started with [argc] arguments, [echo] writes those after its
    name, separated by single spaces and followed by a newline, whatever the
    writes return, and returns 0. *)
Theorem echo_correct argv : argv <> [] -> Forall cstring argv ->
  emits (echo_main (Z.of_nat (length argv)) argv) (joined (tail argv) ++ [10]) 0.
Proof.
  intros Hne Ha. destruct argv as [|name argv]; [done |]. inversion Ha; subst. cbn [tail length].
  unfold echo_main. cbn [tail]. eapply emits_bind.
  - replace (Z.of_nat (S (length argv))) with (1 + Z.of_nat (length argv)) by lia. by apply emits_echo_loop.
  - apply (emits_bind _ _ [10] [] tt 0); [| apply emits_ret]. apply (emits_cons 10), emits_ret.
Qed.

Lemma echo_correct_witness :
  emits (echo_main 3 [bytes "echo"; bytes "hello"; bytes "init"]) (bytes "hello init" ++ [10]) 0.
Proof.
  apply (echo_correct [bytes "echo"; bytes "hello"; bytes "init"]); [done |].
  repeat constructor; vm_compute; congruence.
Defined.

(** C35 ([init] stays alive and stays the only one): whatever the kernel answers,
    [init] never exits, never execs, never returns and never reaches an
    undefined state; it may run for ever. The process that [fork] returns 0 to
    in [run] only execs, writes and exits, as long as an [exec] that returns
    has failed: it never goes on as a second [init]. *)
Theorem init_main_safe {A} : init_safe (fun _ : A => False) init_main.
Proof.
  apply safe_trigger; [done | done |]. intros pid _.
  eapply init_safe_bind; [by apply init_safe_printf |]. intros ? _.
  do 3 (eapply init_safe_bind; [apply init_safe_run |]; intros ? _).
  apply (safe_iter init_pre init_post init_side init_side_bind (fun _ => True)); [| done].
  intros _ _. apply safe_trigger; [done | done |]. intros [w st] _. zcase.
  - apply safe_trigger; [done | done |]. intros ? _. by apply safe_ret.
  - by apply safe_ret.
Qed.
